(* ===== verification/_CoqProject ===== *)
-Q . S2P
Prelude.v
Ids.v
Utf8.v
Json.v
Envelope.v
PhaseDomain.v
ChangeDomain.v
ApplyDomain.v
ApplyDag.v
Session.v
Outbox.v
Discipline.v
Governor.v
Store.v
BoardStore.v
WorktreeStore.v
GoPath.v
Sha256.v
Effects.v
Concurrency.v
PhaseHelpers.v
ApplyInputs.v
ApplyEffects.v
ApplyBuild.v
ApplyTeam.v
ApplyRun.v
ApplyLogic.v
ApplyTask.v
ApplyGroup.v
ApplyVerdict.v
ApplyBreaker.v
ApplyBoard.v
Logic.v
PhaseService.v
PhaseSafety.v
PhaseSystem.v
PhaseRuns.v
Rows.v
ApplyCompose.v
SampleRun.v
SampleApply.v
Floats.v
Lines.v
JsonText.v
Regex.v
Trace.v
HttpBase.v
Wire.v
SkillDomain.v
SkillStore.v
SkillService.v
Reeval.v
SkillLogic.v
ReevalLogic.v
SkillMatch.v
OpenCode.v
Dispatchers.v
PriorContext.v
PromptBuilder.v
Clients.v
Artifacts.v
RateGuard.v
Importer.v
Bootstrap.v
SeedSkills.v
Detector.v
InitPhase.v
EventStream.v
Config.v
Events.v
HttpApi.v
DocsGraph.v
Wiring.v
CommandLine.v
SampleSkill.v
