(* ===== verification/Prelude.v ===== *)
(** * sophia-orchestator: a verification development

    The orchestrator drives a software change through nine phases (init,
    explore, proposal, spec, design, tasks, apply, verify, archive).  For each
    phase an AI agent is dispatched and answers with a JSON envelope; the
    orchestrator validates it, persists it, and only then moves the change on.
    Around this core stand a governance service that may deny or ask for an
    approval, a cap on concurrent agents, a transactional outbox for webhooks
    and a boot-time scan for phases stranded by a crash.

    ** Files and what they model (paths under src/internal)

    - [Prelude]: errors as values, 64-bit arithmetic, times, float64 values as
      rationals, text helpers, reachability, database faults, shared tactics
      and the hint database.
    - [Ids]: domain/ids.  [Json]: the values of encoding/json.  [Envelope]:
      domain/envelope (decoder, validation, encoder).
    - [PhaseDomain]: domain/phase.  [ChangeDomain]: domain/change.
      [ApplyDomain], [ApplyDag]: domain/apply.  [Session]: domain/session and
      domain/worktree.
    - [Outbox]: domain/outbox, application/outbox/relay.go against the class
      [OutboxRepository], and adapters/outbound/pg/outbox_repo.go, which
      discharges that class.
    - [Discipline]: domain/ironlaw, application/discipline/validator.go and
      ironlaw_checker.go.  [Governor]: spawn_governor.go and its counter
      table, the latter as an interleaving of transactions.
    - [Store]: the PostgreSQL repositories the services use, as statements over
      tables ([dbop], [write_effect], [answer]).
    - [Sha256]: the digest of [hashPrompt].
    - [Effects]: handlers as programs ([prog]) over database statements and
      calls to collaborators; [exec] runs one in an environment, [sys_step]
      interleaves any number of them statement by statement.
    - [PhaseHelpers], [PhaseService]: application/phase (service.go,
      persist_artifacts.go, apply_failed_payload.go), application/change and
      application/recovery.  [runAsync] is cut where the Go function has its
      numbered steps: [preflight], [prepareAgent], [dispatchAgent],
      [receiveEnvelope], [finishPhase].
    - [Logic], [PhaseSafety]: a program logic over the append-only history of
      the system, and the proof that every handler only writes justified
      history.  [PhaseSystem]: the theorems about every reachable state.
      [SampleRun]: a full nine-phase run, evaluated, and the witnesses.
    - [Rows]: the columns behind the tables of [Store] (change_repo.go,
      phase_repo.go, session_repo.go under adapters/outbound/pg), JSONB included.
    - [PhaseRuns]: what one handler does from start to finish.
    - [Concurrency]: goroutines.  [par] runs a list of programs, a scheduler
      effect picking whose next effect comes; [behaves] and [always] speak of
      every trace of effects with any answers, [shuffles] of interleavings.
    - [ApplyInputs] (pure helpers), [ApplyEffects] (effects, shared state:
      quota breaker and dependency channels, and execution in an environment),
      [ApplyBuild] (build_registry.go, build_feedback.go,
      synthesize_envelope.go), [ApplyTeam] (teamlead.go) and [ApplyRun] (run.go,
      dag.go, service.go): application/apply, up to [Execute].
    - [ApplyLogic]: counting slots, dispatches and signals along a trace.
      [ApplyTask], [ApplyGroup], [ApplyVerdict]: one task, one group, all
      groups.  [ApplyBreaker]: the breaker against its specification.
      [ApplyBoard], [BoardStore]: the board that is built, and pg/board_repo.go.
      [ApplyCompose]: the executor behind the phase service.  [SampleApply]:
      evaluated runs of the executor and its witnesses.
    - [Floats] (doubles as their exact values: rounding, two decimals) and
      [Lines] (texts as lines, RFC 3339): what the skill files use of Go's
      library.
    - [Utf8] (runes as bytes), [JsonText] (the text of a JSON document: reader
      with its nesting limit, writer) and [Regex] (the items of Go's regexp the
      code uses, leftmost-first): more of Go's library.
    - [SkillDomain]: domain/skill.  [SkillStore]: the skill, usage and audit
      tables (pg/skill_repo.go, skill_usage_repo.go, reeval_audit_repo.go) and
      programs over them.  [SkillService], [Reeval]: application/skill.
      [SkillLogic]: what no call of the service does; [ReevalLogic]: what an
      apply and its revert do.  [SkillMatch]: pg/skill_matcher.go.
    - [RateGuard], [Importer], [Bootstrap]: application/bootstrap.
      [SeedSkills]: internal/bootstrap/seed_skills.go.  [SampleSkill]: evaluated
      examples of the skill files and their witnesses.
    - [Detector], [InitPhase]: application/init, over a file system that answers
      what is read of it.
    - [PriorContext], [PromptBuilder]: application/discipline/prior_context.go
      and prompt_builder.go, with buildPriorContext of the phase service.
    - [OpenCode]: dispatcher/opencode (envelope extraction, quota detection,
      dispatch).  [Dispatchers]: the aider, ollama and mcp adapters, the factory
      with its routing, and the two critics.
    - [Trace]: domain/trace and its middleware.  [HttpBase]: http_base/client.go,
      one guarded call with its retries.  [Wire]: base64, query strings and times
      as text, of Go's library.  [Clients]: the governance, runtime, memory and
      webhook clients.  [Artifacts]: the three artifact stores.
    - [HttpApi]: adapters/inbound/http, from a request to the services above and
      to the text of the response.
    - [EventStream]: application/eventstream, pg/event_store.go and the SSE
      handler as interleaved steps.
    - [Config]: infrastructure/config, with ParseBool and ParseDuration of Go's
      library.  [Events]: ports/inbound (event_types.go, event_payloads.go), the
      events as a client reads them.  [WorktreeStore]: pg/worktree_repo.go.
    - [DocsGraph]: adapters/outbound/docs/context7 and adapters/outbound/graphify.
    - [Wiring]: bootstrap/wire.go, with App.Run as a step relation ([run_step]),
      and around it the requests and background phases ([serve_step]).
      [CommandLine]: cmd/sophia-orchestator/main.go.

    ** What the theorems show

    - The Iron Laws of the whole system, under every interleaving of requests
      and background work, every statement failing before or after taking
      effect, and crashes ([PhaseSystem]): a change pointer moves only after
      the accepted envelope was persisted; a completed change was verified at
      0.9 or more and its webhook was enqueued in the same transaction; no
      agent runs without a governance decision; a gate is decided only if it
      was opened.
    - Invariants of each aggregate by induction over its operations, the retry
      budget as a bound on the number of attempts, acceptance as final, the
      order of phases.
    - [ValidateDAG] decides acyclicity; the relay sends what is due, records
      every answer unless a statement fails, and drains; the backoff is a capped exponential without overflow; the spawn
      counter respects its cap and [Acquire] returns; what the validator
      accepts the aggregate accepts; envelopes survive a round trip.
    - Runs of single handlers ([PhaseRuns]): the background work settles
      its phase when the database answers, and balances the spawn slot; on a
      healthy database [Run] opens exactly one attempt or leaves no trace; the boot scan interrupts exactly the running phases; a
      gate is decided once; an interrupted phase can never be resumed.
    - The apply phase, for any answers and any interleaving of its goroutines:
      the board follows the tasks list; dispatches and repairs are bounded, and
      Release is called once for each slot taken (a slot whose Release fails
      stays taken); every group signals; on a board of distinct groups a DONE
      verdict was earned; the quota breaker refines its specification; an
      unfinished group is never taken up again; with the phase service around
      it, the phase settles and its row says what the executor answered.
    - Skills: every status change is a path of the transition graph; the path
      search is shortest and complete; the float gates of the re-evaluation are
      those of the attempts; an applied re-evaluation can be taken back; a skill
      is as its last accepted edit says; what the matcher selects, and in which order; what seeding overwrites.
    - The bootstrap: the rate guard refines a policy that forgets nothing;
      imported documentation stays data; a trigger only adds candidates.
    - The init phase: what detection reports, and where a returned context
      comes from.
    - Prompts: nothing known is lost from a prior context without a budget, what
      a budget cuts, and what every prompt contains.
    - Agents: an answer is found in whatever form it was printed, the outcomes of
      a dispatch, which adapter a phase reaches, and on which answers two
      adapters agree; underneath, that JSON text is read back as written.
    - Calls to other services: how often a request is sent and when again, that an
      outage is contained, that a wait for an approval ends, and that receipts
      as documented, lookups and trace headers are read as they were written; that artifacts are
      written below their root and read back.
    - The HTTP interface: a request without the key does nothing, a GET only
      reads or streams a phase's events, and a service is only called with checked arguments.
    - The event stream: which subscriptions exist, and that a client gets each
      event stored after its Last-Event-ID once and in order as long as
      publishers do not overlap ([serial]), no commit loses its answer
      ([acknowledged]) and no channel overflows; examples show what happens
      otherwise.
    - The columns of the repositories refine the tables the services are proved
      over, whatever order JSONB gives the members of a document ([Rows]).
    - The process: a configuration value that does not parse counts as unset and a
      loaded configuration is sound; phases reach the agents the configuration
      names; once served, a request needs the key; start-up and the commands
      close the database on every path that opened it, and it outlives the relay
      and, after a clean shutdown, the requests, but not the phases they left
      running ([serve_step]); the command line re-evaluates and reverts only as
      its flags say.  Paths of worktrees in use are distinct, and the text
      of an event is read back as the payload it was written from.

    ** Conventions, bounds and fuel

    A Go error is its sentinel.  [int] is 64 bits wide; wrap-around is written
    out where it can occur ([Backoff]) and counters are kept as [Z] where a
    guard bounds them.  float64 confidences are exact rationals (the decoder's
    rounding is not modelled; the constants are the doubles Go uses).  The
    search of [ValidateDAG] has one unit of fuel per group and [Acquire] one
    per possible poll, the build loop of a group one per build attempt left,
    the search over skill statuses two more than there are statuses; all are
    proved sufficient.  The rate guard is proved for calls in clock order.  Database statements are
    atomic; [fault] makes any of them fail with or without effect.

    ** Parameters

    [UlidLib] (ulid.Parse), [WireContract] (event names of the contract
    package), [PgTypes] (rounding of NUMERIC(3,2), the text JSONB gives back), [TimeText] (RFC 3339
    text), [UnicodeTables] (letter case beyond ASCII), [Collation] (ORDER BY of
    text), [Glob] (doublestar), [PrintTable] (which wide runes are printable), [XmlDecoder] (XML text to values), [UrlParser] (which texts are URLs),
    [Gobreaker] (the circuit breaker, with its documented behaviour as laws),
    [Contract] (codes and header names of the contract package), the session of
    the bridge's SDK and the runtime service (arguments of [DocsGraph],
    [Wiring] and [CommandLine]): code that is not in the repository.  Of Go's
    library, net.SplitHostPort, IP.IsLoopback and the order sort.Slice gives to
    equal elements are arguments too.  A [FileSystem] is what reads of it answer.  Answers of collaborators
    (governance, dispatcher, memory, critic, apply executor, init) are chosen
    freely by the environment in [sys_step].

    ** Not modelled

    Metrics and logs, the connection pool and its migrations, the exporter of
    traces, and the git and process runners of the init phase: they only call
    libraries and the operating system, and what they answer is chosen by the
    environment.  TIMESTAMPTZ keeps microseconds; times are not rounded here, and a
    NUL character, which JSONB refuses, is a statement that fails by [fault].  Of the apply
    executor: the capacities of its two semaphores (entering one is an effect
    that may be delayed or cancelled, so every schedule the code has is
    covered), the texts of foreign errors ([ErrorTexts]) and metrics.  Each is listed in the
    manifest with its reason. *)
From stdpp Require Export base list strings gmap numbers option.
From Stdlib Require Export ZArith QArith.
From Stdlib Require Import Ascii.
From Hammer Require Export Tactics.

#[global] Set Default Goal Selector "!".

(** ** Errors as values

    A Go function that returns [(T, error)] becomes a function into
    [result E T]: [Ok] carries the value, [Err] the sentinel error.  Wrapping
    with [fmt.Errorf] and a [%w] verb keeps the sentinel, which is the only part of an error
    the program branches on. *)

Inductive result (E A : Type) : Type :=
  | Ok (a : A)
  | Err (e : E).
Arguments Ok {E A} a.
Arguments Err {E A} e.

Declare Scope go_scope.
Delimit Scope go_scope with go.

(** [if err != nil { return err }] *)
Notation "'let?' x ':=' c 'in' k" :=
  (match c with Ok x => k | Err e => Err e end)
  (at level 10, x pattern, c at level 200, k at level 200,
   format "'[v' 'let?'  x  ':='  c  'in' '/' k ']'") : go_scope.
#[global] Open Scope go_scope.

Definition is_Ok {E A} (r : result E A) : bool :=
  match r with Ok _ => true | Err _ => false end.

Definition result_map {E A B} (f : A → B) (r : result E A) : result E B :=
  match r with Ok a => Ok (f a) | Err e => Err e end.

Definition result_map_err {E F A} (f : E → F) (r : result E A) : result F A :=
  match r with Ok a => Ok a | Err e => Err (f e) end.

(** ** Scalars

    [time.Time] is the number of nanoseconds since Go's zero time and
    [time.Duration] a number of nanoseconds.  A [float64] is the rational it
    denotes: every finite double is a dyadic rational, comparison of finite
    doubles is comparison of those rationals, and no float of the modelled
    code can be a NaN or an infinity (they come from JSON numbers, from
    literals or from a NUMERIC column). *)

Abbreviation Time := Z (only parsing).
Abbreviation Duration := Z (only parsing).
Abbreviation float64 := Q (only parsing).

Definition zeroTime : Time := 0%Z.

(** The doubles nearest to the decimal literals of the source. *)
Definition f64_0 : float64 := (0 # 1)%Q.
Definition f64_0_5 : float64 := (1 # 2)%Q.
Definition f64_0_7 : float64 := (6305039478318694 # 9007199254740992)%Q.
Definition f64_0_8 : float64 := (7205759403792794 # 9007199254740992)%Q.
Definition f64_0_85 : float64 := (7656119366529843 # 9007199254740992)%Q.
Definition f64_0_9 : float64 := (8106479329266893 # 9007199254740992)%Q.
Definition f64_1 : float64 := (1 # 1)%Q.

(** [x < y] on doubles. *)
Definition f64_ltb (x y : float64) : bool := negb (Qle_bool y x).

Lemma f64_ltb_lt x y : f64_ltb x y = true ↔ (x < y)%Q.
Proof.
  unfold f64_ltb. rewrite negb_true_iff, <-not_true_iff_false, Qle_bool_iff.
  split; [apply Qnot_le_lt | apply Qlt_not_le].
Qed.

Lemma f64_ltb_ge x y : f64_ltb x y = false ↔ (y <= x)%Q.
Proof. unfold f64_ltb. by rewrite negb_false_iff, Qle_bool_iff. Qed.

#[global] Instance Q_eq_dec : EqDecision Q.
Proof. solve_decision. Defined.

(** ** Machine integers

    Go's [int] and [time.Duration] are 64 bits wide and wrap around. *)
Definition wrap64 (z : Z) : Z := ((z + 2 ^ 63) mod 2 ^ 64 - 2 ^ 63)%Z.
Definition int64_range (z : Z) : Prop := (- 2 ^ 63 <= z < 2 ^ 63)%Z.

Lemma wrap64_id z : int64_range z → wrap64 z = z.
Proof. unfold int64_range, wrap64. intros. rewrite Z.mod_small; lia. Qed.

(** [x << uint(n)] *)
Definition shl64 (x n : Z) : Z := wrap64 (Z.shiftl x n).

Definition Nanosecond : Duration := 1.
Definition Millisecond : Duration := 1000000.
Definition Second : Duration := 1000000000.
Definition Minute : Duration := 60000000000.

(** ** Strings

    A Go string is a sequence of bytes: a list of [ascii] is one.
    [strings.TrimSpace] removes every leading and trailing code point for
    which [unicode.IsSpace] holds, in its UTF-8 encoding. *)

Definition byte_in (n lo hi : N) : bool := (lo <=? n)%N && (n <=? hi)%N.

Definition space1 (a : N) : bool := byte_in a 9 13 || (a =? 32)%N.
Definition space2 (a b : N) : bool :=
  (a =? 194)%N && ((b =? 133)%N || (b =? 160)%N).
Definition space3 (a b c : N) : bool :=
  ((a =? 225)%N && (b =? 154)%N && (c =? 128)%N)
  || ((a =? 226)%N && (b =? 128)%N
      && (byte_in c 128 138 || (c =? 168)%N || (c =? 169)%N || (c =? 175)%N))
  || ((a =? 226)%N && (b =? 129)%N && (c =? 159)%N)
  || ((a =? 227)%N && (b =? 128)%N && (c =? 128)%N).

(** [sp1], [sp2], [sp3] recognise a space of one, two and three bytes at the
    head of the list: read forwards for the left end, backwards for the right
    end. *)
Section Trim.
Context (sp2 : N → N → bool) (sp3 : N → N → N → bool).

Fixpoint trim_head (l : list ascii) : list ascii :=
  match l with
  | [] => []
  | a :: l1 =>
      if space1 (N_of_ascii a) then trim_head l1 else
      match l1 with
      | [] => l
      | b :: l2 =>
          if sp2 (N_of_ascii a) (N_of_ascii b) then trim_head l2 else
          match l2 with
          | [] => l
          | c :: l3 =>
              if sp3 (N_of_ascii a) (N_of_ascii b) (N_of_ascii c)
              then trim_head l3 else l
          end
      end
  end.
End Trim.

Definition trimLeft (l : list ascii) : list ascii := trim_head space2 space3 l.
Definition trimRight (l : list ascii) : list ascii :=
  reverse (trim_head (λ b a, space2 a b) (λ c b a, space3 a b c) (reverse l)).

(** [strings.TrimSpace] *)
Definition TrimSpace (s : string) : string :=
  String.string_of_list_ascii (trimRight (trimLeft (String.list_ascii_of_string s))).

(** What a [strings.Builder] is given, one after the other. *)
Definition concat_strings (l : list string) : string := foldr String.append EmptyString l.

Definition str_empty (s : string) : bool := bool_decide (s = EmptyString).

(** [strings.TrimPrefix] *)
Fixpoint TrimPrefix_list (pre s : list ascii) : option (list ascii) :=
  match pre, s with
  | [], _ => Some s
  | a :: pre', b :: s' => if bool_decide (a = b) then TrimPrefix_list pre' s' else None
  | _ :: _, [] => None
  end.
Definition TrimPrefix (s pre : string) : string :=
  match TrimPrefix_list (String.list_ascii_of_string pre) (String.list_ascii_of_string s) with
  | Some r => String.string_of_list_ascii r
  | None => s
  end.

(** ** Tactics of the development *)

(** Case analysis on every [match], [if] and [decide] of the goal and of the
    hypotheses, closing the contradictory branches. *)
Ltac split_step :=
  match goal with
  | H : Ok _ = Ok _ |- _ => injection H as H
  | H : Err _ = Err _ |- _ => injection H as H
  | H : Ok _ = Err _ |- _ => discriminate H
  | H : Err _ = Ok _ |- _ => discriminate H
  | H : context [match ?x with _ => _ end] |- _ =>
      lazymatch x with context [match _ with _ => _ end] => fail | _ => destruct x eqn:? end
  | |- context [match ?x with _ => _ end] =>
      lazymatch x with context [match _ with _ => _ end] => fail | _ => destruct x eqn:? end
  end; simplify_eq/=.
Ltac split_all := repeat split_step.

(** Turn boolean guards into propositions. *)
Ltac bool_facts :=
  repeat match goal with
  | H : _ && _ = true |- _ => apply andb_true_iff in H as [? ?]
  | H : _ || _ = false |- _ => apply orb_false_iff in H as [? ?]
  | H : negb _ = true |- _ => apply negb_true_iff in H
  | H : negb _ = false |- _ => apply negb_false_iff in H
  | H : bool_decide _ = true |- _ => apply bool_decide_eq_true in H
  | H : bool_decide _ = false |- _ => apply bool_decide_eq_false in H
  end.

(** ** Executions

    A handler runs to completion; the system is a relation between states and
    its behaviours are its finite runs.  An invariant is a predicate of the
    initial states that every step preserves. *)
Section Runs.
Context {S : Type} (init : S → Prop) (step : S → S → Prop).

Inductive reachable : S → Prop :=
  | reach_init s : init s → reachable s
  | reach_step s s' : reachable s → step s s' → reachable s'.

Lemma reachable_inv (P : S → Prop) :
  (∀ s, init s → P s) → (∀ s s', reachable s → P s → step s s' → P s') →
  ∀ s, reachable s → P s.
Proof. intros Hi Hs s. induction 1; eauto. Qed.
End Runs.

(** ** Faults of the database

    A statement sent to PostgreSQL succeeds, fails without having taken effect,
    or takes effect although its caller sees an error (the connection breaks
    after the commit). *)
Inductive fault := NoFault | FailBefore | FailAfter.

Create HintDb sophia.
#[export] Hint Resolve reach_init reach_step : sophia.

(** ** Generic lemmas *)

Lemma result_map_Ok {E A B} (f : A → B) (r : result E A) b :
  result_map f r = Ok b ↔ ∃ a, r = Ok a ∧ b = f a.
Proof. destruct r; naive_solver. Qed.

Lemma existsb_elem {A} (f : A → bool) l : existsb f l = true ↔ ∃ x, x ∈ l ∧ f x = true.
Proof. rewrite existsb_exists. by setoid_rewrite list_elem_of_In. Qed.

Lemma filter_all {A} (P : A → Prop) `{∀ x, Decision (P x)} (l : list A) : (∀ x, x ∈ l → P x) → filter P l = l.
Proof.
  induction l as [|x l IH]; [done|]. intros Hl. rewrite filter_cons_True by set_solver. f_equal. apply IH. set_solver.
Qed.
Lemma filter_none {A} (P : A → Prop) `{∀ x, Decision (P x)} (l : list A) : (∀ x, x ∈ l → ¬ P x) → filter P l = [].
Proof.
  induction l as [|x l IH]; [done|]. intros Hl. rewrite filter_cons_False by set_solver. apply IH. set_solver.
Qed.
