(* ===== verification/Ids.v ===== *)
(** * Typed identifiers

    [internal/domain/ids/ids.go].  Ten aggregate identifiers, each a wrapper
    around a ULID string, that the compiler keeps apart.  The ULID syntax check
    [ulid.Parse] belongs to github.com/oklog/ulid and is a parameter. *)
From S2P Require Import Prelude.

(** The identifier types of the [type ( ... )] block. *)
Inductive IdKind :=
  | ChangeK | PhaseK | BoardK | GroupK | TaskK | SessionK | WorktreeK
  | SkillK | SkillUsageK | OutboxK.

(** [ChangeID struct{ raw string }] and its nine siblings: one record, indexed
    by the aggregate so that two kinds of identifier cannot be mixed up. *)
Record ID (k : IdKind) : Type := mkID { raw : string }.
Arguments mkID {k} raw.
Arguments raw {k} i.

Abbreviation ChangeID := (ID ChangeK).
Abbreviation PhaseID := (ID PhaseK).
Abbreviation BoardID := (ID BoardK).
Abbreviation GroupID := (ID GroupK).
Abbreviation TaskID := (ID TaskK).
Abbreviation SessionID := (ID SessionK).
Abbreviation WorktreeID := (ID WorktreeK).
Abbreviation SkillID := (ID SkillK).
Abbreviation SkillUsageID := (ID SkillUsageK).
Abbreviation OutboxID := (ID OutboxK).

#[global] Instance ID_eq_dec k : EqDecision (ID k).
Proof. solve_decision. Defined.

#[global] Instance ID_countable k : Countable (ID k).
Proof. refine (inj_countable' raw mkID _). by intros []. Defined.

(** github.com/oklog/ulid/v2: [ulid_Parse s] holds when [ulid.Parse(s)]
    returns a nil error. *)
Class UlidLib := { ulid_Parse : string → bool }.

Inductive ids_error := ErrInvalidID.

Section Parse.
Context `{UlidLib}.

Definition parseULID (s : string) : result ids_error string :=
  if str_empty s then Err ErrInvalidID
  else if ulid_Parse s then Ok s
  else Err ErrInvalidID.

(** [ParseChangeID], ..., [ParseOutboxID]: the same two lines for each
    identifier type. *)
Definition ParseID (k : IdKind) (s : string) : result ids_error (ID k) :=
  let? r := parseULID s in Ok (mkID r).
End Parse.

(** [String] and [IsZero] of every identifier type. *)
Definition ID_String {k} (i : ID k) : string := raw i.
Definition ID_IsZero {k} (i : ID k) : bool := str_empty (raw i).

Section Facts.
Context `{UlidLib}.

(** Parsing succeeds exactly on the non-empty strings the ULID library
    accepts, keeps the text, and the parsed identifier is never zero. *)
Lemma ParseID_Ok k s (i : ID k) :
  ParseID k s = Ok i ↔
  ulid_Parse s = true ∧ ID_String i = s ∧ ID_IsZero i = false.
Proof.
  unfold ParseID, parseULID, ID_IsZero, ID_String, str_empty.
  destruct i as [r]; simpl. split.
  - intros Hp. split_all; bool_facts; repeat split; try done.
    by apply bool_decide_eq_false.
  - intros (Hu & -> & Hz). by rewrite Hz, Hu.
Qed.
End Facts.
