(* ===== verification/Utf8.v ===== *)
(** * UTF-8

    What the modelled code uses of Go's [unicode/utf8]: the rune at the head of a
    byte sequence, and the bytes of a rune. *)
From S2P Require Import Prelude.
From stdpp Require Import list.
From Stdlib Require Import Ascii.

Definition code (a : ascii) : N := N_of_ascii a.

Definition continuation_byte (b : N) : bool := byte_in b 128 191.

(** [utf8.DecodeRune]: the rune at the head of a text and its width; [None]: a
    byte that starts no rune. *)
Definition second_low (b0 : N) : N := if (b0 =? 224)%N then 160 else if (b0 =? 240)%N then 144 else 128.
Definition second_high (b0 : N) : N := if (b0 =? 237)%N then 159 else if (b0 =? 244)%N then 143 else 191.
Definition decode_rune (l : list ascii) : option (N * nat) :=
  match l with
  | [] => None
  | a0 :: l1 =>
      let b0 := code a0 in
      if (b0 <? 128)%N then Some (b0, 1) else
      match l1 with
      | [] => None
      | a1 :: l2 =>
          let b1 := code a1 in
          if negb (byte_in b1 (second_low b0) (second_high b0)) then None
          else if byte_in b0 194 223 then Some (((b0 - 192) * 64 + (b1 - 128))%N, 2) else
          match l2 with
          | [] => None
          | a2 :: l3 =>
              let b2 := code a2 in
              if negb (continuation_byte b2) then None
              else if byte_in b0 224 239 then Some (((b0 - 224) * 4096 + (b1 - 128) * 64 + (b2 - 128))%N, 3) else
              match l3 with
              | [] => None
              | a3 :: _ =>
                  let b3 := code a3 in
                  if continuation_byte b3 && byte_in b0 240 244
                  then Some (((b0 - 240) * 262144 + (b1 - 128) * 4096 + (b2 - 128) * 64 + (b3 - 128))%N, 4) else None
              end
          end
      end
  end.

(** [utf8.EncodeRune] of a rune that is not a surrogate. *)
Definition encode_rune (r : N) : list ascii :=
  if (r <? 128)%N then [ascii_of_N r]
  else if (r <? 2048)%N then [ascii_of_N (192 + r / 64); ascii_of_N (128 + r mod 64)]
  else if (r <? 65536)%N then [ascii_of_N (224 + r / 4096); ascii_of_N (128 + r / 64 mod 64); ascii_of_N (128 + r mod 64)]
  else [ascii_of_N (240 + r / 262144); ascii_of_N (128 + r / 4096 mod 64); ascii_of_N (128 + r / 64 mod 64); ascii_of_N (128 + r mod 64)].

(** U+FFFD, which stands for a byte that is no UTF-8. *)
Definition replacement : list ascii := encode_rune 65533.

Fixpoint drop_while (f : ascii → bool) (l : list ascii) : list ascii :=
  match l with [] => [] | a :: l' => if f a then drop_while f l' else l end.
Fixpoint take_while (f : ascii → bool) (l : list ascii) : list ascii :=
  match l with [] => [] | a :: l' => if f a then a :: take_while f l' else [] end.

Definition hex_digit (n : N) : ascii := ascii_of_N (if (n <? 10)%N then 48 + n else 87 + n)%N.
Fixpoint hex_fixed (digits : nat) (n : N) : list ascii :=
  match digits with
  | O => []
  | S d => hex_fixed d (n / 16) ++ [hex_digit (n mod 16)]
  end.

Definition backslash : ascii := "\"%char.

(** Decoding looks at the bytes of the rune only. *)
Ltac split_ifs H := repeat match type of H with context [if ?b then _ else _] => destruct b eqn:? end.
Ltac use_ifs := repeat match goal with H : ?b = _ |- context [if ?b then _ else _] => rewrite H end.
Lemma decode_rune_local l r w : decode_rune l = Some (r, w) → w ≤ length l ∧ ∀ rest, decode_rune (take w l ++ rest) = Some (r, w).
Proof.
  intros Hd. destruct l as [|a0 [|a1 [|a2 [|a3 l]]]]; cbn in Hd; split_ifs Hd; simplify_eq;
    (split; [cbn; lia|intros rest; cbn; use_ifs; done]).
Qed.

(** A byte above 127 starts a rune of at least two bytes, all of them above 127. *)
Lemma decode_rune_wide a l r w :
  decode_rune (a :: l) = Some (r, w) → (128 <= code a)%N → 2 ≤ w ∧ Forall (λ a, (128 <= code a)%N) (take w (a :: l)).
Proof.
  assert (Hlow : ∀ b, (128 <= second_low b)%N) by (intros b; unfold second_low; repeat case_match; lia).
  intros Hd Ha. destruct l as [|a1 [|a2 [|a3 l]]]; cbn in Hd; split_ifs Hd; simplify_eq;
    repeat match goal with
    | H : (_ <? _)%N = true |- _ => apply N.ltb_lt in H
    | H : negb _ = false |- _ => apply negb_false_iff in H
    | H : _ && _ = true |- _ => apply andb_true_iff in H as [? ?]
    | H : continuation_byte _ = true |- _ => unfold continuation_byte in H
    | H : byte_in (code _) (second_low _) _ = true |- _ => apply andb_true_iff in H as [H _]; apply N.leb_le in H
    | H : byte_in (code _) 128 191 = true |- _ => apply andb_true_iff in H as [H _]; apply N.leb_le in H
    end; try lia; pose proof (Hlow (code a)); (split; [lia|]; cbn [take]; repeat constructor; lia).
Qed.
Lemma decode_rune_ascii a l : (code a < 128)%N → decode_rune (a :: l) = Some (code a, 1).
Proof. intros Ha%N.ltb_lt. cbn. by rewrite Ha. Qed.
