(* ===== verification/Json.v ===== *)
(** * JSON values as encoding/json sees them

    The orchestrator reads agent output with Go's [encoding/json].  A decoded
    document is a tree in which every node keeps the text it was read from
    (what a [json.RawMessage] holds) next to its value; a byte slice that is
    not a JSON document is [NotJSON].  [JsonText] decides between the two. *)
From S2P Require Import Prelude Utf8.
From Stdlib Require Import Ascii.

Inductive jval (A : Type) : Type :=
  | JNull
  | JBool (b : bool)
  | JNum (v : float64)
  | JStr (s : string)
  | JArr (l : list A)
  | JObj (l : list (string * A)).
Arguments JNull {A}.
Arguments JBool {A} b.
Arguments JNum {A} v.
Arguments JStr {A} s.
Arguments JArr {A} l.
Arguments JObj {A} l.

Inductive json : Type := Node (text : string) (v : jval json).

Definition jtext (j : json) : string := match j with Node t _ => t end.
Definition jvalue (j : json) : jval json := match j with Node _ v => v end.

(** A [[]byte] handed to [json.Unmarshal]. *)
Inductive rawjson : Type :=
  | NotJSON (text : string)
  | JSON (j : json).

Definition raw_text (r : rawjson) : string :=
  match r with NotJSON t => t | JSON j => jtext j end.

(** ** Decoding targets *)

(** [json.Unmarshal(raw, &s)] into a Go [string] that starts empty: a JSON
    null leaves it alone, a JSON string sets it, anything else is an error. *)
Definition as_string (j : json) : option string :=
  match jvalue j with
  | JStr s => Some s
  | JNull => Some EmptyString
  | _ => None
  end.

(** Into a [[]string] that starts nil. *)
Definition as_strings (j : json) : option (list string) :=
  match jvalue j with
  | JArr l => mapM as_string l
  | JNull => Some []
  | _ => None
  end.

(** Into a [map[string]json.RawMessage] that starts nil: the members in
    document order; of two members with the same key the later one is kept. *)
Definition as_object (j : json) : option (list (string * json)) :=
  match jvalue j with
  | JObj l => Some l
  | JNull => Some []
  | _ => None
  end.

Fixpoint obj_get {A} (k : string) (l : list (string * A)) : option A :=
  match l with
  | [] => None
  | (k', v) :: l' =>
      match obj_get k l' with
      | Some v' => Some v'
      | None => if bool_decide (k = k') then Some v else None
      end
  end.

Definition obj_has {A} (k : string) (l : list (string * A)) : bool :=
  match obj_get k l with Some _ => true | None => false end.

Lemma obj_get_Some_In {A} k (l : list (string * A)) v :
  obj_get k l = Some v → (k, v) ∈ l.
Proof.
  induction l as [|[k' v'] l IH]; simpl; [done|].
  destruct (obj_get k l) as [w|] eqn:Hg; intros Heq.
  - simplify_eq. apply list_elem_of_further, IH. done.
  - case_bool_decide; simplify_eq. apply list_elem_of_here.
Qed.

Lemma obj_get_None {A} k (l : list (string * A)) :
  obj_get k l = None ↔ k ∉ l.*1.
Proof.
  induction l as [|[k' v'] l IH]; simpl.
  - split; [intros _; apply not_elem_of_nil | done].
  - rewrite not_elem_of_cons. destruct (obj_get k l); [naive_solver|].
    case_bool_decide; naive_solver.
Qed.

(** ** Field names

    A struct field is found by its name up to Unicode simple folding.  The
    field names of the modelled structs are ASCII, and the only non-ASCII code
    points that fold to ASCII are U+212A (Kelvin sign) and U+017F (long s). *)
Definition lower_ascii (a : ascii) : ascii :=
  let n := N_of_ascii a in
  if byte_in n 65 90 then ascii_of_N (n + 32) else a.

Fixpoint fold_name (l : list ascii) : list ascii :=
  match l with
  | [] => []
  | a :: l1 =>
      match l1 with
      | b :: l2 =>
          if (N_of_ascii a =? 197)%N && (N_of_ascii b =? 191)%N
          then "s"%char :: fold_name l2
          else match l2 with
               | c :: l3 =>
                   if (N_of_ascii a =? 226)%N && (N_of_ascii b =? 132)%N
                      && (N_of_ascii c =? 170)%N
                   then "k"%char :: fold_name l3
                   else lower_ascii a :: fold_name l1
               | [] => lower_ascii a :: fold_name l1
               end
      | [] => [lower_ascii a]
      end
  end.

Definition same_field (name key : string) : bool :=
  bool_decide (fold_name (String.list_ascii_of_string name)
               = fold_name (String.list_ascii_of_string key)).

(** Decode an object into a struct: every member that names a field goes
    through that field's setter, in document order; unknown members are
    ignored; one member of the wrong type makes the whole call fail. *)
Section Struct.
Context {S : Type}.
Abbreviation fields := (list (string * (S → json → option S))).

Fixpoint find_field (fs : fields) (key : string) : option (S → json → option S) :=
  match fs with
  | [] => None
  | (name, set) :: fs' => if same_field name key then Some set else find_field fs' key
  end.

Fixpoint decode_members (fs : fields) (s : S) (l : list (string * json)) : option S :=
  match l with
  | [] => Some s
  | (key, v) :: l' =>
      match find_field fs key with
      | None => decode_members fs s l'
      | Some set => s' ← set s v; decode_members fs s' l'
      end
  end.

Definition decode_struct (fs : fields) (s : S) (j : json) : option S :=
  match jvalue j with
  | JObj l => decode_members fs s l
  | JNull => Some s
  | _ => None
  end.
End Struct.

(** ** Encoding a [map[string]json.RawMessage]

    [json.Marshal] of such a map: members sorted by key, keys quoted, raw
    values compacted, with the HTML-sensitive code points escaped. *)
Definition chars (s : string) : list ascii := String.list_ascii_of_string s.

(** [\u00XY] *)
Definition escape_u00 (n : N) : list ascii :=
  chars "\u00" ++ [hex_digit (n / 16); hex_digit (n mod 16)].

Definition html_char (n : N) : bool := (n =? 60)%N || (n =? 62)%N || (n =? 38)%N.

(** U+2028 and U+2029 are escaped wherever they occur. *)
Definition line_sep (a b c : ascii) : option (list ascii) :=
  if (N_of_ascii a =? 226)%N && (N_of_ascii b =? 128)%N then
    if (N_of_ascii c =? 168)%N then Some (chars "\u2028")
    else if (N_of_ascii c =? 169)%N then Some (chars "\u2029") else None
  else None.

Definition quote_char (a : ascii) : list ascii :=
  let n := N_of_ascii a in
  let bs := ascii_of_N 92 in
  if (n =? 34)%N || (n =? 92)%N then [bs; a]
  else if (n =? 8)%N then [bs; "b"%char]
  else if (n =? 12)%N then [bs; "f"%char]
  else if (n =? 10)%N then [bs; "n"%char]
  else if (n =? 13)%N then [bs; "r"%char]
  else if (n =? 9)%N then [bs; "t"%char]
  else if (n <? 32)%N || html_char n then escape_u00 n
  else [a].

Fixpoint escape_with (f : ascii → list ascii) (l : list ascii) : list ascii :=
  match l with
  | a :: ((b :: c :: l3) as l1) =>
      match line_sep a b c with
      | Some e => e ++ escape_with f l3
      | None => f a ++ escape_with f l1
      end
  | a :: l1 => f a ++ escape_with f l1
  | [] => []
  end.

(** A string as a literal: a byte that is no UTF-8 becomes U+FFFD. *)
Definition quote_wide (l : list ascii) (r : N) (w : nat) : list ascii :=
  if (r =? 8232)%N then chars "\u2028" else if (r =? 8233)%N then chars "\u2029" else take w l.
Fixpoint quote_body (fuel : nat) (l : list ascii) : list ascii :=
  match fuel, l with
  | S fuel', a :: l' =>
      if (code a <? 128)%N then quote_char a ++ quote_body fuel' l'
      else match decode_rune l with
           | Some (r, w) => quote_wide l r w ++ quote_body fuel' (drop w l)
           | None => chars "\ufffd" ++ quote_body fuel' l'
           end
  | _, _ => []
  end.
Definition quote (s : string) : list ascii :=
  [ascii_of_N 34] ++ quote_body (length (chars s)) (chars s) ++ [ascii_of_N 34].

(** Remove the white space outside string literals. *)
Fixpoint strip_ws (in_str esc : bool) (l : list ascii) : list ascii :=
  match l with
  | [] => []
  | a :: l' =>
      let n := N_of_ascii a in
      if in_str then
        a :: strip_ws (esc || negb (n =? 34)%N) (negb esc && (n =? 92)%N) l'
      else if (n =? 32)%N || (n =? 9)%N || (n =? 10)%N || (n =? 13)%N
      then strip_ws false false l'
      else a :: strip_ws (n =? 34)%N false l'
  end.

Definition compact (t : string) : list ascii :=
  escape_with (λ a, if html_char (N_of_ascii a) then escape_u00 (N_of_ascii a) else [a])
              (strip_ws false false (chars t)).

Fixpoint insert_member {A} (k : string) (v : A) (l : list (string * A)) : list (string * A) :=
  match l with
  | [] => [(k, v)]
  | (k', v') :: l' =>
      if bool_decide (k = k') then (k, v) :: l'
      else if String.leb k k' then (k, v) :: (k', v') :: l'
      else (k', v') :: insert_member k v l'
  end.

Definition go_map {A} (l : list (string * A)) : list (string * A) :=
  foldl (λ acc kv, insert_member kv.1 kv.2 acc) [] l.

Definition marshal_object (l : list (string * json)) : string :=
  let member kv := quote kv.1 ++ [ascii_of_N 58] ++ compact (jtext kv.2) in
  let body :=
    match member <$> go_map l with
    | [] => []
    | m :: ms => m ++ mjoin ((λ x, ascii_of_N 44 :: x) <$> ms)
    end in
  String.string_of_list_ascii ([ascii_of_N 123] ++ body ++ [ascii_of_N 125]).
