(* ===== verification/Envelope.v ===== *)
(** * The agent envelope

    [internal/domain/envelope]: the JSON contract every phase agent returns,
    its decoder (with the tolerant [next_recommended] list) and its structural
    validation. *)
From S2P Require Import Prelude Json.

(** ** Status *)

(** [envelope.Status]: a Go string, so any other text is a value too. *)
Inductive EnvStatus :=
  | StatusDone | StatusDoneWithConcerns | StatusBlocked | StatusNeedsContext
  | StatusOther (s : string).

#[global] Instance EnvStatus_eq_dec : EqDecision EnvStatus.
Proof. solve_decision. Defined.

Definition env_status_string (s : EnvStatus) : string :=
  match s with
  | StatusDone => "DONE"
  | StatusDoneWithConcerns => "DONE_WITH_CONCERNS"
  | StatusBlocked => "BLOCKED"
  | StatusNeedsContext => "NEEDS_CONTEXT"
  | StatusOther t => t
  end.

Definition env_status_of (t : string) : EnvStatus :=
  if bool_decide (t = "DONE"%string) then StatusDone
  else if bool_decide (t = "DONE_WITH_CONCERNS"%string) then StatusDoneWithConcerns
  else if bool_decide (t = "BLOCKED"%string) then StatusBlocked
  else if bool_decide (t = "NEEDS_CONTEXT"%string) then StatusNeedsContext
  else StatusOther t.

Definition env_status_IsValid (s : EnvStatus) : bool :=
  match s with StatusOther _ => false | _ => true end.

Lemma env_status_string_of t : env_status_string (env_status_of t) = t.
Proof. unfold env_status_of. repeat case_bool_decide; subst; done. Qed.

Definition SchemaVersionV1 : string := "v1".

(** ** Data *)

Record Risk := mkRisk { r_Description : string; r_Level : string }.
Record ArtifactRef := mkArtifactRef { a_TopicKey : string; a_Type : string }.

Record Envelope := mkEnvelope {
  e_SchemaVersion : string;
  e_Phase : string;
  e_ChangeName : string;
  e_Project : string;
  e_Status : EnvStatus;
  e_Confidence : float64;
  e_ExecutiveSummary : string;
  e_ArtifactsSaved : list ArtifactRef;
  e_NextRecommended : list string;
  e_Risks : list Risk;
  e_Data : option json            (* json.RawMessage; None = empty *)
}.

Definition zeroEnvelope : Envelope :=
  mkEnvelope "" "" "" "" (StatusOther "") f64_0 "" [] [] [] None.

Definition e_with_Status (s : EnvStatus) (e : Envelope) : Envelope :=
  mkEnvelope (e_SchemaVersion e) (e_Phase e) (e_ChangeName e) (e_Project e) s
    (e_Confidence e) (e_ExecutiveSummary e) (e_ArtifactsSaved e)
    (e_NextRecommended e) (e_Risks e) (e_Data e).

(** ** NextRecommended *)

Definition nextRecommendedKeys : list string :=
  ["action"; "description"; "message"; "summary"]%string.

(** The key loop of [projectNextRecommendation]: the first known key whose
    value is a non-blank string, and whether any known key was present. *)
Fixpoint probe_keys (obj : list (string * json)) (keys : list string)
    (hadKnownKey : bool) : option string * bool :=
  match keys with
  | [] => (None, hadKnownKey)
  | key :: keys' =>
      match obj_get key obj with
      | None => probe_keys obj keys' hadKnownKey
      | Some v =>
          match as_string v with
          | Some sv =>
              let t := TrimSpace sv in
              if str_empty t then probe_keys obj keys' true else (Some t, true)
          | None => probe_keys obj keys' true
          end
      end
  end.

Definition projectNextRecommendation (item : json) : string :=
  if str_empty (jtext item) then EmptyString else
  match as_string item with
  | Some s => TrimSpace s
  | None =>
      match as_object item with
      | Some obj =>
          match probe_keys obj nextRecommendedKeys false with
          | (Some t, _) => t
          | (None, true) => EmptyString
          | (None, false) => TrimSpace (marshal_object obj)
          end
      | None => TrimSpace (jtext item)
      end
  end.

(** [NextRecommended.UnmarshalJSON] *)
Definition unmarshalNextRecommended (j : json) : option (list string) :=
  match jvalue j with
  | JNull => Some []
  | JArr items =>
      Some (filter (λ s, s ≠ EmptyString) (projectNextRecommendation <$> items))
  | _ => None
  end.

(** ** Decoding *)

Definition set_string {S} (put : string → S → S) (s : S) (j : json) : option S :=
  match jvalue j with
  | JStr t => Some (put t s)
  | JNull => Some s
  | _ => None
  end.

Definition set_list {S A} (dec : json → option A) (put : list A → S → S)
    (s : S) (j : json) : option S :=
  match jvalue j with
  | JArr l => xs ← mapM dec l; Some (put xs s)
  | JNull => Some (put [] s)
  | _ => None
  end.

Definition artifact_fields : list (string * (ArtifactRef → json → option ArtifactRef)) :=
  [ ("topic_key"%string, set_string (λ t a, mkArtifactRef t (a_Type a)));
    ("type"%string, set_string (λ t a, mkArtifactRef (a_TopicKey a) t)) ].
Definition decode_artifact : json → option ArtifactRef :=
  decode_struct artifact_fields (mkArtifactRef "" "").

Definition risk_fields : list (string * (Risk → json → option Risk)) :=
  [ ("description"%string, set_string (λ t r, mkRisk t (r_Level r)));
    ("level"%string, set_string (λ t r, mkRisk (r_Description r) t)) ].
Definition decode_risk : json → option Risk :=
  decode_struct risk_fields (mkRisk "" "").

Definition envelope_fields : list (string * (Envelope → json → option Envelope)) :=
  [ ("schema_version"%string, set_string (λ t e,
      mkEnvelope t (e_Phase e) (e_ChangeName e) (e_Project e) (e_Status e) (e_Confidence e)
        (e_ExecutiveSummary e) (e_ArtifactsSaved e) (e_NextRecommended e) (e_Risks e) (e_Data e)));
    ("phase"%string, set_string (λ t e,
      mkEnvelope (e_SchemaVersion e) t (e_ChangeName e) (e_Project e) (e_Status e) (e_Confidence e)
        (e_ExecutiveSummary e) (e_ArtifactsSaved e) (e_NextRecommended e) (e_Risks e) (e_Data e)));
    ("change_name"%string, set_string (λ t e,
      mkEnvelope (e_SchemaVersion e) (e_Phase e) t (e_Project e) (e_Status e) (e_Confidence e)
        (e_ExecutiveSummary e) (e_ArtifactsSaved e) (e_NextRecommended e) (e_Risks e) (e_Data e)));
    ("project"%string, set_string (λ t e,
      mkEnvelope (e_SchemaVersion e) (e_Phase e) (e_ChangeName e) t (e_Status e) (e_Confidence e)
        (e_ExecutiveSummary e) (e_ArtifactsSaved e) (e_NextRecommended e) (e_Risks e) (e_Data e)));
    ("status"%string, set_string (λ t e, e_with_Status (env_status_of t) e));
    ("confidence"%string, λ e j,
      match jvalue j with
      | JNum v => Some
          (mkEnvelope (e_SchemaVersion e) (e_Phase e) (e_ChangeName e) (e_Project e) (e_Status e) v
            (e_ExecutiveSummary e) (e_ArtifactsSaved e) (e_NextRecommended e) (e_Risks e) (e_Data e))
      | JNull => Some e
      | _ => None
      end);
    ("executive_summary"%string, set_string (λ t e,
      mkEnvelope (e_SchemaVersion e) (e_Phase e) (e_ChangeName e) (e_Project e) (e_Status e)
        (e_Confidence e) t (e_ArtifactsSaved e) (e_NextRecommended e) (e_Risks e) (e_Data e)));
    ("artifacts_saved"%string, set_list decode_artifact (λ xs e,
      mkEnvelope (e_SchemaVersion e) (e_Phase e) (e_ChangeName e) (e_Project e) (e_Status e)
        (e_Confidence e) (e_ExecutiveSummary e) xs (e_NextRecommended e) (e_Risks e) (e_Data e)));
    ("next_recommended"%string, λ e j,
      xs ← unmarshalNextRecommended j;
      Some (mkEnvelope (e_SchemaVersion e) (e_Phase e) (e_ChangeName e) (e_Project e) (e_Status e)
        (e_Confidence e) (e_ExecutiveSummary e) (e_ArtifactsSaved e) xs (e_Risks e) (e_Data e)));
    ("risks"%string, set_list decode_risk (λ xs e,
      mkEnvelope (e_SchemaVersion e) (e_Phase e) (e_ChangeName e) (e_Project e) (e_Status e)
        (e_Confidence e) (e_ExecutiveSummary e) (e_ArtifactsSaved e) (e_NextRecommended e) xs
        (e_Data e)));
    ("data"%string, λ e j,
      Some (mkEnvelope (e_SchemaVersion e) (e_Phase e) (e_ChangeName e) (e_Project e) (e_Status e)
        (e_Confidence e) (e_ExecutiveSummary e) (e_ArtifactsSaved e) (e_NextRecommended e)
        (e_Risks e) (Some j))) ].

(** ** Validation *)

Inductive env_error :=
  | ErrUnsupportedSchemaVersion | ErrInvalidStatus | ErrConfidenceOutOfRange
  | ErrEmptyPhase | ErrEmptyChangeName | ErrEmptyProject | ErrInvalidJSON.

(** [Envelope.Validate]; [None] is a nil error. *)
Definition Envelope_Validate (e : Envelope) : option env_error :=
  if bool_decide (e_SchemaVersion e ≠ SchemaVersionV1) then Some ErrUnsupportedSchemaVersion
  else if str_empty (e_Phase e) then Some ErrEmptyPhase
  else if negb (env_status_IsValid (e_Status e)) then Some ErrInvalidStatus
  else if f64_ltb (e_Confidence e) f64_0 || f64_ltb f64_1 (e_Confidence e)
       then Some ErrConfidenceOutOfRange
  else if str_empty (e_ChangeName e) then Some ErrEmptyChangeName
  else if str_empty (e_Project e) then Some ErrEmptyProject
  else None.

Definition decode_envelope (raw : rawjson) : option Envelope :=
  match raw with
  | NotJSON _ => None
  | JSON j => decode_struct envelope_fields zeroEnvelope j
  end.

Definition Envelope_Parse (raw : rawjson) : result env_error Envelope :=
  match decode_envelope raw with
  | None => Err ErrInvalidJSON
  | Some e =>
      match Envelope_Validate e with
      | Some err => Err err
      | None => Ok e
      end
  end.

(** ** What validation guarantees *)

Definition valid_envelope (e : Envelope) : Prop :=
  e_SchemaVersion e = SchemaVersionV1 ∧ e_Phase e ≠ EmptyString ∧
  env_status_IsValid (e_Status e) = true ∧
  (0 <= e_Confidence e)%Q ∧ (e_Confidence e <= 1)%Q ∧
  e_ChangeName e ≠ EmptyString ∧ e_Project e ≠ EmptyString.

Lemma Envelope_Validate_None e : Envelope_Validate e = None ↔ valid_envelope e.
Proof.
  unfold Envelope_Validate, valid_envelope, str_empty. split.
  - intros Hv. split_all; bool_facts; rewrite ?f64_ltb_ge in *.
    repeat split; auto. by apply dec_stable.
  - intros (-> & Hp & Hs & H0 & H1 & Hc & Hj).
    rewrite bool_decide_eq_false_2 by auto.
    rewrite (bool_decide_eq_false_2 (e_Phase e = _)) by done.
    rewrite Hs, (bool_decide_eq_false_2 (e_ChangeName e = _)),
      (bool_decide_eq_false_2 (e_Project e = _)) by done.
    rewrite (proj2 (f64_ltb_ge _ f64_0)), (proj2 (f64_ltb_ge f64_1 _)) by done. done.
Qed.

Lemma Envelope_Parse_Ok raw e :
  Envelope_Parse raw = Ok e ↔ decode_envelope raw = Some e ∧ valid_envelope e.
Proof.
  unfold Envelope_Parse. rewrite <-Envelope_Validate_None.
  destruct (decode_envelope raw) as [e'|]; [|naive_solver].
  destruct (Envelope_Validate e') eqn:He; naive_solver congruence.
Qed.

(** ** Encoding

    [json.Marshal] of an envelope, as the tree a reader of the bytes sees: the
    members of the struct in order, a nil [Data] as null. *)
Definition str_node (s : string) : json := Node (String.string_of_list_ascii (quote s)) (JStr s).

Definition artifact_node (a : ArtifactRef) : json :=
  Node "{}" (JObj [("topic_key"%string, str_node (a_TopicKey a)); ("type"%string, str_node (a_Type a))]).

Definition risk_node (r : Risk) : json :=
  Node "{}" (JObj [("description"%string, str_node (r_Description r)); ("level"%string, str_node (r_Level r))]).

Definition null_node : json := Node "null" JNull.

Definition Envelope_marshal (e : Envelope) : rawjson :=
  JSON (Node "{}" (JObj
    [ ("schema_version"%string, str_node (e_SchemaVersion e));
      ("phase"%string, str_node (e_Phase e));
      ("change_name"%string, str_node (e_ChangeName e));
      ("project"%string, str_node (e_Project e));
      ("status"%string, str_node (env_status_string (e_Status e)));
      ("confidence"%string, Node "0" (JNum (e_Confidence e)));
      ("executive_summary"%string, str_node (e_ExecutiveSummary e));
      ("artifacts_saved"%string, Node "[]" (JArr (artifact_node <$> e_ArtifactsSaved e)));
      ("next_recommended"%string, Node "[]" (JArr (str_node <$> e_NextRecommended e)));
      ("risks"%string, Node "[]" (JArr (risk_node <$> e_Risks e)));
      ("data"%string, default null_node (e_Data e)) ])).

Lemma decode_members_cons {S} fs (s s' : S) key v l set r :
  find_field fs key = Some set → set s v = Some s' → decode_members fs s' l = r →
  decode_members fs s ((key, v) :: l) = r.
Proof. simpl. by intros -> ->. Qed.

Lemma mapM_nodes {A} (dec : json → option A) (enc : A → json) l :
  (∀ a, dec (enc a) = Some a) → mapM dec (enc <$> l) = Some l.
Proof.
  intros Hd. rewrite mapM_Some. apply Forall2_fmap_l.
  induction l; constructor; auto.
Qed.

Lemma set_list_nodes {S A} (dec : json → option A) (enc : A → json) (put : list A → S → S) (s : S) l :
  (∀ a, dec (enc a) = Some a) →
  set_list dec put s (Node "[]" (JArr (enc <$> l))) = Some (put l s).
Proof. intros Hd. unfold set_list. cbn [jvalue]. by rewrite mapM_nodes. Qed.

Lemma decode_artifact_node a : decode_artifact (artifact_node a) = Some a.
Proof. by destruct a. Qed.
Lemma decode_risk_node r : decode_risk (risk_node r) = Some r.
Proof. by destruct r. Qed.

Lemma project_str_node s : projectNextRecommendation (str_node s) = TrimSpace s.
Proof. done. Qed.

Lemma env_status_of_string s :
  env_status_IsValid s = true → env_status_of (env_status_string s) = s.
Proof. by destruct s. Qed.

Lemma set_next_nodes {S} (put : list string → S) l :
  (xs ← unmarshalNextRecommended (Node "[]" (JArr (str_node <$> l))); Some (put xs))
  = Some (put (filter (λ s, s ≠ EmptyString) (TrimSpace <$> l))).
Proof.
  unfold unmarshalNextRecommended. cbn [jvalue mbind option_bind].
  by rewrite <-list_fmap_compose.
Qed.

(** What an envelope becomes when it is written and read back. *)
Definition reread (e : Envelope) : Envelope :=
  mkEnvelope (e_SchemaVersion e) (e_Phase e) (e_ChangeName e) (e_Project e)
    (env_status_of (env_status_string (e_Status e))) (e_Confidence e)
    (e_ExecutiveSummary e) (e_ArtifactsSaved e)
    (filter (λ s, s ≠ EmptyString) (TrimSpace <$> e_NextRecommended e)) (e_Risks e)
    (Some (default null_node (e_Data e))).

(** Read the fields of the envelope decoded so far. *)
Ltac env_fields :=
  cbn [e_with_Status e_SchemaVersion e_Phase e_ChangeName e_Project e_Status e_Confidence
       e_ExecutiveSummary e_ArtifactsSaved e_NextRecommended e_Risks e_Data zeroEnvelope].

Lemma Envelope_marshal_decode e : decode_envelope (Envelope_marshal e) = Some (reread e).
Proof.
  unfold decode_envelope, Envelope_marshal, decode_struct. cbn [jvalue].
  do 7 (eapply decode_members_cons; [reflexivity|reflexivity|]; env_fields).
  eapply decode_members_cons; [reflexivity|apply (set_list_nodes _ _ _ _ _ decode_artifact_node)|].
  env_fields.
  eapply decode_members_cons; [reflexivity|apply set_next_nodes|]. env_fields.
  eapply decode_members_cons; [reflexivity|apply (set_list_nodes _ _ _ _ _ decode_risk_node)|].
  env_fields. eapply decode_members_cons; [reflexivity|reflexivity|]. env_fields. reflexivity.
Qed.

(** An envelope that is valid survives being written and read back: parsing
    the marshalled text succeeds and gives the same envelope, except that a
    missing data block reads as null and the recommendations are trimmed, blank
    ones dropped. *)
Theorem Envelope_roundtrip e :
  valid_envelope e → Envelope_Parse (Envelope_marshal e) = Ok (reread e) ∧ valid_envelope (reread e) ∧
    e_Status (reread e) = e_Status e.
Proof.
  intros Hv. pose proof Hv as (Hs & Hp & Hst & H0 & H1 & Hc & Hj).
  assert (Hv' : valid_envelope (reread e)).
  { unfold valid_envelope, reread; simpl. by rewrite env_status_of_string. }
  split; [|split; [done|]].
  - apply Envelope_Parse_Ok. split; [apply Envelope_marshal_decode|done].
  - simpl. by apply env_status_of_string.
Qed.

Lemma Envelope_roundtrip_witness :
  Envelope_Parse (Envelope_marshal
    (mkEnvelope "v1" "spec" "c" "p" StatusDone f64_0_9 "s" [mkArtifactRef "k" "t"] [" a "; " "]%string
       [mkRisk "d" "low"] None))
  = Ok (mkEnvelope "v1" "spec" "c" "p" StatusDone f64_0_9 "s" [mkArtifactRef "k" "t"] ["a"]%string
       [mkRisk "d" "low"] (Some null_node)).
Proof.
  assert (Hv : valid_envelope (mkEnvelope "v1" "spec" "c" "p" StatusDone f64_0_9 "s"
    [mkArtifactRef "k" "t"] [" a "; " "]%string [mkRisk "d" "low"] None)).
  { apply Envelope_Validate_None. vm_compute. reflexivity. }
  rewrite (proj1 (Envelope_roundtrip _ Hv)). vm_compute. reflexivity.
Defined.
