(* ===== verification/PhaseDomain.v ===== *)
(** * Phases

    [internal/domain/phase]: the nine phase types with their canonical order
    and confidence gates, the lifecycle statuses, and the Phase aggregate with
    its transitions. *)
From S2P Require Import Prelude Ids Json Envelope.

(** ** PhaseType (type.go) *)

(** A Go string type: the nine constants, or any other text. *)
Inductive PhaseType :=
  | PhaseInit | PhaseExplore | PhaseProposal | PhaseSpec | PhaseDesign
  | PhaseTasks | PhaseApply | PhaseVerify | PhaseArchive
  | PhaseOther (s : string).

#[global] Instance PhaseType_eq_dec : EqDecision PhaseType.
Proof. solve_decision. Defined.

(** [string(p)] *)
Definition pt_string (p : PhaseType) : string :=
  match p with
  | PhaseInit => "init" | PhaseExplore => "explore" | PhaseProposal => "proposal"
  | PhaseSpec => "spec" | PhaseDesign => "design" | PhaseTasks => "tasks"
  | PhaseApply => "apply" | PhaseVerify => "verify" | PhaseArchive => "archive"
  | PhaseOther s => s
  end.

Definition AllPhaseTypes : list PhaseType :=
  [ PhaseInit; PhaseExplore; PhaseProposal; PhaseSpec;
    PhaseDesign; PhaseTasks; PhaseApply; PhaseVerify; PhaseArchive ].

Definition PhaseType_IsValid (p : PhaseType) : bool :=
  existsb (λ v, bool_decide (v = p)) AllPhaseTypes.

(** [PhaseType(s)]: the conversion used at the HTTP and database boundary. *)
Definition pt_of (s : string) : PhaseType :=
  match find (λ p, bool_decide (pt_string p = s)) AllPhaseTypes with
  | Some p => p
  | None => PhaseOther s
  end.

Definition NextValid (p : PhaseType) : list PhaseType :=
  match p with
  | PhaseInit => [PhaseExplore]
  | PhaseExplore => [PhaseProposal]
  | PhaseProposal => [PhaseSpec]
  | PhaseSpec => [PhaseDesign]
  | PhaseDesign => [PhaseTasks]
  | PhaseTasks => [PhaseApply]
  | PhaseApply => [PhaseVerify]
  | PhaseVerify => [PhaseArchive]
  | PhaseArchive => []
  | PhaseOther _ => []
  end.

Definition ConfidenceThreshold (p : PhaseType) : float64 :=
  match p with
  | PhaseExplore => f64_0_5
  | PhaseProposal | PhaseDesign | PhaseApply => f64_0_7
  | PhaseSpec | PhaseTasks => f64_0_8
  | PhaseVerify | PhaseArchive => f64_0_9
  | _ => f64_0
  end.

(** ** PhaseStatus (status.go) *)

Inductive PhaseStatus :=
  | PhaseStatusPending | PhaseStatusRunning | PhaseStatusDone
  | PhaseStatusDoneWithConcerns | PhaseStatusBlocked
  | PhaseStatusNeedsContext | PhaseStatusInterrupted.

#[global] Instance PhaseStatus_eq_dec : EqDecision PhaseStatus.
Proof. solve_decision. Defined.

Definition ps_IsTerminal (s : PhaseStatus) : bool :=
  bool_decide (s = PhaseStatusDone)
  || bool_decide (s = PhaseStatusDoneWithConcerns)
  || bool_decide (s = PhaseStatusBlocked).

Definition AdvanceAllowed (s : PhaseStatus) : bool :=
  bool_decide (s = PhaseStatusDone) || bool_decide (s = PhaseStatusDoneWithConcerns).

Definition ps_string (s : PhaseStatus) : string :=
  match s with
  | PhaseStatusPending => "pending" | PhaseStatusRunning => "running"
  | PhaseStatusDone => "done" | PhaseStatusDoneWithConcerns => "done_with_concerns"
  | PhaseStatusBlocked => "blocked" | PhaseStatusNeedsContext => "needs_context"
  | PhaseStatusInterrupted => "interrupted"
  end.

(** ** The Phase aggregate (phase.go, concern.go, errors.go) *)

Record Concern := mkConcern {
  c_Severity : string; c_Category : string; c_Message : string; c_Evidence : string
}.

Inductive phase_error :=
  | ErrInvalidType | ErrTerminal | ErrNotRunning | ErrBudgetExhausted
  | ErrBelowThreshold | ErrEnvelopeNil | ErrEnvelopeMismatch | ErrNotBlocked.

Record Phase := mkPhase {
  p_id : PhaseID;
  p_changeID : ChangeID;
  p_type : PhaseType;
  p_status : PhaseStatus;
  p_envelope : option Envelope;
  p_confidence : float64;
  p_retryBudget : Z;
  p_attempts : Z;
  p_startedAt : option Time;
  p_completedAt : option Time;
  p_concerns : list Concern
}.

Definition Phase_New (id : PhaseID) (cid : ChangeID) (pt : PhaseType) (retryBudget : Z)
    : result phase_error Phase :=
  if negb (PhaseType_IsValid pt) then Err ErrInvalidType else
  let retryBudget := if (retryBudget <=? 0)%Z then 1%Z else retryBudget in
  Ok (mkPhase id cid pt PhaseStatusPending None f64_0 retryBudget 0 None None []).

Definition Phase_Hydrate (id : PhaseID) (cid : ChangeID) (pt : PhaseType)
    (status : PhaseStatus) (env : option Envelope) (confidence : float64)
    (retryBudget attempts : Z) (startedAt completedAt : option Time) : Phase :=
  mkPhase id cid pt status env confidence retryBudget attempts startedAt completedAt [].

Definition Phase_SetConcerns (cs : list Concern) (p : Phase) : Phase :=
  mkPhase (p_id p) (p_changeID p) (p_type p) (p_status p) (p_envelope p) (p_confidence p)
    (p_retryBudget p) (p_attempts p) (p_startedAt p) (p_completedAt p) cs.

Definition Phase_Start (now : Time) (p : Phase) : result phase_error Phase :=
  if ps_IsTerminal (p_status p) then Err ErrTerminal
  else if (p_retryBudget p <=? p_attempts p)%Z then Err ErrBudgetExhausted
  else Ok (mkPhase (p_id p) (p_changeID p) (p_type p) PhaseStatusRunning (p_envelope p)
             (p_confidence p) (p_retryBudget p) (p_attempts p + 1) (Some now)
             (p_completedAt p) (p_concerns p)).

(** The final [switch e.Status]; a status outside the enum leaves it alone. *)
Definition complete_status (s : EnvStatus) (cur : PhaseStatus) : PhaseStatus :=
  match s with
  | StatusDone => PhaseStatusDone
  | StatusDoneWithConcerns => PhaseStatusDoneWithConcerns
  | StatusBlocked => PhaseStatusBlocked
  | StatusNeedsContext => PhaseStatusNeedsContext
  | StatusOther _ => cur
  end.

Definition Phase_Complete (env : option Envelope) (now : Time) (p : Phase)
    : result phase_error Phase :=
  if bool_decide (p_status p ≠ PhaseStatusRunning) then Err ErrNotRunning else
  match env with
  | None => Err ErrEnvelopeNil
  | Some e =>
      if bool_decide (e_Phase e ≠ pt_string (p_type p)) then Err ErrEnvelopeMismatch
      else if bool_decide (e_Status e = StatusDone)
              && f64_ltb (e_Confidence e) (ConfidenceThreshold (p_type p))
      then Err ErrBelowThreshold
      else Ok (mkPhase (p_id p) (p_changeID p) (p_type p)
                 (complete_status (e_Status e) (p_status p)) (Some e) (e_Confidence e)
                 (p_retryBudget p) (p_attempts p) (p_startedAt p) (Some now) (p_concerns p))
  end.

Definition Phase_MarkInterrupted (p : Phase) : result phase_error Phase :=
  if ps_IsTerminal (p_status p) then Err ErrTerminal
  else Ok (mkPhase (p_id p) (p_changeID p) (p_type p) PhaseStatusInterrupted (p_envelope p)
             (p_confidence p) (p_retryBudget p) (p_attempts p) (p_startedAt p)
             (p_completedAt p) (p_concerns p)).

Definition Phase_Restart (now : Time) (p : Phase) : result phase_error Phase :=
  if bool_decide (p_status p ≠ PhaseStatusBlocked) then
    if ps_IsTerminal (p_status p) then Err ErrTerminal else Err ErrNotBlocked
  else if (p_retryBudget p <=? p_attempts p)%Z then Err ErrBudgetExhausted
  else Ok (mkPhase (p_id p) (p_changeID p) (p_type p) PhaseStatusRunning None f64_0
             (p_retryBudget p) (p_attempts p + 1) (Some now) None (p_concerns p)).

(** ** The order of the phases *)

(** Position in the canonical list. *)
Fixpoint index_in (p : PhaseType) (l : list PhaseType) : option nat :=
  match l with
  | [] => None
  | q :: l' => if bool_decide (p = q) then Some 0%nat else S <$> index_in p l'
  end.
Definition phase_index (p : PhaseType) : option nat := index_in p AllPhaseTypes.

(** [NextValid] is the successor in [AllPhaseTypes] and nothing else. *)
Lemma NextValid_successor p q :
  q ∈ NextValid p ↔
  ∃ i, phase_index p = Some i ∧ phase_index q = Some (S i).
Proof.
  unfold phase_index. split.
  - destruct p; simpl; intros Hq; repeat (apply elem_of_cons in Hq as [->|Hq]);
      try (by apply elem_of_nil in Hq); eexists; split; reflexivity.
  - destruct p, q; cbn; intros (i & Hp & Hq); simplify_eq; set_solver.
Qed.

Lemma phase_index_lookup p i : phase_index p = Some i → AllPhaseTypes !! i = Some p.
Proof. destruct p; vm_compute; intros; simplify_eq; done. Qed.

Lemma PhaseType_IsValid_index p :
  PhaseType_IsValid p = true ↔ is_Some (phase_index p).
Proof. destruct p; cbn; split; intros; eauto; destruct_or?; try done; by destruct H. Qed.

(** Nothing is lost when a phase name crosses a boundary as text, and a valid
    phase type comes back as itself. *)
Lemma pt_string_of s : pt_string (pt_of s) = s.
Proof.
  unfold pt_of. destruct (find _ _) as [p|] eqn:Hf; [|done].
  apply find_some in Hf as [_ Hf]. by bool_facts.
Qed.

Lemma pt_of_string p : PhaseType_IsValid p = true → pt_of (pt_string p) = p.
Proof. by destruct p. Qed.

(** ** Transitions as a relation *)

Inductive phase_step : Phase → Phase → Prop :=
  | ps_start now p p' : Phase_Start now p = Ok p' → phase_step p p'
  | ps_complete env now p p' : Phase_Complete env now p = Ok p' → phase_step p p'
  | ps_interrupt p p' : Phase_MarkInterrupted p = Ok p' → phase_step p p'
  | ps_restart now p p' : Phase_Restart now p = Ok p' → phase_step p p'
  | ps_concerns cs p : phase_step p (Phase_SetConcerns cs p).

Definition phase_fresh (p : Phase) : Prop :=
  ∃ id cid pt b, Phase_New id cid pt b = Ok p.

(** The envelope a terminal status claims to have. *)
Definition outcome_recorded (p : Phase) : Prop :=
  match p_status p with
  | PhaseStatusDone | PhaseStatusDoneWithConcerns | PhaseStatusBlocked
  | PhaseStatusNeedsContext =>
      ∃ e, p_envelope p = Some e ∧ e_Phase e = pt_string (p_type p) ∧
           complete_status (e_Status e) PhaseStatusRunning = p_status p ∧
           p_confidence p = e_Confidence e
  | _ => True
  end.

Definition done_above_threshold (p : Phase) : Prop :=
  p_status p = PhaseStatusDone →
  (ConfidenceThreshold (p_type p) <= p_confidence p)%Q.

Record phase_wf (p : Phase) : Prop := {
  wf_type : PhaseType_IsValid (p_type p) = true;
  wf_budget : (0 <= p_attempts p <= p_retryBudget p)%Z;
  wf_pending : p_status p = PhaseStatusPending → p_attempts p = 0%Z ∧ p_envelope p = None;
  wf_started : p_status p ≠ PhaseStatusPending →
               p_status p ≠ PhaseStatusInterrupted → is_Some (p_startedAt p);
  wf_outcome : outcome_recorded p;
  wf_done : done_above_threshold p
}.

(** ** Lemmas *)

(** One statement per operation of what it does when it succeeds. *)
Lemma Phase_Start_Ok now p p' :
  Phase_Start now p = Ok p' ↔
  ps_IsTerminal (p_status p) = false ∧ (p_attempts p < p_retryBudget p)%Z ∧
  p' = mkPhase (p_id p) (p_changeID p) (p_type p) PhaseStatusRunning (p_envelope p)
         (p_confidence p) (p_retryBudget p) (p_attempts p + 1) (Some now)
         (p_completedAt p) (p_concerns p).
Proof.
  unfold Phase_Start. destruct (ps_IsTerminal _); [naive_solver|].
  destruct (Z.leb_spec (p_retryBudget p) (p_attempts p)); naive_solver lia.
Qed.

Lemma Phase_Complete_Ok env now p p' :
  Phase_Complete env now p = Ok p' ↔
  ∃ e, env = Some e ∧ p_status p = PhaseStatusRunning ∧
       e_Phase e = pt_string (p_type p) ∧
       (e_Status e = StatusDone → (ConfidenceThreshold (p_type p) <= e_Confidence e)%Q) ∧
       p' = mkPhase (p_id p) (p_changeID p) (p_type p)
              (complete_status (e_Status e) PhaseStatusRunning) (Some e) (e_Confidence e)
              (p_retryBudget p) (p_attempts p) (p_startedAt p) (Some now) (p_concerns p).
Proof.
  unfold Phase_Complete. split.
  - intros Hc. split_all; bool_facts. apply dec_stable in Heqb. apply dec_stable in Heqb0.
    exists e. rewrite Heqb. repeat split; auto. intros Hd.
    apply andb_false_iff in Heqb1 as [Hf|Hf]; bool_facts; [done|by apply f64_ltb_ge].
  - intros (e & -> & Hr & Hp & Hd & ->). rewrite Hr, Hp, !bool_decide_eq_false_2 by auto.
    case_bool_decide; simpl; [|done]. by rewrite (proj2 (f64_ltb_ge _ _)) by auto.
Qed.

Lemma Phase_Restart_Ok now p p' :
  Phase_Restart now p = Ok p' ↔
  p_status p = PhaseStatusBlocked ∧ (p_attempts p < p_retryBudget p)%Z ∧
  p' = mkPhase (p_id p) (p_changeID p) (p_type p) PhaseStatusRunning None f64_0
         (p_retryBudget p) (p_attempts p + 1) (Some now) None (p_concerns p).
Proof.
  unfold Phase_Restart. case_bool_decide as Hb; [destruct (ps_IsTerminal _); naive_solver|].
  destruct (Z.leb_spec (p_retryBudget p) (p_attempts p)); naive_solver lia.
Qed.

Lemma Phase_MarkInterrupted_Ok p p' :
  Phase_MarkInterrupted p = Ok p' ↔
  ps_IsTerminal (p_status p) = false ∧
  p' = mkPhase (p_id p) (p_changeID p) (p_type p) PhaseStatusInterrupted (p_envelope p)
         (p_confidence p) (p_retryBudget p) (p_attempts p) (p_startedAt p)
         (p_completedAt p) (p_concerns p).
Proof. unfold Phase_MarkInterrupted. destruct (ps_IsTerminal _); naive_solver. Qed.

(** ** Properties *)

Lemma phase_fresh_wf p : phase_fresh p → phase_wf p.
Proof.
  intros (id & cid & pt & b & Hn). unfold Phase_New in Hn. split_all; bool_facts.
  - split; simpl; try done; lia.
  - apply Z.leb_gt in Heqb1. split; simpl; try done; lia.
Qed.

Lemma phase_step_wf p p' : phase_wf p → phase_step p p' → phase_wf p'.
Proof.
  intros [Ht Hb Hpe Hst Ho Hd] Hs. destruct Hs as
    [now p p' H|env now p p' H|p p' H|now p p' H|cs p].
  - apply Phase_Start_Ok in H as (_ & ? & ->). split; simpl; try done; lia || eauto.
  - apply Phase_Complete_Ok in H as (e & -> & Hr & He & Hth & ->).
    rewrite Hr in *. split; simpl; try done.
    + destruct (e_Status e); done.
    + intros _ _. by apply Hst.
    + unfold outcome_recorded; simpl. destruct (e_Status e) eqn:Hs; simpl; try done;
        exists e; by rewrite Hs.
    + intros Hdone; simpl in *. apply Hth. by destruct (e_Status e).
  - apply Phase_MarkInterrupted_Ok in H as (_ & ->). split; simpl; done.
  - apply Phase_Restart_Ok in H as (_ & ? & ->). split; simpl; try done; lia || eauto.
  - split; simpl; done.
Qed.

(** C15: in every state a Phase can reach from [New] through its operations,
    the attempts stay within the retry budget, a terminal or needs-context
    status carries the envelope it was derived from (same phase, same status,
    same confidence), and a phase that is done has confidence at or above the
    threshold of its type. *)
Theorem phase_reachable_wf p :
  reachable phase_fresh phase_step p → phase_wf p.
Proof. apply reachable_inv; eauto using phase_fresh_wf, phase_step_wf. Qed.

(** ** Operation sequences

    The callers of the aggregate ignore or report an error and keep the Phase
    they had: a refused operation leaves the state unchanged. *)
Inductive phase_op :=
  | OpStart (now : Time)
  | OpComplete (env : option Envelope) (now : Time)
  | OpMarkInterrupted
  | OpRestart (now : Time)
  | OpSetConcerns (cs : list Concern).

Definition phase_op_res (o : phase_op) (p : Phase) : result phase_error Phase :=
  match o with
  | OpStart now => Phase_Start now p
  | OpComplete env now => Phase_Complete env now p
  | OpMarkInterrupted => Phase_MarkInterrupted p
  | OpRestart now => Phase_Restart now p
  | OpSetConcerns cs => Ok (Phase_SetConcerns cs p)
  end.

(** Run the operations in order, counting the entries into the running
    status: the dispatches the retry budget pays for. *)
Fixpoint run_ops (ops : list phase_op) (p : Phase) (entries : Z) : Phase * Z :=
  match ops with
  | [] => (p, entries)
  | o :: ops' =>
      match phase_op_res o p with
      | Err _ => run_ops ops' p entries
      | Ok p' =>
          run_ops ops' p'
            (match o with OpStart _ | OpRestart _ => entries + 1 | _ => entries end)%Z
      end
  end.

Lemma phase_op_step o p p' : phase_op_res o p = Ok p' → phase_step p p'.
Proof. destruct o; simpl; intros Ho; simplify_eq; by econstructor. Qed.

(** What every operation leaves alone, and how it moves the attempt counter. *)
Lemma phase_op_frame o p p' :
  phase_op_res o p = Ok p' →
  p_id p' = p_id p ∧ p_changeID p' = p_changeID p ∧ p_type p' = p_type p ∧
  p_retryBudget p' = p_retryBudget p ∧
  p_attempts p' =
    (match o with OpStart _ | OpRestart _ => p_attempts p + 1 | _ => p_attempts p end)%Z.
Proof.
  destruct o; simpl.
  - intros (_ & _ & ->)%Phase_Start_Ok; done.
  - intros (e & _ & _ & _ & _ & ->)%Phase_Complete_Ok; done.
  - intros (_ & ->)%Phase_MarkInterrupted_Ok; done.
  - intros (_ & _ & ->)%Phase_Restart_Ok; done.
  - intros [= <-]; done.
Qed.

Lemma run_ops_count ops p n :
  p_attempts (run_ops ops p n).1 = (p_attempts p + ((run_ops ops p n).2 - n))%Z ∧
  p_retryBudget (run_ops ops p n).1 = p_retryBudget p.
Proof.
  revert p n. induction ops as [|o ops IH]; intros p n; simpl; [split; [lia|done]|].
  destruct (phase_op_res o p) as [p'|] eqn:Ho; [|apply IH].
  destruct (phase_op_frame _ _ _ Ho) as (_ & _ & _ & Hb & Ha).
  destruct (IH p' (match o with OpStart _ | OpRestart _ => n + 1 | _ => n end)%Z)
    as [IH1 IH2].
  rewrite IH1, IH2, Ha, Hb. split; [|done]. destruct o; lia.
Qed.

Lemma run_ops_wf ops p n : phase_wf p → phase_wf (run_ops ops p n).1.
Proof.
  revert p n. induction ops as [|o ops IH]; intros p n Hwf; simpl; [done|].
  destruct (phase_op_res o p) eqn:Ho; [|auto].
  eauto using phase_step_wf, phase_op_step.
Qed.

(** Whatever sequence of operations is applied to a new Phase, it enters
    the running status at most [retryBudget] times, and the attempt counter is
    exactly the number of those entries. *)
Theorem phase_entries_bounded id cid pt b p ops :
  Phase_New id cid pt b = Ok p →
  p_attempts (run_ops ops p 0).1 = (run_ops ops p 0).2 ∧
  ((run_ops ops p 0).2 <= p_retryBudget p)%Z ∧ (1 <= p_retryBudget p)%Z.
Proof.
  intros Hn. assert (Hf : phase_fresh p) by (by exists id, cid, pt, b).
  pose proof (phase_fresh_wf _ Hf) as Hwf.
  destruct (run_ops_count ops p 0) as [Ha Hb].
  pose proof (wf_budget _ (run_ops_wf ops p 0 Hwf)) as Hle. rewrite Ha, Hb in Hle.
  assert (p_attempts p = 0 ∧ 1 <= p_retryBudget p)%Z as [H0 H1].
  { unfold Phase_New in Hn. split_all; [lia|]. apply Z.leb_gt in Heqb1. simpl. lia. }
  lia.
Qed.

Lemma phase_entries_bounded_witness :
  (run_ops [OpStart 1; OpMarkInterrupted; OpStart 2; OpMarkInterrupted; OpStart 3]
     (mkPhase (mkID "p") (mkID "c") PhaseSpec PhaseStatusPending None f64_0 2 0 None None [])
     0).2 = 2%Z
  ∧ (2 <= 2)%Z.
Proof.
  split; [reflexivity|].
  apply (phase_entries_bounded (mkID "p") (mkID "c") PhaseSpec 2
    (mkPhase (mkID "p") (mkID "c") PhaseSpec PhaseStatusPending None f64_0 2 0 None None [])
    [OpStart 1; OpMarkInterrupted; OpStart 2; OpMarkInterrupted; OpStart 3]).
  reflexivity.
Defined.

(** Equality up to the advisory concerns. *)
Definition same_phase (p q : Phase) : Prop := Phase_SetConcerns [] p = Phase_SetConcerns [] q.

#[global] Instance same_phase_equiv : Equivalence same_phase.
Proof. unfold same_phase. split; [done|by intros ?|intros ???; by etrans]. Qed.

Lemma accepted_op_frozen o p p' :
  AdvanceAllowed (p_status p) = true → phase_op_res o p = Ok p' →
  same_phase p' p ∧ p_status p' = p_status p.
Proof.
  intros Ha Ho.
  assert (ps_IsTerminal (p_status p) = true ∧ p_status p ≠ PhaseStatusRunning
          ∧ p_status p ≠ PhaseStatusBlocked) as (Ht & Hr & Hb) by (by destruct (p_status p)).
  destruct o; simpl in Ho.
  - apply Phase_Start_Ok in Ho as [Hf _]. congruence.
  - apply Phase_Complete_Ok in Ho as (e & _ & Hf & _). congruence.
  - apply Phase_MarkInterrupted_Ok in Ho as [Hf _]. congruence.
  - apply Phase_Restart_Ok in Ho as [Hf _]. congruence.
  - by simplify_eq.
Qed.

(** A phase that finished as done or done with concerns is frozen: no
    sequence of operations changes anything but its advisory concerns, so an
    accepted envelope is never overwritten and never retried. *)
Theorem accepted_phase_frozen ops p n :
  AdvanceAllowed (p_status p) = true →
  same_phase (run_ops ops p n).1 p ∧ (run_ops ops p n).2 = n.
Proof.
  revert p n. induction ops as [|o ops IH]; intros p n Ha; simpl; [done|].
  destruct (phase_op_res o p) as [p'|] eqn:Ho; [|auto].
  destruct (accepted_op_frozen _ _ _ Ha Ho) as [Hs Hst].
  assert (Hn : (match o with OpStart _ | OpRestart _ => n + 1 | _ => n end)%Z = n).
  { destruct (phase_op_frame _ _ _ Ho) as (_ & _ & _ & _ & Hat).
    apply (f_equal p_attempts) in Hs. destruct o; simpl in *; lia. }
  rewrite Hn. destruct (IH p' n) as [IH1 IH2]; [by rewrite Hst|].
  split; [by etrans|done].
Qed.

Lemma accepted_phase_frozen_witness :
  AdvanceAllowed PhaseStatusDoneWithConcerns = true ∧
  (run_ops [OpStart 1; OpRestart 2; OpMarkInterrupted]
     (mkPhase (mkID "p") (mkID "c") PhaseSpec PhaseStatusDoneWithConcerns None f64_0 3 1
        None None []) 5).2 = 5%Z.
Proof.
  split; [reflexivity|].
  apply (accepted_phase_frozen [OpStart 1; OpRestart 2; OpMarkInterrupted]
    (mkPhase (mkID "p") (mkID "c") PhaseSpec PhaseStatusDoneWithConcerns None f64_0 3 1
       None None [])). reflexivity.
Defined.

Lemma phase_reachable_wf_witness :
  reachable phase_fresh phase_step
    (mkPhase (mkID "p") (mkID "c") PhaseSpec PhaseStatusRunning None f64_0 2 1 (Some 7%Z) None [])
  ∧ phase_wf
    (mkPhase (mkID "p") (mkID "c") PhaseSpec PhaseStatusRunning None f64_0 2 1 (Some 7%Z) None []).
Proof.
  assert (Hr : reachable phase_fresh phase_step
    (mkPhase (mkID "p") (mkID "c") PhaseSpec PhaseStatusRunning None f64_0 2 1 (Some 7%Z) None [])).
  { eapply reach_step.
    - apply reach_init. exists (mkID "p"), (mkID "c"), PhaseSpec, 2%Z. reflexivity.
    - apply (ps_start 7). reflexivity. }
  split; [exact Hr|]. apply phase_reachable_wf. exact Hr.
Defined.
