(* ===== verification/ChangeDomain.v ===== *)
(** * Changes

    [internal/domain/change]: the Change aggregate root, its lifecycle and the
    pointer to the last phase that finished. *)
From S2P Require Import Prelude Ids PhaseDomain.

(** ** Status and artifact store (status.go) *)

Inductive ChangeStatus := StatusActive | StatusCompleted | StatusAborted.

#[global] Instance ChangeStatus_eq_dec : EqDecision ChangeStatus.
Proof. solve_decision. Defined.

Definition cs_IsTerminal (s : ChangeStatus) : bool :=
  bool_decide (s = StatusCompleted) || bool_decide (s = StatusAborted).

(** [ArtifactStoreMode] is a string checked against four constants. *)
Definition ArtifactStoreMemoryEngine : string := "memory-engine".
Definition ArtifactStoreOpenspec : string := "openspec".
Definition ArtifactStoreHybrid : string := "hybrid".
Definition ArtifactStoreNone : string := "none".

Definition ArtifactStore_IsValid (m : string) : bool :=
  bool_decide (m ∈ [ArtifactStoreMemoryEngine; ArtifactStoreOpenspec;
                    ArtifactStoreHybrid; ArtifactStoreNone]).

(** ** The aggregate (change.go, errors.go) *)

Inductive change_error :=
  | ErrEmptyName | ErrEmptyProject | ErrInvalidArtifactStore
  | ErrInvalidTransition | ErrAlreadyTerminal.

Record Change := mkChange {
  ch_id : ChangeID;
  ch_name : string;
  ch_project : string;
  ch_status : ChangeStatus;
  ch_currentPhase : PhaseType;
  ch_artifactStore : string;
  ch_baseRef : string;
  ch_createdAt : Time;
  ch_updatedAt : Time
}.

Definition Change_New (id : ChangeID) (name project store baseRef : string) (createdAt : Time)
    : result change_error Change :=
  if str_empty name then Err ErrEmptyName
  else if str_empty project then Err ErrEmptyProject
  else if negb (ArtifactStore_IsValid store) then Err ErrInvalidArtifactStore
  else Ok (mkChange id name project StatusActive PhaseInit store baseRef createdAt createdAt).

Definition Change_Hydrate (id : ChangeID) (name project : string) (status : ChangeStatus)
    (currentPhase : PhaseType) (store baseRef : string) (createdAt updatedAt : Time) : Change :=
  mkChange id name project status currentPhase store baseRef createdAt updatedAt.

Definition Change_AdvancePhase (next : PhaseType) (now : Time) (c : Change)
    : result change_error Change :=
  if cs_IsTerminal (ch_status c) then Err ErrAlreadyTerminal
  else if existsb (λ v, bool_decide (v = next)) (NextValid (ch_currentPhase c)) then
    Ok (mkChange (ch_id c) (ch_name c) (ch_project c) (ch_status c) next
          (ch_artifactStore c) (ch_baseRef c) (ch_createdAt c) now)
  else Err ErrInvalidTransition.

Definition Change_set_status (s : ChangeStatus) (now : Time) (c : Change) : Change :=
  mkChange (ch_id c) (ch_name c) (ch_project c) s (ch_currentPhase c)
    (ch_artifactStore c) (ch_baseRef c) (ch_createdAt c) now.

Definition Change_MarkCompleted (now : Time) (c : Change) : result change_error Change :=
  if cs_IsTerminal (ch_status c) then Err ErrAlreadyTerminal
  else Ok (Change_set_status StatusCompleted now c).

Definition Change_Abort (reason : string) (now : Time) (c : Change) : result change_error Change :=
  if cs_IsTerminal (ch_status c) then Err ErrAlreadyTerminal
  else Ok (Change_set_status StatusAborted now c).

(** ** Lemmas *)

Lemma Change_New_Ok id name project store ref now c :
  Change_New id name project store ref now = Ok c ↔
  name ≠ EmptyString ∧ project ≠ EmptyString ∧ ArtifactStore_IsValid store = true ∧
  c = mkChange id name project StatusActive PhaseInit store ref now now.
Proof.
  unfold Change_New, str_empty.
  repeat case_bool_decide; destruct (ArtifactStore_IsValid store); naive_solver.
Qed.

Lemma Change_AdvancePhase_Ok next now c c' :
  Change_AdvancePhase next now c = Ok c' ↔
  ch_status c = StatusActive ∧ next ∈ NextValid (ch_currentPhase c) ∧
  c' = mkChange (ch_id c) (ch_name c) (ch_project c) StatusActive next
         (ch_artifactStore c) (ch_baseRef c) (ch_createdAt c) now.
Proof.
  unfold Change_AdvancePhase, cs_IsTerminal.
  assert (He : existsb (λ v, bool_decide (v = next)) (NextValid (ch_currentPhase c)) = true
          ↔ next ∈ NextValid (ch_currentPhase c)).
  { rewrite existsb_exists. setoid_rewrite bool_decide_eq_true.
    setoid_rewrite list_elem_of_In. naive_solver. }
  destruct (existsb _ _); destruct (ch_status c); naive_solver.
Qed.

Lemma Change_terminal_frozen c :
  cs_IsTerminal (ch_status c) = true →
  (∀ next now, Change_AdvancePhase next now c = Err ErrAlreadyTerminal) ∧
  (∀ now, Change_MarkCompleted now c = Err ErrAlreadyTerminal) ∧
  (∀ r now, Change_Abort r now c = Err ErrAlreadyTerminal).
Proof.
  intros Ht. unfold Change_AdvancePhase, Change_MarkCompleted, Change_Abort.
  by rewrite Ht.
Qed.

(** ** Lifecycle *)

Inductive change_op :=
  | OpAdvance (next : PhaseType) (now : Time)
  | OpMarkCompleted (now : Time)
  | OpAbort (reason : string) (now : Time).

Definition change_op_res (o : change_op) (c : Change) : result change_error Change :=
  match o with
  | OpAdvance next now => Change_AdvancePhase next now c
  | OpMarkCompleted now => Change_MarkCompleted now c
  | OpAbort r now => Change_Abort r now c
  end.

(** Run the operations, refused ones leaving the Change as it was, and collect
    the phases its pointer moved to. *)
Fixpoint change_run (ops : list change_op) (c : Change) : Change * list PhaseType :=
  match ops with
  | [] => (c, [])
  | o :: ops' =>
      match change_op_res o c with
      | Err _ => change_run ops' c
      | Ok c' =>
          let '(c'', visited) := change_run ops' c' in
          (c'', match o with OpAdvance next _ => next :: visited | _ => visited end)
      end
  end.

Lemma change_op_frame o c c' :
  change_op_res o c = Ok c' →
  ch_id c' = ch_id c ∧ ch_name c' = ch_name c ∧ ch_project c' = ch_project c ∧
  ch_artifactStore c' = ch_artifactStore c ∧ ch_createdAt c' = ch_createdAt c.
Proof.
  destruct o; simpl.
  - by intros (_ & _ & ->)%Change_AdvancePhase_Ok.
  - unfold Change_MarkCompleted. by destruct (cs_IsTerminal _); intros; simplify_eq.
  - unfold Change_Abort. by destruct (cs_IsTerminal _); intros; simplify_eq.
Qed.

(** From a pointer at position [i], the pointer only ever moves to the next
    position. *)
Lemma change_run_prefix ops c i :
  phase_index (ch_currentPhase c) = Some i →
  ∃ n, (change_run ops c).2 = take n (drop (S i) AllPhaseTypes) ∧
       phase_index (ch_currentPhase (change_run ops c).1) = Some (i + n)%nat ∧
       (S (i + n) <= length AllPhaseTypes)%nat.
Proof.
  revert c i. induction ops as [|o ops IH]; intros c i Hi; cbn [change_run fst snd].
  { exists 0%nat. rewrite Nat.add_0_r. repeat split; [done..|].
    apply phase_index_lookup, lookup_lt_Some in Hi. exact Hi. }
  destruct (change_op_res o c) as [c'|] eqn:Ho; [|exact (IH c i Hi)].
  destruct o as [next now|now|r now]; simpl in Ho.
  - apply Change_AdvancePhase_Ok in Ho as (_ & Hn & ->).
    apply NextValid_successor in Hn as (j & Hj & Hn). rewrite Hi in Hj; simplify_eq.
    match goal with |- context [change_run ops ?x] => specialize (IH x (S j) Hn) end.
    destruct (change_run ops _) as [c'' visited]. destruct IH as (n & Hv & Hp & Hl). cbn [fst snd] in *.
    exists (S n). rewrite Hv. repeat split; [|rewrite Hp; f_equal; lia|lia].
    by rewrite (drop_S _ _ _ (phase_index_lookup _ _ Hn)).
  - unfold Change_MarkCompleted in Ho. destruct (cs_IsTerminal _); simplify_eq.
    specialize (IH (Change_set_status StatusCompleted now c) i Hi). by destruct (change_run ops _).
  - unfold Change_Abort in Ho. destruct (cs_IsTerminal _); simplify_eq.
    specialize (IH (Change_set_status StatusAborted now c) i Hi). by destruct (change_run ops _).
Qed.

(** C16: from creation on, the phases a Change visits are, in order, a prefix of
    explore, proposal, spec, design, tasks, apply, verify, archive, with no
    phase skipped, repeated or revisited; its current phase is the last one
    visited (init when none). *)
Theorem change_visits_phases_in_order id name project store ref now c ops :
  Change_New id name project store ref now = Ok c →
  ∃ n, (change_run ops c).2 = take n (drop 1 AllPhaseTypes) ∧
       AllPhaseTypes !! n = Some (ch_currentPhase (change_run ops c).1).
Proof.
  intros (_ & _ & _ & ->)%Change_New_Ok.
  destruct (change_run_prefix ops
    (mkChange id name project StatusActive PhaseInit store ref now now) 0) as (n & Hv & Hp & _);
    [done|].
  exists n. split; [done|]. by apply phase_index_lookup.
Qed.

Lemma change_visits_phases_in_order_witness :
  ∃ n, take n (drop 1 AllPhaseTypes) = [PhaseExplore; PhaseProposal]
       ∧ AllPhaseTypes !! n = Some PhaseProposal.
Proof.
  destruct (change_visits_phases_in_order (mkID "c") "n" "p" "none" "" 0
    (mkChange (mkID "c") "n" "p" StatusActive PhaseInit "none" "" 0 0)
    [OpAdvance PhaseExplore 1; OpAdvance PhaseTasks 2; OpAdvance PhaseProposal 3; OpAbort "r" 4;
     OpAdvance PhaseSpec 5])
    as (n & Hn & Hp); [reflexivity|]. exists n. split; [symmetry; exact Hn|exact Hp].
Defined.
