(* ===== verification/ApplyDomain.v ===== *)
(** * The apply board

    [internal/domain/apply]: Board, Group and Task aggregates with their
    transitions, the Iron Law #5 attempt budget, and the dependency check
    [ValidateDAG]. *)
From S2P Require Import Prelude Ids Envelope.

(** ** Statuses and errors (status.go, errors.go) *)

Inductive BoardStatus :=
  BoardStatusBuilding | BoardStatusRunning | BoardStatusCompleted | BoardStatusFailed.
Inductive GroupStatus :=
  GroupStatusPending | GroupStatusRunning | GroupStatusCompleted | GroupStatusFailed.
Inductive GroupBuildStatus :=
  | GroupBuildStatusPending | GroupBuildStatusSkipped
  | GroupBuildStatusPassed | GroupBuildStatusFailed.
Inductive TaskStatus :=
  | TaskStatusPending | TaskStatusClaimed | TaskStatusRunning
  | TaskStatusDone | TaskStatusFailed | TaskStatusBlocked.

#[global] Instance BoardStatus_eq_dec : EqDecision BoardStatus.
Proof. solve_decision. Defined.
#[global] Instance GroupStatus_eq_dec : EqDecision GroupStatus.
Proof. solve_decision. Defined.
#[global] Instance GroupBuildStatus_eq_dec : EqDecision GroupBuildStatus.
Proof. solve_decision. Defined.
#[global] Instance TaskStatus_eq_dec : EqDecision TaskStatus.
Proof. solve_decision. Defined.

Inductive apply_error :=
  | ErrInvalidBoardTransition | ErrInvalidGroupTransition | ErrInvalidGroupBuildTransition
  | ErrInvalidTaskTransition | ErrAlreadyClaimed | ErrNotClaimed | ErrEscalationRequired
  | ErrBuildBudgetExhausted | ErrCycle | ErrEmptyDescription | ErrEmptyFilesPattern.

(** ** Task (task.go) *)

Definition MaxAttempts : Z := 3.

Record Task := mkTask {
  t_id : TaskID;
  t_groupID : GroupID;
  t_description : string;
  t_filesPattern : list string;
  t_status : TaskStatus;
  t_claimedBy : option SessionID;
  t_attempts : Z;
  t_envelope : option Envelope
}.

Definition NewTask (id : TaskID) (gid : GroupID) (description : string)
    (filesPattern : list string) : result apply_error Task :=
  if str_empty description then Err ErrEmptyDescription
  else if bool_decide (filesPattern = []) then Err ErrEmptyFilesPattern
  else Ok (mkTask id gid description filesPattern TaskStatusPending None 0 None).

Definition HydrateTask (id : TaskID) (gid : GroupID) (description : string)
    (filesPattern : list string) (status : TaskStatus) (claimedBy : option SessionID)
    (attempts : Z) (env : option Envelope) : result apply_error Task :=
  if str_empty description then Err ErrEmptyDescription
  else if bool_decide (filesPattern = []) then Err ErrEmptyFilesPattern
  else Ok (mkTask id gid description filesPattern status claimedBy attempts env).

Definition t_with (status : TaskStatus) (claimedBy : option SessionID) (attempts : Z)
    (env : option Envelope) (t : Task) : Task :=
  mkTask (t_id t) (t_groupID t) (t_description t) (t_filesPattern t) status claimedBy
    attempts env.

Definition Task_Claim (sid : SessionID) (t : Task) : result apply_error Task :=
  if bool_decide (t_status t ≠ TaskStatusPending) then Err ErrAlreadyClaimed
  else Ok (t_with TaskStatusClaimed (Some sid) (t_attempts t) (t_envelope t) t).

Definition Task_Release (t : Task) : result apply_error Task :=
  if bool_decide (t_status t ≠ TaskStatusClaimed) && bool_decide (t_status t ≠ TaskStatusRunning)
  then Err ErrInvalidTaskTransition
  else Ok (t_with TaskStatusPending None (t_attempts t) (t_envelope t) t).

Definition Task_MarkRunning (t : Task) : result apply_error Task :=
  if bool_decide (t_status t ≠ TaskStatusClaimed) then Err ErrInvalidTaskTransition
  else Ok (t_with TaskStatusRunning (t_claimedBy t) (t_attempts t) (t_envelope t) t).

Definition Task_Complete (env : option Envelope) (t : Task) : result apply_error Task :=
  if bool_decide (t_status t ≠ TaskStatusRunning) then Err ErrInvalidTaskTransition
  else match env with
       | None => Err ErrInvalidTaskTransition
       | Some e => Ok (t_with TaskStatusDone (t_claimedBy t) (t_attempts t) (Some e) t)
       end.

(** [RecordAttempt] updates the task on every path and returns its error
    beside it. *)
Definition Task_RecordAttempt (success : bool) (t : Task) : Task * option apply_error :=
  let attempts := (t_attempts t + 1)%Z in
  let put s := t_with s (t_claimedBy t) attempts (t_envelope t) t in
  if success then (put TaskStatusDone, None)
  else if (MaxAttempts <=? attempts)%Z then (put TaskStatusBlocked, Some ErrEscalationRequired)
  else (put TaskStatusFailed, None).

(** ** Group (group.go) *)

Record Group := mkGroup {
  g_id : GroupID;
  g_boardID : BoardID;
  g_name : string;
  g_dependsOn : list GroupID;
  g_tasks : list Task;
  g_status : GroupStatus;
  g_worktreePath : string;
  g_branchName : string;
  g_buildStatus : GroupBuildStatus;
  g_buildAttempts : Z
}.

Definition NewGroup (id : GroupID) (bid : BoardID) (name : string) (dependsOn : list GroupID)
    : Group :=
  mkGroup id bid name dependsOn [] GroupStatusPending "" "" GroupBuildStatusPending 0.

Definition HydrateGroup (id : GroupID) (bid : BoardID) (name : string)
    (dependsOn : list GroupID) (status : GroupStatus) (worktreePath branchName : string)
    (buildStatus : GroupBuildStatus) (buildAttempts : Z) : Group :=
  mkGroup id bid name dependsOn [] status worktreePath branchName buildStatus buildAttempts.

Definition g_with_status (s : GroupStatus) (g : Group) : Group :=
  mkGroup (g_id g) (g_boardID g) (g_name g) (g_dependsOn g) (g_tasks g) s (g_worktreePath g)
    (g_branchName g) (g_buildStatus g) (g_buildAttempts g).

Definition g_with_tasks (ts : list Task) (g : Group) : Group :=
  mkGroup (g_id g) (g_boardID g) (g_name g) (g_dependsOn g) ts (g_status g) (g_worktreePath g)
    (g_branchName g) (g_buildStatus g) (g_buildAttempts g).

Definition g_with_build (bs : GroupBuildStatus) (n : Z) (g : Group) : Group :=
  mkGroup (g_id g) (g_boardID g) (g_name g) (g_dependsOn g) (g_tasks g) (g_status g)
    (g_worktreePath g) (g_branchName g) bs n.

Definition Group_AddTask (t : Task) (g : Group) : result apply_error Group :=
  if bool_decide (g_status g ≠ GroupStatusPending) then Err ErrInvalidGroupTransition
  else Ok (g_with_tasks (g_tasks g ++ [t]) g).

Definition Group_AssignWorktree (path branch : string) (g : Group) : Group :=
  mkGroup (g_id g) (g_boardID g) (g_name g) (g_dependsOn g) (g_tasks g) (g_status g)
    path branch (g_buildStatus g) (g_buildAttempts g).

Definition Group_Start (g : Group) : result apply_error Group :=
  if bool_decide (g_status g ≠ GroupStatusPending) then Err ErrInvalidGroupTransition
  else Ok (g_with_status GroupStatusRunning g).

Definition Group_Complete (g : Group) : result apply_error Group :=
  if bool_decide (g_status g ≠ GroupStatusRunning) then Err ErrInvalidGroupTransition
  else Ok (g_with_status GroupStatusCompleted g).

Definition Group_Fail (g : Group) : result apply_error Group :=
  if bool_decide (g_status g = GroupStatusCompleted) || bool_decide (g_status g = GroupStatusFailed)
  then Err ErrInvalidGroupTransition
  else Ok (g_with_status GroupStatusFailed g).

Definition Group_SkipBuild (g : Group) : result apply_error Group :=
  if bool_decide (g_buildStatus g ≠ GroupBuildStatusPending) then Err ErrInvalidGroupBuildTransition
  else Ok (g_with_build GroupBuildStatusSkipped (g_buildAttempts g) g).

Definition Group_RecordBuildAttempt (success : bool) (g : Group) : Group * option apply_error :=
  let n := (g_buildAttempts g + 1)%Z in
  if success then (g_with_build GroupBuildStatusPassed n g, None)
  else if (MaxAttempts <=? n)%Z
       then (g_with_build GroupBuildStatusFailed n g, Some ErrBuildBudgetExhausted)
  else (g_with_build (g_buildStatus g) n g, None).

Definition AttachTaskToGroup (g : Group) (t : Task) : Group :=
  g_with_tasks (g_tasks g ++ [t]) g.

(** ** Board (board.go) *)

Record Board := mkBoard {
  b_id : BoardID;
  b_phaseID : PhaseID;
  b_status : BoardStatus;
  b_groups : list Group
}.

Definition NewBoard (id : BoardID) (pid : PhaseID) : Board :=
  mkBoard id pid BoardStatusBuilding [].
Definition HydrateBoard (id : BoardID) (pid : PhaseID) (st : BoardStatus) (gs : list Group)
    : Board := mkBoard id pid st gs.

Definition Board_AddGroup (g : Group) (b : Board) : result apply_error Board :=
  if bool_decide (b_status b ≠ BoardStatusBuilding) then Err ErrInvalidBoardTransition
  else Ok (mkBoard (b_id b) (b_phaseID b) (b_status b) (b_groups b ++ [g])).

Definition b_with_status (s : BoardStatus) (b : Board) : Board :=
  mkBoard (b_id b) (b_phaseID b) s (b_groups b).

Definition Board_Start (b : Board) : result apply_error Board :=
  if bool_decide (b_status b ≠ BoardStatusBuilding) then Err ErrInvalidBoardTransition
  else Ok (b_with_status BoardStatusRunning b).

Definition Board_Complete (b : Board) : result apply_error Board :=
  if bool_decide (b_status b ≠ BoardStatusRunning) then Err ErrInvalidBoardTransition
  else Ok (b_with_status BoardStatusCompleted b).

Definition Board_Fail (b : Board) : result apply_error Board :=
  if bool_decide (b_status b = BoardStatusCompleted) || bool_decide (b_status b = BoardStatusFailed)
  then Err ErrInvalidBoardTransition
  else Ok (b_with_status BoardStatusFailed b).

(** ** ValidateDAG (group.go)

    The depth-first search of the source: [state] marks a group as being
    visited or done, [byID] finds a group by its identifier (the last one of
    that identifier), dependencies on unknown groups are skipped.  The
    recursion is bounded by [fuel]; [None] means the fuel ran out. *)
Inductive visit_state := visiting | done_visit.

Abbreviation dfs_state := (gmap GroupID visit_state).
Abbreviation id_map := (gmap GroupID Group).

Definition index_groups (groups : list Group) : id_map :=
  foldl (λ m g, <[g_id g := g]> m) ∅ groups.

Section DFS.
Context (byID : id_map).

Section Loop.
Context (visit : Group → dfs_state → option (result apply_error dfs_state)).

(** [for _, depID := range g.dependsOn] *)
Fixpoint visit_deps (deps : list GroupID) (st : dfs_state)
    : option (result apply_error dfs_state) :=
  match deps with
  | [] => Some (Ok st)
  | d :: deps' =>
      match byID !! d with
      | None => visit_deps deps' st
      | Some dep =>
          match visit dep st with
          | Some (Ok st') => visit_deps deps' st'
          | r => r
          end
      end
  end.
End Loop.

Fixpoint visit (fuel : nat) (g : Group) (st : dfs_state)
    : option (result apply_error dfs_state) :=
  match fuel with
  | O => None
  | S fuel' =>
      match st !! g_id g with
      | Some visiting => Some (Err ErrCycle)
      | Some done_visit => Some (Ok st)
      | None =>
          match visit_deps (visit fuel') (g_dependsOn g) (<[g_id g := visiting]> st) with
          | Some (Ok st') => Some (Ok (<[g_id g := done_visit]> st'))
          | r => r
          end
      end
  end.

Fixpoint visit_all (fuel : nat) (groups : list Group) (st : dfs_state)
    : option (result apply_error dfs_state) :=
  match groups with
  | [] => Some (Ok st)
  | g :: gs =>
      match visit fuel g st with
      | Some (Ok st') => visit_all fuel gs st'
      | r => r
      end
  end.
End DFS.

(** One more level of recursion than there are groups is always enough (see
    [visit_total]). *)
Definition ValidateDAG (groups : list Group) : option (result apply_error unit) :=
  result_map (λ _, tt) <$>
    visit_all (index_groups groups) (S (length groups)) groups ∅.
