(* ===== verification/ApplyDag.v ===== *)
(** * Correctness of ValidateDAG

    The depth-first search of [internal/domain/apply/group.go] terminates and
    reports a cycle exactly when the dependency graph of the groups has one. *)
From S2P Require Import Prelude Ids ApplyDomain.
From stdpp Require Import relations.

Section Search.
Context (byID : id_map).
Context (Hid : ∀ k g, byID !! k = Some g → g_id g = k).

(** [x] depends on [y], both known groups. *)
Definition edge (x y : GroupID) : Prop :=
  ∃ g, byID !! x = Some g ∧ y ∈ g_dependsOn g ∧ is_Some (byID !! y).

(** Every dependency chain from [x] ends. *)
Definition grounded (x : GroupID) : Prop := Acc (flip edge) x.

Definition done_grounded (st : dfs_state) : Prop :=
  ∀ x, st !! x = Some done_visit → grounded x.

(** The search only adds marks, finishes what it started and leaves the
    groups being visited as they were. *)
Definition extends (st st' : dfs_state) : Prop :=
  (∀ x, st !! x = Some done_visit → st' !! x = Some done_visit) ∧
  (∀ x, st' !! x = Some visiting ↔ st !! x = Some visiting).

#[local] Instance extends_preorder : PreOrder extends.
Proof. split; [intros ?|intros ?? ? [] []]; split; naive_solver. Qed.

Definition known (g : Group) : Prop := byID !! g_id g = Some g.

Lemma known_lookup d g : byID !! d = Some g → known g ∧ g_id g = d.
Proof. intros Hg. unfold known. by rewrite (Hid _ _ Hg). Qed.

Lemma done_grounded_mark st x :
  done_grounded st → done_grounded (<[x := visiting]> st).
Proof.
  intros Hg y. destruct (decide (y = x)) as [->|Hne].
  - by rewrite lookup_insert_eq.
  - rewrite lookup_insert_ne by done. apply Hg.
Qed.

(** *** A search that succeeds *)

Lemma visit_deps_Ok fuel deps st st' :
  (∀ g st st', known g → visit byID fuel g st = Some (Ok st') → done_grounded st →
     done_grounded st' ∧ st' !! g_id g = Some done_visit ∧ extends st st') →
  visit_deps byID (visit byID fuel) deps st = Some (Ok st') → done_grounded st →
  done_grounded st' ∧ extends st st' ∧
  (∀ y, y ∈ deps → is_Some (byID !! y) → st' !! y = Some done_visit).
Proof.
  intros Hvisit. revert st. induction deps as [|d deps IH]; intros st Hv Hg; simpl in Hv.
  { simplify_eq. split_and!; [done..|set_solver]. }
  destruct (byID !! d) as [dep|] eqn:Hd.
  - destruct (visit byID fuel dep st) as [[st1|]|] eqn:Hd1; simplify_eq.
    destruct (known_lookup _ _ Hd) as [Hk Hi].
    destruct (Hvisit _ _ _ Hk Hd1 Hg) as (Hg1 & Hdone & He1).
    destruct (IH _ Hv Hg1) as (Hg2 & He2 & Hall).
    split_and!; [done|by etrans|]. intros y [->|Hy]%elem_of_cons Hs; [|auto].
    rewrite Hi in Hdone. by apply He2.
  - destruct (IH _ Hv Hg) as (Hg2 & He2 & Hall). split_and!; [done..|].
    intros y [->|Hy]%elem_of_cons Hs; [|auto].
    rewrite Hd in Hs. by destruct Hs.
Qed.

Lemma visit_Ok fuel g st st' :
  known g → visit byID fuel g st = Some (Ok st') → done_grounded st →
  done_grounded st' ∧ st' !! g_id g = Some done_visit ∧ extends st st'.
Proof.
  revert g st st'. induction fuel as [|fuel IH]; intros g st st' Hk Hv Hg; [done|].
  simpl in Hv. destruct (st !! g_id g) as [[]|] eqn:Hx; simplify_eq.
  { by split_and!. }
  destruct (visit_deps _ _ _ _) as [[st1|]|] eqn:Hd; simplify_eq.
  apply visit_deps_Ok in Hd as (Hg1 & [He1 He2] & Hall); [|exact IH|by apply done_grounded_mark].
  assert (Hgx : grounded (g_id g)).
  { constructor. intros y (g' & Hg' & Hy & Hs). apply Hg1, Hall; [|done].
    unfold known in Hk. by simplify_eq. }
  split_and!.
  - intros x. destruct (decide (x = g_id g)) as [->|Hne]; [done|].
    rewrite lookup_insert_ne by done. apply Hg1.
  - by rewrite lookup_insert_eq.
  - split; intros x; (destruct (decide (x = g_id g)) as [->|Hne];
      [rewrite lookup_insert_eq|rewrite lookup_insert_ne by done]).
    + done.
    + intros Hxd. apply He1. by rewrite lookup_insert_ne by done.
    + rewrite Hx. naive_solver.
    + rewrite He2, lookup_insert_ne by done. done.
Qed.

(** *** A search that reports a cycle *)

(** Every group being visited leads to [x]. *)
Definition leads_to (st : dfs_state) (x : GroupID) : Prop :=
  ∀ z, st !! z = Some visiting → tc edge z x.

Lemma visit_deps_Err fuel g deps st e :
  known g → (∀ y, y ∈ deps → y ∈ g_dependsOn g) →
  (∀ g st e, known g → visit byID fuel g st = Some (Err e) → done_grounded st →
     leads_to st (g_id g) → e = ErrCycle ∧ ∃ c, tc edge c c) →
  done_grounded st →
  (∀ z, st !! z = Some visiting → rtc edge z (g_id g)) →
  visit_deps byID (visit byID fuel) deps st = Some (Err e) →
  e = ErrCycle ∧ ∃ c, tc edge c c.
Proof.
  intros Hk Hsub Hvisit. revert st.
  induction deps as [|d deps IH]; intros st Hg Hl Hv; simpl in Hv; [done|].
  destruct (byID !! d) as [dep|] eqn:Hd; [|apply (IH ltac:(set_solver) st); auto].
  destruct (known_lookup _ _ Hd) as [Hkd Hi].
  assert (Hlead : leads_to st (g_id dep)).
  { intros z Hz. rewrite Hi. apply tc_rtc_l with (g_id g); [by apply Hl|].
    apply tc_once. exists g. split_and!; [done|set_solver|eauto]. }
  destruct (visit byID fuel dep st) as [[st1|e1]|] eqn:Hd1; simplify_eq.
  - destruct (visit_Ok _ _ _ _ Hkd Hd1 Hg) as (Hg1 & _ & [_ He]).
    apply (IH ltac:(set_solver) st1); [done| |done]. intros z Hz. apply Hl, He, Hz.
  - eauto.
Qed.

Lemma visit_Err fuel g st e :
  known g → visit byID fuel g st = Some (Err e) → done_grounded st →
  leads_to st (g_id g) → e = ErrCycle ∧ ∃ c, tc edge c c.
Proof.
  revert g st e. induction fuel as [|fuel IH]; intros g st e Hk Hv Hg Hl; [done|].
  simpl in Hv. destruct (st !! g_id g) as [[]|] eqn:Hx; simplify_eq.
  { split; [done|]. exists (g_id g). by apply Hl. }
  destruct (visit_deps _ _ _ _) as [[st1|e1]|] eqn:Hd; simplify_eq.
  eapply visit_deps_Err in Hd; eauto.
  - by apply done_grounded_mark.
  - intros z. destruct (decide (z = g_id g)) as [->|Hne]; [by intros _|].
    rewrite lookup_insert_ne by done. intros Hz. by apply tc_rtc, Hl.
Qed.

(** *** Termination *)

(** The groups not yet marked. *)
Definition unseen (st : dfs_state) : nat := size (dom byID ∖ dom st : gset GroupID).

Lemma unseen_mono st st' : dom st ⊆ dom st' → unseen st' <= unseen st.
Proof. intros Hd. unfold unseen. apply subseteq_size. set_solver. Qed.

Lemma unseen_mark st g v :
  known g → st !! g_id g = None → unseen (<[g_id g := v]> st) < unseen st.
Proof.
  intros Hk Hn. unfold unseen. apply subset_size. rewrite dom_insert_L.
  assert (g_id g ∈ dom byID) by (apply elem_of_dom; eauto).
  assert (g_id g ∉ dom st) by (by apply not_elem_of_dom). set_solver.
Qed.

Lemma visit_deps_total fuel deps st :
  (∀ g st, known g → unseen st < fuel → ∃ r, visit byID fuel g st = Some r ∧
     ∀ st', r = Ok st' → dom st ⊆ dom st') →
  unseen st < fuel →
  ∃ r, visit_deps byID (visit byID fuel) deps st = Some r ∧
       ∀ st', r = Ok st' → dom st ⊆ dom st'.
Proof.
  intros Hvisit. revert st. induction deps as [|d deps IH]; intros st Hu; simpl.
  { eexists; split; [done|]. naive_solver. }
  destruct (byID !! d) as [dep|] eqn:Hd; [|auto].
  destruct (Hvisit dep st) as (r & -> & Hr); [by apply (known_lookup d)|done|].
  destruct r as [st1|e]; [|eexists; split; [done|naive_solver]].
  specialize (Hr st1 eq_refl). destruct (IH st1) as (r & -> & Hr').
  { pose proof (unseen_mono _ _ Hr). lia. }
  eexists; split; [done|]. intros st' ->. etrans; [done|by apply Hr'].
Qed.

Lemma visit_total fuel g st :
  known g → unseen st < fuel →
  ∃ r, visit byID fuel g st = Some r ∧ ∀ st', r = Ok st' → dom st ⊆ dom st'.
Proof.
  revert g st. induction fuel as [|fuel IH]; intros g st Hk Hu; [lia|].
  simpl. destruct (st !! g_id g) as [[]|] eqn:Hx;
    [eexists; split; [done|naive_solver]..|].
  pose proof (unseen_mark st g visiting Hk Hx) as Hm.
  destruct (visit_deps_total fuel (g_dependsOn g) (<[g_id g:=visiting]> st)) as (r & -> & Hr);
    [exact IH|lia|].
  destruct r as [st1|e]; (eexists; split; [done|]); [|naive_solver].
  intros st' [= <-]. specialize (Hr st1 eq_refl).
  rewrite dom_insert_L in Hr. rewrite dom_insert_L. set_solver.
Qed.

Lemma visit_all_spec fuel groups st :
  Forall known groups → unseen st < fuel → done_grounded st →
  (∀ z, st !! z ≠ Some visiting) →
  ∃ r, visit_all byID fuel groups st = Some r ∧
    match r with
    | Ok st' => Forall (λ g, grounded (g_id g)) groups
    | Err e => e = ErrCycle ∧ ∃ c, tc edge c c
    end.
Proof.
  intros Hk. revert st. induction Hk as [|g gs Hk Hks IH]; intros st Hu Hg Hno; simpl.
  { eexists; split; [done|]. constructor. }
  destruct (visit_total fuel g st Hk Hu) as (r & Hv & Hr). rewrite Hv.
  destruct r as [st1|e].
  - destruct (visit_Ok _ _ _ _ Hk Hv Hg) as (Hg1 & Hdone & [_ He]).
    destruct (IH st1) as (r & -> & Hspec); [|done|naive_solver|].
    { pose proof (unseen_mono _ _ (Hr st1 eq_refl)). lia. }
    eexists; split; [done|]. destruct r; [|done]. constructor; auto.
  - eexists; split; [done|]. eapply visit_Err; eauto. intros z Hz. by destruct (Hno z).
Qed.

Lemma grounded_no_cycle x : grounded x → ¬ tc edge x x.
Proof.
  induction 1 as [x _ IH]. intros Hc.
  assert (∃ y, edge x y ∧ tc edge y y) as (y & Hy & Hcy).
  { inversion Hc as [? ? He|? y ? He Hr]; subst; [eauto|].
    exists y. split; [done|]. eapply tc_r; eauto. }
  by apply (IH y).
Qed.
End Search.

(** ** The groups of a board *)

Lemma index_fold_notin (gs : list Group) (m : id_map) k :
  k ∉ g_id <$> gs → foldl (λ m g, <[g_id g := g]> m) m gs !! k = m !! k.
Proof.
  revert m. induction gs as [|h gs IH]; intros m Hk; simpl; [done|].
  rewrite fmap_cons, not_elem_of_cons in Hk. destruct Hk as [Hne Hk].
  by rewrite IH, lookup_insert_ne by done.
Qed.

Lemma index_groups_lookup groups g :
  NoDup (g_id <$> groups) → g ∈ groups → index_groups groups !! g_id g = Some g.
Proof.
  unfold index_groups. generalize (∅ : id_map). induction groups as [|g' gs IH]; simpl.
  { set_solver. }
  intros m. rewrite NoDup_cons. intros [Hn Hd] [->|Hin]%elem_of_cons; [|by apply IH].
  by rewrite index_fold_notin, lookup_insert_eq.
Qed.

Lemma index_groups_inv groups k g :
  index_groups groups !! k = Some g → g_id g = k ∧ g ∈ groups.
Proof.
  unfold index_groups.
  assert (H0 : ∀ k g, (∅ : id_map) !! k = Some g → g_id g = k ∧ g ∈ @nil Group) by (intros ??; by rewrite lookup_empty).
  revert H0. change groups with ([] ++ groups) at 2. generalize (∅ : id_map), (@nil Group).
  induction groups as [|h gs IH]; intros m pre Hm Hl; simpl in *.
  { rewrite app_nil_r. auto. }
  rewrite (assoc (++) pre [h] gs). apply (IH (<[g_id h:=h]> m)); [|done].
  intros k' g'. destruct (decide (g_id h = k')) as [<-|Hne].
  - rewrite lookup_insert_eq. intros; simplify_eq. set_solver.
  - rewrite lookup_insert_ne by done. intros [? ?]%Hm. set_solver.
Qed.

(** Group [x] of the list depends on group [y] of the list. *)
Definition depends (groups : list Group) (x y : GroupID) : Prop :=
  ∃ g h, g ∈ groups ∧ h ∈ groups ∧ g_id g = x ∧ g_id h = y ∧ y ∈ g_dependsOn g.

Lemma edge_depends groups x y :
  NoDup (g_id <$> groups) → edge (index_groups groups) x y ↔ depends groups x y.
Proof.
  intros Hn. unfold edge, depends. split.
  - intros (g & Hg & Hy & h & Hh). apply index_groups_inv in Hg as [Hi ?].
    apply index_groups_inv in Hh as [Hh ?]. by exists g, h.
  - intros (g & h & Hg & Hh & <- & <- & Hy). exists g.
    rewrite !index_groups_lookup by done. eauto.
Qed.

Lemma ValidateDAG_verdict groups :
  NoDup (g_id <$> groups) →
  (ValidateDAG groups = Some (Ok tt) ↔ ∀ x, ¬ tc (depends groups) x x) ∧
  (ValidateDAG groups = Some (Err ErrCycle) ↔ ∃ x, tc (depends groups) x x).
Proof.
  intros Hn.
  assert (Htc : ∀ x, tc (depends groups) x x ↔ tc (edge (index_groups groups)) x x).
  { intros x. split; apply (tc_congruence id); intros ? ?; by apply edge_depends. }
  destruct (visit_all_spec (index_groups groups) (λ k g H, proj1 (index_groups_inv groups k g H))
    (S (length groups)) groups ∅) as (r & Hr & Hspec).
  - apply Forall_forall. intros g Hg. by apply index_groups_lookup.
  - apply Nat.lt_succ_r. unfold unseen. rewrite dom_empty_L, difference_empty_L.
    rewrite <-(length_fmap g_id groups), <-(size_list_to_set (C:=gset GroupID)) by done.
    apply subseteq_size. intros x [g [<- Hg]%index_groups_inv]%elem_of_dom.
    apply elem_of_list_to_set, list_elem_of_fmap_2, Hg.
  - intros x. by rewrite lookup_empty.
  - intros z. by rewrite lookup_empty.
  - unfold ValidateDAG. rewrite Hr. destruct r as [st|e]; simpl.
    + assert (Hno : ∀ x, ¬ tc (depends groups) x x).
      { intros x Hc. assert (Hg : x ∈ g_id <$> groups).
        { inversion Hc as [? ? (g & ? & ? & ? & <- & _)|? ? ? (g & ? & ? & ? & <- & _)]; subst;
            apply list_elem_of_fmap_2; done. }
        apply list_elem_of_fmap in Hg as (g & -> & Hg). apply Htc in Hc. revert Hc.
        apply grounded_no_cycle. by eapply Forall_forall in Hspec. }
      split; [naive_solver|]. split; [done|]. intros [x Hx]. by destruct (Hno x).
    + destruct Hspec as [-> [c Hc%Htc]]. split; [|naive_solver].
      split; [done|]. intros Hno. by destruct (Hno c).
Qed.

(** C17: on groups with distinct identifiers, [ValidateDAG] always terminates
    with an answer; it answers nil exactly when no group depends on itself
    through known groups, and otherwise answers ErrCycle. *)
Theorem ValidateDAG_decides_acyclicity groups :
  NoDup (g_id <$> groups) →
  (ValidateDAG groups = Some (Ok tt) ↔ ∀ x, ¬ tc (depends groups) x x) ∧
  (ValidateDAG groups = Some (Err ErrCycle) ↔ ∃ x, tc (depends groups) x x).
Proof. apply ValidateDAG_verdict. Qed.


(** Two groups that depend on each other, and a chain of two. *)
Definition mk_dep (a : string) (deps : list string) : Group :=
  NewGroup (mkID a) (mkID "b") a (mkID <$> deps).

Lemma ValidateDAG_decides_acyclicity_witness :
  ValidateDAG [mk_dep "x" ["y"]; mk_dep "y" ["x"; "unknown"]] = Some (Err ErrCycle)
  ∧ (∃ x, tc (depends [mk_dep "x" ["y"]; mk_dep "y" ["x"; "unknown"]]) x x)
  ∧ (∀ x, ¬ tc (depends [mk_dep "x" ["y"]; mk_dep "y" []]) x x).
Proof.
  split; [vm_compute; reflexivity|]. split.
  - apply (ValidateDAG_decides_acyclicity [mk_dep "x" ["y"]; mk_dep "y" ["x"; "unknown"]]).
    + apply (bool_decide_unpack _). vm_compute. exact I.
    + vm_compute. reflexivity.
  - apply (ValidateDAG_decides_acyclicity [mk_dep "x" ["y"]; mk_dep "y" []]).
    + apply (bool_decide_unpack _). vm_compute. exact I.
    + vm_compute. reflexivity.
Defined.
