(* ===== verification/Session.v ===== *)
(** * Agent sessions and worktrees

    [internal/domain/session]: one invocation of an agent command, its roles,
    providers and lifecycle.  [internal/domain/worktree]: the git worktree a
    session of the apply phase works in. *)
From S2P Require Import Prelude Ids Json Envelope.

(** ** Roles and providers (role.go) *)

(** Both are Go string types with a closed set of constants. *)
Definition RoleSDDInit : string := "sdd-init".
Definition RoleSDDExplore : string := "sdd-explore".
Definition RoleSDDProposal : string := "sdd-proposal".
Definition RoleSDDSpec : string := "sdd-spec".
Definition RoleSDDDesign : string := "sdd-design".
Definition RoleSDDTasks : string := "sdd-tasks".
Definition RoleSDDVerify : string := "sdd-verify".
Definition RoleSDDArchive : string := "sdd-archive".
Definition RoleTeamLead : string := "team-lead".
Definition RoleImplement : string := "implement".

Definition AgentRole_IsValid (r : string) : bool :=
  bool_decide (r ∈ [ RoleSDDInit; RoleSDDExplore; RoleSDDProposal; RoleSDDSpec;
                     RoleSDDDesign; RoleSDDTasks; RoleSDDVerify; RoleSDDArchive;
                     RoleTeamLead; RoleImplement ]).

Definition ProviderOpenCode : string := "opencode".

Definition Provider_IsValidV1 (p : string) : bool := bool_decide (p = ProviderOpenCode).

Definition Provider_IsValid (p : string) : bool :=
  bool_decide (p ∈ [ ProviderOpenCode; "ollama"; "aider"; "claude-code"; "cursor";
                     "gemini"; "mcp" ]%string).

(** ** Session (status.go, session.go, errors.go) *)

Inductive SessionStatus :=
  SessPending | SessRunning | SessDone | SessFailed | SessTimeout.

#[global] Instance SessionStatus_eq_dec : EqDecision SessionStatus.
Proof. solve_decision. Defined.

Definition ss_IsTerminal (s : SessionStatus) : bool :=
  bool_decide (s = SessDone) || bool_decide (s = SessFailed) || bool_decide (s = SessTimeout).

Inductive session_error :=
  | SessErrInvalidRole | SessErrInvalidProvider | SessErrEmptyPromptHash
  | SessErrEmptyCommand | SessErrTerminal | SessErrNotRunning.

Record Session := mkSession {
  s_id : SessionID;
  s_changeID : ChangeID;
  s_phaseID : PhaseID;
  s_role : string;
  s_provider : string;
  s_worktreeID : option WorktreeID;
  s_promptSHA256 : string;
  s_command : string;
  s_status : SessionStatus;
  s_exitCode : option Z;
  s_envelope : option Envelope;
  s_startedAt : Time;
  s_endedAt : option Time
}.

Definition Session_New (id : SessionID) (cid : ChangeID) (pid : PhaseID)
    (role provider promptSHA256 command : string) (startedAt : Time)
    : result session_error Session :=
  if negb (AgentRole_IsValid role) then Err SessErrInvalidRole
  else if negb (Provider_IsValid provider) then Err SessErrInvalidProvider
  else if str_empty promptSHA256 then Err SessErrEmptyPromptHash
  else if str_empty command then Err SessErrEmptyCommand
  else Ok (mkSession id cid pid role provider None promptSHA256 command SessPending None None
             startedAt None).

Definition Session_Hydrate (id : SessionID) (cid : ChangeID) (pid : PhaseID)
    (role provider : string) (wid : option WorktreeID) (promptSHA256 command : string)
    (status : SessionStatus) (exitCode : option Z) (env : option Envelope) (startedAt : Time)
    (endedAt : option Time) : Session :=
  mkSession id cid pid role provider wid promptSHA256 command status exitCode env startedAt
    endedAt.

Definition s_with (status : SessionStatus) (exitCode : option Z) (env : option Envelope)
    (endedAt : option Time) (s : Session) : Session :=
  mkSession (s_id s) (s_changeID s) (s_phaseID s) (s_role s) (s_provider s) (s_worktreeID s)
    (s_promptSHA256 s) (s_command s) status exitCode env (s_startedAt s) endedAt.

Definition Session_AssignWorktree (wid : WorktreeID) (s : Session) : Session :=
  mkSession (s_id s) (s_changeID s) (s_phaseID s) (s_role s) (s_provider s) (Some wid)
    (s_promptSHA256 s) (s_command s) (s_status s) (s_exitCode s) (s_envelope s) (s_startedAt s)
    (s_endedAt s).

Definition Session_MarkRunning (s : Session) : result session_error Session :=
  if bool_decide (s_status s ≠ SessPending) then Err SessErrTerminal
  else Ok (s_with SessRunning (s_exitCode s) (s_envelope s) (s_endedAt s) s).

Definition Session_RecordOutcome (env : option Envelope) (exit : Z) (endedAt : Time) (s : Session)
    : result session_error Session :=
  if bool_decide (s_status s ≠ SessRunning) then Err SessErrNotRunning
  else Ok (s_with (if (exit =? 0)%Z then SessDone else SessFailed) (Some exit) env
             (Some endedAt) s).

Definition Session_MarkTimeout (endedAt : Time) (s : Session) : result session_error Session :=
  if ss_IsTerminal (s_status s) then Err SessErrTerminal
  else Ok (s_with SessTimeout (s_exitCode s) (s_envelope s) (Some endedAt) s).

(** ** Worktree (worktree.go) *)

Inductive WorktreeStatus := WtCreated | WtLocked | WtReleased | WtCleaned.

#[global] Instance WorktreeStatus_eq_dec : EqDecision WorktreeStatus.
Proof. solve_decision. Defined.

Inductive worktree_error := WtErrInvalidTransition | WtErrEmptyPath | WtErrEmptyBranch.

Record Worktree := mkWorktree {
  w_id : WorktreeID;
  w_sessionID : option SessionID;
  w_path : string;
  w_branch : string;
  w_status : WorktreeStatus;
  w_createdAt : Time;
  w_cleanedAt : option Time
}.

Definition Worktree_New (id : WorktreeID) (sid : option SessionID) (path branch : string)
    (createdAt : Time) : result worktree_error Worktree :=
  if str_empty path then Err WtErrEmptyPath
  else if str_empty branch then Err WtErrEmptyBranch
  else Ok (mkWorktree id sid path branch WtCreated createdAt None).

Definition w_with (s : WorktreeStatus) (c : option Time) (w : Worktree) : Worktree :=
  mkWorktree (w_id w) (w_sessionID w) (w_path w) (w_branch w) s (w_createdAt w) c.

Definition Worktree_Lock (w : Worktree) : result worktree_error Worktree :=
  if bool_decide (w_status w ≠ WtCreated) then Err WtErrInvalidTransition
  else Ok (w_with WtLocked (w_cleanedAt w) w).

Definition Worktree_Release (w : Worktree) : result worktree_error Worktree :=
  if bool_decide (w_status w ≠ WtLocked) && bool_decide (w_status w ≠ WtCreated)
  then Err WtErrInvalidTransition
  else Ok (w_with WtReleased (w_cleanedAt w) w).

Definition Worktree_Clean (cleanedAt : Time) (w : Worktree) : result worktree_error Worktree :=
  if bool_decide (w_status w = WtCleaned) then Err WtErrInvalidTransition
  else Ok (w_with WtCleaned (Some cleanedAt) w).

(** ** Lifecycles as step relations *)

Inductive session_step : Session → Session → Prop :=
  | ss_assign wid s : session_step s (Session_AssignWorktree wid s)
  | ss_running s s' : Session_MarkRunning s = Ok s' → session_step s s'
  | ss_outcome env exit t s s' :
      Session_RecordOutcome env exit t s = Ok s' → session_step s s'
  | ss_timeout t s s' : Session_MarkTimeout t s = Ok s' → session_step s s'.

Inductive worktree_step : Worktree → Worktree → Prop :=
  | ws_lock w w' : Worktree_Lock w = Ok w' → worktree_step w w'
  | ws_release w w' : Worktree_Release w = Ok w' → worktree_step w w'
  | ws_clean t w w' : Worktree_Clean t w = Ok w' → worktree_step w w'.

Definition session_fresh (s : Session) : Prop :=
  ∃ id cid pid role prov sha cmd t, Session_New id cid pid role prov sha cmd t = Ok s.

Definition worktree_fresh (w : Worktree) : Prop :=
  ∃ id sid path branch t, Worktree_New id sid path branch t = Ok w.

(** What the audit trail reads off a session row. *)
Record session_wf (s : Session) : Prop := {
  swf_role : AgentRole_IsValid (s_role s) = true;
  swf_provider : Provider_IsValid (s_provider s) = true;
  swf_prompt : s_promptSHA256 s ≠ EmptyString;
  swf_command : s_command s ≠ EmptyString;
  swf_ended : is_Some (s_endedAt s) ↔ ss_IsTerminal (s_status s) = true;
  swf_done : s_status s = SessDone ↔ s_exitCode s = Some 0%Z;
  swf_failed : s_status s = SessFailed ↔ ∃ n, s_exitCode s = Some n ∧ n ≠ 0%Z;
  swf_envelope : is_Some (s_envelope s) → is_Some (s_exitCode s)
}.

Lemma session_fresh_wf s : session_fresh s → session_wf s.
Proof.
  intros (id & cid & pid & role & prov & sha & cmd & t & Hn). unfold Session_New in Hn.
  split_all; bool_facts. unfold str_empty in *. bool_facts.
  split; simpl; try done; naive_solver.
Qed.

Lemma session_step_wf s s' : session_wf s → session_step s s' → session_wf s'.
Proof.
  intros [Hr Hp Hs Hc He Hd Hf Hv] Hst.
  destruct Hst as [wid s|s s' H|env exit t s s' H|t s s' H]; [by split|..].
  - unfold Session_MarkRunning in H. case_bool_decide as Hb; simplify_eq.
    rewrite Hb in *. split; simpl; try done.
    + split; [done|]. intros Hx. by apply Hd in Hx.
    + split; [done|]. intros Hx. by apply Hf in Hx.
  - unfold Session_RecordOutcome in H. case_bool_decide as Hb; simplify_eq.
    clear Hd Hf Hv He. split; simpl; try done;
      destruct (Z.eqb_spec exit 0) as [->|Hne]; naive_solver.
  - unfold Session_MarkTimeout in H. destruct (ss_IsTerminal _) eqn:Hb; simplify_eq.
    split; simpl; try done.
    + split; [done|]. intros Hx%Hd. by rewrite Hx in Hb.
    + split; [done|]. intros Hx%Hf. by rewrite Hx in Hb.
Qed.

(** every session that can be reached from [New] has a known role and
    provider, a prompt hash and a command; it has an end time exactly when its
    status is terminal; it is done exactly when exit code 0 was recorded and
    failed exactly when another exit code was; an envelope is only ever
    recorded together with an exit code. *)
Theorem session_reachable_wf s :
  reachable session_fresh session_step s → session_wf s.
Proof. apply reachable_inv; eauto using session_fresh_wf, session_step_wf. Qed.

Definition sample_session (st : SessionStatus) (exit : option Z) (ended : option Time) : Session :=
  mkSession (mkID "s") (mkID "c") (mkID "p") RoleImplement ProviderOpenCode None "h" "cmd"
    st exit None 1 ended.

Lemma session_reachable_wf_witness :
  reachable session_fresh session_step (sample_session SessFailed (Some 7%Z) (Some 9%Z))
  ∧ session_wf (sample_session SessFailed (Some 7%Z) (Some 9%Z)).
Proof.
  assert (Hr : reachable session_fresh session_step
                 (sample_session SessFailed (Some 7%Z) (Some 9%Z))).
  { eapply reach_step; [|by apply (ss_outcome None 7 9 (sample_session SessRunning None None))].
    eapply reach_step; [|by apply (ss_running (sample_session SessPending None None))].
    apply reach_init. exists (mkID "s"), (mkID "c"), (mkID "p"), RoleImplement,
      ProviderOpenCode, "h"%string, "cmd"%string, 1%Z. vm_compute. reflexivity. }
  split; [exact Hr|]. apply session_reachable_wf. exact Hr.
Defined.

(** Position of a worktree in created, locked, released, cleaned. *)
Definition wt_rank (s : WorktreeStatus) : nat :=
  match s with WtCreated => 0 | WtLocked => 1 | WtReleased => 2 | WtCleaned => 3 end.

Lemma worktree_step_rank w w' :
  worktree_step w w' → (wt_rank (w_status w) < wt_rank (w_status w'))%nat.
Proof.
  destruct 1 as [w w' H|w w' H|t w w' H].
  - unfold Worktree_Lock in H. case_bool_decide as Hb; simplify_eq.
    rewrite Hb. simpl. lia.
  - unfold Worktree_Release in H. repeat case_bool_decide; simplify_eq/=;
      destruct (w_status w); simpl in *; try lia; naive_solver.
  - unfold Worktree_Clean in H. case_bool_decide; simplify_eq.
    destruct (w_status w); simpl in *; try lia; done.
Qed.

(** Consecutive states of a run. *)
Fixpoint chained {S} (step : S → S → Prop) (x : S) (l : list S) : Prop :=
  match l with [] => True | y :: l' => step x y ∧ chained step y l' end.

(** a worktree moves strictly forward through created, locked, released,
    cleaned, so it goes through at most three transitions in its life and is
    never locked again once released or used again once cleaned. *)
Theorem worktree_lifecycle_bounded w ws :
  chained worktree_step w ws →
  (length ws + wt_rank (w_status w) <= 3)%nat.
Proof.
  revert w. induction ws as [|w' ws IH]; intros w Hc; simpl in *.
  { destruct (w_status w); simpl; lia. }
  destruct Hc as [Hs Hc]. apply worktree_step_rank in Hs. specialize (IH _ Hc). lia.
Qed.

Definition sample_worktree (s : WorktreeStatus) (c : option Time) : Worktree :=
  mkWorktree (mkID "w") None "/wt" "br" s 0 c.

Lemma worktree_lifecycle_bounded_witness :
  chained worktree_step (sample_worktree WtCreated None)
    [sample_worktree WtLocked None; sample_worktree WtReleased None;
     sample_worktree WtCleaned (Some 4%Z)]
  ∧ (3 <= 3)%nat.
Proof.
  assert (Hc : chained worktree_step (sample_worktree WtCreated None)
    [sample_worktree WtLocked None; sample_worktree WtReleased None;
     sample_worktree WtCleaned (Some 4%Z)]).
  { repeat split; [by apply ws_lock|by apply ws_release|by apply (ws_clean 4)]. }
  split; [exact Hc|]. exact (worktree_lifecycle_bounded _ _ Hc).
Defined.
