(* ===== verification/Outbox.v ===== *)
(** * The transactional outbox

    [internal/domain/outbox]: the event entity.
    [internal/application/outbox/relay.go]: the poller that delivers pending
    events at least once with a capped exponential backoff.
    [internal/adapters/outbound/pg/outbox_repo.go]: the table behind it.

    The relay is written against an interface, [OutboxRepository], and its
    theorems are proved from the laws of that interface; [pg_outbox_laws]
    shows that the PostgreSQL repository keeps them. *)
From S2P Require Import Prelude Ids.
From stdpp Require Import sorting.

(** ** The event (domain/outbox/outbox.go) *)

Inductive OutboxStatus := OutboxPending | OutboxDelivered.

#[global] Instance OutboxStatus_eq_dec : EqDecision OutboxStatus.
Proof. solve_decision. Defined.

Definition EventPhaseArchived : string := "phase.archived".

Record Event := mkEvent {
  ev_id : OutboxID;
  ev_eventType : string;
  ev_payload : string;
  ev_status : OutboxStatus;
  ev_attempts : Z;
  ev_nextAttemptAt : Time;
  ev_createdAt : Time;
  ev_deliveredAt : Time          (* zero while pending *)
}.

#[global] Instance Event_eq_dec : EqDecision Event.
Proof. solve_decision. Defined.

Definition Event_New (id : OutboxID) (eventType payload : string) (createdAt : Time) : Event :=
  mkEvent id eventType payload OutboxPending 0 createdAt createdAt zeroTime.

Definition Event_Hydrate (id : OutboxID) (eventType payload : string) (status : OutboxStatus)
    (attempts : Z) (nextAttemptAt createdAt deliveredAt : Time) : Event :=
  mkEvent id eventType payload status attempts nextAttemptAt createdAt deliveredAt.

(** ** Backoff (relay.go) *)

Definition backoffBase : Duration := 10 * Second.
Definition backoffCeiling : Duration := 5 * Minute.
Definition maxShift : Z := 6.

Definition Backoff (attempts : Z) : Duration :=
  let attempts := if (attempts <? 0)%Z then 0%Z else attempts in
  if (maxShift <=? attempts)%Z then backoffCeiling else
  let d := shl64 backoffBase attempts in
  if (backoffCeiling <? d)%Z then backoffCeiling else d.

(** the retry delay is ten seconds doubled once per attempt and capped at
    five minutes, for every attempt count: the 64-bit shift never wraps, and
    longer histories never shorten the delay. *)
Theorem Backoff_capped_exponential n :
  Backoff n = Z.min (10 * Second * 2 ^ Z.max 0 n) (5 * Minute) ∧
  (∀ m, (m <= n)%Z → (Backoff m <= Backoff n)%Z).
Proof.
  assert (Hspec : ∀ n, Backoff n = Z.min (10 * Second * 2 ^ Z.max 0 n) (5 * Minute)).
  { clear n. intros n. unfold Backoff.
    set (a := if (n <? 0)%Z then 0%Z else n).
    assert (Ha : a = Z.max 0 n) by (unfold a; destruct (Z.ltb_spec n 0); lia).
    rewrite <-Ha. assert (Ha0 : (0 <= a)%Z) by lia. clearbody a. clear Ha n.
    destruct (Z.leb_spec maxShift a) as [Hle|Hlt].
    - assert (2 ^ 6 <= 2 ^ a)%Z by (apply Z.pow_le_mono_r; unfold maxShift in *; lia).
      unfold backoffCeiling, Second, Minute in *. lia.
    - assert (a = 0 ∨ a = 1 ∨ a = 2 ∨ a = 3 ∨ a = 4 ∨ a = 5)%Z as Hc
        by (unfold maxShift in *; lia).
      by destruct Hc as [->|[->|[->|[->|[->| ->]]]]]. }
  split; [done|]. intros m Hm. rewrite !Hspec.
  assert (2 ^ Z.max 0 m <= 2 ^ Z.max 0 n)%Z by (apply Z.pow_le_mono_r; lia).
  unfold Second, Minute. lia.
Qed.

(** ** The repository the relay needs (relay.go, Repository) *)

Inductive db_error := DbError.

Definition ev_mark (at_ : Time) (e : Event) : Event :=
  mkEvent (ev_id e) (ev_eventType e) (ev_payload e) OutboxDelivered (ev_attempts e)
    (ev_nextAttemptAt e) (ev_createdAt e) at_.

Definition ev_resched (attempts : Z) (next : Time) (e : Event) : Event :=
  mkEvent (ev_id e) (ev_eventType e) (ev_payload e) (ev_status e) attempts next
    (ev_createdAt e) (ev_deliveredAt e).

(** Pending and due. *)
Definition ev_due (now : Time) (e : Event) : bool :=
  bool_decide (ev_status e = OutboxPending) && (ev_nextAttemptAt e <=? now)%Z.

Class OutboxRepository (R : Type) := {
  contents : R → gmap OutboxID Event;
  ClaimDue : Z → Time → R → result db_error (list Event) * R;
  MarkDelivered : OutboxID → Time → R → option db_error * R;
  Reschedule : OutboxID → Z → Time → R → option db_error * R;
  PendingCount : R → result db_error nat * R;
  (** no statement will fail from here on *)
  healthy : R → Prop
}.

(** [r'] is [r] after an update that took effect or not; without an error it
    did. *)
Definition updated {R} `{OutboxRepository R} (id : OutboxID) (f : Event → Event)
    (r : R) (res : option db_error * R) : Prop :=
  (contents res.2 = alter f id (contents r) ∨
   (contents res.2 = contents r ∧ res.1 ≠ None)) ∧
  (healthy r → res.1 = None ∧ healthy res.2).

Class OutboxRepositoryLaws (R : Type) `{OutboxRepository R} := {
  claim_pure limit now r : contents (ClaimDue limit now r).2 = contents r;
  claim_sound limit now r evs :
    (ClaimDue limit now r).1 = Ok evs →
    NoDup (ev_id <$> evs) ∧
    (∀ e, e ∈ evs → contents r !! ev_id e = Some e ∧ ev_due now e = true);
  claim_oldest_first limit now r evs e e' k :
    (ClaimDue limit now r).1 = Ok evs → e ∈ evs →
    contents r !! k = Some e' → ev_due now e' = true → e' ∉ evs →
    (ev_nextAttemptAt e <= ev_nextAttemptAt e')%Z;
  claim_healthy limit now r :
    healthy r → is_Ok (ClaimDue limit now r).1 = true ∧ healthy (ClaimDue limit now r).2;
  claim_count limit now r evs :
    (ClaimDue limit now r).1 = Ok evs →
    length evs = Z.to_nat (Z.min limit
      (Z.of_nat (size (filter (λ kv, ev_due now kv.2 = true) (contents r)))));
  mark_updates id at_ r : updated id (ev_mark at_) r (MarkDelivered id at_ r);
  resched_updates id n next r : updated id (ev_resched n next) r (Reschedule id n next r);
  count_pure r : contents (PendingCount r).2 = contents r ∧
                 (healthy r → healthy (PendingCount r).2)
}.

(** ** The relay (relay.go, Tick) *)

(** Attempts to deliver, newest first: payload and whether the receiver
    answered 2xx.  [deliver] is the HTTP call; its answer may depend on
    everything sent before. *)
Abbreviation network := (list (string * bool)).

Definition defaultBatchLimit : Z := 50.

(** [New]: a non-positive limit means the default. *)
Definition relay_limit (limit : Z) : Z :=
  if (limit <=? 0)%Z then defaultBatchLimit else limit.

Section Relay.
Context {R : Type} `{OutboxRepository R}.
Context (deliver : network → string → bool).

Fixpoint deliver_events (now : Time) (events : list Event) (r : R) (net : network)
    : R * network :=
  match events with
  | [] => (r, net)
  | ev :: events' =>
      let ok := deliver net (ev_payload ev) in
      let net' := (ev_payload ev, ok) :: net in
      if ok then
        deliver_events now events' (MarkDelivered (ev_id ev) now r).2 net'
      else
        let attempts := (ev_attempts ev + 1)%Z in
        let next := (now + Backoff attempts)%Z in
        deliver_events now events' (Reschedule (ev_id ev) attempts next r).2 net'
  end.

Definition Tick (batchLimit : Z) (now : Time) (r : R) (net : network)
    : option db_error * R * network :=
  match ClaimDue batchLimit now r with
  | (Err e, r1) => (Some e, r1, net)
  | (Ok [], r1) => (None, r1, net)
  | (Ok events, r1) =>
      let r2 := (PendingCount r1).2 in
      let '(r3, net') := deliver_events now events r2 net in
      (None, r3, net')
  end.

(** [Start]: one tick per reading of the ticker; errors are swallowed. *)
Fixpoint ticks (batchLimit : Z) (nows : list Time) (r : R) (net : network) : R * network :=
  match nows with
  | [] => (r, net)
  | now :: nows' =>
      let '(_, r', net') := Tick batchLimit now r net in
      ticks batchLimit nows' r' net'
  end.
End Relay.

(** ** What one tick does to the table *)

(** The row of an event after an attempt that was recorded. *)
Definition attempted (now : Time) (ok : bool) (ev : Event) : Event :=
  if ok then ev_mark now ev
  else ev_resched (ev_attempts ev + 1) (now + Backoff (ev_attempts ev + 1)) ev.

(** One attempt per event, in the order of the list. *)
Definition sends (deliver : network → string → bool) (events : list Event) (net : network) : network :=
  foldl (λ net ev, (ev_payload ev, deliver net (ev_payload ev)) :: net) net events.

(** The rows still waiting. *)
Definition pending_ids {R} `{OutboxRepository R} (r : R) : gset OutboxID :=
  dom (filter (λ kv : OutboxID * Event, ev_status kv.2 = OutboxPending) (contents r)).

Lemma elem_of_pending {R} `{OutboxRepository R} (r : R) id :
  id ∈ pending_ids r ↔ ∃ e, contents r !! id = Some e ∧ ev_status e = OutboxPending.
Proof.
  unfold pending_ids. rewrite elem_of_dom. unfold is_Some.
  setoid_rewrite map_lookup_filter_Some. done.
Qed.

Section RelayProofs.
Context {R : Type} `{OutboxRepositoryLaws R}.
Context (deliver : network → string → bool).

(** The events of a batch, as rows of the table. *)
Definition batch_of (now : Time) (r : R) (events : list Event) : Prop :=
  NoDup (ev_id <$> events) ∧
  ∀ e, e ∈ events → contents r !! ev_id e = Some e ∧ ev_due now e = true.

Lemma batch_tail now r r' ev events :
  batch_of now r (ev :: events) →
  (∀ id, id ≠ ev_id ev → contents r' !! id = contents r !! id) →
  batch_of now r' events.
Proof.
  intros [Hnd Hin] Hsame. rewrite fmap_cons, NoDup_cons in Hnd. destruct Hnd as [Hni Hnd].
  split; [done|]. intros e He. rewrite Hsame; [apply Hin; set_solver|].
  intros Heq. apply Hni. rewrite <-Heq. by apply list_elem_of_fmap_2.
Qed.

(** The statement that records an attempt. *)
Definition record_attempt (now : Time) (ok : bool) (ev : Event) (r : R) : option db_error * R :=
  if ok then MarkDelivered (ev_id ev) now r
  else Reschedule (ev_id ev) (ev_attempts ev + 1) (now + Backoff (ev_attempts ev + 1)) r.

Lemma deliver_events_cons now ev events (r : R) net :
  let ok := deliver net (ev_payload ev) in
  deliver_events deliver now (ev :: events) r net =
    deliver_events deliver now events (record_attempt now ok ev r).2 ((ev_payload ev, ok) :: net).
Proof. simpl. unfold record_attempt. by destruct (deliver net (ev_payload ev)). Qed.

Lemma deliver_events_sends now events (r : R) net :
  (deliver_events deliver now events r net).2 = sends deliver events net.
Proof.
  revert r net. induction events as [|ev events IH]; intros r net; [done|].
  rewrite deliver_events_cons. apply IH.
Qed.

(** Recording the attempt of an event whose row is the event. *)
Lemma record_attempt_row now ok ev (r : R) :
  contents r !! ev_id ev = Some ev →
  let res := record_attempt now ok ev r in
  (∀ id, id ≠ ev_id ev → contents res.2 !! id = contents r !! id) ∧
  (contents res.2 !! ev_id ev = Some (attempted now ok ev) ∨
   (contents res.2 !! ev_id ev = Some ev ∧ res.1 ≠ None)) ∧
  (healthy r → healthy res.2 ∧ res.1 = None).
Proof.
  intros Hev. assert (Hu : ∃ f, f ev = attempted now ok ev ∧ updated (ev_id ev) f r (record_attempt now ok ev r)).
  { unfold attempted, record_attempt. destruct ok; [exists (ev_mark now)|eexists (ev_resched _ _)]; (split; [done|]);
      [apply mark_updates|apply resched_updates]. }
  destruct Hu as (f & <- & Hc & Hh). split_and!.
  - intros id Hne. destruct Hc as [->|[-> _]]; [by rewrite lookup_alter_ne|done].
  - destruct Hc as [->|[-> Hn]]; [left; by rewrite lookup_alter_eq, Hev|right; by rewrite Hev].
  - intros Hr. by destruct (Hh Hr).
Qed.

(** The repository when the turn of the [i]-th event comes. *)
Definition at_turn (now : Time) (events : list Event) (i : nat) (r : R) (net : network) : R :=
  (deliver_events deliver now (take i events) r net).1.

Lemma deliver_events_rows now events (r : R) net :
  batch_of now r events →
  let r' := (deliver_events deliver now events r net).1 in
  (∀ id, id ∉ ev_id <$> events → contents r' !! id = contents r !! id) ∧
  (∀ i ev, events !! i = Some ev →
     let ok := deliver (sends deliver (take i events) net) (ev_payload ev) in
     contents r' !! ev_id ev = Some (attempted now ok ev) ∨
     (contents r' !! ev_id ev = Some ev ∧
      (record_attempt now ok ev (at_turn now events i r net)).1 ≠ None)) ∧
  (healthy r → healthy r' ∧ ∀ i ev, events !! i = Some ev →
     (record_attempt now (deliver (sends deliver (take i events) net) (ev_payload ev)) ev
        (at_turn now events i r net)).1 = None).
Proof.
  revert r net. induction events as [|ev events IH]; intros r net Hb; [done|].
  destruct (proj2 Hb ev) as [Hev _]; [set_solver|].
  assert (Hni : ev_id ev ∉ ev_id <$> events).
  { destruct Hb as [Hnd _]. rewrite fmap_cons, NoDup_cons in Hnd. apply Hnd. }
  cbv zeta. rewrite deliver_events_cons. set (ok := deliver net (ev_payload ev)).
  destruct (record_attempt_row now ok ev r Hev) as (Hsame & Hown & Hheal).
  destruct (IH (record_attempt now ok ev r).2 ((ev_payload ev, ok) :: net)) as (Hother & Hrows & Hhs).
  { by eapply batch_tail. }
  split_and!.
  - intros id [Hne Hnin]%not_elem_of_cons. by rewrite Hother, Hsame.
  - intros [|i] e He; [injection He as <-; rewrite Hother by done; exact Hown|].
    unfold at_turn. cbn [take]. rewrite deliver_events_cons. exact (Hrows i e He).
  - intros Hr. destruct (Hheal Hr) as [Hr1 Hnone]. destruct (Hhs Hr1) as [Hr2 Hall]. split; [done|].
    intros [|i] e He; [injection He as <-; exact Hnone|].
    unfold at_turn. cbn [take]. rewrite deliver_events_cons. exact (Hall i e He).
Qed.
End RelayProofs.

(** C18: (the relay delivers at least once) for any lawful repository, any
    receiver and any database fault.  A tick whose claim fails sends nothing and
    changes no row.  Otherwise the claimed events are due rows of the table; the
    tick sends each exactly once, in the order they were claimed, and nothing
    else; every other row is left as it was; the row of a claimed event becomes
    delivered if the receiver answered 2xx and otherwise stays pending with one
    more attempt and [now + Backoff] as its next, or stays as it was, and only
    if the statement that records the attempt was answered with an error.  On a
    healthy repository the claim succeeds with as many events as are due, up to
    the limit, and every one of them is recorded.  No row is ever dropped. *)
Theorem relay_tick_at_least_once {R} `{OutboxRepositoryLaws R}
    (deliver : network → string → bool) limit now (r : R) net :
  let claim := ClaimDue limit now r in
  let '(err, r', net') := Tick deliver limit now r net in
  (healthy r → ∃ events, claim.1 = Ok events ∧
     length events = Z.to_nat (Z.min limit (Z.of_nat (size (filter (λ kv, ev_due now kv.2 = true) (contents r)))))) ∧
  match claim.1 with
  | Err e => err = Some e ∧ net' = net ∧ contents r' = contents r
  | Ok events =>
      err = None ∧ net' = sends deliver events net ∧
      (∀ id, id ∉ ev_id <$> events → contents r' !! id = contents r !! id) ∧
      ∀ i ev, events !! i = Some ev →
        let ok := deliver (sends deliver (take i events) net) (ev_payload ev) in
        let recorded := record_attempt now ok ev (at_turn deliver now events i (PendingCount claim.2).2 net) in
        contents r !! ev_id ev = Some ev ∧ ev_due now ev = true ∧
        (contents r' !! ev_id ev = Some (attempted now ok ev) ∨
         (contents r' !! ev_id ev = Some ev ∧ recorded.1 ≠ None)) ∧
        (healthy r → recorded.1 = None)
  end.
Proof.
  cbv zeta. pose proof (claim_healthy limit now r) as Hch. pose proof (claim_count limit now r) as Hcc.
  pose proof (claim_pure limit now r) as Hr1. pose proof (claim_sound limit now r) as Hcs.
  unfold Tick. destruct (ClaimDue limit now r) as [[events|e] r1]; cbn [fst snd] in *.
  2: { split; [|done]. intros Hh. by destruct (Hch Hh). }
  specialize (Hcs events eq_refl). specialize (Hcc events eq_refl).
  destruct (count_pure r1) as [Hr2 Hh2]. rewrite Hr1 in Hr2.
  assert (Hb : batch_of now (PendingCount r1).2 events) by (unfold batch_of; by rewrite Hr2).
  destruct (deliver_events_rows deliver now events (PendingCount r1).2 net Hb) as (Hother & Hrows & Hheal).
  pose proof (deliver_events_sends deliver now events (PendingCount r1).2 net) as Hnet.
  destruct events as [|ev0 evs].
  - split; [by eexists|]. split_and!; [done|done|intros id _; by rewrite Hr1|by intros i ev ?].
  - destruct (deliver_events deliver now (ev0 :: evs) (PendingCount r1).2 net) as [r' net'] eqn:Hd.
    cbn [fst snd] in *. split; [by eexists|]. split_and!; [done|exact Hnet|intros id Hid; by rewrite Hother, Hr2|].
    intros i ev Hi. destruct (proj2 Hcs ev) as [Hev Hdue]; [by eapply list_elem_of_lookup_2|].
    split_and!; [done|done|exact (Hrows i ev Hi)|]. intros Hh.
    by apply (Hheal (Hh2 (proj2 (Hch Hh)))).
Qed.

(** ** Draining *)

Section Drain.
Context {R : Type} `{OutboxRepositoryLaws R}.
Context (deliver : network → string → bool).
Context (Haccepts : ∀ net p, deliver net p = true).

Lemma mark_healthy id now (r : R) :
  healthy r → healthy (MarkDelivered id now r).2 ∧
              contents (MarkDelivered id now r).2 = alter (ev_mark now) id (contents r).
Proof.
  intros Hh. destruct (mark_updates id now r) as [[Hc|[_ Hn]] Hok];
    destruct (Hok Hh) as [Hnone Hh']; done.
Qed.

Lemma deliver_healthy now events (r : R) net :
  healthy r →
  let r' := (deliver_events deliver now events r net).1 in
  healthy r' ∧
  ∀ id, contents r' !! id =
        if decide (id ∈ ev_id <$> events) then ev_mark now <$> contents r !! id
        else contents r !! id.
Proof.
  revert r net. induction events as [|ev events IH]; intros r net Hh; simpl; [done|].
  rewrite Haccepts. destruct (mark_healthy (ev_id ev) now r Hh) as [Hh1 Hc1].
  destruct (IH _ ((ev_payload ev, true) :: net) Hh1) as [Hh2 Hrows]. split; [done|].
  intros id. rewrite Hrows, Hc1.
  destruct (decide (id = ev_id ev)) as [->|Hne].
  - rewrite lookup_alter_eq, (decide_True (P := ev_id ev ∈ ev_id ev :: _)) by set_solver.
    case_decide; [|done]. by destruct (contents r !! ev_id ev).
  - rewrite lookup_alter_ne by done.
    destruct (decide (id ∈ ev_id <$> events)) as [Hin|Hnin];
      [rewrite decide_True by set_solver|rewrite decide_False by set_solver]; done.
Qed.

Lemma Tick_healthy limit now (r : R) net :
  (0 < limit)%Z → healthy r →
  (∀ id e, contents r !! id = Some e → ev_status e = OutboxPending →
           (ev_nextAttemptAt e <= now)%Z) →
  let r' := (Tick deliver limit now r net).1.2 in
  healthy r' ∧ pending_ids r' ⊆ pending_ids r ∧
  (∀ id e', contents r' !! id = Some e' → ev_status e' = OutboxPending →
            contents r !! id = Some e') ∧
  (size (pending_ids r') <= size (pending_ids r) - Z.to_nat limit)%nat.
Proof.
  intros Hl Hh Hdue.
  pose proof (claim_healthy limit now r Hh) as [Hok Hh1].
  destruct (ClaimDue limit now r) as [res r1] eqn:Hc. simpl in *.
  assert (Hr1 : contents r1 = contents r) by (by rewrite <-(claim_pure limit now r), Hc).
  destruct res as [evs|e]; [|done].
  pose proof (count_pure r1) as [Hr2 Hh2]. specialize (Hh2 Hh1). rewrite Hr1 in Hr2.
  destruct (claim_sound limit now r evs) as [Hnd Hin]; [by rewrite Hc|].
  assert (Hlen : length evs = Z.to_nat (Z.min limit (Z.of_nat (size (pending_ids r))))).
  { rewrite (claim_count limit now r evs) by (by rewrite Hc). do 3 f_equal.
    unfold pending_ids. rewrite size_dom. f_equal. apply map_filter_ext.
    intros i x Hx. unfold ev_due. simpl. rewrite andb_true_iff, bool_decide_eq_true, Z.leb_le.
    naive_solver. }
  set (r2 := match evs with [] => r1 | _ => (PendingCount r1).2 end).
  assert (Hr : (Tick deliver limit now r net).1.2 = (deliver_events deliver now evs r2 net).1).
  { unfold Tick. rewrite Hc. destruct evs; [done|]. by destruct (deliver_events _ _ _ _ _). }
  assert (healthy r2 ∧ contents r2 = contents r) as [Hh3 Hr3] by (by destruct evs).
  rewrite Hr. destruct (deliver_healthy now evs r2 net Hh3) as [Hh4 Hrows].
  rewrite Hr3 in Hrows. clear Hr. set (r' := (deliver_events deliver now evs r2 net).1) in *.
  assert (Hkeep : ∀ id e', contents r' !! id = Some e' → ev_status e' = OutboxPending →
            contents r !! id = Some e' ∧ id ∉ ev_id <$> evs).
  { intros id e'. rewrite Hrows. case_decide as Hid; [|naive_solver].
    destruct (contents r !! id); simpl; intros; simplify_eq/=. }
  assert (Hp : pending_ids r' ⊆ pending_ids r ∖ list_to_set (ev_id <$> evs)).
  { intros id (e & He & Hs)%elem_of_pending. destruct (Hkeep _ _ He Hs) as [He' Hni].
    apply elem_of_difference. split; [apply elem_of_pending; eauto|].
    by rewrite elem_of_list_to_set. }
  split_and!; [done|set_solver|naive_solver|].
  apply subseteq_size in Hp. rewrite size_difference in Hp.
  - rewrite size_list_to_set, length_fmap in Hp by done. lia.
  - intros id (e & -> & He)%elem_of_list_to_set%list_elem_of_fmap.
    apply elem_of_pending. exists e. destruct (Hin _ He) as [? Hd]. split; [done|].
    unfold ev_due in Hd. by bool_facts.
Qed.

Lemma ticks_drain limit nows (r : R) net :
  (0 < limit)%Z → healthy r →
  (∀ now id e, now ∈ nows → contents r !! id = Some e → ev_status e = OutboxPending →
               (ev_nextAttemptAt e <= now)%Z) →
  (size (pending_ids r) <= Z.to_nat limit * length nows)%nat →
  pending_ids (ticks deliver limit nows r net).1 = ∅.
Proof.
  intros Hl. revert r net. induction nows as [|now nows IH]; intros r net Hh Hdue Hsz; simpl in *.
  { apply leibniz_equiv, size_empty_inv. lia. }
  destruct (Tick_healthy limit now r net Hl Hh) as (Hh' & _ & Hkeep & Hsz').
  { intros id e. apply Hdue. set_solver. }
  destruct (Tick deliver limit now r net) as [[err r'] net']. simpl in *.
  apply IH; [done| |lia]. intros now' id e Hn He Hs. apply (Hdue now' id); [set_solver| |done].
  by apply Hkeep.
Qed.
End Drain.

(** Nothing is stuck: with a database and a receiver that answer, and every
    pending row due, [k] ticks of batch size [limit] deliver up to [k * limit]
    pending rows, oldest first or not, and leave none pending. *)
Theorem relay_drains {R} `{OutboxRepositoryLaws R} (deliver : network → string → bool)
    limit nows (r : R) net :
  (∀ net p, deliver net p = true) → (0 < limit)%Z → healthy r →
  (∀ now id e, now ∈ nows → contents r !! id = Some e → ev_status e = OutboxPending →
               (ev_nextAttemptAt e <= now)%Z) →
  (size (pending_ids r) <= Z.to_nat limit * length nows)%nat →
  pending_ids (ticks deliver limit nows r net).1 = ∅.
Proof. intros Ha. by apply ticks_drain. Qed.

(** ** The PostgreSQL repository (outbox_repo.go) *)

(** A row of webhook_outbox; [delivered_at] is NULL while pending. *)
Record outbox_row := mkOutboxRow {
  o_event_type : string;
  o_payload : string;
  o_status : OutboxStatus;
  o_attempts : Z;
  o_next_attempt_at : Time;
  o_created_at : Time;
  o_delivered_at : option Time
}.

Definition nullableTime (t : Time) : option Time :=
  if bool_decide (t = zeroTime) then None else Some t.

(** The columns of an event and back. *)
Definition row_of_event (e : Event) : outbox_row :=
  mkOutboxRow (ev_eventType e) (ev_payload e) (ev_status e) (ev_attempts e)
    (ev_nextAttemptAt e) (ev_createdAt e) (nullableTime (ev_deliveredAt e)).

Definition event_of_row (id : OutboxID) (row : outbox_row) : Event :=
  Event_Hydrate id (o_event_type row) (o_payload row) (o_status row) (o_attempts row)
    (o_next_attempt_at row) (o_created_at row) (default zeroTime (o_delivered_at row)).

(** The table, and the number of statements sent so far. *)
Record pg_outbox := mkPgOutbox {
  ob_rows : gmap OutboxID outbox_row;
  ob_calls : nat
}.

Section Pg.
Context `{UlidLib}.
Context (faults : nat → fault).

Definition scanOutbox (kv : OutboxID * outbox_row) : result db_error Event :=
  match ParseID OutboxK (ID_String kv.1) with
  | Err _ => Err DbError
  | Ok id => Ok (event_of_row id kv.2)
  end.

Fixpoint scan_all (l : list (OutboxID * outbox_row)) : result db_error (list Event) :=
  match l with
  | [] => Ok []
  | kv :: l' => let? e := scanOutbox kv in let? es := scan_all l' in Ok (e :: es)
  end.

Definition ob_next (rows : gmap OutboxID outbox_row) (db : pg_outbox) : pg_outbox :=
  mkPgOutbox rows (S (ob_calls db)).

(** A statement that changes the table by [f]. *)
Definition ob_exec (f : gmap OutboxID outbox_row → gmap OutboxID outbox_row) (db : pg_outbox)
    : option db_error * pg_outbox :=
  match faults (ob_calls db) with
  | NoFault => (None, ob_next (f (ob_rows db)) db)
  | FailBefore => (Some DbError, ob_next (ob_rows db) db)
  | FailAfter => (Some DbError, ob_next (f (ob_rows db)) db)
  end.

(** A statement that reads the table. *)
Definition ob_query {A} (q : gmap OutboxID outbox_row → result db_error A) (db : pg_outbox)
    : result db_error A * pg_outbox :=
  (match faults (ob_calls db) with NoFault => q (ob_rows db) | _ => Err DbError end,
   ob_next (ob_rows db) db).

Definition row_due (now : Time) (row : outbox_row) : bool :=
  bool_decide (o_status row = OutboxPending) && (o_next_attempt_at row <=? now)%Z.

Definition older (x y : OutboxID * outbox_row) : Prop :=
  (o_next_attempt_at x.2 <= o_next_attempt_at y.2)%Z.
#[local] Instance older_dec x y : Decision (older x y).
Proof. unfold older. apply _. Defined.

#[local] Instance older_total : Total older.
Proof. intros x y. unfold older. lia. Qed.
#[local] Instance older_trans : Transitive older.
Proof. intros x y z. unfold older. lia. Qed.

(** WHERE ... ORDER BY next_attempt_at LIMIT.  The statement runs outside a
    transaction, so the row locks of FOR UPDATE SKIP LOCKED are gone when it
    returns and constrain nothing that follows. *)
Definition select_due (limit : Z) (now : Time) (rows : gmap OutboxID outbox_row)
    : list (OutboxID * outbox_row) :=
  take (Z.to_nat limit)
    (merge_sort older (map_to_list (filter (λ kv, row_due now kv.2 = true) rows))).

Definition pg_ClaimDue (limit : Z) (now : Time) : pg_outbox → result db_error (list Event) * pg_outbox :=
  ob_query (λ rows, scan_all (select_due limit now rows)).

Definition pg_MarkDelivered (id : OutboxID) (at_ : Time) : pg_outbox → option db_error * pg_outbox :=
  ob_exec (alter (λ row, mkOutboxRow (o_event_type row) (o_payload row) OutboxDelivered
    (o_attempts row) (o_next_attempt_at row) (o_created_at row) (Some at_)) id).

Definition pg_Reschedule (id : OutboxID) (attempts : Z) (next : Time)
    : pg_outbox → option db_error * pg_outbox :=
  ob_exec (alter (λ row, mkOutboxRow (o_event_type row) (o_payload row) (o_status row)
    attempts next (o_created_at row) (o_delivered_at row)) id).

Definition pg_PendingCount : pg_outbox → result db_error nat * pg_outbox :=
  ob_query (λ rows, Ok (size (filter (λ kv, o_status kv.2 = OutboxPending) rows))).

Definition pg_contents (db : pg_outbox) : gmap OutboxID Event :=
  map_imap (λ id row, Some (event_of_row id row)) (ob_rows db).

Definition ids_parse (db : pg_outbox) : Prop :=
  ∀ id row, ob_rows db !! id = Some row → ParseID OutboxK (ID_String id) = Ok id.

#[export] Instance pg_outbox_repo : OutboxRepository pg_outbox := {
  contents := pg_contents;
  ClaimDue := pg_ClaimDue;
  MarkDelivered := pg_MarkDelivered;
  Reschedule := pg_Reschedule;
  PendingCount := pg_PendingCount;
  healthy db := (∀ n, (ob_calls db <= n)%nat → faults n = NoFault) ∧ ids_parse db
}.

(** *** The laws hold *)

Lemma pg_lookup db id :
  pg_contents db !! id = event_of_row id <$> ob_rows db !! id.
Proof. unfold pg_contents. rewrite map_lookup_imap. by destruct (ob_rows db !! id). Qed.

Lemma scanOutbox_Ok kv e : scanOutbox kv = Ok e → e = event_of_row kv.1 kv.2.
Proof.
  unfold scanOutbox. destruct (ParseID _ _) as [i|] eqn:Hp; [|done].
  apply ParseID_Ok in Hp as (_ & Hs & _). intros [= <-].
  destruct i, kv as [[k] row]. simpl in *. by subst.
Qed.

Lemma scan_all_Ok l evs :
  scan_all l = Ok evs → evs = (λ kv, event_of_row kv.1 kv.2) <$> l.
Proof.
  revert evs. induction l as [|kv l IH]; intros evs Hs; simpl in *; [by simplify_eq|].
  destruct (scanOutbox kv) as [e|] eqn:He; [|done].
  destruct (scan_all l) as [es|]; [|done]. simplify_eq.
  by rewrite (scanOutbox_Ok _ _ He), (IH es eq_refl).
Qed.

Lemma scan_all_total l :
  (∀ kv, kv ∈ l → ParseID OutboxK (ID_String kv.1) = Ok kv.1) → is_Ok (scan_all l) = true.
Proof.
  induction l as [|kv l IH]; intros Hp; simpl; [done|].
  unfold scanOutbox. rewrite Hp by set_solver.
  destruct (scan_all l); [done|]. apply IH. set_solver.
Qed.

Definition due_rows (now : Time) (rows : gmap OutboxID outbox_row) : list (OutboxID * outbox_row) :=
  merge_sort older (map_to_list (filter (λ kv, row_due now kv.2 = true) rows)).

Lemma due_rows_elem now rows kv :
  kv ∈ due_rows now rows ↔ rows !! kv.1 = Some kv.2 ∧ row_due now kv.2 = true.
Proof.
  unfold due_rows. rewrite merge_sort_Permutation. destruct kv as [k row].
  by rewrite elem_of_map_to_list, map_lookup_filter_Some.
Qed.

Lemma elem_of_take_due n now rows kv :
  kv ∈ take n (due_rows now rows) → rows !! kv.1 = Some kv.2 ∧ row_due now kv.2 = true.
Proof.
  intros Hin. apply due_rows_elem. rewrite <-(take_drop n (due_rows now rows)).
  apply elem_of_app. by left.
Qed.

Lemma due_rows_nodup now rows : NoDup (due_rows now rows).*1.
Proof. unfold due_rows. rewrite merge_sort_Permutation. apply NoDup_fst_map_to_list. Qed.

Lemma due_rows_sorted now rows : StronglySorted older (due_rows now rows).
Proof. apply StronglySorted_merge_sort; apply _. Qed.

Lemma sorted_take_drop {A} (R : A → A → Prop) n (l : list A) x y :
  StronglySorted R l → x ∈ take n l → y ∈ drop n l → R x y.
Proof.
  intros Hs. revert n. induction Hs as [|a l Hs IH Hall]; intros [|n]; simpl; [set_solver..|].
  intros [->|Hx]%elem_of_cons Hy; [|by eapply IH].
  eapply Forall_forall; [done|]. rewrite <-(take_drop n l). set_solver.
Qed.

Lemma ob_exec_updated (f : Event → Event) g id db :
  (∀ row, event_of_row id (g row) = f (event_of_row id row)) →
  updated id f db (ob_exec (alter g id) db).
Proof.
  intros Hfg.
  assert (Halter : pg_contents (ob_next (alter g id (ob_rows db)) db)
                   = alter f id (pg_contents db)).
  { apply map_eq. intros k. rewrite pg_lookup. simpl.
    destruct (decide (k = id)) as [->|Hne].
    - rewrite !lookup_alter_eq, pg_lookup. destruct (ob_rows db !! id); simpl; [by rewrite Hfg|done].
    - by rewrite !lookup_alter_ne, pg_lookup. }
  unfold updated, ob_exec. simpl. split.
  - destruct (faults (ob_calls db)); simpl; auto.
  - intros [Hf Hp]. rewrite (Hf (ob_calls db)) by lia. simpl. split_and!; [done|..].
    + intros n Hn. apply Hf. lia.
    + intros k row. simpl. destruct (decide (k = id)) as [->|Hne].
      * rewrite lookup_alter_eq. destruct (ob_rows db !! id) eqn:Hk; [|done].
        intros _. by eapply Hp.
      * rewrite lookup_alter_ne by done. apply Hp.
Qed.

#[export] Instance pg_outbox_laws : OutboxRepositoryLaws pg_outbox.
Proof.
  assert (Hsound : ∀ limit now db evs, (pg_ClaimDue limit now db).1 = Ok evs →
    evs = (λ kv, event_of_row kv.1 kv.2) <$> take (Z.to_nat limit) (due_rows now (ob_rows db))).
  { intros limit now db evs. unfold pg_ClaimDue, ob_query. simpl.
    destruct (faults _); try done. apply scan_all_Ok. }
  assert (Hfilter : ∀ now db, size (filter (λ kv : OutboxID * Event, ev_due now kv.2 = true)
      (pg_contents db)) = length (due_rows now (ob_rows db))).
  { intros now db. unfold due_rows. rewrite merge_sort_Permutation.
    rewrite length_map_to_list, <-!size_dom. f_equal. apply set_eq. intros id.
    rewrite !elem_of_dom. unfold is_Some. setoid_rewrite map_lookup_filter_Some.
    setoid_rewrite pg_lookup. destruct (ob_rows db !! id); naive_solver. }
  split.
  - done.
  - intros limit now db evs ->%Hsound. split.
    + rewrite <-list_fmap_compose. simpl.
      eapply (sublist_NoDup _ ((due_rows now (ob_rows db)).*1)); [apply due_rows_nodup|].
      by apply fmap_sublist, sublist_take.
    + intros e ([k row] & -> & He)%list_elem_of_fmap.
      apply elem_of_take_due in He as [Hk Hd].
      simpl in *. split; [|done]. by rewrite pg_lookup, Hk.
  - intros limit now db evs e e' k ->%Hsound. intros ([k1 row1] & -> & He)%list_elem_of_fmap.
    rewrite pg_lookup. destruct (ob_rows db !! k) as [row|] eqn:Hk; [|done].
    intros [= <-] Hdue Hnin.
    apply (sorted_take_drop older (Z.to_nat limit) (due_rows now (ob_rows db)) (k1, row1) (k, row));
      [apply due_rows_sorted|done|].
    assert (Hin : (k, row) ∈ due_rows now (ob_rows db)) by (by apply due_rows_elem).
    rewrite <-(take_drop (Z.to_nat limit) (due_rows now (ob_rows db))) in Hin.
    apply elem_of_app in Hin as [Hin|Hin]; [|done].
    destruct Hnin. by apply (list_elem_of_fmap_2 (λ kv, event_of_row kv.1 kv.2) _ (k, row)).
  - intros limit now db [Hf Hp]. unfold ClaimDue; simpl. unfold pg_ClaimDue, ob_query. simpl.
    rewrite (Hf (ob_calls db)) by lia. split_and!.
    + apply scan_all_total. intros [k row] Hin. simpl.
      apply elem_of_take_due in Hin as [Hk _]. by eapply Hp.
    + intros n Hn. apply Hf. lia.
    + exact Hp.
  - intros limit now db evs ->%Hsound. change (contents db) with (pg_contents db).
    rewrite Hfilter, length_fmap, length_take. lia.
  - intros id at_ db. by apply ob_exec_updated.
  - intros id n next db. by apply ob_exec_updated.
  - intros db. split; [done|]. intros [Hf Hp]. split; [|exact Hp].
    intros n Hn. apply Hf. simpl in Hn. lia.
Qed.
End Pg.

(** the row locks of [ClaimDue] do not outlive its statement: a second
    relay that claims before the first has marked its rows is handed exactly
    the same events, so each of them is sent twice. *)
Theorem concurrent_relays_claim_the_same_rows `{UlidLib} faults limit now db :
  faults (ob_calls db) = NoFault → faults (S (ob_calls db)) = NoFault →
  (pg_ClaimDue faults limit now (pg_ClaimDue faults limit now db).2).1
  = (pg_ClaimDue faults limit now db).1.
Proof. intros H1 H2. unfold pg_ClaimDue, ob_query. simpl. by rewrite H1, H2. Qed.

(** ** Concrete runs *)

Definition sample_ulid : UlidLib := {| ulid_Parse s := negb (str_empty s) |}.

Definition sample_row (next : Time) : outbox_row :=
  mkOutboxRow EventPhaseArchived "body" OutboxPending 0 next 0 None.

Definition sample_db : pg_outbox :=
  mkPgOutbox {[ mkID "a" := sample_row 5; mkID "b" := sample_row 3; mkID "c" := sample_row 9 ]} 0.

(** The receiver refuses: the one claimed event, the oldest, stays pending with
    one more attempt. *)
Lemma relay_tick_at_least_once_witness :
  let repo := @pg_outbox_repo sample_ulid (λ _, NoFault) in
  let '(err, db, net) := @Tick pg_outbox repo (λ _ _, false) 1 4 sample_db [] in
  err = None ∧ net = [("body"%string, false)] ∧
  pg_contents db !! mkID "b"
    = Some (mkEvent (mkID "b") EventPhaseArchived "body" OutboxPending 1 (4 + 20 * Second) 0 zeroTime) ∧
  pg_contents db !! mkID "a" = pg_contents sample_db !! mkID "a".
Proof.
  pose proof (relay_tick_at_least_once
    (H := @pg_outbox_repo sample_ulid (λ _, NoFault))
    (H0 := @pg_outbox_laws sample_ulid (λ _, NoFault))
    (λ _ _, false) 1 4 sample_db []) as Ht.
  cbv zeta in Ht |- *. destruct (Tick _ 1 4 sample_db []) as [[err db] net].
  destruct Ht as (_ & Herr & Hnet & Hother & Hrows). split; [exact Herr|]. split; [exact Hnet|]. split.
  - destruct (Hrows 0%nat (mkEvent (mkID "b") EventPhaseArchived "body" OutboxPending 0 3 0 zeroTime))
      as (_ & _ & [Hr|[_ Hr]] & _); [vm_compute; reflexivity|exact Hr|].
    exfalso. apply Hr. vm_compute. reflexivity.
  - apply (Hother (mkID "a")). apply (bool_decide_unpack _). vm_compute. exact I.
Defined.

Lemma relay_drains_witness :
  pending_ids (H := @pg_outbox_repo sample_ulid (λ _, NoFault))
    (ticks (H := @pg_outbox_repo sample_ulid (λ _, NoFault)) (λ _ _, true) 2 [10; 20]%Z
       sample_db []).1 = ∅
  ∧ pending_ids (H := @pg_outbox_repo sample_ulid (λ _, NoFault)) sample_db ≠ ∅.
Proof.
  split; [|vm_compute; discriminate].
  assert (Hrows : ∀ id row, ob_rows sample_db !! id = Some row →
    (id = mkID "a" ∨ id = mkID "b" ∨ id = mkID "c") ∧ (o_next_attempt_at row <= 9)%Z).
  { intros id row Hl. unfold sample_db in Hl. simpl in Hl.
    repeat (apply lookup_insert_Some in Hl as [[<- <-]|[_ Hl]]; [split; [naive_solver|simpl; lia]|]).
    apply lookup_singleton_Some in Hl as [<- <-]. split; [naive_solver|simpl; lia]. }
  apply (relay_drains (H := @pg_outbox_repo sample_ulid (λ _, NoFault))
    (H0 := @pg_outbox_laws sample_ulid (λ _, NoFault)) (λ _ _, true) 2 [10; 20]%Z sample_db []).
  - intros. reflexivity.
  - lia.
  - split; [intros; reflexivity|]. intros id row Hl.
    destruct (Hrows id row Hl) as [[->|[->| ->]] _]; reflexivity.
  - intros now id e Hn. change (contents sample_db) with (pg_contents sample_db).
    rewrite pg_lookup. destruct (ob_rows sample_db !! id) as [row|] eqn:Hl; [|done].
    intros [= <-] _. simpl. destruct (Hrows id row Hl) as [_ Hle].
    apply elem_of_cons in Hn as [->|Hn]; [lia|]. apply elem_of_cons in Hn as [->|Hn]; [lia|].
    by apply elem_of_nil in Hn.
  - vm_compute. lia.
Defined.

Lemma concurrent_relays_claim_the_same_rows_witness :
  (@pg_ClaimDue sample_ulid (λ _, NoFault) 1 4
     (@pg_ClaimDue sample_ulid (λ _, NoFault) 1 4 sample_db).2).1
  = Ok [mkEvent (mkID "b") EventPhaseArchived "body" OutboxPending 0 3 0 zeroTime].
Proof.
  rewrite (concurrent_relays_claim_the_same_rows (λ _, NoFault) 1 4 sample_db eq_refl eq_refl).
  vm_compute. reflexivity.
Defined.
