(* ===== verification/Discipline.v ===== *)
(** * Discipline: envelope validation and Iron Laws

    [internal/application/discipline/validator.go], [ironlaw_checker.go] and
    the catalogue of [internal/domain/ironlaw/laws.go]. *)
From S2P Require Import Prelude Ids Json Envelope PhaseDomain.

(** ** Iron Laws (ironlaw/laws.go) *)

Definition IronLaw1 : string := "IL1_PERSIST_BEFORE_TRANSITION".
Definition IronLaw2 : string := "IL2_NO_APPLY_WITHOUT_TASKS_DONE".
Definition IronLaw3 : string := "IL3_NO_ARCHIVE_WITHOUT_VERIFY".
Definition IronLaw4 : string := "IL4_NO_RUNTIME_WITHOUT_GOVERNANCE".
Definition IronLaw5 : string := "IL5_NO_FIX_4_WITHOUT_ESCALATION".

(** The catalogue; descriptions and rationales are display text and are not
    kept. *)
Definition ironlaw_catalog : list string := [IronLaw1; IronLaw2; IronLaw3; IronLaw4; IronLaw5].

Definition ironlaw_ByID (id : string) : option string :=
  find (λ l, bool_decide (l = id)) ironlaw_catalog.

Definition ironlaw_IsValid (id : string) : bool :=
  match ironlaw_ByID id with Some _ => true | None => false end.

(** ** The checker (ironlaw_checker.go) *)

Inductive Action :=
  ActionStartPhase | ActionCompletePhase | ActionRunApply | ActionRunArchive | ActionDispatch.

#[global] Instance Action_eq_dec : EqDecision Action.
Proof. solve_decision. Defined.

Record PhasePredicate := mkPredicate { pp_Status : PhaseStatus; pp_Confidence : float64 }.

(** [map[phase.PhaseType]PhasePredicate]: a phase type is its text. *)
Abbreviation PriorPhases := (gmap string PhasePredicate).

Record CheckContext := mkCheckContext {
  cc_Action : Action;
  cc_DesiredPhase : PhaseType;
  cc_PriorPhases : PriorPhases;
  cc_HasGovernanceDecision : bool;
  cc_TaskAttempts : Z
}.

(** [!ok || p.Status != Done || p.Confidence < threshold] *)
Definition not_done_at_threshold (pt : PhaseType) (prior : PriorPhases) : bool :=
  match prior !! pt_string pt with
  | None => true
  | Some p => bool_decide (pp_Status p ≠ PhaseStatusDone)
              || f64_ltb (pp_Confidence p) (ConfidenceThreshold pt)
  end.

(** The laws violated, in the order they are appended. *)
Definition IronLaw_Check (ctx : CheckContext) : list string :=
  (if bool_decide (cc_Action ctx = ActionRunApply)
      && not_done_at_threshold PhaseTasks (cc_PriorPhases ctx) then [IronLaw2] else [])
  ++ (if bool_decide (cc_Action ctx = ActionRunArchive)
         && not_done_at_threshold PhaseVerify (cc_PriorPhases ctx) then [IronLaw3] else [])
  ++ (if bool_decide (cc_Action ctx = ActionDispatch) && negb (cc_HasGovernanceDecision ctx)
      then [IronLaw4] else [])
  ++ (if (3 <=? cc_TaskAttempts ctx)%Z then [IronLaw5] else []).

(** ** The validator (validator.go) *)

Inductive validator_error :=
  | ErrInvalidPhase
  | ErrParse (e : env_error)
  | ErrPhaseMismatch.

Definition Validator_Validate (raw : rawjson) (expected : PhaseType)
    : result validator_error Envelope :=
  if negb (PhaseType_IsValid expected) then Err ErrInvalidPhase else
  match Envelope_Parse raw with
  | Err e => Err (ErrParse e)
  | Ok e =>
      if bool_decide (e_Phase e ≠ pt_string expected) then Err ErrPhaseMismatch
      else if bool_decide (e_Status e = StatusDone)
              && f64_ltb (e_Confidence e) (ConfidenceThreshold expected)
      then Ok (e_with_Status StatusDoneWithConcerns e)
      else Ok e
  end.

(** ** Lemmas *)

(** The phase [pt] finished as done at its confidence threshold. *)
Definition done_at_threshold (pt : PhaseType) (prior : PriorPhases) : Prop :=
  ∃ p, prior !! pt_string pt = Some p ∧ pp_Status p = PhaseStatusDone ∧
       (ConfidenceThreshold pt <= pp_Confidence p)%Q.

Lemma not_done_at_threshold_false pt prior :
  not_done_at_threshold pt prior = false ↔ done_at_threshold pt prior.
Proof.
  unfold not_done_at_threshold, done_at_threshold.
  destruct (prior !! pt_string pt) as [p|]; [|naive_solver].
  rewrite orb_false_iff, bool_decide_eq_false, f64_ltb_ge. split.
  - intros [Hs Hc]. exists p. split; [done|]. split; [by apply dec_stable|done].
  - intros (? & [= <-] & Hs & Hc). split; [by intros []|done].
Qed.

Lemma not_done_at_threshold_true pt prior :
  not_done_at_threshold pt prior = true ↔ ¬ done_at_threshold pt prior.
Proof. rewrite <-not_done_at_threshold_false. by destruct (not_done_at_threshold _ _). Qed.

Lemma guard_nil {A} (P : Prop) `{Decision P} (b : bool) (x : A) :
  (if bool_decide P && b then [x] else []) = [] ↔ (P → b = false).
Proof. case_bool_decide; destruct b; naive_solver. Qed.

Lemma guard_nil_always {A} (b : bool) (x : A) : (if b then [x] else []) = [] ↔ b = false.
Proof. by destruct b. Qed.

Lemma IronLaw_Check_sublist ctx :
  sublist (IronLaw_Check ctx) [IronLaw2; IronLaw3; IronLaw4; IronLaw5].
Proof.
  assert (Hg : ∀ (b : bool) (x : string), sublist (if b then [x] else []) [x]).
  { intros [] x; [done|apply sublist_nil_l]. }
  unfold IronLaw_Check.
  apply (sublist_app _ [IronLaw2] _ [IronLaw3; IronLaw4; IronLaw5]); [apply Hg|].
  apply (sublist_app _ [IronLaw3] _ [IronLaw4; IronLaw5]); [apply Hg|].
  apply (sublist_app _ [IronLaw4] _ [IronLaw5]); apply Hg.
Qed.

Lemma Validator_Validate_Ok raw expected e :
  Validator_Validate raw expected = Ok e →
  ∃ e0, Envelope_Parse raw = Ok e0 ∧ PhaseType_IsValid expected = true ∧
    e_Phase e = pt_string expected ∧
    (e_Status e = StatusDone → (ConfidenceThreshold expected <= e_Confidence e)%Q) ∧
    valid_envelope e ∧
    (e = e0 ∨ (e_Status e0 = StatusDone ∧
               (e_Confidence e0 < ConfidenceThreshold expected)%Q ∧
               e = e_with_Status StatusDoneWithConcerns e0)).
Proof.
  unfold Validator_Validate. destruct (PhaseType_IsValid expected); [|done]. simpl.
  destruct (Envelope_Parse raw) as [e0|] eqn:Hp; [|done].
  pose proof (proj1 (Envelope_Parse_Ok _ _) Hp) as [_ Hv].
  case_bool_decide as Hph; [done|].
  destruct (bool_decide _ && f64_ltb _ _) eqn:Hb; intros [= <-]; exists e0; (split; [done|]).
  - bool_facts. rewrite f64_ltb_lt in *. simpl. split_and!; try done; [|by right].
    by destruct Hv as (? & ? & ? & ? & ? & ? & ?).
  - split_and!; try done; [|by left]. intros Hd. rewrite Hd in Hb. simpl in Hb.
    by apply f64_ltb_ge.
Qed.

(** ** Properties *)

(** The checker reports no violation exactly when: an apply has its tasks
    phase DONE at confidence 0.8 or more, an archive its verify phase DONE at
    0.9 or more, a dispatch a governance decision, and the task has fewer than
    three failed attempts; every law it reports is in the catalogue, at most
    once. *)
Theorem IronLaw_Check_complete ctx :
  (IronLaw_Check ctx = [] ↔
     (cc_Action ctx = ActionRunApply → done_at_threshold PhaseTasks (cc_PriorPhases ctx)) ∧
     (cc_Action ctx = ActionRunArchive → done_at_threshold PhaseVerify (cc_PriorPhases ctx)) ∧
     (cc_Action ctx = ActionDispatch → cc_HasGovernanceDecision ctx = true) ∧
     (cc_TaskAttempts ctx < 3)%Z) ∧
  NoDup (IronLaw_Check ctx) ∧
  Forall (λ l, ironlaw_IsValid l = true) (IronLaw_Check ctx).
Proof.
  split_and!.
  - unfold IronLaw_Check. rewrite !app_nil, !guard_nil, guard_nil_always, Z.leb_gt.
    rewrite !not_done_at_threshold_false, negb_false_iff. done.
  - eapply sublist_NoDup; [|apply IronLaw_Check_sublist]. by apply (bool_decide_unpack _).
  - apply Forall_forall. intros l Hl%list_elem_of_In.
    pose proof (elem_of_sublist _ _ _ Hl (IronLaw_Check_sublist ctx)) as Hin.
    repeat (apply elem_of_cons in Hin as [->|Hin]; [done|]). by apply elem_of_nil in Hin.
Qed.

(** what the validator accepts, the Phase aggregate accepts: for a phase
    that is running, completing it with a validated envelope of its type never
    fails, and the status recorded is the one the envelope carries. *)
Theorem validated_envelope_completes raw expected e p now :
  Validator_Validate raw expected = Ok e →
  p_type p = expected → p_status p = PhaseStatusRunning →
  ∃ p', Phase_Complete (Some e) now p = Ok p' ∧ p_envelope p' = Some e ∧
        p_status p' = complete_status (e_Status e) PhaseStatusRunning ∧
        p_status p' ≠ PhaseStatusRunning ∧ p_completedAt p' = Some now.
Proof.
  intros (e0 & _ & _ & Hph & Hth & (_ & _ & Hst & _) & _)%Validator_Validate_Ok <- Hr.
  eexists. rewrite Phase_Complete_Ok. split; [by exists e|]. simpl. split_and!; try done.
  by destruct (e_Status e).
Qed.

(** an agent that claims DONE below the confidence threshold of its phase is
    recorded as done with concerns, never as done; the phase still counts as
    finished and the change may move past it. *)
Theorem low_confidence_done_is_coerced raw expected e p now :
  Envelope_Parse raw = Ok e → PhaseType_IsValid expected = true →
  e_Phase e = pt_string expected → e_Status e = StatusDone →
  (e_Confidence e < ConfidenceThreshold expected)%Q →
  p_type p = expected → p_status p = PhaseStatusRunning →
  ∃ p', Validator_Validate raw expected = Ok (e_with_Status StatusDoneWithConcerns e) ∧
        Phase_Complete (Some (e_with_Status StatusDoneWithConcerns e)) now p = Ok p' ∧
        p_status p' = PhaseStatusDoneWithConcerns ∧
        AdvanceAllowed (p_status p') = true.
Proof.
  intros Hp Hv Hph Hd Hc <- Hr. eexists. split_and!.
  - unfold Validator_Validate. rewrite Hv, Hp. simpl.
    rewrite bool_decide_eq_false_2 by auto. rewrite bool_decide_eq_true_2 by done.
    by rewrite (proj2 (f64_ltb_lt _ _) Hc).
  - rewrite Phase_Complete_Ok. eexists. split; [done|]. split_and!; done.
  - done.
  - done.
Qed.

(** ** Witnesses *)

Definition sample_envelope_json (status : string) (conf : float64) : rawjson :=
  let str s := Node s (JStr s) in
  JSON (Node "{}" (JObj
    [ ("schema_version"%string, str "v1"%string); ("phase"%string, str "spec"%string);
      ("change_name"%string, str "c"%string); ("project"%string, str "p"%string);
      ("status"%string, str status); ("confidence"%string, Node "n" (JNum conf)) ])).

Definition sample_envelope (status : EnvStatus) (conf : float64) : Envelope :=
  mkEnvelope "v1" "spec" "c" "p" status conf "" [] [] [] None.

Definition sample_running : Phase :=
  mkPhase (mkID "p") (mkID "c") PhaseSpec PhaseStatusRunning None f64_0 2 1 (Some 7%Z) None [].

Lemma validated_envelope_completes_witness :
  ∃ p', Phase_Complete (Some (sample_envelope StatusDone f64_0_9)) 9 sample_running = Ok p'
        ∧ p_status p' = PhaseStatusDone.
Proof.
  destruct (validated_envelope_completes (sample_envelope_json "DONE" f64_0_9) PhaseSpec
    (sample_envelope StatusDone f64_0_9) sample_running 9) as (p' & Hc & _ & Hs & _).
  - vm_compute. reflexivity.
  - reflexivity.
  - reflexivity.
  - exists p'. split; [exact Hc|exact Hs].
Defined.

Lemma low_confidence_done_is_coerced_witness :
  ∃ p', Validator_Validate (sample_envelope_json "DONE" f64_0_5) PhaseSpec
        = Ok (sample_envelope StatusDoneWithConcerns f64_0_5) ∧
        AdvanceAllowed (p_status p') = true.
Proof.
  destruct (low_confidence_done_is_coerced (sample_envelope_json "DONE" f64_0_5) PhaseSpec
    (sample_envelope StatusDone f64_0_5) sample_running 9) as (p' & Hv & _ & _ & Ha).
  all: try (vm_compute; reflexivity).
  exists p'. split; [exact Hv|exact Ha].
Defined.
