(* ===== verification/Governor.v ===== *)
(** * The spawn governor

    [internal/application/discipline/spawn_governor.go]: the cap on concurrent
    dispatcher processes, with its polling loop and stagger.
    [internal/adapters/outbound/pg/spawn_governor_state.go]: the counter row,
    shared by every orchestrator instance. *)
From S2P Require Import Prelude Outbox.

(** ** Configuration *)

Record GovConfig := mkGovConfig {
  gc_Max : Z;
  gc_StaggerMin : Duration;
  gc_StaggerMax : Duration;
  gc_WaitInterval : Duration;
  gc_MaxWait : Duration
}.

Inductive gov_error := ErrInvalidConfig | ErrSaturated | ErrGovRepo | ErrGovWait.

Definition GovConfig_Validate (c : GovConfig) : option gov_error :=
  if (gc_Max c <=? 0)%Z then Some ErrInvalidConfig
  else if (gc_StaggerMin c <? 0)%Z || (gc_StaggerMax c <? gc_StaggerMin c)%Z
       then Some ErrInvalidConfig
  else if (gc_WaitInterval c <=? 0)%Z then Some ErrInvalidConfig
  else if (gc_MaxWait c <? 0)%Z then Some ErrInvalidConfig
  else None.

Definition DefaultConfig : GovConfig :=
  mkGovConfig 4 (200 * Millisecond) (500 * Millisecond) (250 * Millisecond) (30 * Second).

Lemma GovConfig_Validate_None c :
  GovConfig_Validate c = None ↔
  (0 < gc_Max c ∧ 0 <= gc_StaggerMin c <= gc_StaggerMax c ∧ 0 < gc_WaitInterval c ∧
   0 <= gc_MaxWait c)%Z.
Proof.
  unfold GovConfig_Validate.
  destruct (Z.leb_spec (gc_Max c) 0); [split; [done|lia]|].
  destruct (Z.ltb_spec (gc_StaggerMin c) 0); [split; [done|lia]|].
  destruct (Z.ltb_spec (gc_StaggerMax c) (gc_StaggerMin c)); [split; [done|lia]|]. simpl.
  destruct (Z.leb_spec (gc_WaitInterval c) 0); [split; [done|lia]|].
  destruct (Z.ltb_spec (gc_MaxWait c) 0); [split; [done|lia]|]. split; [lia|done].
Qed.

(** [realJitter.Jitter]; [rnd n] stands for [rand.Int64N(n)]. *)
Definition Jitter (rnd : Z → Z) (span : Duration) : Duration :=
  if (span <=? 0)%Z then 0%Z else rnd span.

(** The sleep of [applyStagger]. *)
Definition applyStagger (rnd : Z → Z) (c : GovConfig) : Duration :=
  (gc_StaggerMin c + Jitter rnd (gc_StaggerMax c - gc_StaggerMin c))%Z.

(** ** The counter row (spawn_governor_state.go) *)

(** The test of [Acquire]: [active >= maxConcurrent] refuses. *)
Definition slot_free (maxConcurrent active : Z) : bool := negb (maxConcurrent <=? active)%Z.

(** [SpawnGovernorRepo.Acquire] as one step: whether a slot was taken, the
    count reported, and the new counter. *)
Definition pg_Acquire (maxConcurrent active : Z) : bool * Z * Z :=
  if slot_free maxConcurrent active then (true, (active + 1)%Z, (active + 1)%Z)
  else (false, active, active).

(** [SpawnGovernorRepo.Release]: GREATEST(active_count - 1, 0). *)
Definition pg_Release (active : Z) : Z := Z.max (active - 1) 0.

(** *** Concurrent transactions

    [Acquire] is a transaction: it takes the advisory lock, reads the counter,
    updates the row and commits, and other statements run between any two of
    these.  [Release] is a single statement that does not take the advisory
    lock; like any UPDATE of the row it waits for an uncommitted update.
    [holders] counts the callers that were told they have a slot and have not
    given it back. *)
Inductive txn_pc := TxLocked | TxSeenFree | TxUpdated.

Record gov_state := mkGov { active : Z; txn : option txn_pc; holders : Z }.

Inductive gov_step (maxC : Z) : gov_state → gov_state → Prop :=
  | gs_lock a h :
      gov_step maxC (mkGov a None h) (mkGov a (Some TxLocked) h)
  | gs_read_full a h :
      slot_free maxC a = false →
      gov_step maxC (mkGov a (Some TxLocked) h) (mkGov a None h)
  | gs_read_free a h :
      slot_free maxC a = true →
      gov_step maxC (mkGov a (Some TxLocked) h) (mkGov a (Some TxSeenFree) h)
  | gs_update a h :
      gov_step maxC (mkGov a (Some TxSeenFree) h) (mkGov a (Some TxUpdated) h)
  | gs_commit a h :
      gov_step maxC (mkGov a (Some TxUpdated) h) (mkGov (a + 1) None (h + 1))
  (* the commit is durable, its acknowledgement is lost *)
  | gs_commit_lost a h :
      gov_step maxC (mkGov a (Some TxUpdated) h) (mkGov (a + 1) None h)
  | gs_rollback a t h :
      gov_step maxC (mkGov a (Some t) h) (mkGov a None h)
  | gs_release a t h :
      t ≠ Some TxUpdated → (0 < h)%Z →
      gov_step maxC (mkGov a t h) (mkGov (pg_Release a) t (h - 1))
  (* the holder dies, or its Release never reaches the database *)
  | gs_leak a t h :
      (0 < h)%Z → gov_step maxC (mkGov a t h) (mkGov a t (h - 1)).

(** The seeded row. *)
Definition gov_init (s : gov_state) : Prop := s = mkGov 0 None 0.

Record gov_inv (maxC : Z) (s : gov_state) : Prop := {
  gi_holders : (0 <= holders s <= active s)%Z;
  gi_cap : (active s <= maxC)%Z;
  gi_txn : match txn s with
           | Some TxSeenFree | Some TxUpdated => (active s < maxC)%Z
           | _ => True
           end
}.

Lemma slot_free_lt maxC a : slot_free maxC a = true ↔ (a < maxC)%Z.
Proof. unfold slot_free. rewrite negb_true_iff, Z.leb_gt. done. Qed.

Lemma gov_step_inv maxC s s' : gov_inv maxC s → gov_step maxC s s' → gov_inv maxC s'.
Proof.
  intros [Hh Hc Ht] Hs. destruct Hs; simpl in *; unfold pg_Release in *;
    try match goal with H : slot_free _ _ = true |- _ => apply slot_free_lt in H end;
    split; simpl; try done; try lia; repeat case_match; try done; lia.
Qed.

(** C19: whatever the interleaving of acquisitions, releases, rollbacks, lost
    acknowledgements and crashes, across any number of orchestrator instances
    that use the same cap, the callers that hold a slot never outnumber the
    counter and the counter never exceeds the cap: at most [maxC] dispatchers
    run at once. *)
Theorem governor_cap maxC s :
  (0 <= maxC)%Z → reachable gov_init (gov_step maxC) s →
  (0 <= holders s <= active s)%Z ∧ (active s <= maxC)%Z.
Proof.
  intros Hm Hr. assert (Hi : gov_inv maxC s).
  { revert Hr. apply reachable_inv; [|eauto using gov_step_inv].
    intros ? ->. split; simpl; try done; lia. }
  by destruct Hi.
Qed.

Lemma governor_cap_witness :
  reachable gov_init (gov_step 1) (mkGov 1 (Some TxLocked) 1)
  ∧ (0 <= 1 <= 1)%Z ∧ (1 <= 1)%Z.
Proof.
  assert (Hr : reachable gov_init (gov_step 1) (mkGov 1 (Some TxLocked) 1)).
  { eapply reach_step; [|apply gs_lock].
    eapply reach_step; [|apply (gs_commit 1 0 0)].
    eapply reach_step; [|apply gs_update].
    eapply reach_step; [|apply gs_read_free; reflexivity].
    eapply reach_step; [|apply gs_lock]. apply reach_init. reflexivity. }
  split; [exact Hr|].
  apply (governor_cap 1 (mkGov 1 (Some TxLocked) 1)); [lia|exact Hr].
Defined.

(** ** The polling loop (spawn_governor.go, Acquire) *)

Section Acquire.
Context (c : GovConfig).
(** Poll [i] of the repository, the clock read after it, and whether the wait
    that follows ran to its end ([false]: the context was cancelled). *)
Context (poll : nat → result db_error bool) (clock : nat → Time) (wait : nat → bool).

Fixpoint Acquire_loop (fuel i : nat) (deadline : Time) : option (result gov_error unit) :=
  match fuel with
  | O => None
  | S fuel' =>
      match poll i with
      | Err _ => Some (Err ErrGovRepo)
      | Ok true => Some (Ok tt)
      | Ok false =>
          if negb (clock i <? deadline)%Z then Some (Err ErrSaturated)
          else if wait i then Acquire_loop fuel' (S i) deadline
          else Some (Err ErrGovWait)
      end
  end.

Definition Governor_Acquire (fuel : nat) (start : Time) : option (result gov_error unit) :=
  Acquire_loop fuel 0 (start + gc_MaxWait c).

(** Polls that can be needed: one per interval that fits in the maximal wait,
    and two more. *)
Definition acquire_fuel : nat := Z.to_nat (gc_MaxWait c / gc_WaitInterval c) + 2.

(** What each answer means. *)
Definition acquire_answer (deadline : Time) (i : nat) (r : result gov_error unit) : Prop :=
  match r with
  | Ok _ => poll i = Ok true
  | Err ErrSaturated => poll i = Ok false ∧ (deadline <= clock i)%Z
  | Err ErrGovRepo => ∃ e, poll i = Err e
  | Err ErrGovWait => poll i = Ok false ∧ wait i = false
  | Err ErrInvalidConfig => False
  end.

(** The wait lets at least the interval pass. *)
Context (Hclock : ∀ i, wait i = true → (clock i + gc_WaitInterval c <= clock (S i))%Z).
Context (Hvalid : GovConfig_Validate c = None).

Lemma Acquire_loop_spec fuel i deadline :
  (deadline - clock i <= Z.of_nat fuel * gc_WaitInterval c)%Z →
  ∃ r n, Acquire_loop (S fuel) i deadline = Some r ∧ (n <= fuel)%nat ∧
    acquire_answer deadline (i + n) r ∧ (∀ j, (i <= j < i + n)%nat → poll j = Ok false).
Proof.
  apply GovConfig_Validate_None in Hvalid as (_ & _ & Hw & _).
  revert i. induction fuel as [|fuel IH]; intros i Hd; simpl;
    destruct (poll i) as [[]|e] eqn:Hp;
    try (exists (Ok tt), 0%nat; rewrite Nat.add_0_r; split_and!; [done|lia|done|lia]);
    try (exists (Err ErrGovRepo), 0%nat; rewrite Nat.add_0_r;
         split_and!; [done|lia|by exists e|lia]);
    destruct (Z.ltb_spec (clock i) deadline) as [Hlt|Hge]; simpl; try lia;
    try (exists (Err ErrSaturated), 0%nat; rewrite Nat.add_0_r; split_and!; [done|lia|done|lia]).
  destruct (wait i) eqn:Hwt;
    [|exists (Err ErrGovWait), 0%nat; rewrite Nat.add_0_r; split_and!; [done|lia|done|lia]].
  specialize (Hclock i Hwt). destruct (IH (S i)) as (r & n & Hr & Hn & Ha & Hj); [lia|].
  exists r, (S n). rewrite Nat.add_succ_r. split_and!; [done|lia|done|].
  intros j Hj'. destruct (decide (j = i)) as [->|]; [done|]. apply Hj. lia.
Qed.

Lemma acquire_fuel_enough start :
  (start <= clock 0)%Z →
  (start + gc_MaxWait c - clock 0 <= Z.of_nat (pred acquire_fuel) * gc_WaitInterval c)%Z.
Proof.
  apply GovConfig_Validate_None in Hvalid as (_ & _ & Hw & Hm). intros Hs. unfold acquire_fuel.
  pose proof (Z.div_pos _ _ Hm Hw).
  pose proof (Z.mul_succ_div_gt (gc_MaxWait c) (gc_WaitInterval c) Hw). nia.
Qed.
End Acquire.

(** [Acquire] always returns, after at most MaxWait/WaitInterval + 2 polls;
    it returns nil exactly when the last poll won a slot, ErrSaturated only
    when the deadline had passed and no slot was free at any poll, and it
    never polls again after winning. *)
Theorem Governor_Acquire_returns c poll clock wait start :
  GovConfig_Validate c = None →
  (∀ i, wait i = true → (clock i + gc_WaitInterval c <= clock (S i))%Z) →
  (start <= clock 0%nat)%Z →
  ∃ r n, Governor_Acquire c poll clock wait (acquire_fuel c) start = Some r ∧
    acquire_answer poll clock wait (start + gc_MaxWait c) n r ∧
    (n < acquire_fuel c)%nat ∧ (∀ j, (j < n)%nat → poll j = Ok false).
Proof.
  intros Hv Hc Hs.
  destruct (Acquire_loop_spec c poll clock wait Hc Hv (pred (acquire_fuel c)) 0
    (start + gc_MaxWait c)) as (r & n & Hr & Hn & Ha & Hj); [by apply acquire_fuel_enough|].
  assert (Hf : S (pred (acquire_fuel c)) = acquire_fuel c) by (unfold acquire_fuel; lia).
  rewrite Hf in Hr. exists r, n. split_and!; [done|done|lia|]. intros j ?. apply Hj. lia.
Qed.

Lemma Governor_Acquire_returns_witness :
  ∃ r n, Governor_Acquire DefaultConfig (λ i, Ok (3 <=? i)%nat) (λ i, Z.of_nat i * Second)%Z
           (λ _, true) (acquire_fuel DefaultConfig) 0 = Some r ∧ r = Ok tt ∧ (n < 122)%nat.
Proof.
  destruct (Governor_Acquire_returns DefaultConfig (λ i, Ok (3 <=? i)%nat)
    (λ i, Z.of_nat i * Second)%Z (λ _, true) 0) as (r & n & Hr & _ & Hn & _).
  - reflexivity.
  - intros i _. unfold DefaultConfig, Second, Millisecond. simpl. lia.
  - simpl. lia.
  - exists r, n. split; [exact Hr|]. split; [|exact Hn].
    vm_compute in Hr. by injection Hr as <-.
Defined.
