(* ===== verification/Store.v ===== *)
(** * The PostgreSQL store

    The tables of [migrations/postgres] and the statements of the repositories
    under [internal/adapters/outbound/pg] that the services of the core use:
    changes, phases, agent sessions, audit log, phase events, outbox and skill
    usage.  Each statement runs in its own transaction, so it is one atomic
    step on the tables.  Rows hold the aggregates as they are read back; that
    the columns give back just that is proved in [Rows]. *)
From S2P Require Import Prelude Ids Json Envelope PhaseDomain ChangeDomain Session Outbox.
From stdpp Require Import sorting.

(** ** Errors *)

(** [outbound.ErrNotFound], or any other database error. *)
Inductive store_error := ErrNotFound | ErrStore.

#[global] Instance store_error_eq_dec : EqDecision store_error.
Proof. solve_decision. Defined.

(** ** Column types *)

(** phases.confidence is NUMERIC(3,2): [numeric_3_2 x] is what a float64 comes
    back as after having been stored there.  A JSONB column gives back a document
    [jsonb j] of the same value, in another text. *)
Class PgTypes := { numeric_3_2 : float64 → float64; jsonb : json → json }.

(** As documented: a scalar is unchanged, the items of an array stay in order, and
    of an object whose members have different names all members stay. *)
Definition same_value `{PgTypes} (v v' : jval json) : Prop :=
  match v with
  | JArr l => v' = JArr (jsonb <$> l)
  | JObj l => NoDup l.*1 → ∃ l', v' = JObj l' ∧ l' ≡ₚ prod_map id jsonb <$> l
  | _ => v' = v
  end.
Class PgTypesLaws `{PgTypes} := {
  numeric_mono x y : (x <= y)%Q → (numeric_3_2 x <= numeric_3_2 y)%Q;
  numeric_fix x : x ∈ [f64_0; f64_0_5; f64_0_7; f64_0_8; f64_0_9] → numeric_3_2 x = x;
  jsonb_value j : same_value (jvalue j) (jvalue (jsonb j));
  jsonb_text j : str_empty (jtext j) = false → str_empty (jtext (jsonb j)) = false
}.

(** An envelope as it is read back from a JSONB column ([Envelope.reread]). *)
Definition stored_envelope `{PgTypes} (e : Envelope) : Envelope :=
  let r := reread e in
  mkEnvelope (e_SchemaVersion r) (e_Phase r) (e_ChangeName r) (e_Project r) (e_Status r)
    (e_Confidence r) (e_ExecutiveSummary r) (e_ArtifactsSaved r) (e_NextRecommended r)
    (e_Risks r) (jsonb <$> e_Data r).

(** ** Tables *)

(** skillusage.SkillUsage, with its outcome. *)
Inductive Outcome := OutcomePending | OutcomeSuccess | OutcomeFailure | OutcomeBlocked.

Record SkillUsage := mkSkillUsage {
  su_id : SkillUsageID;
  su_changeID : ChangeID;
  su_phaseType : string;
  su_skillID : SkillID;
  su_skillVersion : string;
  su_injectedAt : Time;
  su_outcome : Outcome
}.

(** [skillusage.New]: an injection starts pending. *)
Definition SkillUsage_New (id : SkillUsageID) (cid : ChangeID) (phaseType : string)
    (sid : SkillID) (version : string) (injectedAt : Time) : SkillUsage :=
  mkSkillUsage id cid phaseType sid version injectedAt OutcomePending.

Record audit_row := mkAudit { au_phase : option PhaseID; au_type : string }.

(** The typed payloads of [internal/ports/inbound/event_payloads.go], without
    their timestamps. *)
Inductive payload :=
  | PStarted (pt : string) (cid : ChangeID)
  | PGovernance (decision : string)
  | PApprovalRequired
  | PApprovalResolved (decision approver reason : string)
  | PDispatched (sid : SessionID) (role provider : string)
  | PEnvelopeReceived (status : string) (confidence : float64)
  | PArtifactFailed (topic type_ : string)
  | PCompleted (pt : string) (status : string) (confidence : float64) (concerns : list Concern)
  | PCompletedFromApply (status : string) (confidence : float64) (concerns : list Concern)
  | PFailed (pt error reason detail : string)
  | PArchived (cid : ChangeID) (name : string).

Record event_row := mkEventRow { er_phase : PhaseID; er_type : string; er_payload : payload }.

Record DB := mkDB {
  t_changes : gmap ChangeID Change;
  t_phases : gmap PhaseID Phase;
  t_sessions : gmap SessionID Session;
  t_audit : list audit_row;                 (* newest first *)
  t_events : list event_row;                (* newest first *)
  t_outbox : gmap OutboxID outbox_row;
  t_usage : gmap SkillUsageID SkillUsage
}.

Definition emptyDB : DB := mkDB ∅ ∅ ∅ [] [] ∅ ∅.

Definition with_changes f (d : DB) : DB :=
  mkDB (f (t_changes d)) (t_phases d) (t_sessions d) (t_audit d) (t_events d) (t_outbox d) (t_usage d).
Definition with_phases f (d : DB) : DB :=
  mkDB (t_changes d) (f (t_phases d)) (t_sessions d) (t_audit d) (t_events d) (t_outbox d) (t_usage d).
Definition with_sessions f (d : DB) : DB :=
  mkDB (t_changes d) (t_phases d) (f (t_sessions d)) (t_audit d) (t_events d) (t_outbox d) (t_usage d).
Definition with_audit f (d : DB) : DB :=
  mkDB (t_changes d) (t_phases d) (t_sessions d) (f (t_audit d)) (t_events d) (t_outbox d) (t_usage d).
Definition with_events f (d : DB) : DB :=
  mkDB (t_changes d) (t_phases d) (t_sessions d) (t_audit d) (f (t_events d)) (t_outbox d) (t_usage d).
Definition with_outbox f (d : DB) : DB :=
  mkDB (t_changes d) (t_phases d) (t_sessions d) (t_audit d) (t_events d) (f (t_outbox d)) (t_usage d).
Definition with_usage f (d : DB) : DB :=
  mkDB (t_changes d) (t_phases d) (t_sessions d) (t_audit d) (t_events d) (t_outbox d) (f (t_usage d)).

(** ** changes (change_repo.go) *)

(** INSERT ... ON CONFLICT (id) DO UPDATE SET status, current_phase,
    updated_at; a clash on (project, name) with another row is an error. *)
Definition change_upsert (c : Change) (d : DB) : result store_error (Change * DB) :=
  match t_changes d !! ch_id c with
  | Some r =>
      let r' := mkChange (ch_id r) (ch_name r) (ch_project r) (ch_status c) (ch_currentPhase c)
                  (ch_artifactStore r) (ch_baseRef r) (ch_createdAt r) (ch_updatedAt c) in
      Ok (r', with_changes (insert (ch_id c) r') d)
  | None =>
      if existsb (λ kv, bool_decide (ch_project kv.2 = ch_project c)
                        && bool_decide (ch_name kv.2 = ch_name c)) (map_to_list (t_changes d))
      then Err ErrStore
      else Ok (c, with_changes (insert (ch_id c) c) d)
  end.

Definition change_find (id : ChangeID) (d : DB) : result store_error Change :=
  match t_changes d !! id with Some c => Ok c | None => Err ErrNotFound end.

Definition change_find_name (project name : string) (d : DB) : result store_error Change :=
  match find (λ kv, bool_decide (ch_project kv.2 = project) && bool_decide (ch_name kv.2 = name))
          (map_to_list (t_changes d)) with
  | Some (_, c) => Ok c
  | None => Err ErrNotFound
  end.

(** ORDER BY created_at DESC LIMIT OFFSET, with empty filters matching all. *)
Definition newer (x y : Change) : Prop := (ch_createdAt y <= ch_createdAt x)%Z.
#[global] Instance newer_dec x y : Decision (newer x y).
Proof. unfold newer. apply _. Defined.

Definition cs_string (s : ChangeStatus) : string :=
  match s with StatusActive => "active" | StatusCompleted => "completed" | StatusAborted => "aborted" end.

Definition change_list (project status : string) (limit offset : Z) (d : DB) : list Change :=
  let keep c := (str_empty project || bool_decide (ch_project c = project))
                && (str_empty status || bool_decide (cs_string (ch_status c) = status)) in
  take (Z.to_nat limit) (drop (Z.to_nat offset)
    (merge_sort newer (filter (λ c, keep c = true) (map_to_list (t_changes d)).*2))).

(** ** phases (phase_repo.go) *)

Section Phases.
Context `{PgTypes}.

(** The columns as they are read back. *)
Definition phase_row (p : Phase) : Phase :=
  mkPhase (p_id p) (p_changeID p) (p_type p) (p_status p) (stored_envelope <$> p_envelope p)
    (numeric_3_2 (p_confidence p)) (p_retryBudget p) (p_attempts p) (p_startedAt p)
    (p_completedAt p) (p_concerns p).

(** UNIQUE (change_id, phase_type, attempts).  A phase type read from a column
    is never [PhaseOther] of a known name ([pt_of]), so equal text is equal type. *)
Definition same_attempt (p r : Phase) : bool :=
  bool_decide (p_changeID r = p_changeID p)
  && bool_decide (p_type r = p_type p)
  && (p_attempts r =? p_attempts p)%Z.

Definition find_attempt (p : Phase) (d : DB) : option (PhaseID * Phase) :=
  find (λ kv, same_attempt p kv.2) (map_to_list (t_phases d)).

(** [Save]: INSERT ... ON CONFLICT (change_id, phase_type, attempts) DO UPDATE.
    The row found keeps its id, change, type and attempt; a clash on the
    primary key alone, or a missing change, is an error. *)
Definition phase_upsert (p : Phase) (d : DB) : result store_error (Phase * DB) :=
  match find_attempt p d with
  | Some (id, r) =>
      let r' := mkPhase (p_id r) (p_changeID r) (p_type r) (p_status p)
                  (stored_envelope <$> p_envelope p) (numeric_3_2 (p_confidence p)) (p_retryBudget p) (p_attempts r)
                  (p_startedAt p) (p_completedAt p) (p_concerns p) in
      Ok (r', with_phases (insert id r') d)
  | None =>
      match t_phases d !! p_id p with
      | Some _ => Err ErrStore
      | None =>
          match t_changes d !! p_changeID p with
          | None => Err ErrStore
          | Some _ => Ok (phase_row p, with_phases (insert (p_id p) (phase_row p)) d)
          end
      end
  end.
End Phases.

Definition phase_find (id : PhaseID) (d : DB) : result store_error Phase :=
  match t_phases d !! id with Some p => Ok p | None => Err ErrNotFound end.

(** The first row of a list in an order; [better x y]: [x] comes before [y]. *)
Fixpoint best {A} (better : A → A → bool) (l : list A) : option A :=
  match l with
  | [] => None
  | x :: l' =>
      match best better l' with
      | Some y => if better y x then Some y else Some x
      | None => Some x
      end
  end.

Definition rows_of (keep : Phase → bool) (d : DB) : list Phase :=
  filter (λ p, keep p = true) (map_to_list (t_phases d)).*2.

(** ORDER BY attempts DESC LIMIT 1 *)
Definition phase_latest (cid : ChangeID) (pt : PhaseType) (d : DB) : result store_error Phase :=
  match best (λ x y, (p_attempts y <? p_attempts x)%Z)
          (rows_of (λ p, bool_decide (p_changeID p = cid)
                         && bool_decide (p_type p = pt)) d) with
  | Some p => Ok p
  | None => Err ErrNotFound
  end.

(** ORDER BY started_at: NULL sorts after every time. *)
Definition started_lt (x y : Phase) : bool :=
  match p_startedAt x, p_startedAt y with
  | Some a, Some b => (a <? b)%Z
  | Some _, None => true
  | None, _ => false
  end.

Definition is_live (s : PhaseStatus) : bool :=
  bool_decide (s = PhaseStatusRunning) || bool_decide (s = PhaseStatusInterrupted).

Definition phase_running (cid : ChangeID) (d : DB) : result store_error Phase :=
  match best (λ x y, started_lt y x)
          (rows_of (λ p, bool_decide (p_changeID p = cid) && is_live (p_status p)) d) with
  | Some p => Ok p
  | None => Err ErrNotFound
  end.

Definition started_le (x y : Phase) : Prop := started_lt y x = false.
#[global] Instance started_le_dec x y : Decision (started_le x y).
Proof. unfold started_le. apply _. Defined.

Definition phase_all_running (d : DB) : list Phase :=
  merge_sort started_le (rows_of (λ p, bool_decide (p_status p = PhaseStatusRunning)) d).

(** ** agent_sessions (session_repo.go) *)

(** The columns as they are read back. *)
Definition session_row `{PgTypes} (s : Session) : Session :=
  s_with (s_status s) (s_exitCode s) (stored_envelope <$> s_envelope s) (s_endedAt s) s.

(** INSERT ... ON CONFLICT (id) DO UPDATE SET status, exit_code, envelope,
    ended_at, worktree_id; change_id and phase_id are foreign keys. *)
Definition session_upsert `{PgTypes} (s : Session) (d : DB) : result store_error DB :=
  match t_sessions d !! s_id s with
  | Some r =>
      Ok (with_sessions (insert (s_id s)
        (mkSession (s_id r) (s_changeID r) (s_phaseID r) (s_role r) (s_provider r) (s_worktreeID s)
           (s_promptSHA256 r) (s_command r) (s_status s) (s_exitCode s)
           (stored_envelope <$> s_envelope s) (s_startedAt r) (s_endedAt s))) d)
  | None =>
      match t_changes d !! s_changeID s, t_phases d !! s_phaseID s with
      | Some _, Some _ => Ok (with_sessions (insert (s_id s) (session_row s)) d)
      | _, _ => Err ErrStore
      end
  end.

Definition session_earlier (x y : Session) : Prop := (s_startedAt x <= s_startedAt y)%Z.
#[global] Instance session_earlier_dec x y : Decision (session_earlier x y).
Proof. unfold session_earlier. apply _. Defined.

Definition session_find_by_phase (pid : PhaseID) (d : DB) : list Session :=
  merge_sort session_earlier
    (filter (λ s, s_phaseID s = pid) (map_to_list (t_sessions d)).*2).

(** ** audit_log and phase_events (audit_log.go, event_store.go) *)

Definition audit_has (pid : PhaseID) (eventType : string) (d : DB) : bool :=
  existsb (λ a, bool_decide (au_phase a = Some pid) && bool_decide (au_type a = eventType)) (t_audit d).

(** ** webhook_outbox (outbox_repo.go) *)

(** [SaveCompletedWithOutbox]: the change upsert and the INSERT of the event in
    one transaction; the primary key of the event must be new. *)
Definition completed_with_outbox (c : Change) (ev : Event) (d : DB) : result store_error (Change * DB) :=
  let? (r, d') := change_upsert c d in
  match t_outbox d' !! ev_id ev with
  | Some _ => Err ErrStore
  | None => Ok (r, with_outbox (insert (ev_id ev) (row_of_event ev)) d')
  end.

(** ** skill_usage (skill_usage_repo.go) *)

(** UNIQUE (change_id, phase_type, skill_id, skill_version) *)
Definition same_usage (x y : SkillUsage) : bool :=
  bool_decide (su_changeID x = su_changeID y) && bool_decide (su_phaseType x = su_phaseType y)
  && bool_decide (su_skillID x = su_skillID y) && bool_decide (su_skillVersion x = su_skillVersion y).

(** ON CONFLICT (change_id, phase_type, skill_id, skill_version) DO NOTHING *)
Definition usage_insert (su : SkillUsage) (d : DB) : result store_error DB :=
  if existsb (λ kv, same_usage su kv.2) (map_to_list (t_usage d)) then Ok d
  else match t_usage d !! su_id su with
       | Some _ => Err ErrStore
       | None => Ok (with_usage (insert (su_id su) su) d)
       end.

(** UPDATE skill_usage SET outcome WHERE id *)
Definition usage_update (id : SkillUsageID) (o : Outcome) (d : DB) : DB :=
  with_usage (alter (λ su, mkSkillUsage (su_id su) (su_changeID su) (su_phaseType su)
    (su_skillID su) (su_skillVersion su) (su_injectedAt su) o) id) d.

(** ** Statements *)

(** One constructor per repository method, with the type of its answer: an
    [option store_error] for a write ([None] is nil), a [result] for a read. *)
Inductive dbop : Type → Type :=
  | ChangeFindByID (id : ChangeID) : dbop (result store_error Change)
  | ChangeFindByProjectName (project name : string) : dbop (result store_error Change)
  | ChangeListQ (project status : string) (limit offset : Z) : dbop (result store_error (list Change))
  | ChangeSave (c : Change) : dbop (option store_error)
  | PhaseFindByID (id : PhaseID) : dbop (result store_error Phase)
  | PhaseFindByChangeAndType (cid : ChangeID) (pt : PhaseType) : dbop (result store_error Phase)
  | PhaseFindRunningByChange (cid : ChangeID) : dbop (result store_error Phase)
  | PhaseFindAllRunning : dbop (result store_error (list Phase))
  | PhaseLockByChange (cid : ChangeID) : dbop (option store_error)
  | PhaseSave (p : Phase) : dbop (option store_error)
  | SessionSave (s : Session) : dbop (option store_error)
  | SessionFindByPhaseID (pid : PhaseID) : dbop (result store_error (list Session))
  | AuditAppend (pid : option PhaseID) (eventType : string) : dbop (option store_error)
  | AuditHasEventForPhase (pid : PhaseID) (eventType : string) : dbop (result store_error bool)
  | EventAppend (pid : PhaseID) (eventType : string) (pl : payload) : dbop (option store_error)
  | OutboxSaveCompleted (c : Change) (ev : Event) : dbop (option store_error)
  | UsageInsert (su : SkillUsage) : dbop (option store_error)
  | UsageUpdateOutcome (id : SkillUsageID) (o : Outcome) : dbop (option store_error).

(** What a statement leaves in the history of the database: the row as it was
    stored. *)
Inductive db_entry :=
  | WrotePhase (p : Phase)
  | WroteChange (c : Change)
  | WroteOutbox (c : Change) (ev : Event)
  | WroteAudit (pid : option PhaseID) (eventType : string).

Section Exec.
Context `{PgTypes}.

(** The effect of a write that reaches the database: the new tables and the
    history entries, oldest last. *)
Definition write_effect {R} (o : dbop R) (d : DB) : result store_error (list db_entry * DB) :=
  match o with
  | ChangeSave c =>
      let? (r, d') := change_upsert c d in Ok ([WroteChange r], d')
  | PhaseSave p =>
      let? (r, d') := phase_upsert p d in Ok ([WrotePhase r], d')
  | SessionSave s => let? d' := session_upsert s d in Ok ([], d')
  | AuditAppend pid et => Ok ([WroteAudit pid et], with_audit (cons (mkAudit pid et)) d)
  | EventAppend pid et pl => Ok ([], with_events (cons (mkEventRow pid et pl)) d)
  | OutboxSaveCompleted c ev =>
      let? (r, d') := completed_with_outbox c ev d in Ok ([WroteChange r; WroteOutbox r ev], d')
  | UsageInsert su => let? d' := usage_insert su d in Ok ([], d')
  | UsageUpdateOutcome id oc => Ok ([], usage_update id oc d)
  | _ => Ok ([], d)
  end.

(** The answer of a statement that the database executed on [d]. *)
Definition answer {R} (o : dbop R) (d : DB) : R :=
  let wr {A} (r : result store_error A) : option store_error :=
    match r with Ok _ => None | Err e => Some e end in
  match o in dbop R return R with
  | ChangeFindByID id => change_find id d
  | ChangeFindByProjectName project name => change_find_name project name d
  | ChangeListQ project status limit offset => Ok (change_list project status limit offset d)
  | PhaseFindByID id => phase_find id d
  | PhaseFindByChangeAndType cid pt => phase_latest cid pt d
  | PhaseFindRunningByChange cid => phase_running cid d
  | PhaseFindAllRunning => Ok (phase_all_running d)
  | PhaseLockByChange _ => None
  | SessionFindByPhaseID pid => Ok (session_find_by_phase pid d)
  | AuditHasEventForPhase pid et => Ok (audit_has pid et d)
  | ChangeSave c => wr (change_upsert c d)
  | PhaseSave p => wr (phase_upsert p d)
  | SessionSave s => wr (session_upsert s d)
  | AuditAppend _ _ => None
  | EventAppend _ _ _ => None
  | OutboxSaveCompleted c ev => wr (completed_with_outbox c ev d)
  | UsageInsert su => wr (usage_insert su d)
  | UsageUpdateOutcome _ _ => None
  end.

(** The answer of a statement whose caller sees a connection error. *)
Definition failed {R} (o : dbop R) : R :=
  match o in dbop R return R with
  | ChangeFindByID _ | ChangeFindByProjectName _ _ => Err ErrStore
  | ChangeListQ _ _ _ _ => Err ErrStore
  | PhaseFindByID _ | PhaseFindByChangeAndType _ _ | PhaseFindRunningByChange _ => Err ErrStore
  | PhaseFindAllRunning => Err ErrStore
  | SessionFindByPhaseID _ => Err ErrStore
  | AuditHasEventForPhase _ _ => Err ErrStore
  | PhaseLockByChange _ | ChangeSave _ | PhaseSave _ | SessionSave _ | AuditAppend _ _
  | EventAppend _ _ _ | OutboxSaveCompleted _ _ | UsageInsert _ | UsageUpdateOutcome _ _ =>
      Some ErrStore
  end.

(** A statement under a fault: its answer, the history entries it adds and
    the tables after it. *)
Definition db_exec {R} (o : dbop R) (f : fault) (d : DB) : R * list db_entry * DB :=
  let after := match write_effect o d with Ok x => x | Err _ => ([], d) end in
  match f with
  | NoFault => (answer o d, after.1, after.2)
  | FailBefore => (failed o, [], d)
  | FailAfter => (failed o, after.1, after.2)
  end.
End Exec.
