(* ===== verification/BoardStore.v ===== *)
(** * The board tables

    [internal/adapters/outbound/pg/board_repo.go] over the tables of
    migrations 003 and 008: apply boards, their groups and their tasks.  Every
    statement is atomic; rows of a query come back in no particular order. *)
From S2P Require Import Prelude Ids Envelope ApplyDomain Store.
From stdpp Require Import list.

(** ** Tables *)

(** A group row has no tasks of its own and a board row no groups. *)
Record board_db := mkBoardDb {
  bd_phases : gset PhaseID;               (* phases(id), the target of a foreign key *)
  bd_boards : gmap BoardID Board;
  bd_groups : gmap GroupID Group;
  bd_tasks : gmap TaskID Task
}.

Definition board_row (b : Board) : Board := mkBoard (b_id b) (b_phaseID b) (b_status b) [].
Definition group_row (g : Group) : Group := g_with_tasks [] g.

(** ** Writes *)

(** INSERT ... ON CONFLICT (id) DO UPDATE SET status; phase_id is UNIQUE and
    references phases. *)
Definition SaveBoard (b : Board) (d : board_db) : result store_error board_db :=
  match bd_boards d !! b_id b with
  | Some r =>
      Ok (mkBoardDb (bd_phases d) (<[b_id b := b_with_status (b_status b) r]> (bd_boards d))
            (bd_groups d) (bd_tasks d))
  | None =>
      if bool_decide (b_phaseID b ∉ bd_phases d) then Err ErrStore
      else if existsb (λ kv, bool_decide (b_phaseID kv.2 = b_phaseID b)) (map_to_list (bd_boards d))
      then Err ErrStore
      else Ok (mkBoardDb (bd_phases d) (<[b_id b := board_row b]> (bd_boards d)) (bd_groups d) (bd_tasks d))
  end.

(** ON CONFLICT (id) DO UPDATE SET status, worktree_path, branch_name,
    build_status, build_attempts *)
Definition SaveGroup (g : Group) (d : board_db) : result store_error board_db :=
  let put r := mkBoardDb (bd_phases d) (bd_boards d) (<[g_id g := r]> (bd_groups d)) (bd_tasks d) in
  match bd_groups d !! g_id g with
  | Some r =>
      Ok (put (mkGroup (g_id r) (g_boardID r) (g_name r) (g_dependsOn r) [] (g_status g)
                 (g_worktreePath g) (g_branchName g) (g_buildStatus g) (g_buildAttempts g)))
  | None =>
      match bd_boards d !! g_boardID g with
      | None => Err ErrStore
      | Some _ => Ok (put (group_row g))
      end
  end.

(** ON CONFLICT (id) DO UPDATE SET status, claimed_by, attempts, envelope *)
Definition SaveTask (t : Task) (d : board_db) : result store_error board_db :=
  let put r := mkBoardDb (bd_phases d) (bd_boards d) (bd_groups d) (<[t_id t := r]> (bd_tasks d)) in
  match bd_tasks d !! t_id t with
  | Some r => Ok (put (t_with (t_status t) (t_claimedBy t) (t_attempts t) (t_envelope t) r))
  | None =>
      match bd_groups d !! t_groupID t with
      | None => Err ErrStore
      | Some _ => Ok (put t)
      end
  end.

(** UPDATE tasks SET status = 'claimed', claimed_by WHERE id AND status =
    'pending' RETURNING id *)
Definition ClaimTask (id : TaskID) (sid : SessionID) (d : board_db) : bool * board_db :=
  match bd_tasks d !! id with
  | Some r =>
      if bool_decide (t_status r = TaskStatusPending)
      then (true, mkBoardDb (bd_phases d) (bd_boards d) (bd_groups d)
                    (<[id := t_with TaskStatusClaimed (Some sid) (t_attempts r) (t_envelope r) r]> (bd_tasks d)))
      else (false, d)
  | None => (false, d)
  end.

(** ** Reads *)

(** A task whose stored description or file list is empty does not hydrate; the
    scan loop skips it. *)
Definition scanTask (r : Task) : option Task :=
  match HydrateTask (t_id r) (t_groupID r) (t_description r) (t_filesPattern r) (t_status r)
          (t_claimedBy r) (t_attempts r) (t_envelope r) with
  | Ok t => Some t
  | Err _ => None
  end.

Definition findTasksByGroup (gid : GroupID) (d : board_db) : list Task :=
  omap scanTask (filter (λ t, t_groupID t = gid) (map_to_list (bd_tasks d)).*2).

(** [iterateGroupRows]: hydrate the group, then attach its tasks one by one. *)
Definition scanGroup (d : board_db) (r : Group) : Group :=
  foldl AttachTaskToGroup
    (HydrateGroup (g_id r) (g_boardID r) (g_name r) (g_dependsOn r) (g_status r)
       (g_worktreePath r) (g_branchName r) (g_buildStatus r) (g_buildAttempts r))
    (findTasksByGroup (g_id r) d).

Definition findGroupsByBoard (bid : BoardID) (d : board_db) : list Group :=
  scanGroup d <$> filter (λ g, g_boardID g = bid) (map_to_list (bd_groups d)).*2.

Definition FindBoardByPhaseID (pid : PhaseID) (d : board_db) : result store_error Board :=
  match find (λ kv, bool_decide (b_phaseID kv.2 = pid)) (map_to_list (bd_boards d)) with
  | Some (_, b) => Ok (HydrateBoard (b_id b) (b_phaseID b) (b_status b) (findGroupsByBoard (b_id b) d))
  | None => Err ErrNotFound
  end.

Definition FindTaskByID (id : TaskID) (d : board_db) : result store_error Task :=
  match bd_tasks d !! id with
  | None => Err ErrNotFound
  | Some r => match scanTask r with Some t => Ok t | None => Err ErrStore end
  end.

(** ** Claims *)

(** A run of claims on one task; the answers in order. *)
Fixpoint claims (id : TaskID) (sids : list SessionID) (d : board_db) : list bool * board_db :=
  match sids with
  | [] => ([], d)
  | sid :: sids' =>
      let '(ok, d1) := ClaimTask id sid d in
      let '(oks, d2) := claims id sids' d1 in (ok :: oks, d2)
  end.

Lemma claims_refused id sids d :
  (∀ r, bd_tasks d !! id = Some r → t_status r ≠ TaskStatusPending) →
  claims id sids d = (replicate (length sids) false, d).
Proof.
  intros Hr. induction sids as [|sid sids IH]; simpl; [done|].
  assert (ClaimTask id sid d = (false, d)) as ->.
  { unfold ClaimTask. destruct (bd_tasks d !! id) as [r|]; [|done].
    by rewrite bool_decide_eq_false_2 by auto. }
  by rewrite IH.
Qed.

(** (claims are exclusive) however many sessions claim a task, one after the
    other, exactly the first succeeds when the task is pending and none does
    otherwise; afterwards the task is claimed by that first session, with its
    attempts, envelope and description as they were, and no other row of any
    table has changed. *)
Theorem claim_is_exclusive id sid sids d r :
  bd_tasks d !! id = Some r →
  claims id (sid :: sids) d =
    if bool_decide (t_status r = TaskStatusPending)
    then (true :: replicate (length sids) false,
          mkBoardDb (bd_phases d) (bd_boards d) (bd_groups d)
            (<[id := t_with TaskStatusClaimed (Some sid) (t_attempts r) (t_envelope r) r]> (bd_tasks d)))
    else (replicate (S (length sids)) false, d).
Proof.
  intros Hr. case_bool_decide as Hs.
  - cbn [claims]. unfold ClaimTask at 1. rewrite Hr, bool_decide_eq_true_2 by done.
    rewrite claims_refused; [done|]. intros r'. simpl. rewrite lookup_insert_eq. by intros [= <-].
  - rewrite claims_refused; [done|]. intros r'. rewrite Hr. congruence.
Qed.

Definition sample_task (s : TaskStatus) : Task := mkTask (mkID "t") (mkID "g") "d" ["f"] s None 0 None.
Definition sample_board_db : board_db :=
  mkBoardDb {[mkID "p"]} ∅ ∅ {[mkID "t" := sample_task TaskStatusPending]}.

Lemma claim_is_exclusive_witness :
  (claims (mkID "t") [mkID "a"; mkID "b"; mkID "c"] sample_board_db).1 = [true; false; false].
Proof.
  rewrite (claim_is_exclusive (mkID "t") (mkID "a") [mkID "b"; mkID "c"] sample_board_db
             (sample_task TaskStatusPending)); reflexivity.
Defined.

(** ** Saving and loading a board *)

Fixpoint save_all {A} (save : A → board_db → result store_error board_db) (l : list A) (d : board_db)
    : result store_error board_db :=
  match l with
  | [] => Ok d
  | x :: l' => let? d' := save x d in save_all save l' d'
  end.

(** A group and its tasks, and a board and its groups, in the order of
    [buildBoard]. *)
Definition save_group_tree (g : Group) (d : board_db) : result store_error board_db :=
  let? d' := SaveGroup g d in save_all SaveTask (g_tasks g) d'.
Definition save_board_tree (b : Board) (d : board_db) : result store_error board_db :=
  let? d' := SaveBoard b d in save_all save_group_tree (b_groups b) d'.

Definition keyed_tasks (ts : list Task) : gmap TaskID Task := list_to_map ((λ t, (t_id t, t)) <$> ts).
Definition keyed_groups (gs : list Group) : gmap GroupID Group :=
  list_to_map ((λ g, (g_id g, group_row g)) <$> gs).

Definition with_tasks (ts : list Task) (d : board_db) : board_db :=
  mkBoardDb (bd_phases d) (bd_boards d) (bd_groups d) (keyed_tasks ts ∪ bd_tasks d).
Definition with_groups (gs : list Group) (d : board_db) : board_db :=
  mkBoardDb (bd_phases d) (bd_boards d) (keyed_groups gs ∪ bd_groups d) (bd_tasks d).

Lemma keyed_tasks_None ts id : id ∉ t_id <$> ts → keyed_tasks ts !! id = None.
Proof.
  intros Hn. apply not_elem_of_list_to_map_1. intros Hin. apply Hn.
  rewrite <-list_fmap_compose in Hin. exact Hin.
Qed.

Lemma keyed_groups_None gs id : id ∉ g_id <$> gs → keyed_groups gs !! id = None.
Proof.
  intros Hn. apply not_elem_of_list_to_map_1. intros Hin. apply Hn.
  rewrite <-list_fmap_compose in Hin. exact Hin.
Qed.

Lemma save_tasks ts d :
  NoDup (t_id <$> ts) →
  (∀ t, t ∈ ts → bd_tasks d !! t_id t = None ∧ is_Some (bd_groups d !! t_groupID t)) →
  save_all SaveTask ts d = Ok (with_tasks ts d).
Proof.
  revert d. induction ts as [|t ts IH]; intros d Hnd Hfresh.
  { simpl. unfold with_tasks, keyed_tasks. simpl. rewrite (left_id_L ∅ (∪)). by destruct d. }
  apply NoDup_cons in Hnd as [Hni Hnd]. destruct (Hfresh t) as [Hn [g Hg]]; [set_solver|].
  simpl. unfold SaveTask. rewrite Hn, Hg. rewrite IH; [|done|].
  - unfold with_tasks. simpl. f_equal. f_equal. unfold keyed_tasks. simpl.
    rewrite <-insert_union_l, insert_union_r; [done|]. by apply keyed_tasks_None.
  - intros t' Ht'. simpl. destruct (Hfresh t') as [Hn' Hg']; [set_solver|]. split; [|done].
    rewrite lookup_insert_ne; [done|]. intros Heq. apply Hni. rewrite Heq. by apply list_elem_of_fmap_2.
Qed.

Definition all_tasks (gs : list Group) : list Task := mjoin (g_tasks <$> gs).

Lemma keyed_tasks_app ts1 ts2 : keyed_tasks (ts1 ++ ts2) = keyed_tasks ts1 ∪ keyed_tasks ts2.
Proof. unfold keyed_tasks. by rewrite fmap_app, list_to_map_app. Qed.

Lemma keyed_tasks_disjoint ts1 ts2 :
  NoDup (t_id <$> ts1 ++ ts2) → keyed_tasks ts1 ##ₘ keyed_tasks ts2.
Proof.
  rewrite fmap_app, NoDup_app. intros (_ & Hd & _). apply map_disjoint_spec.
  intros id t t' H1 H2. unfold keyed_tasks in *.
  apply elem_of_list_to_map_2 in H1, H2.
  apply list_elem_of_fmap in H1 as (u & [= -> ->] & Hu).
  apply list_elem_of_fmap in H2 as (u' & [= He ->] & Hu').
  apply (Hd (t_id u)); [by apply list_elem_of_fmap_2|]. rewrite He. by apply list_elem_of_fmap_2.
Qed.

Lemma save_groups gs d :
  NoDup (g_id <$> gs) → NoDup (t_id <$> all_tasks gs) →
  (∀ g, g ∈ gs → bd_groups d !! g_id g = None ∧ is_Some (bd_boards d !! g_boardID g) ∧
     ∀ t, t ∈ g_tasks g → t_groupID t = g_id g ∧ bd_tasks d !! t_id t = None) →
  save_all save_group_tree gs d = Ok (with_tasks (all_tasks gs) (with_groups gs d)).
Proof.
  revert d. induction gs as [|g gs IH]; intros d Hnd Hndt Hfresh.
  { simpl. unfold with_tasks, with_groups, keyed_tasks, keyed_groups. simpl.
    rewrite !(left_id_L ∅ (∪)). by destruct d. }
  apply NoDup_cons in Hnd as [Hni Hnd].
  pose proof Hndt as Hdisj. unfold all_tasks in Hdisj. simpl in Hdisj.
  pose proof (keyed_tasks_disjoint _ _ Hdisj) as Hdm.
  rewrite fmap_app in Hdisj. apply NoDup_app in Hdisj as (Hnd1 & Hcross & Hnd2).
  destruct (Hfresh g) as (Hn & [b Hb] & Hts); [set_solver|].
  cbn [save_all save_group_tree]. unfold save_group_tree, SaveGroup. rewrite Hn, Hb.
  rewrite save_tasks; [|done|].
  2: { intros t Ht. destruct (Hts t Ht) as [Hg Hnt]. simpl. rewrite Hg, lookup_insert_eq. eauto. }
  rewrite IH; [|done|done|].
  - unfold with_tasks, with_groups. simpl. f_equal. f_equal.
    + unfold keyed_groups. simpl. rewrite <-insert_union_l, insert_union_r; [done|].
      by apply keyed_groups_None.
    + unfold all_tasks. simpl. rewrite keyed_tasks_app, (assoc_L (∪)). f_equal.
      by rewrite (map_union_comm (keyed_tasks (g_tasks g))).
  - intros g' Hg'. destruct (Hfresh g') as (Hn' & Hb' & Hts'); [set_solver|]. simpl. split_and!.
    + rewrite lookup_insert_ne; [done|]. intros He. apply Hni. rewrite He. by apply list_elem_of_fmap_2.
    + done.
    + intros t Ht. destruct (Hts' t Ht) as [He Hnt]. split; [done|].
      rewrite lookup_union_r; [done|]. apply keyed_tasks_None. intros Hin. apply (Hcross _ Hin).
      apply list_elem_of_fmap_2. unfold all_tasks. apply list_elem_of_join. exists (g_tasks g').
      split; [done|]. by apply list_elem_of_fmap_2.
Qed.

(** What a new board has to satisfy to be saved. *)
Record board_new (b : Board) (d : board_db) : Prop := {
  bn_phase : b_phaseID b ∈ bd_phases d;
  bn_id : bd_boards d !! b_id b = None;
  bn_unique : ∀ i r, bd_boards d !! i = Some r → b_phaseID r ≠ b_phaseID b;
  bn_groups : NoDup (g_id <$> b_groups b);
  bn_tasks : NoDup (t_id <$> all_tasks (b_groups b));
  bn_fresh : ∀ g, g ∈ b_groups b → bd_groups d !! g_id g = None ∧ g_boardID g = b_id b ∧
    ∀ t, t ∈ g_tasks g → t_groupID t = g_id g ∧ bd_tasks d !! t_id t = None ∧
      t_description t ≠ EmptyString ∧ t_filesPattern t ≠ []
}.

(** Rows sit under their own identifiers and point at rows that exist. *)
Record tables_ok (d : board_db) : Prop := {
  to_board : ∀ i r, bd_boards d !! i = Some r → b_id r = i;
  to_group : ∀ i r, bd_groups d !! i = Some r → g_id r = i ∧ g_tasks r = [] ∧ is_Some (bd_boards d !! g_boardID r);
  to_task : ∀ i r, bd_tasks d !! i = Some r → t_id r = i ∧ is_Some (bd_groups d !! t_groupID r)
}.

Lemma save_board_new b d :
  board_new b d →
  save_board_tree b d = Ok (with_tasks (all_tasks (b_groups b)) (with_groups (b_groups b)
    (mkBoardDb (bd_phases d) (<[b_id b := board_row b]> (bd_boards d)) (bd_groups d) (bd_tasks d)))).
Proof.
  intros [Hp Hi Hu Hg Ht Hf]. unfold save_board_tree, SaveBoard. rewrite Hi.
  rewrite bool_decide_eq_false_2 by (intros Hn; by apply Hn).
  assert (existsb (λ kv, bool_decide (b_phaseID kv.2 = b_phaseID b)) (map_to_list (bd_boards d)) = false) as ->.
  { apply not_true_iff_false. intros ([i r] & Hin & Heq)%existsb_exists.
    apply list_elem_of_In, elem_of_map_to_list in Hin. apply bool_decide_eq_true in Heq. by eapply Hu. }
  rewrite save_groups; [done|done|done|].
  intros g Hin. destruct (Hf g Hin) as (Hn & Hb & Hts). simpl. split_and!; [done| |].
  - rewrite Hb, lookup_insert_eq. eauto.
  - intros t Htin. destruct (Hts t Htin) as (? & ? & _). done.
Qed.

(** *** Reading back *)

(** The rows of a map, under a filter, are a given list up to order. *)
Lemma rows_permutation {K A} `{Countable K} (key : A → K) (m : gmap K A) (P : A → Prop)
    `{∀ x, Decision (P x)} (l : list A) :
  (∀ k x, m !! k = Some x → key x = k) → NoDup (key <$> l) →
  (∀ x, x ∈ l ↔ m !! key x = Some x ∧ P x) →
  filter P (map_to_list m).*2 ≡ₚ l.
Proof.
  intros Hkey Hnd Hl. apply NoDup_Permutation.
  - apply NoDup_filter. assert (Hk : key <$> (map_to_list m).*2 = (map_to_list m).*1).
    { rewrite <-list_fmap_compose. apply list_fmap_ext. intros n [k x] Hx. simpl.
      by apply Hkey, elem_of_map_to_list, list_elem_of_lookup_2 with n. }
    eapply NoDup_fmap_1. rewrite Hk. apply NoDup_fst_map_to_list.
  - by eapply NoDup_fmap_1.
  - intros x. rewrite Hl, list_elem_of_filter, list_elem_of_fmap. split.
    + intros (HP & [k y] & -> & Hy%elem_of_map_to_list). simpl in *. by rewrite (Hkey _ _ Hy).
    + intros [Hx HP]. split; [done|]. exists (key x, x). split; [done|]. by apply elem_of_map_to_list.
Qed.

Lemma scanTask_valid t :
  t_description t ≠ EmptyString → t_filesPattern t ≠ [] → scanTask t = Some t.
Proof.
  intros Hd Hf. unfold scanTask, HydrateTask, str_empty.
  rewrite !bool_decide_eq_false_2 by done. by destruct t.
Qed.

Lemma omap_scan_valid (ts : list Task) :
  (∀ t, t ∈ ts → t_description t ≠ EmptyString ∧ t_filesPattern t ≠ []) → omap scanTask ts = ts.
Proof.
  induction ts as [|t ts IH]; intros Hv; [done|]. simpl.
  destruct (Hv t) as [Hd Hf]; [set_solver|]. rewrite scanTask_valid by done.
  f_equal. apply IH. intros t' Ht'. apply Hv. set_solver.
Qed.

Lemma attach_all (ts : list Task) g : foldl AttachTaskToGroup g ts = g_with_tasks (g_tasks g ++ ts) g.
Proof.
  revert g. induction ts as [|t ts IH]; intros g; simpl.
  - rewrite app_nil_r. by destruct g.
  - rewrite IH. simpl. by rewrite <-app_assoc.
Qed.

Lemma keyed_tasks_Some (ts : list Task) t :
  NoDup (t_id <$> ts) → t ∈ ts → keyed_tasks ts !! t_id t = Some t.
Proof.
  intros Hnd Ht. apply elem_of_list_to_map_1.
  - by rewrite <-list_fmap_compose.
  - apply list_elem_of_fmap. by exists t.
Qed.

Lemma keyed_groups_Some (gs : list Group) g :
  NoDup (g_id <$> gs) → g ∈ gs → keyed_groups gs !! g_id g = Some (group_row g).
Proof.
  intros Hnd Hg. apply elem_of_list_to_map_1.
  - by rewrite <-list_fmap_compose.
  - apply list_elem_of_fmap. by exists g.
Qed.

(** The same group up to the order of its tasks. *)
Definition group_same (g g' : Group) : Prop := group_row g = group_row g' ∧ g_tasks g ≡ₚ g_tasks g'.

Section Roundtrip.
Context (b : Board) (d : board_db) (Htab : tables_ok d) (Hnew : board_new b d).

Definition saved : board_db :=
  with_tasks (all_tasks (b_groups b)) (with_groups (b_groups b)
    (mkBoardDb (bd_phases d) (<[b_id b := board_row b]> (bd_boards d)) (bd_groups d) (bd_tasks d))).

Lemma all_tasks_elem t : t ∈ all_tasks (b_groups b) ↔ ∃ g, g ∈ b_groups b ∧ t ∈ g_tasks g.
Proof.
  unfold all_tasks. rewrite list_elem_of_join. split.
  - intros (l & Ht & (g & -> & Hg)%list_elem_of_fmap). eauto.
  - intros (g & Hg & Ht). exists (g_tasks g). split; [done|]. by apply list_elem_of_fmap_2.
Qed.

Lemma saved_task id t :
  bd_tasks saved !! id = Some t ↔
  (t ∈ all_tasks (b_groups b) ∧ id = t_id t) ∨ (id ∉ (t_id <$> all_tasks (b_groups b)) ∧ bd_tasks d !! id = Some t).
Proof.
  simpl. destruct (decide (id ∈ t_id <$> all_tasks (b_groups b))) as [Hin|Hni].
  - apply list_elem_of_fmap in Hin as (u & -> & Hu).
    rewrite (lookup_union_Some_l _ _ _ u) by (by apply keyed_tasks_Some; [apply (bn_tasks _ _ Hnew)|]).
    split; [intros [= <-]; by left|]. intros [[Ht He]|[Hni _]].
    + pose proof (keyed_tasks_Some _ t (bn_tasks _ _ Hnew) Ht) as H1.
      rewrite <-He, (keyed_tasks_Some _ u (bn_tasks _ _ Hnew) Hu) in H1. done.
    + destruct Hni. by apply list_elem_of_fmap_2.
  - rewrite lookup_union_r by (by apply keyed_tasks_None). split; [by right|].
    intros [[Ht ->]|[_ Ht]]; [|done]. destruct Hni. by apply list_elem_of_fmap_2.
Qed.

Lemma saved_group id r :
  bd_groups saved !! id = Some r ↔
  (∃ g, g ∈ b_groups b ∧ r = group_row g ∧ id = g_id g) ∨
  (id ∉ (g_id <$> b_groups b) ∧ bd_groups d !! id = Some r).
Proof.
  simpl. destruct (decide (id ∈ g_id <$> b_groups b)) as [Hin|Hni].
  - apply list_elem_of_fmap in Hin as (u & -> & Hu).
    rewrite (lookup_union_Some_l _ _ _ (group_row u)) by (by apply keyed_groups_Some; [apply (bn_groups _ _ Hnew)|]).
    split; [intros [= <-]; left; by exists u|]. intros [(g & Hg & -> & He)|[Hni _]].
    + pose proof (keyed_groups_Some _ g (bn_groups _ _ Hnew) Hg) as H1.
      rewrite <-He, (keyed_groups_Some _ u (bn_groups _ _ Hnew) Hu) in H1. done.
    + destruct Hni. by apply list_elem_of_fmap_2.
  - rewrite lookup_union_r by (by apply keyed_groups_None). split; [by right|].
    intros [(g & Hg & -> & ->)|[_ Ht]]; [|done]. destruct Hni. by apply list_elem_of_fmap_2.
Qed.

Lemma saved_tasks_of g : g ∈ b_groups b → findTasksByGroup (g_id g) saved ≡ₚ g_tasks g.
Proof.
  intros Hg. unfold findTasksByGroup.
  assert (Hperm : filter (λ t, t_groupID t = g_id g) (map_to_list (bd_tasks saved)).*2 ≡ₚ g_tasks g).
  { apply (rows_permutation t_id).
    - intros id t [[_ ->]|[_ Ht]]%saved_task; [done|]. by apply (to_task _ Htab).
    - pose proof (bn_tasks _ _ Hnew) as Hnd. eapply sublist_NoDup; [exact Hnd|].
      apply fmap_sublist. unfold all_tasks. clear -Hg. induction (b_groups b) as [|x l IH]; [set_solver|].
      apply elem_of_cons in Hg as [->|Hg]; simpl; [apply sublist_inserts_r; done|].
      apply sublist_inserts_l. by apply IH.
    - intros t. split.
      + intros Ht. destruct (bn_fresh _ _ Hnew g Hg) as (_ & _ & Hts). destruct (Hts t Ht) as (He & _).
        split; [|done]. apply saved_task. left. split; [|done]. apply all_tasks_elem. eauto.
      + intros [[[Ht _]|[_ Ht]]%saved_task He].
        * apply all_tasks_elem in Ht as (g' & Hg' & Ht).
          destruct (bn_fresh _ _ Hnew g' Hg') as (_ & _ & Hts). destruct (Hts t Ht) as (He' & _).
          assert (g' = g) as ->; [|done].
          apply list_elem_of_lookup in Hg as [i Hi], Hg' as [j Hj].
          assert (i = j) as ->; [|congruence].
          apply (NoDup_lookup _ i j (g_id g) (bn_groups _ _ Hnew));
            rewrite list_lookup_fmap; [rewrite Hi|rewrite Hj]; simpl; congruence.
        * destruct (to_task _ Htab _ _ Ht) as [_ [r Hr]]. rewrite He in Hr.
          destruct (bn_fresh _ _ Hnew g Hg) as (Hn & _). congruence. }
  rewrite Hperm, omap_scan_valid; [done|].
  intros t Ht. destruct (bn_fresh _ _ Hnew g Hg) as (_ & _ & Hts). by destruct (Hts t Ht) as (_ & _ & ? & ?).
Qed.

Lemma saved_groups_of :
  filter (λ g, g_boardID g = b_id b) (map_to_list (bd_groups saved)).*2 ≡ₚ group_row <$> b_groups b.
Proof.
  apply (rows_permutation g_id).
  - intros id r [(g & _ & -> & ->)|[_ Hr]]%saved_group; [done|]. by apply (to_group _ Htab).
  - pose proof (bn_groups _ _ Hnew) as Hnd. by rewrite <-list_fmap_compose.
  - intros r. rewrite list_elem_of_fmap. split.
    + intros (g & -> & Hg). destruct (bn_fresh _ _ Hnew g Hg) as (_ & Hb & _). split; [|done].
      apply saved_group. left. by exists g.
    + intros [[(g & Hg & -> & _)|[_ Hr]]%saved_group Hb]; [by exists g|].
      destruct (to_group _ Htab _ _ Hr) as (_ & _ & [x Hx]). rewrite Hb, (bn_id _ _ Hnew) in Hx. done.
Qed.

Lemma saved_board_of :
  find (λ kv, bool_decide (b_phaseID kv.2 = b_phaseID b)) (map_to_list (bd_boards saved))
    = Some (b_id b, board_row b).
Proof.
  destruct (find _ _) as [[i r]|] eqn:Hf.
  - apply find_some in Hf as [Hin Heq]. apply bool_decide_eq_true in Heq.
    apply list_elem_of_In, elem_of_map_to_list in Hin. simpl in Hin.
    apply lookup_insert_Some in Hin as [[<- <-]|[_ Hr]]; [done|]. by destruct (bn_unique _ _ Hnew _ _ Hr).
  - assert (Hx : (b_id b, board_row b) ∈ map_to_list (bd_boards saved)).
    { apply elem_of_map_to_list. simpl. apply lookup_insert_eq. }
    apply list_elem_of_In in Hx. apply (find_none _ _ Hf) in Hx. simpl in Hx.
    by rewrite bool_decide_eq_true_2 in Hx.
Qed.

Lemma scanned_group g : g ∈ b_groups b → group_same g (scanGroup saved (group_row g)).
Proof.
  intros Hg. unfold scanGroup. rewrite attach_all. split; simpl; [by destruct g|].
  by rewrite (saved_tasks_of g Hg).
Qed.

(** (a board survives the database) a new board, written in the order
    [buildBoard] writes it (the board, then each group followed by its tasks),
    is accepted by the tables, and reading it back by its phase gives the same
    board: same id, phase and status, and the same groups with the same tasks,
    every column included, up to the order of groups and of tasks. *)
Theorem board_roundtrip :
  ∃ d' b' gs, save_board_tree b d = Ok d' ∧ FindBoardByPhaseID (b_phaseID b) d' = Ok b' ∧
    board_row b' = board_row b ∧ gs ≡ₚ b_groups b ∧ Forall2 group_same gs (b_groups b').
Proof.
  destruct (Permutation_map_inv _ _ saved_groups_of) as (gs & Hgs & Hperm).
  eexists saved, _, gs. split; [by apply save_board_new|].
  unfold FindBoardByPhaseID. rewrite saved_board_of. split; [reflexivity|]. split; [done|].
  split; [done|]. simpl. unfold findGroupsByBoard. rewrite Hgs.
  assert (Hin : ∀ g, g ∈ gs → g ∈ b_groups b) by (intros g; by rewrite Hperm). clear Hgs Hperm.
  induction gs as [|g gs IH]; simpl; constructor; [apply scanned_group|apply IH; intros]; set_solver.
Qed.
End Roundtrip.

Definition sample_groups : list Group :=
  [mkGroup (mkID "g1") (mkID "b") "backend" [] [mkTask (mkID "t1") (mkID "g1") "api" ["a.go"] TaskStatusPending None 0 None;
     mkTask (mkID "t2") (mkID "g1") "db" ["b.go"] TaskStatusPending None 0 None]
     GroupStatusPending "" "" GroupBuildStatusPending 0;
   mkGroup (mkID "g2") (mkID "b") "frontend" [mkID "g1"] [mkTask (mkID "t3") (mkID "g2") "ui" ["c.ts"] TaskStatusPending None 0 None]
     GroupStatusPending "" "" GroupBuildStatusPending 0].
Definition sample_board : Board := mkBoard (mkID "b") (mkID "p") BoardStatusBuilding sample_groups.
Definition empty_board_db : board_db := mkBoardDb {[mkID "p"]} ∅ ∅ ∅.

Lemma sample_board_new : board_new sample_board empty_board_db.
Proof.
  split.
  - simpl. set_solver.
  - done.
  - intros i r. simpl. by rewrite lookup_empty.
  - apply (bool_decide_unpack _). vm_compute. exact I.
  - apply (bool_decide_unpack _). vm_compute. exact I.
  - intros g Hg. simpl in Hg. apply elem_of_cons in Hg as [->|Hg].
    + split_and!; [done|done|]. intros t Ht. simpl in Ht.
      apply elem_of_cons in Ht as [->|Ht%list_elem_of_singleton]; [done|by subst].
    + apply list_elem_of_singleton in Hg as ->. split_and!; [done|done|]. intros t Ht.
      simpl in Ht. by apply list_elem_of_singleton in Ht as ->.
Qed.

Lemma board_roundtrip_witness :
  ∃ d' b' gs, save_board_tree sample_board empty_board_db = Ok d' ∧
    FindBoardByPhaseID (b_phaseID sample_board) d' = Ok b' ∧
    board_row b' = board_row sample_board ∧ gs ≡ₚ b_groups sample_board ∧ Forall2 group_same gs (b_groups b').
Proof.
  apply (board_roundtrip sample_board empty_board_db).
  - split; simpl; intros i r; by rewrite lookup_empty.
  - exact sample_board_new.
Defined.
