(* ===== verification/WorktreeStore.v ===== *)
(** * The worktrees table

    [internal/adapters/outbound/pg/worktree_repo.go], over the table of
    migrations/postgres/004: its key, the reference to a session, and the index that
    keeps the paths of worktrees that are not cleaned apart. *)
From S2P Require Import Prelude Ids Session Store.
From stdpp Require Import list gmap sorting.

(** The ids of the sessions, and the rows. *)
Record worktree_db := mkWorktreeDb { wd_sessions : gset SessionID; wd_rows : gmap WorktreeID Worktree }.

Definition active (w : Worktree) : bool := bool_decide (w_status w ≠ WtCleaned).
(** worktrees_path_active_idx *)
Definition path_taken (w : Worktree) (m : gmap WorktreeID Worktree) : bool :=
  active w && existsb (λ kv, bool_decide (kv.1 ≠ w_id w) && active kv.2 && bool_decide (w_path kv.2 = w_path w)) (map_to_list m).
Definition session_known (w : Worktree) (sessions : gset SessionID) : bool :=
  match w_sessionID w with None => true | Some s => bool_decide (s ∈ sessions) end.
(** What ON CONFLICT (id) DO UPDATE leaves of the row. *)
Definition upserted (w : Worktree) (m : gmap WorktreeID Worktree) : Worktree :=
  match m !! w_id w with
  | Some r => mkWorktree (w_id r) (w_sessionID w) (w_path r) (w_branch r) (w_status w) (w_createdAt r) (w_cleanedAt w)
  | None => w
  end.
Definition WorktreeRepo_Save (w : Worktree) (d : worktree_db) : result store_error worktree_db :=
  let r := upserted w (wd_rows d) in
  if negb (session_known r (wd_sessions d)) || path_taken r (wd_rows d) then Err ErrStore
  else Ok (mkWorktreeDb (wd_sessions d) (<[w_id w := r]> (wd_rows d))).

(** scanWorktree: an identifier that does not parse is an error. *)
Definition scanWorktree `{UlidLib} (r : Worktree) : result store_error Worktree :=
  match ParseID WorktreeK (ID_String (w_id r)), (λ s, ParseID SessionK (ID_String s)) <$> w_sessionID r with
  | Err _, _ | _, Some (Err _) => Err ErrStore
  | Ok _, _ => Ok r
  end.
Definition WorktreeRepo_FindByID `{UlidLib} (id : WorktreeID) (d : worktree_db) : result store_error Worktree :=
  match wd_rows d !! id with Some r => scanWorktree r | None => Err ErrNotFound end.
(** ORDER BY created_at DESC LIMIT 1; rows created at the same time come in any
    order. *)
Definition created_later (x y : Worktree) : Prop := (w_createdAt y <= w_createdAt x)%Z.
#[local] Instance created_later_dec : RelDecision created_later := λ x y, decide (w_createdAt y <= w_createdAt x)%Z.
#[local] Instance created_later_total : Total created_later.
Proof. intros x y. unfold created_later. lia. Qed.
#[local] Instance created_later_trans : Transitive created_later.
Proof. intros x y z. unfold created_later. lia. Qed.
Definition session_rows (sid : SessionID) (d : worktree_db) : list Worktree :=
  merge_sort created_later (filter (λ w, w_sessionID w = Some sid) (map_to_list (wd_rows d)).*2).
Definition WorktreeRepo_FindBySessionID `{UlidLib} (sid : SessionID) (d : worktree_db) : result store_error Worktree :=
  match session_rows sid d with r :: _ => scanWorktree r | [] => Err ErrNotFound end.

(** ** What the table keeps *)

Record worktrees_ok (d : worktree_db) : Prop := {
  wo_key : ∀ i w, wd_rows d !! i = Some w → w_id w = i;
  wo_paths : ∀ i j v w, wd_rows d !! i = Some v → wd_rows d !! j = Some w → active v = true → active w = true → w_path v = w_path w → i = j;
  wo_sessions : ∀ i w, wd_rows d !! i = Some w → session_known w (wd_sessions d) = true
}.
Lemma path_taken_false w m :
  path_taken w m = false → ∀ j v, m !! j = Some v → j ≠ w_id w → active w = true → active v = true → w_path v ≠ w_path w.
Proof.
  unfold path_taken. intros Ht j v Hv Hj Hw Ha Hp. rewrite Hw in Ht. cbn [andb] in Ht. apply not_true_iff_false in Ht. apply Ht.
  apply existsb_exists. exists (j, v). split; [by apply list_elem_of_In, elem_of_map_to_list|]. cbn [fst snd].
  by rewrite !bool_decide_eq_true_2, Ha.
Qed.
Lemma upserted_id w m : (∀ i r, m !! i = Some r → w_id r = i) → w_id (upserted w m) = w_id w.
Proof. intros Hk. unfold upserted. destruct (m !! w_id w) as [r|] eqn:Hr; [by apply Hk in Hr|done]. Qed.

Lemma Save_ok w d d' : worktrees_ok d → WorktreeRepo_Save w d = Ok d' → worktrees_ok d'.
Proof.
  intros [Hk Hp Hs]. unfold WorktreeRepo_Save. pose proof (upserted_id w (wd_rows d) Hk) as Hid. revert Hid. set (r := upserted w (wd_rows d)). intros Hid.
  destruct (session_known r (wd_sessions d)) eqn:Hsk; cbn [negb orb]; [|done]. destruct (path_taken r (wd_rows d)) eqn:Ht; [done|].
  intros [= <-]. pose proof (path_taken_false r _ Ht) as Hfree. rewrite Hid in Hfree. split; cbn [wd_rows wd_sessions].
  - intros i x [[<- <-]|[_ Hx]]%lookup_insert_Some; [done|by apply Hk].
  - intros i j x y [[<- <-]|[Hi Hx]]%lookup_insert_Some [[<- <-]|[Hj Hy]]%lookup_insert_Some Ha Hb Heq; [done| | |by eapply Hp].
    + exfalso. by apply (Hfree j y Hy).
    + exfalso. by apply (Hfree i x Hx).
  - intros i x [[<- <-]|[_ Hx]]%lookup_insert_Some; [done|by eapply Hs].
Qed.

Fixpoint saves (ws : list Worktree) (d : worktree_db) : worktree_db :=
  match ws with [] => d | w :: ws => saves ws (match WorktreeRepo_Save w d with Ok d' => d' | Err _ => d end) end.
(** (paths) whatever is saved, in whatever order: no two worktrees that are not
    cleaned share a path, and each belongs to a session that exists or to none. *)
Theorem active_paths_are_distinct sessions ws : worktrees_ok (saves ws (mkWorktreeDb sessions ∅)).
Proof.
  assert (Hgo : ∀ d, worktrees_ok d → worktrees_ok (saves ws d)).
  { induction ws as [|w ws IH]; intros d Hd; [done|]. cbn [saves]. apply IH. destruct (WorktreeRepo_Save w d) eqn:Hs; [by eapply Save_ok|done]. }
  apply Hgo. by split; cbn; intros.
Qed.

Section Reading.
Context `{UlidLib}.
Definition ids_parse (w : Worktree) : Prop :=
  ParseID WorktreeK (ID_String (w_id w)) = Ok (w_id w) ∧ ∀ s, w_sessionID w = Some s → ParseID SessionK (ID_String s) = Ok s.
Lemma scan_parses w : ids_parse w → scanWorktree w = Ok w.
Proof. intros [Hi Hs]. unfold scanWorktree. rewrite Hi. destruct (w_sessionID w) as [s|]; [|done]. cbn. by rewrite Hs. Qed.
(** (reading back) a worktree that was saved, and each later state of it, is read
    back; a worktree saved under the id of another keeps the path, branch and
    creation time of the first. *)
Theorem saved_worktree_is_found w d d' :
  worktrees_ok d → ids_parse w → WorktreeRepo_Save w d = Ok d' →
  WorktreeRepo_FindByID (w_id w) d' = Ok (upserted w (wd_rows d)) ∧
  (∀ v, wd_rows d !! w_id w = Some v → rtc worktree_step v w → upserted w (wd_rows d) = w).
Proof.
  intros Hd Hids Hsave. unfold WorktreeRepo_Save in Hsave. destruct (_ || _); [done|]. injection Hsave as <-. split.
  - unfold WorktreeRepo_FindByID. cbn [wd_rows]. rewrite lookup_insert_eq. apply scan_parses.
    destruct Hids as [Hi Hs]. split; [by rewrite (upserted_id w _ (wo_key d Hd))|]. intros s Hw. apply Hs. revert Hw. unfold upserted. by destruct (_ !! _).
  - intros v Hv Hsteps. unfold upserted. rewrite Hv.
    assert (Hsame : w_id w = w_id v ∧ w_path w = w_path v ∧ w_branch w = w_branch v ∧ w_createdAt w = w_createdAt v).
    { clear -Hsteps. induction Hsteps as [|v u w Hst _ IH]; [done|]. destruct IH as (-> & -> & -> & ->).
      destruct Hst as [a b Hs|a b Hs|t a b Hs]; unfold Worktree_Lock, Worktree_Release, Worktree_Clean in Hs; repeat case_match; by simplify_eq. }
    destruct Hsame as (<- & <- & <- & <-). by destruct w.
Qed.
End Reading.

(** A path is free again once its worktree is cleaned. *)
Example sample_worktrees :
  let w i st := mkWorktree (mkID i) None "/wt" "b" st 0 None in
  let d := mkWorktreeDb ∅ ∅ in
  let d1 := saves [w "a" WtCreated] d in
  let saved r := match r with Ok _ => true | Err _ => false end in
  WorktreeRepo_Save (w "b" WtCreated) d1 = Err ErrStore ∧
  saved (WorktreeRepo_Save (w "b" WtCreated) (saves [w "a" WtCleaned] d1)) = true ∧
  saved (WorktreeRepo_Save (w "a" WtLocked) (saves [w "a" WtCleaned; w "b" WtCreated] d1)) = false.
Proof. vm_compute. repeat split. Qed.
