(* ===== verification/GoPath.v ===== *)
(** * Slash-separated paths

    [path/filepath.Clean] and [Join] on Unix, as the apply executor uses them
    to place the worktree of a group. *)
From S2P Require Import Prelude.
From stdpp Require Import list.
From Stdlib Require Import Ascii.

Definition slash : ascii := "/"%char.

(** [strings.Split] on a one-byte separator. *)
Fixpoint split_on (sep : ascii) (l : list ascii) : list (list ascii) :=
  match l with
  | [] => [[]]
  | a :: l' =>
      let rest := split_on sep l' in
      if bool_decide (a = sep) then [] :: rest
      else match rest with
           | [] => [[a]]
           | w :: ws => (a :: w) :: ws
           end
  end.

Abbreviation split_slash := (split_on slash).

Fixpoint join_slash (ws : list (list ascii)) : list ascii :=
  match ws with
  | [] => []
  | [w] => w
  | w :: ws' => w ++ slash :: join_slash ws'
  end.

Definition dot : list ascii := ["."%char].
Definition dotdot : list ascii := ["."%char; "."%char].

(** One component against the stack of components kept so far, last first. *)
Definition clean_step (rooted : bool) (stack : list (list ascii)) (w : list ascii)
    : list (list ascii) :=
  if bool_decide (w = []) || bool_decide (w = dot) then stack
  else if bool_decide (w = dotdot) then
    match stack with
    | [] => if rooted then [] else [dotdot]
    | top :: stack' => if bool_decide (top = dotdot) then dotdot :: stack else stack'
    end
  else w :: stack.

Definition is_rooted (l : list ascii) : bool :=
  match l with a :: _ => bool_decide (a = slash) | [] => false end.

Definition clean_chars (l : list ascii) : list ascii :=
  let rooted := is_rooted l in
  let stack := foldl (clean_step rooted) [] (split_slash l) in
  let body := join_slash (reverse stack) in
  if rooted then slash :: body
  else match body with [] => dot | _ => body end.

(** [filepath.Clean] *)
Definition Clean (p : string) : string :=
  String.string_of_list_ascii (clean_chars (String.list_ascii_of_string p)).

(** [filepath.Join] *)
Fixpoint Join (elems : list string) : string :=
  match elems with
  | [] => EmptyString
  | e :: elems' =>
      if str_empty e then Join elems'
      else Clean (String.string_of_list_ascii
             (join_slash (String.list_ascii_of_string <$> elems)))
  end.

(** ** A clean path stays where it points *)

(** A component that a clean rooted path may contain. *)
Definition proper (w : list ascii) : Prop := w ≠ [] ∧ w ≠ dot ∧ w ≠ dotdot ∧ slash ∉ w.

Lemma clean_step_proper w stack :
  proper w → clean_step true stack w = w :: stack.
Proof.
  intros (H1 & H2 & H3 & _). unfold clean_step.
  by rewrite !bool_decide_eq_false_2 by done.
Qed.

Lemma clean_step_skip rooted stack w : w = [] ∨ w = dot → clean_step rooted stack w = stack.
Proof. intros [->| ->]; done. Qed.

Lemma foldl_proper ws stack :
  Forall proper ws → foldl (clean_step true) stack ws = reverse ws ++ stack.
Proof.
  revert stack. induction ws as [|w ws IH]; intros stack; [done|].
  intros [Hw Hws]%Forall_cons. simpl. rewrite clean_step_proper by done. rewrite IH by done.
  by rewrite reverse_cons, <-app_assoc.
Qed.

Lemma split_slash_app w l :
  slash ∉ w → split_slash (w ++ slash :: l) = w :: split_slash l.
Proof.
  induction w as [|a w IH]; intros Hw; simpl; [done|].
  apply not_elem_of_cons in Hw as [Ha Hw]. rewrite bool_decide_eq_false_2 by congruence.
  by rewrite IH.
Qed.

Lemma split_slash_word w : slash ∉ w → split_slash w = [w].
Proof.
  induction w as [|a w IH]; intros Hw; simpl; [done|].
  apply not_elem_of_cons in Hw as [Ha Hw]. rewrite bool_decide_eq_false_2 by congruence.
  by rewrite IH.
Qed.

Lemma split_join ws :
  ws ≠ [] → Forall (λ w, slash ∉ w) ws → split_slash (join_slash ws) = ws.
Proof.
  induction ws as [|w ws IH]; intros Hne Hws; [done|].
  apply Forall_cons in Hws as [Hw Hws]. destruct ws as [|w' ws]; simpl; [by apply split_slash_word|].
  rewrite split_slash_app by done. f_equal. by apply IH.
Qed.

(** The cleaned form of a rooted path given by its components. *)
Lemma clean_rooted ws :
  Forall proper ws → clean_chars (slash :: join_slash ws) = slash :: join_slash ws.
Proof.
  intros Hp. unfold clean_chars. cbn [is_rooted]. rewrite bool_decide_eq_true_2 by done.
  cbv zeta. f_equal. change (slash :: join_slash ws) with ([] ++ slash :: join_slash ws) at 1.
  rewrite split_slash_app by apply not_elem_of_nil.
  cbn [foldl]. rewrite clean_step_skip by auto.
  destruct ws as [|w ws]; [done|].
  rewrite split_join; [|done|by eapply Forall_impl; [exact Hp|intros ? (_ & _ & _ & ?)]].
  by rewrite foldl_proper, app_nil_r, reverse_involutive.
Qed.

(** Components under a clean rooted directory are kept as they are. *)
Lemma join_slash_app ws1 ws2 :
  ws1 ≠ [] → ws2 ≠ [] → join_slash (ws1 ++ ws2) = join_slash ws1 ++ slash :: join_slash ws2.
Proof.
  intros H1 H2. induction ws1 as [|w ws1 IH]; [done|].
  destruct ws1 as [|w' ws1]; simpl; [by destruct ws2|].
  simpl in IH. rewrite IH by done. by rewrite <-app_assoc.
Qed.

Lemma Join_under root elems :
  root ≠ [] → elems ≠ [] → Forall proper root → Forall proper elems →
  Join (String.string_of_list_ascii (slash :: join_slash root)
        :: (String.string_of_list_ascii <$> elems))
  = String.string_of_list_ascii (slash :: join_slash (root ++ elems)).
Proof.
  intros Hr Hne Hroot Hel. cbn [Join]. unfold str_empty. rewrite bool_decide_eq_false_2 by done.
  unfold Clean. f_equal. rewrite String.list_ascii_of_string_of_list_ascii.
  rewrite fmap_cons, String.list_ascii_of_string_of_list_ascii, <-list_fmap_compose.
  rewrite (list_fmap_ext _ id elems) by (intros; apply String.list_ascii_of_string_of_list_ascii).
  rewrite list_fmap_id.
  assert (Hj : join_slash ((slash :: join_slash root) :: elems) = slash :: join_slash (root ++ elems)).
  { destruct elems as [|e elems]; [done|]. rewrite join_slash_app by done. done. }
  rewrite Hj. apply clean_rooted. by apply Forall_app.
Qed.

Example Join_examples :
  Join ["/tmp/sophia"; "c1"; "backend"] = "/tmp/sophia/c1/backend"%string ∧
  Join ["/tmp/sophia"; "c1"; "../../etc"] = "/tmp/etc"%string ∧
  Clean "a//b/./../c/" = "a/c"%string ∧ Clean "" = "."%string ∧ Clean "/.." = "/"%string.
Proof. vm_compute. repeat split. Qed.
