(* ===== verification/Sha256.v ===== *)
(** * SHA-256

    [crypto/sha256] and [encoding/hex] as [hashPrompt] of
    [internal/application/phase/service.go] uses them: the prompt of every
    session is recorded by its digest. *)
From S2P Require Import Prelude.
From Stdlib Require Import Ascii.

#[local] Open Scope Z_scope.

Definition w32 (x : Z) : Z := x mod 2 ^ 32.
Definition add32 (x y : Z) : Z := w32 (x + y).
Definition rotr (n x : Z) : Z := Z.lor (Z.shiftr x n) (w32 (Z.shiftl x (32 - n))).
Definition not32 (x : Z) : Z := Z.lxor x (2 ^ 32 - 1).

Definition Ch (x y z : Z) : Z := Z.lxor (Z.land x y) (Z.land (not32 x) z).
Definition Maj (x y z : Z) : Z := Z.lxor (Z.lxor (Z.land x y) (Z.land x z)) (Z.land y z).
Definition Sigma0 (x : Z) : Z := Z.lxor (Z.lxor (rotr 2 x) (rotr 13 x)) (rotr 22 x).
Definition Sigma1 (x : Z) : Z := Z.lxor (Z.lxor (rotr 6 x) (rotr 11 x)) (rotr 25 x).
Definition sigma0 (x : Z) : Z := Z.lxor (Z.lxor (rotr 7 x) (rotr 18 x)) (Z.shiftr x 3).
Definition sigma1 (x : Z) : Z := Z.lxor (Z.lxor (rotr 17 x) (rotr 19 x)) (Z.shiftr x 10).

(** The constants of FIPS 180-4: the first 32 bits of the fractional parts of
    the cube roots (rounds) and square roots (initial state) of the first
    primes. *)
Definition is_prime (n : Z) : bool :=
  (2 <=? n) && forallb (λ d, negb (n mod d =? 0)) (seqZ 2 (Z.sqrt n - 1)).

Definition small_primes : list Z := Eval vm_compute in List.filter is_prime (seqZ 0 312).

(** The integer cube root, bit by bit from bit [n]. *)
Fixpoint cbrt (n : nat) (x r : Z) : Z :=
  let r' := r + 2 ^ Z.of_nat n in
  let r := if r' * r' * r' <=? x then r' else r in
  match n with O => r | S n' => cbrt n' x r end.

Definition round_constants : list Z :=
  Eval vm_compute in (λ p, w32 (cbrt 36 (p * 2 ^ 96) 0)) <$> small_primes.

Record sha_state := mkSha { sA : Z; sB : Z; sC : Z; sD : Z; sE : Z; sF : Z; sG : Z; sH : Z }.

Definition sha_init : sha_state :=
  Eval vm_compute in
    let h i := w32 (Z.sqrt (nth i small_primes 0 * 2 ^ 64)) in
    mkSha (h 0%nat) (h 1%nat) (h 2%nat) (h 3%nat) (h 4%nat) (h 5%nat) (h 6%nat) (h 7%nat).

(** The message schedule: [prev] holds the last sixteen words, newest first. *)
Fixpoint schedule (n : nat) (prev : list Z) : list Z :=
  match n with
  | O => []
  | S n' =>
      let at_ i := nth i prev 0 in
      let w := add32 (add32 (sigma1 (at_ 1%nat)) (at_ 6%nat)) (add32 (sigma0 (at_ 14%nat)) (at_ 15%nat)) in
      w :: schedule n' (w :: take 15 prev)
  end.

Definition sha_round (s : sha_state) (kw : Z * Z) : sha_state :=
  let t1 := add32 (add32 (sH s) (Sigma1 (sE s)))
              (add32 (Ch (sE s) (sF s) (sG s)) (add32 kw.1 kw.2)) in
  let t2 := add32 (Sigma0 (sA s)) (Maj (sA s) (sB s) (sC s)) in
  mkSha (add32 t1 t2) (sA s) (sB s) (sC s) (add32 (sD s) t1) (sE s) (sF s) (sG s).

Definition compress (s : sha_state) (block : list Z) : sha_state :=
  let ws := block ++ schedule 48 (reverse block) in
  let r := foldl sha_round s (zip round_constants ws) in
  mkSha (add32 (sA s) (sA r)) (add32 (sB s) (sB r)) (add32 (sC s) (sC r)) (add32 (sD s) (sD r))
        (add32 (sE s) (sE r)) (add32 (sF s) (sF r)) (add32 (sG s) (sG r)) (add32 (sH s) (sH r)).

(** Big-endian bytes of [x], [n] of them. *)
Fixpoint be_bytes (n : nat) (x : Z) : list Z :=
  match n with O => [] | S n' => be_bytes n' (x / 256) ++ [x mod 256] end.

Definition sha_pad (bytes : list Z) : list Z :=
  let len := Z.of_nat (length bytes) in
  bytes ++ [128] ++ replicate (Z.to_nat ((55 - len) mod 64)) 0 ++ be_bytes 8 (len * 8).

Fixpoint words (bytes : list Z) : list Z :=
  match bytes with
  | a :: b :: c :: d :: rest => (((a * 256 + b) * 256 + c) * 256 + d) :: words rest
  | _ => []
  end.

Fixpoint sha_blocks (n : nat) (ws : list Z) (s : sha_state) : sha_state :=
  match n with
  | O => s
  | S n' => sha_blocks n' (drop 16 ws) (compress s (take 16 ws))
  end.

Definition sha256 (bytes : list Z) : list Z :=
  let ws := words (sha_pad bytes) in
  let s := sha_blocks (length ws / 16) ws sha_init in
  mjoin (be_bytes 4 <$> [sA s; sB s; sC s; sD s; sE s; sF s; sG s; sH s]).

Definition hex_char (n : Z) : ascii :=
  ascii_of_N (Z.to_N (if n <? 10 then 48 + n else 87 + n)).

(** [hex.EncodeToString] *)
Definition hex_encode (bytes : list Z) : string :=
  String.string_of_list_ascii (mjoin ((λ b, [hex_char (b / 16); hex_char (b mod 16)]) <$> bytes)).

Definition hashPrompt (prompt : string) : string :=
  hex_encode (sha256 ((λ c, Z.of_N (N_of_ascii c)) <$> String.list_ascii_of_string prompt)).

(** The digests published for the empty string and for "abc". *)
Example sha256_vectors :
  hashPrompt "" = "e3b0c44298fc1c149afbf4c8996fb92427ae41e4649b934ca495991b7852b855"%string ∧
  hashPrompt "abc" = "ba7816bf8f01cfea414140de5dae2223b00361a396177a9cb410ff61f20015ad"%string.
Proof. split; vm_compute; reflexivity. Qed.

Lemma length_be_bytes n x : length (be_bytes n x) = n.
Proof. revert x. induction n as [|n IH]; intros x; simpl; [done|]. rewrite length_app, IH. simpl. lia. Qed.

(** A recorded digest is never the empty string. *)
Lemma hashPrompt_nonempty prompt : hashPrompt prompt ≠ EmptyString.
Proof.
  unfold hashPrompt, hex_encode, sha256.
  match goal with |- context [sha_blocks ?n ?ws ?s] => set (st := sha_blocks n ws s) end.
  simpl. assert (Hl := length_be_bytes 4 (sA st)).
  by destruct (be_bytes 4 (sA st)).
Qed.
