(* ===== verification/Effects.v ===== *)
(** * Programs with effects

    A handler of the application layer is a program: a tree whose nodes are
    database statements and calls to the collaborators, each continuing with
    the answer.  A program can be run against a concrete environment
    ([exec]), and it can be interleaved, statement by statement, with any
    number of other programs ([sys_step]): a handler that stops being
    scheduled is a handler whose process crashed. *)
From S2P Require Import Prelude Ids Json Envelope PhaseDomain ChangeDomain Session Outbox Store.

(** ** Inputs and answers *)

(** outbound.GovernanceDecisionType: a string with four known values. *)
Inductive GovDecision :=
  | DecisionAllow | DecisionAllowWithConstraints | DecisionRequireApproval | DecisionDeny
  | DecisionOther (s : string).

#[global] Instance GovDecision_eq_dec : EqDecision GovDecision.
Proof. solve_decision. Defined.

(** inbound.RunPhaseInput.  [ContextOverrides] is the decoded JSON object of the
    request; [PriorPhasesStatus] is filled in by the service. *)
Record RunPhaseInput := mkRunInput {
  in_ChangeID : ChangeID;
  in_PhaseType : PhaseType;
  in_TaskDescription : string;
  in_ContextOverrides : list (string * json);
  in_RetryBudget : Z;
  in_PriorPhasesStatus : gmap string string
}.

(** outbound.DispatchResult: the exit code and the extracted envelope, [None]
    when there is none. *)
Record DispatchResult := mkDispatchResult { dr_ExitCode : Z; dr_EnvelopeRaw : option rawjson }.

(** The work a request leaves behind for the scheduler. *)
Record job := mkJob { j_change : Change; j_phase : Phase; j_input : RunPhaseInput }.

(** Layers of prior context and skills that end up in the prompt text. *)
Record MatchedSkill := mkMatchedSkill { ms_id : SkillID; ms_version : string }.

(** ** Calls to the collaborators

    Everything that is neither the database nor pure: the clock, the id
    generator, the governance, memory and dispatcher services, the spawn
    governor, the critic, the init and apply executors, the scheduler.  An
    error answer is [Err tt] or [false]. *)
Inductive extop : Type → Type :=
  | Now : extop Time
  | NewID : extop string
  | EvaluatePhase (cid : ChangeID) (pid : PhaseID) (pt : PhaseType) (task : string)
      : extop (result unit GovDecision)
  | BuildPriorContext (c : Change) (pt : PhaseType) : extop string
  | SkillsForContext (pt : PhaseType) (project ctx : string) : extop (result unit (list MatchedSkill))
  | PromptBuild (c : Change) (pt : PhaseType) (ctx : string) (skills : list MatchedSkill)
      (task : string) (testsRequired : bool) (prior : gmap string string) : extop (result unit string)
  | SpawnAcquire (pid : PhaseID) : extop bool
  | SpawnRelease (pid : PhaseID) : extop bool
  | Dispatch (pid : PhaseID) (prompt : string) (pt : PhaseType) : extop (result unit DispatchResult)
  | MemoryGet (topic : string) : extop (option rawjson)
  | MemoryIngest (pid : PhaseID) (topic : string) (tags : list string) : extop bool
  | CriticReview (cid : ChangeID) (pt : PhaseType) (env : Envelope) : extop (result unit (list Concern))
  | ApplyExecute (c : Change) (p : Phase) (i : RunPhaseInput) : extop (option Envelope * bool)
  | InitRun (c : Change) : extop (result unit (option Envelope))
  | Schedule (j : job) : extop unit
  | ScheduleBootstrap : extop unit.

(** ** Programs *)

Inductive eff : Type → Type :=
  | Db {R} (o : dbop R) : eff R
  | Ext {R} (o : extop R) : eff R.

(** A program over the effects [F]: a tree of effects, each continuing with its
    answer. *)
Inductive free (F : Type → Type) (A : Type) : Type :=
  | Ret (a : A)
  | Do {R : Type} (e : F R) (k : R → free F A).
Arguments Ret {F A} a.
Arguments Do {F A R} e k.

Abbreviation prog := (free eff).

Fixpoint prog_bind {F A B} (m : free F A) (f : A → free F B) : free F B :=
  match m with
  | Ret a => f a
  | Do e k => Do e (λ r, prog_bind (k r) f)
  end.

Definition db {R} (o : dbop R) : prog R := Do (Db o) Ret.
Definition ext {R} (o : extop R) : prog R := Do (Ext o) Ret.

Notation "'let!' x ':=' c 'in' k" := (prog_bind c (λ x, k))
  (at level 10, x pattern, c at level 200, k at level 200,
   format "'[v' 'let!'  x  ':='  c  'in' '/' k ']'") : go_scope.
Notation "'do!' c 'in' k" := (prog_bind c (λ _, k))
  (at level 10, c at level 200, k at level 200,
   format "'[v' 'do!'  c  'in' '/' k ']'") : go_scope.

(** [for _, x := range l { body }] *)
Fixpoint each {F A} (f : A → free F unit) (l : list A) : free F unit :=
  match l with [] => Ret tt | x :: l' => do! f x in each f l' end.

(** ** The effects a program may perform, whatever they answer *)

Fixpoint effects_in {F} (S : ∀ R, F R → Prop) {A} (m : free F A) : Prop :=
  match m with
  | Ret _ => True
  | Do e k => S _ e ∧ ∀ r, effects_in S (k r)
  end.

Lemma effects_bind {F} S {A B} (m : free F A) (f : A → free F B) :
  effects_in S m → (∀ a, effects_in S (f a)) → effects_in S (prog_bind m f).
Proof. induction m as [a|R e k IH]; simpl; [auto|]. intros [He Hk] Hf. eauto. Qed.

Lemma effects_mono {F} (S S' : ∀ R, F R → Prop) {A} (m : free F A) :
  (∀ R e, S R e → S' R e) → effects_in S m → effects_in S' m.
Proof. intros HS. induction m as [a|R e k IH]; simpl; [done|]. intros [He Hk]. eauto. Qed.

Lemma effects_each {F} S {A} (f : A → free F unit) l :
  (∀ x, effects_in S (f x)) → effects_in S (each f l).
Proof. intros Hf. induction l; simpl; [done|]. apply effects_bind; auto. Qed.

(** Walk through a program, discharging known parts by the hint database. *)
Ltac effects_step :=
  match goal with
  | |- effects_in _ (prog_bind _ _) => apply effects_bind
  | |- effects_in _ (each _ _) => apply effects_each
  | |- effects_in _ (db _) => split; [try done|done]
  | |- effects_in _ (ext _) => split; [try done|done]
  | |- effects_in _ (match ?x with _ => _ end) => destruct x
  | |- effects_in _ (let '(_, _) := ?x in _) => destruct x
  | |- effects_in _ (Ret _) => exact I
  | |- effects_in _ _ => solve [auto with effects]
  | |- ∀ _, _ => intros ?
  end.
Ltac effects := repeat effects_step.
Create HintDb effects.

(** ** History

    What happened, newest first: rows written, calls made.  The history is a
    specification device; no program reads it. *)
Inductive entry :=
  | InDb (e : db_entry)
  | Governed (pid : PhaseID) (d : GovDecision)
  | Dispatched (pid : PhaseID)
  | Acquired (pid : PhaseID)
  | Released (pid : PhaseID)
  | Executed (cid : ChangeID) (pid : PhaseID)
  | Scheduled (j : job).

Definition ext_entries {R} (o : extop R) : R → list entry :=
  match o in extop R return R → list entry with
  | EvaluatePhase _ pid _ _ => λ r, match r with Ok d => [Governed pid d] | Err _ => [] end
  | Dispatch pid _ _ => λ _, [Dispatched pid]
  | SpawnAcquire pid => λ ok, if ok then [Acquired pid] else []
  | SpawnRelease pid => λ _, [Released pid]
  | ApplyExecute c p _ => λ _, [Executed (ch_id c) (p_id p)]
  | Schedule j => λ _, [Scheduled j]
  | _ => λ _, []
  end.

Record world := mkWorld { w_db : DB; w_log : list entry; w_tick : nat }.

(** ** Running against an environment *)

(** The answers of the collaborators and the faults of the database, by the
    number of effects performed so far. *)
Record env := mkEnv {
  env_ext : ∀ R, extop R → nat → R;
  env_fault : nat → fault
}.

Section Run.
Context `{PgTypes}.

Definition perform (E : env) {R} (e : eff R) (w : world) : R * world :=
  match e in eff R return R * world with
  | Db o =>
      let '(r, es, d) := db_exec o (env_fault E (w_tick w)) (w_db w) in
      (r, mkWorld d (map InDb es ++ w_log w) (S (w_tick w)))
  | Ext o =>
      let r := env_ext E _ o (w_tick w) in
      (r, mkWorld (w_db w) (ext_entries o r ++ w_log w) (S (w_tick w)))
  end.

Fixpoint exec (E : env) {A} (m : prog A) (w : world) : A * world :=
  match m with
  | Ret a => (a, w)
  | Do e k => let '(r, w') := perform E e w in exec E (k r) w'
  end.

Lemma exec_bind E {A B} (m : prog A) (f : A → prog B) w :
  exec E (prog_bind m f) w = let '(a, w') := exec E m w in exec E (f a) w'.
Proof.
  revert w. induction m as [a|R e k IH]; intros w; simpl; [done|].
  destruct (perform E e w) as [r w']. apply IH.
Qed.

(** *** Interleaving *)

(** One effect with any answer the collaborators may give and any fault. *)
Inductive performs {R} (e : eff R) (d : DB) (L : list entry) : R → DB → list entry → Prop :=
  | performs_db (o : dbop R) f r es d' :
      e = Db o → db_exec o f d = (r, es, d') →
      performs e d L r d' (map InDb es ++ L)
  | performs_ext (o : extop R) r :
      e = Ext o → performs e d L r d (ext_entries o r ++ L).

Record sys := mkSys { sys_db : DB; sys_log : list entry; sys_threads : list (prog unit) }.

(** [request]: what a client, the operator or the boot sequence may start;
    [background j]: the work scheduled for [j]. *)
Context (request : prog unit → Prop) (background : job → prog unit).

Inductive sys_step : sys → sys → Prop :=
  | sys_request d L ts m :
      request m → sys_step (mkSys d L ts) (mkSys d L (ts ++ [m]))
  | sys_spawn d L ts j :
      Scheduled j ∈ L → sys_step (mkSys d L ts) (mkSys d L (ts ++ [background j]))
  | sys_effect d L ts1 ts2 {R} (e : eff R) k r d' L' :
      performs e d L r d' L' →
      sys_step (mkSys d L (ts1 ++ Do e k :: ts2)) (mkSys d' L' (ts1 ++ k r :: ts2))
  | sys_crash d L ts ts' :
      ts' ⊆ ts → sys_step (mkSys d L ts) (mkSys d L ts').

Definition sys_init (s : sys) : Prop := s = mkSys emptyDB [] [].
End Run.
