(* ===== verification/Concurrency.v ===== *)
(** * Goroutines of one program

    A program that starts goroutines and waits for all of them is again a
    program: at every step the scheduler picks which goroutine performs its
    next effect.  [behaves] is what a program may do when its effects may answer
    anything; a run of parallel programs is an interleaving ([shuffle]) of a run
    of each of them. *)
From S2P Require Import Prelude Effects.
From stdpp Require Import list.

(** ** Behaviours *)

(** An effect with its answer. *)
Inductive performed (F : Type → Type) : Type :=
  | Perf {R : Type} (e : F R) (r : R).
Arguments Perf {F R} e r.

Section Behaviour.
Context {F : Type → Type}.
Abbreviation trace := (list (performed F)).

(** Program [m] may perform the effects [tr], with those answers, and return
    [a]. *)
Fixpoint behaves {A} (m : free F A) (tr : trace) (a : A) : Prop :=
  match m with
  | Ret x => tr = [] ∧ a = x
  | Do e k => ∃ r tr', tr = Perf e r :: tr' ∧ behaves (k r) tr' a
  end.

(** Every behaviour of [m] satisfies [Q]. *)
Definition always {A} (m : free F A) (Q : trace → A → Prop) : Prop :=
  ∀ tr a, behaves m tr a → Q tr a.

Lemma always_mono {A} (m : free F A) (Q Q' : trace → A → Prop) :
  always m Q → (∀ tr a, Q tr a → Q' tr a) → always m Q'.
Proof. unfold always. auto. Qed.

Lemma always_and {A} (m : free F A) (P Q : trace → A → Prop) :
  always m P → always m Q → always m (λ tr a, P tr a ∧ Q tr a).
Proof. unfold always. auto. Qed.

Lemma always_ret {A} (a : A) (Q : trace → A → Prop) : Q [] a → always (Ret a) Q.
Proof. by intros HQ tr b [-> ->]. Qed.

Lemma always_do {A R} (e : F R) (k : R → free F A) (Q : trace → A → Prop) :
  (∀ r, always (k r) (λ tr a, Q (Perf e r :: tr) a)) → always (Do e k) Q.
Proof. intros HQ tr a (r & tr' & -> & Hb). by apply HQ. Qed.

Lemma behaves_bind {A B} (m : free F A) (f : A → free F B) tr b :
  behaves (prog_bind m f) tr b ↔
  ∃ tr1 tr2 a, tr = tr1 ++ tr2 ∧ behaves m tr1 a ∧ behaves (f a) tr2 b.
Proof.
  revert tr. induction m as [x|R e k IH]; intros tr; simpl.
  - split; [by exists [], tr, x|]. by intros (? & tr2 & a & -> & [-> ->] & Hb).
  - split.
    + intros (r & tr' & -> & (tr1 & tr2 & a & -> & H1 & H2)%IH).
      exists (Perf e r :: tr1), tr2, a. split_and!; [done|by exists r, tr1|done].
    + intros (? & tr2 & a & -> & (r & tr1 & -> & H1) & H2). exists r, (tr1 ++ tr2).
      split; [done|]. apply IH. by exists tr1, tr2, a.
Qed.

Lemma always_bind {A B} (m : free F A) (f : A → free F B) (Q : trace → B → Prop) :
  always m (λ tr1 a, always (f a) (λ tr2 b, Q (tr1 ++ tr2) b)) → always (prog_bind m f) Q.
Proof. intros H tr b (tr1 & tr2 & a & -> & H1 & H2)%behaves_bind. by eapply H. Qed.

Lemma always_bind_inv {A B} (m : free F A) (f : A → free F B) (P : trace → A → Prop)
    (Q : trace → B → Prop) :
  always m P → (∀ tr1 a, P tr1 a → always (f a) (λ tr2 b, Q (tr1 ++ tr2) b)) →
  always (prog_bind m f) Q.
Proof. intros Hm Hf. apply always_bind. intros tr1 a Hb. apply Hf, Hm, Hb. Qed.

(** ** Interleavings *)

Context (pick : F bool).

Inductive shuffle : trace → trace → trace → Prop :=
  | shuffle_nil : shuffle [] [] []
  | shuffle_left x l1 l2 l : shuffle l1 l2 l → shuffle (x :: l1) l2 (x :: l)
  | shuffle_right x l1 l2 l : shuffle l1 l2 l → shuffle l1 (x :: l2) (x :: l)
  | shuffle_pick b l1 l2 l : shuffle l1 l2 l → shuffle l1 l2 (Perf pick b :: l).

Lemma shuffle_nil_l l : shuffle [] l l.
Proof. induction l; constructor; done. Qed.
Lemma shuffle_nil_r l : shuffle l [] l.
Proof. induction l; constructor; done. Qed.

(** Run two programs, one effect at a time, until both have returned. *)
Fixpoint par2 {A B} (m1 : free F A) : free F B → free F (A * B) :=
  match m1 with
  | Ret a => λ m2, prog_bind m2 (λ b, Ret (a, b))
  | Do e1 k1 =>
      fix par2_right (m2 : free F B) : free F (A * B) :=
        match m2 with
        | Ret b => Do e1 (λ r, prog_bind (k1 r) (λ a, Ret (a, b)))
        | Do e2 k2 =>
            Do pick (λ first : bool,
              if first then Do e1 (λ r, par2 (k1 r) (Do e2 k2)) else Do e2 (λ r, par2_right (k2 r)))
        end
  end.

(** [for _, m := range ms { go m() }; wg.Wait()] *)
Fixpoint par {A} (ms : list (free F A)) : free F (list A) :=
  match ms with
  | [] => Ret []
  | m :: ms' => prog_bind (par2 m (par ms')) (λ r, Ret (r.1 :: r.2))
  end.

Lemma behaves_par2 {A B} (m1 : free F A) (m2 : free F B) tr r :
  behaves (par2 m1 m2) tr r →
  ∃ tr1 tr2, behaves m1 tr1 r.1 ∧ behaves m2 tr2 r.2 ∧ shuffle tr1 tr2 tr.
Proof.
  revert m2 tr r. induction m1 as [a|R1 e1 k1 IH1]; intros m2.
  - intros tr r (tr1 & tr2 & b & -> & Hb & [-> ->])%behaves_bind. rewrite app_nil_r.
    exists [], tr1. split_and!; [done|done|apply shuffle_nil_l].
  - induction m2 as [b|R2 e2 k2 IH2]; intros tr r Hb.
    + destruct Hb as (x & tr' & -> & (tr1 & tr2 & a & -> & Hb & [-> ->])%behaves_bind).
      rewrite app_nil_r. exists (Perf e1 x :: tr1), []. split_and!; [by exists x, tr1|done|].
      apply shuffle_nil_r.
    + destruct Hb as ([] & tr' & -> & (x & tr'' & -> & Hb)).
      * apply IH1 in Hb as (tr1 & tr2 & H1 & H2 & Hs). exists (Perf e1 x :: tr1), tr2.
        split_and!; [by exists x, tr1|done|]. by do 2 constructor.
      * apply IH2 in Hb as (tr1 & tr2 & H1 & H2 & Hs). exists tr1, (Perf e2 x :: tr2).
        split_and!; [done|by exists x, tr2|]. by do 2 constructor.
Qed.

(** An interleaving of any number of runs. *)
Inductive shuffles : list trace → trace → Prop :=
  | shuffles_nil : shuffles [] []
  | shuffles_cons t ts l' l : shuffles ts l' → shuffle t l' l → shuffles (t :: ts) l.

Lemma behaves_par {A} (ms : list (free F A)) tr (rs : list A) :
  behaves (par ms) tr rs →
  ∃ trs, Forall3 behaves ms trs rs ∧ shuffles trs tr.
Proof.
  revert tr rs. induction ms as [|m ms IH]; intros tr rs; simpl.
  - intros [-> ->]. exists []. split; constructor.
  - intros (tr1 & tr2 & [a as_] & -> & Hb & [-> ->])%behaves_bind. rewrite app_nil_r.
    apply behaves_par2 in Hb as (t & t' & H1 & (trs & H2 & Hs)%IH & Hsh). simpl in *.
    exists (t :: trs). split; [by constructor|]. by econstructor.
Qed.

(** Goroutines that run one function on each element of a list. *)
Lemma always_par {A B} (f : A → free F B) (P : A → trace → B → Prop) l :
  (∀ x, x ∈ l → always (f x) (P x)) →
  always (par (f <$> l)) (λ tr rs, ∃ trs, Forall3 P l trs rs ∧ shuffles trs tr).
Proof.
  intros HP tr rs (trs & Hb & Hs)%behaves_par. exists trs. split; [|done].
  remember (f <$> l) as ms eqn:Heq. clear Hs. revert l HP Heq.
  induction Hb as [|m t b ms trs rs Hb Hbs IH]; intros [|x l] HP Heq; simplify_eq/=; constructor.
  - apply HP; [apply list_elem_of_here|done].
  - apply IH; [|done]. intros y Hy. by apply HP, list_elem_of_further.
Qed.

Lemma effects_par2 (S : ∀ R, F R → Prop) {A B} (m1 : free F A) (m2 : free F B) :
  S _ pick → effects_in S m1 → effects_in S m2 → effects_in S (par2 m1 m2).
Proof.
  intros Hp. revert m2. induction m1 as [a|R1 e1 k1 IH1]; intros m2 H1.
  - intros H2. apply effects_bind; [done|]. by intros.
  - induction m2 as [b|R2 e2 k2 IH2]; intros H2.
    + destruct H1 as [He1 Hk1]. split; [done|]. intros r. apply effects_bind; [done|]. by intros.
    + split; [done|]. intros []; split; try apply H1; try apply H2; intros r.
      * by apply IH1; [apply H1|].
      * by apply IH2, H2.
Qed.

Lemma effects_par (S : ∀ R, F R → Prop) {A} (ms : list (free F A)) :
  S _ pick → Forall (effects_in S) ms → effects_in S (par ms).
Proof.
  intros Hp. induction 1; [done|]. apply effects_bind; [by apply effects_par2|]. by intros.
Qed.

(** ** Measuring a run *)

(** Total weight of the effects of a run. *)
Definition weigh (w : performed F → nat) (tr : trace) : nat := sum_list_with w tr.

Lemma weigh_app w tr1 tr2 : weigh w (tr1 ++ tr2) = weigh w tr1 + weigh w tr2.
Proof. apply sum_list_with_app. Qed.

Lemma weigh_cons w p tr : weigh w (p :: tr) = w p + weigh w tr.
Proof. done. Qed.

Lemma weigh_shuffle w l1 l2 l :
  (∀ b, w (Perf pick b) = 0) → shuffle l1 l2 l → weigh w l = weigh w l1 + weigh w l2.
Proof.
  intros Hw Hs. induction Hs; rewrite ?weigh_cons; [done|lia|lia|]. by rewrite Hw.
Qed.

Lemma weigh_shuffles w trs l :
  (∀ b, w (Perf pick b) = 0) → shuffles trs l → weigh w l = sum_list_with (weigh w) trs.
Proof.
  intros Hw Hs. induction Hs as [|t ts l' l Hts IH Hsh]; [done|].
  rewrite (weigh_shuffle w _ _ _ Hw Hsh), IH. done.
Qed.

(** What happens in an interleaving happens in one of the runs, or is a pick. *)
Lemma shuffle_elem l1 l2 l x :
  shuffle l1 l2 l → x ∈ l → x ∈ l1 ∨ x ∈ l2 ∨ ∃ b, x = Perf pick b.
Proof.
  induction 1 as [|y l1 l2 l Hs IH|y l1 l2 l Hs IH|b l1 l2 l Hs IH]; rewrite ?elem_of_cons.
  - by intros ?%elem_of_nil.
  - intros [->|Hx]; [auto|]. destruct (IH Hx) as [?|[?|?]]; auto.
  - intros [->|Hx]; [auto|]. destruct (IH Hx) as [?|[?|?]]; auto.
  - intros [->|Hx]; [eauto|]. auto.
Qed.

Lemma shuffles_elem trs l x :
  shuffles trs l → x ∈ l → (∃ t, t ∈ trs ∧ x ∈ t) ∨ ∃ b, x = Perf pick b.
Proof.
  induction 1 as [|t ts l' l Hts IH Hsh]; [by intros ?%elem_of_nil|].
  intros Hx. destruct (shuffle_elem _ _ _ _ Hsh Hx) as [Ht|[Hl|Hp]].
  - left. exists t. split; [apply list_elem_of_here|done].
  - destruct (IH Hl) as [(t' & ? & ?)|Hp]; [|by right].
    left. exists t'. split; [by apply list_elem_of_further|done].
  - by right.
Qed.

(** Where a run is in an interleaving: what precedes one of its effects there
    precedes it here. *)
Lemma shuffle_before l1 l2 l x l1a l1b :
  shuffle l1 l2 l → l1 = l1a ++ x :: l1b → ∃ la lb, l = la ++ x :: lb ∧ ∀ y, y ∈ l1a → y ∈ la.
Proof.
  intros Hs. revert l1a. induction Hs as [|z l1 l2 l Hs IH|z l1 l2 l Hs IH|b l1 l2 l Hs IH]; intros l1a Heq.
  - by destruct l1a.
  - destruct l1a as [|w l1a]; simplify_eq/=.
    + exists [], l. split; [done|]. by intros ? ?%elem_of_nil.
    + destruct (IH l1a eq_refl) as (la & lb & -> & Hin). exists (w :: la), lb.
      split; [done|]. intros y. rewrite !elem_of_cons. naive_solver.
  - destruct (IH l1a Heq) as (la & lb & -> & Hin). exists (z :: la), lb.
    split; [done|]. intros y Hy. apply elem_of_cons. auto.
  - destruct (IH l1a Heq) as (la & lb & -> & Hin). exists (Perf pick b :: la), lb.
    split; [done|]. intros y Hy. apply elem_of_cons. auto.
Qed.
End Behaviour.

Arguments Perf {F R} e r.
