(* ===== verification/PhaseHelpers.v ===== *)
(** * Pure helpers of the phase service

    The decision tables and envelope readers of
    [internal/application/phase/service.go] and [apply_failed_payload.go]. *)
From S2P Require Import Prelude Ids Json Envelope PhaseDomain ChangeDomain Session Discipline Store.

(** The event names of github.com/RVRTelecomunicaciones/sophia/pkg/contract. *)
Class WireContract := {
  EventPhaseStarted : string;
  EventPhaseCompleted : string;
  EventPhaseCompletedWithConcerns : string;
  EventPhaseFailed : string;
  EventPhaseNeedsContext : string;
  EventApprovalRequired : string;
  EventApprovalResolved : string;
  EventAgentDispatched : string;
  DecisionApproved : string;
  DecisionRejected : string
}.

(** ** Decision tables *)

Definition isNextValidTransition (current next : PhaseType) : bool :=
  if bool_decide (current = next) then true
  else existsb (λ v, bool_decide (v = next)) (NextValid current).

Definition roleFor (pt : PhaseType) : string :=
  match pt with
  | PhaseInit => RoleSDDInit
  | PhaseExplore => RoleSDDExplore
  | PhaseProposal => RoleSDDProposal
  | PhaseSpec => RoleSDDSpec
  | PhaseDesign => RoleSDDDesign
  | PhaseTasks => RoleSDDTasks
  | PhaseVerify => RoleSDDVerify
  | PhaseArchive => RoleSDDArchive
  | PhaseApply => RoleTeamLead
  | PhaseOther _ => RoleSDDExplore
  end.

Definition actionForPhase (pt : PhaseType) : Action :=
  match pt with
  | PhaseApply => ActionRunApply
  | PhaseArchive => ActionRunArchive
  | _ => ActionStartPhase
  end.

Definition eventTypeForStatus `{WireContract} (s : PhaseStatus) : string :=
  match s with
  | PhaseStatusDone => EventPhaseCompleted
  | PhaseStatusDoneWithConcerns => EventPhaseCompletedWithConcerns
  | PhaseStatusBlocked => EventPhaseFailed
  | PhaseStatusNeedsContext => EventPhaseNeedsContext
  | _ => EventPhaseCompleted
  end.

Definition skillUsageOutcomeFor (s : EnvStatus) : Outcome :=
  match s with
  | StatusDone | StatusDoneWithConcerns => OutcomeSuccess
  | StatusBlocked => OutcomeBlocked
  | _ => OutcomeFailure
  end.

Definition phasesPredicateToStatusMap (prior : PriorPhases) : gmap string string :=
  (λ pp, ps_string (pp_Status pp)) <$> prior.

(** ** Context overrides *)

(** [overrides["scope"][key].(bool)], false on any mismatch. *)
Definition scope_flag (key : string) (overrides : list (string * json)) : bool :=
  match obj_get "scope" overrides with
  | None => false
  | Some scopeRaw =>
      match jvalue scopeRaw with
      | JObj scope =>
          match obj_get key scope with
          | Some v => match jvalue v with JBool b => b | _ => false end
          | None => false
          end
      | _ => false
      end
  end.

Definition parseScopeCriticEnabled : list (string * json) → bool := scope_flag "critic_enabled".
Definition parseScopeTestsRequired : list (string * json) → bool := scope_flag "tests_required".

(** ** Readers of envelope data *)

(** The message of a schema mismatch, or the empty string. *)
Definition schema_mismatch_text : string :=
  "tasks output must use data.groups[] not a flat tasks array (schema_mismatch)".

Definition detectTasksSchemaMismatch (data : option json) : string :=
  match data with
  | None => EmptyString
  | Some j =>
      match as_object j with
      | None => EmptyString
      | Some d =>
          if obj_has "tasks" d && negb (obj_has "groups" d) then schema_mismatch_text else EmptyString
      end
  end.

(** [struct { RuleID string `json:"rule_id"`; Message string `json:"message"` }] *)
Definition decode_failure (j : json) : option (string * string) :=
  decode_struct
    [ ("rule_id"%string, set_string (λ t (d : string * string), (t, d.2)));
      ("message"%string, set_string (λ t (d : string * string), (d.1, t))) ]
    (EmptyString, EmptyString) j.

Definition or_else (s fallback : string) : string := if str_empty s then fallback else s.

(** The body of [extractFailureReasonFromSession] once the sessions of the phase
    are loaded ([None]: the query failed). *)
Definition failure_reason (sessions : option (list Session)) (fallback : string) : string * string :=
  match sessions with
  | None => ("unknown"%string, fallback)
  | Some ss =>
      match list.last ss with
      | None => ("unknown"%string, fallback)
      | Some latest =>
          match s_envelope latest with
          | None => ("unknown"%string, fallback)
          | Some e =>
              let no_rule := ("unknown"%string, or_else (e_ExecutiveSummary e) fallback) in
              match e_Data e with
              | None => no_rule
              | Some j =>
                  match decode_failure j with
                  | Some (rule, msg) =>
                      if str_empty rule then no_rule
                      else (rule, or_else msg (e_ExecutiveSummary e))
                  | None => no_rule
                  end
              end
          end
      end
  end.

(** [extractApplyEnvelopeBlockers] (and [extractBlockingReasons] of the apply
    package, which it duplicates). *)
Fixpoint first_blockers (raw : list (string * json)) (keys : list string) : list string :=
  match keys with
  | [] => []
  | key :: keys' =>
      match obj_get key raw with
      | None => first_blockers raw keys'
      | Some val =>
          match as_strings val with
          | None => first_blockers raw keys'
          | Some l =>
              match filter (λ t, t ≠ EmptyString) (TrimSpace <$> l) with
              | [] => first_blockers raw keys'
              | out => out
              end
          end
      end
  end.

Definition extractApplyEnvelopeBlockers (env : Envelope) : list string :=
  match e_Data env with
  | None => []
  | Some j =>
      match as_object j with
      | None => []
      | Some raw => first_blockers raw ["blocking_reasons"; "blocking_requirements"; "blockers"]%string
      end
  end.

Definition newline : string := String.String (Ascii.ascii_of_N 10) EmptyString.

Fixpoint drop_newlines (l : list Ascii.ascii) : list Ascii.ascii :=
  match l with
  | a :: l' => if bool_decide (a = Ascii.ascii_of_N 10) then drop_newlines l' else l
  | [] => []
  end.
(** [strings.TrimRight(s, "\n")] *)
Definition TrimRightNL (s : string) : string :=
  String.string_of_list_ascii (reverse (drop_newlines (reverse (String.list_ascii_of_string s)))).


(** [buildApplyFailedPayload] of a non-nil envelope. *)
Definition buildApplyFailedPayload (pt : PhaseType) (env : Envelope) : payload :=
  let summary := e_ExecutiveSummary env in
  let blockers := extractApplyEnvelopeBlockers env in
  let detail :=
    match blockers with
    | [] => summary
    | _ =>
        let head := if str_empty summary then ["Blockers:"; newline]%string
                    else [summary; newline; newline; "Blockers:"; newline]%string in
        TrimRightNL (concat_strings
          (head ++ mjoin ((λ b, ["- "; b; newline]%string) <$> blockers)))
    end in
  PFailed (pt_string pt) summary "apply.blocked" detail.
