(* ===== verification/ApplyInputs.v ===== *)
(** * What the apply executor reads and renders

    The pure helpers of [internal/application/apply]: the tasks list and the
    envelope it may be wrapped in, file patterns, compiler output, the envelope
    rebuilt from [git status], the retry backoff and the texts of prompts. *)
From S2P Require Import Prelude Ids Json Envelope PhaseDomain ChangeDomain ApplyDomain Session Discipline GoPath PhaseHelpers.
From stdpp Require Import list.
From Stdlib Require Import Ascii.

Definition cat (l : list string) : string := foldr String.append EmptyString l.

(** ** The tasks list (run.go) *)

Record taskItemSpec := mkTaskItem { ti_Description : string; ti_FilesPattern : list string }.
Record taskGroupSpec := mkTaskGroup { tg_Name : string; tg_DependsOn : list string; tg_Tasks : list taskItemSpec }.
Abbreviation tasksList := (list taskGroupSpec).

Definition set_strings {S} (put : list string → S → S) (s : S) (j : json) : option S :=
  xs ← as_strings j; Some (put xs s).

Definition decode_taskItem : json → option taskItemSpec :=
  decode_struct
    [ ("description"%string, set_string (λ t i, mkTaskItem t (ti_FilesPattern i)));
      ("files_pattern"%string, set_strings (λ l i, mkTaskItem (ti_Description i) l)) ]
    (mkTaskItem "" []).

Definition decode_taskGroup : json → option taskGroupSpec :=
  decode_struct
    [ ("name"%string, set_string (λ t g, mkTaskGroup t (tg_DependsOn g) (tg_Tasks g)));
      ("depends_on"%string, set_strings (λ l g, mkTaskGroup (tg_Name g) l (tg_Tasks g)));
      ("tasks"%string, set_list decode_taskItem (λ l g, mkTaskGroup (tg_Name g) (tg_DependsOn g) l)) ]
    (mkTaskGroup "" [] []).

Definition decode_tasksList (raw : rawjson) : option tasksList :=
  match raw with
  | NotJSON _ => None
  | JSON j => decode_struct [("groups"%string, set_list decode_taskGroup (λ l _, l))] [] j
  end.

Definition envelopeMarkers : list string :=
  ["schema_version"; "status"; "phase"; "change_name"; "project"]%string.

(** [None] is the error of an invalid JSON input. *)
Definition unwrapArtifactData (raw : rawjson) : option rawjson :=
  if str_empty (raw_text raw) then Some raw else
  match raw with
  | NotJSON _ => None
  | JSON j =>
      match as_object j with
      | None => None
      | Some top =>
          match obj_get "data" top with
          | None => Some raw
          | Some dataField =>
              if existsb (λ m, obj_has m top) envelopeMarkers then Some (JSON dataField) else Some raw
          end
      end
  end.

Definition stripGroupPrefix (groupName : string) (patterns : list string) : list string :=
  (λ p, TrimPrefix p (cat [groupName; "/"])) <$> patterns.

(** ** Compiler output (build_feedback.go) *)

Definition stderrBudgetBytes : nat := 4096.
Definition truncationIndicator : string := cat [newline; "... [output truncated] ..."; newline].

Definition TruncateStderr (output : string) : string * bool :=
  if (String.length output <=? stderrBudgetBytes)%nat then (output, false)
  else
    let half := Nat.div stderrBudgetBytes 2 in
    let head := String.substring 0 half output in
    let tail := String.substring (String.length output - half) half output in
    (cat [head; truncationIndicator; tail], true).

(** ** Saturation (teamlead.go) *)

Definition saturationRetryBudget : nat := 9.

Definition saturationBackoff (attempt : Z) : Duration :=
  let base := (500 * Millisecond)%Z in
  let maxBackoff := (30 * Second)%Z in
  let d := shl64 base attempt in
  if (maxBackoff <? d)%Z then maxBackoff else d.

(** ** git status (synthesize_envelope.go) *)

Record edit := mkEdit { ed_Path : string; ed_Action : string }.

(** What follows the first occurrence of [sep], if any. *)
Fixpoint cut_after (sep l : list ascii) : option (list ascii) :=
  match TrimPrefix_list sep l with
  | Some rest => Some rest
  | None => match l with [] => None | _ :: l' => cut_after sep l' end
  end.

(** [strings.Contains] *)
Definition Contains (s sub : string) : bool :=
  match cut_after (chars sub) (chars s) with Some _ => true | None => false end.

Definition classifyStatus (x y : ascii) : string :=
  let pick := if bool_decide (x = " "%char) || bool_decide (x = Ascii.zero) then y else x in
  if bool_decide (pick = "M"%char) || bool_decide (pick = "U"%char) then "modified"
  else if bool_decide (pick = "A"%char) || bool_decide (pick = "?"%char) then "created"
  else if bool_decide (pick = "D"%char) then "deleted"
  else if bool_decide (pick = "R"%char) || bool_decide (pick = "C"%char) then "renamed"
  else "".

(** One line of the output; [None] when it is skipped. *)
Definition parse_status_line (line : list ascii) : option edit :=
  match line with
  | x :: y :: _ :: ((_ :: _) as rest) =>
      let action := classifyStatus x y in
      let path :=
        if bool_decide (action = "renamed"%string) then default rest (cut_after (chars " -> ") rest)
        else rest in
      if str_empty action then None else Some (mkEdit (String.string_of_list_ascii path) action)
  | _ => None
  end.

Definition parsePorcelainV1 (stdout : string) : list edit :=
  omap parse_status_line (split_on (ascii_of_N 10) (chars stdout)).

Definition edit_node (e : edit) : json :=
  Node (cat ["{"; String.string_of_list_ascii (quote "path"); ":"; String.string_of_list_ascii (quote (ed_Path e)); ",";
             String.string_of_list_ascii (quote "action"); ":"; String.string_of_list_ascii (quote (ed_Action e)); "}"])
    (JObj [("path"%string, str_node (ed_Path e)); ("action"%string, str_node (ed_Action e))]).

Fixpoint comma (l : list string) : string :=
  match l with [] => "" | [x] => x | x :: l' => cat [x; ","; comma l'] end.

(** The envelope built from the edits: [json.Marshal] of a map sorts its
    keys. *)
Definition git_envelope (edits : list edit) : rawjson :=
  let status := if bool_decide (edits = []) then "PARTIAL"%string else "DONE"%string in
  let members :=
    [ ("edits"%string, Node (cat ["["; comma (jtext ∘ edit_node <$> edits); "]"]) (JArr (edit_node <$> edits)));
      ("phase"%string, str_node "apply"); ("schema_version"%string, str_node "v1");
      ("status"%string, str_node status) ] in
  JSON (Node (marshal_object members) (JObj members)).

(** ** Package manifests (build_registry.go) *)

Record BuildPlan := mkBuildPlan { bp_Manifest : string; bp_Command : string; bp_Args : list string; bp_TimeoutMS : Z }.

Definition defaultBuildTimeoutMS : Z := 600000.

Definition goPlan : BuildPlan := mkBuildPlan "go.mod" "go" ["build"; "./..."]%string defaultBuildTimeoutMS.
Definition npmPlan : BuildPlan := mkBuildPlan "package.json" "npm" ["run"; "build"]%string defaultBuildTimeoutMS.
Definition flutterPlan : BuildPlan :=
  mkBuildPlan "pubspec.yaml" "flutter" ["build"; "apk"; "--release"]%string defaultBuildTimeoutMS.
Definition dartPlan : BuildPlan :=
  mkBuildPlan "pubspec.yaml" "dart" ["compile"; "exe"; "lib/main.dart"]%string defaultBuildTimeoutMS.

(** [Scripts map[string]string `json:"scripts"`]: decoding into a map that is
    not nil adds to it. *)
Definition decode_scripts (raw : rawjson) : option (list (string * string)) :=
  match raw with
  | NotJSON _ => None
  | JSON j =>
      decode_struct
        [("scripts"%string, λ m v,
            match jvalue v with
            | JObj l => kvs ← mapM (λ kv, s ← as_string kv.2; Some (kv.1, s)) l; Some (m ++ kvs)
            | JNull => Some []
            | _ => None
            end)] [] j
  end.

Definition has_build_script (raw : rawjson) : bool :=
  match decode_scripts raw with Some m => obj_has "build" m | None => false end.

Definition mentions_flutter (pubspec : string) : bool :=
  Contains pubspec "sdk: flutter" || Contains pubspec "flutter_sdk".

(** ** Prompt texts *)

(** [fmt.Sprintf("%v", []string)] *)
Definition show_strings (l : list string) : string :=
  cat ["["; match l with [] => "" | x :: l' => cat (x :: mjoin ((λ y, [" "; y]%string) <$> l')) end; "]"].

Definition nl2 : string := cat [newline; newline].

Definition taskPromptText (t : Task) (worktree : string) : string :=
  cat [t_description t; nl2; "Worktree: "; worktree; newline; "Files: "; show_strings (t_filesPattern t)].

Definition assembleBuildRepairPrompt (plan : BuildPlan) (stderrOutput : string) (group : Group)
    (priorContext : string) : string :=
  cat
    ([ "## Build Repair Request"; nl2; "The group **"; g_name group;
       "** was dispatched to build its worktree at `"; g_worktreePath group; "` but the build failed."; nl2;
       "**Build command**: `"; bp_Command plan; " "; String.concat " " (bp_Args plan); "`"; nl2;
       "### Compiler Output (stderr)"; nl2; "```"; newline; stderrOutput; newline; "```"; nl2;
       "### Tasks in this group"; nl2 ]%string
     ++ ((λ t, cat ["- "; t_description t; " (files: "; show_strings (t_filesPattern t); ")"; newline]) <$> g_tasks group)
     ++ [newline]
     ++ (if str_empty priorContext then [] else ["### Prior context"%string; nl2; priorContext; nl2])
     ++ ["Fix the compilation errors reported above. Do not change the observable behavior of the code — only resolve the compiler errors."%string; newline]).

(** One section of the prior context, and the sections joined. *)
Definition prior_section (key change_name content : string) : string :=
  cat ["## "; key; " (sdd/"; change_name; "/"; key; ")"; nl2; content].

Definition join_sections (l : list string) : string := String.concat nl2 l.

Definition progress_section (change_name content : string) : string :=
  cat ["## Recent progress (sdd/"; change_name; "/apply-progress)"; nl2; content].

(** ** Envelopes (run.go, teamlead.go, extract_blocking_reasons.go) *)

Definition extractBlockingReasons (env : option Envelope) : list string :=
  match env with
  | None => []
  | Some e => extractApplyEnvelopeBlockers e
  end.

Definition failEnv (c : Change) (reason : string) : Envelope :=
  mkEnvelope SchemaVersionV1 (pt_string PhaseApply) (ch_name c) (ch_project c) StatusBlocked f64_0 reason
    [] [] [] None.

(** ** The rebuilt envelope is never accepted

    It has neither a change name nor a project, and PARTIAL is not a status. *)
Lemma git_envelope_rejected edits :
  Validator_Validate (git_envelope edits) PhaseApply =
    Err (ErrParse (if bool_decide (edits = []) then ErrInvalidStatus else ErrEmptyChangeName)).
Proof. destruct edits; reflexivity. Qed.
