(* ===== verification/ApplyEffects.v ===== *)
(** * Effects of the apply executor

    What [internal/application/apply] calls (the board tables, the session
    repository, the memory service, the runtime's shell, the dispatcher, the
    spawn governor, the skill matcher, the event stream) and what its goroutines
    share: the context, the quota breaker and the channels of the dependency
    coordinator.  The two semaphores only restrict which goroutines may be
    picked next; entering one is an effect, its capacity is not kept. *)
From S2P Require Import Prelude Ids Json Envelope PhaseDomain ChangeDomain ApplyDomain Session Outbox Store BoardStore Effects Concurrency.
From stdpp Require Import list.

(** ** Answers of the collaborators *)

(** outbound.ProviderQuotaError *)
Record quota := mkQuota { q_Provider : string; q_Model : string; q_RetryAfterSeconds : Z; q_Evidence : string }.

(** outbound.DispatchResult as the apply phase reads it; a nil envelope is
    [None]. *)
Record agent_result := mkAgentResult { ar_ExitCode : Z; ar_EnvelopeRaw : option rawjson; ar_AdapterID : string }.

Inductive dispatch_error := DispatchQuota (q : quota) | ErrDispatchFailed | DispatchOther.

(** outbound.ExecutionReceipt of shell.exec@v1: whether the status is
    "success", the exit code and the two streams. *)
Record receipt := mkReceipt { rc_success : bool; rc_ExitCode : Z; rc_Stdout : rawjson; rc_Stderr : string }.

(** MemoryClient.GetByTopicKey: the content of a record (a nil record has none),
    ErrNotFound, or another error. *)
Inductive memory_answer := MemRecord (content : rawjson) | MemNotFound | MemError.

(** SpawnGovernor.Acquire: nil, ErrSaturated, another error. *)
Inductive acquire_result := SlotAcquired | SlotSaturated | SlotError.

(** What the agent is dispatched for. *)
Inductive dispatch_for := ForTask (t : TaskID) | ForBuild (g : GroupID).

(** ** Events

    [internal/ports/inbound/event_types.go], with the fields the executor
    decides; the texts of foreign errors are left out. *)
Inductive apply_event :=
  | EvBoardCreated (b : BoardID) (ngroups : nat)
  | EvBoardSaveFailed
  | EvWorktreeError (g : GroupID)
  | EvGroupCompleted (g : GroupID) (tasksDone : nat)
  | EvGroupFailed (g : GroupID)
  | EvGroupDegraded (g : GroupID) (failedDep : string)
  | EvTeamLeadSpawned (s : SessionID) (g : GroupID)
  | EvImplementSpawnFailed (t : TaskID)
  | EvImplementSpawnGovernorError (t : TaskID)
  | EvTaskClaimed (t : TaskID) (s : SessionID)
  | EvTaskClaimSkipped (t : TaskID)
  | EvTaskEscalated (t : TaskID) (attempts : Z) (summary : string) (blockers : list string)
  | EvTaskRetry (t : TaskID) (attempts : Z)
  | EvProviderQuotaExceeded (t : TaskID) (q : quota)
  | EvProviderFallbackUsed (t : TaskID) (model : string) (q : quota)
  | EvPhaseQuotaAborted (threshold streak : Z) (last : option quota)
  | EvDispatchError (who : dispatch_for)
  | EvEnvelopeValidationFailed (t : TaskID)
  | EvRuntimeDispatchFailed (t : TaskID)
  | EvBuildStarted (g : GroupID) (manifest : string) (attempt : Z)
  | EvBuildPassed (g : GroupID) (manifest : string) (attempt : Z)
  | EvBuildFailed (g : GroupID) (manifest : string) (attempt exitCode : Z) (stderr : string) (truncated : bool)
  | EvMaterializeStarted
  | EvMaterializeError (g : GroupID)
  | EvMaterializeCompleted (ngroups : nat).

(** ** The quota breaker (run.go) *)

Record quotaBreaker := mkBreaker {
  qb_streak : Z;
  qb_threshold : Z;
  qb_tripped : bool;
  qb_lastQuotaErr : option quota
}.

(** The answer is true when this call tripped the breaker; it then cancels the
    context. *)
Definition recordQuotaOutcome (q : quota) (b : quotaBreaker) : bool * quotaBreaker :=
  if qb_tripped b then (false, b)
  else
    let streak := (qb_streak b + 1)%Z in
    if (qb_threshold b <=? streak)%Z
    then (true, mkBreaker streak (qb_threshold b) true (Some q))
    else (false, mkBreaker streak (qb_threshold b) false (Some q)).

Definition recordSuccess (b : quotaBreaker) : quotaBreaker :=
  mkBreaker 0 (qb_threshold b) (qb_tripped b) (qb_lastQuotaErr b).

Definition snapshot (b : quotaBreaker) : Z * option quota := (qb_streak b, qb_lastQuotaErr b).

(** ** Channels of the DAG coordinator (dag.go)

    One channel of capacity one per group: [Some None] is an empty channel,
    [Some (Some failed)] holds a result, [None] is no channel. *)
Abbreviation channels := (gmap GroupID (option bool)).

Definition NewDAGCoordinator (gs : list GroupID) : channels :=
  list_to_map ((λ g, (g, None)) <$> gs).

(** A non-blocking send. *)
Definition Signal (g : GroupID) (failed : bool) (ch : channels) : channels :=
  match ch !! g with
  | Some None => <[g := Some failed]> ch
  | _ => ch
  end.

(** What one [select] of [Wait] ends with. *)
Inductive received := RecvUnknown | RecvResult (failed : bool) | RecvDone | RecvDeadline.

(** ** The effects *)

Inductive aeff : Type → Type :=
  (* identifiers and clock *)
  | ANow : aeff Time
  | ANewID : aeff string
  (* board tables *)
  | AFindBoard (p : PhaseID) : aeff (result store_error Board)
  | ASaveBoard (b : Board) : aeff (option store_error)
  | ASaveGroup (g : Group) : aeff (option store_error)
  | ASaveTask (t : Task) : aeff (option store_error)
  | AClaimTask (t : TaskID) (s : SessionID) : aeff (result store_error bool)
  (* other collaborators *)
  | ASaveSession (s : Session) : aeff (option store_error)
  | AMemoryGet (topic : string) : aeff memory_answer
  | AShell (command : string) (args : list string) (cwd : string) (timeoutMS : Z) : aeff (result string receipt)
  | ADispatch (who : dispatch_for) (prompt worktree : string) (model : option string)
      : aeff (result dispatch_error agent_result)
  | AAcquire : aeff acquire_result
  | ARelease : aeff bool
  | ASkills : aeff (list MatchedSkill)
  | AUsageInsert (u : SkillUsage) : aeff (option store_error)
  | APromptBuild (c : Change) (ctx : string) (skills : list MatchedSkill) (task : string)
      (priorStatus : gmap string string) : aeff (result unit string)
  | APublish (e : apply_event) : aeff unit
  | AAuditDiscarded (op : string) : aeff unit
  | AAuditFinalized (groups_n tasks_n done_n failed_n : nat) : aeff unit
  (* what the goroutines share *)
  | APick : aeff bool
  | ACancelled : aeff bool
  | ASleep (d : Duration) : aeff bool
  | AEnter : aeff bool
  | AOpen (threshold : Z) : aeff unit
  | AQuotaOutcome (q : quota) : aeff bool
  | ASuccessOutcome : aeff unit
  | ATripped : aeff bool
  | ASnapshot : aeff (Z * option quota)
  | ACoordinate (gs : list GroupID) : aeff unit
  | ASignal (g : GroupID) (failed : bool) : aeff unit
  | AReceive (g : GroupID) : aeff received.

Abbreviation aprog := (free aeff).
Definition act {R} (e : aeff R) : aprog R := Do e Ret.

(** [ctx.Done()] fires for [ACancelled], [ASleep] (false), [AEnter] (false) and
    [AReceive] ([RecvDone]). *)

(** ** Running against an environment *)

Record aworld := mkAWorld {
  aw_db : board_db;
  aw_breaker : quotaBreaker;
  aw_cancelled : bool;           (* the breaker cancelled the context *)
  aw_channels : channels;
  aw_log : list (performed aeff);
  aw_tick : nat
}.

(** Answers of the collaborators, faults of the board tables, and whether the
    caller's context is done, by the number of effects performed so far. *)
Record aenv := mkAEnv {
  ae_ext : ∀ R, aeff R → nat → R;
  ae_fault : nat → fault;
  ae_done : nat → bool
}.

(** The shared state without the history. *)
Record shared := mkShared { sh_db : board_db; sh_breaker : quotaBreaker; sh_cancelled : bool; sh_channels : channels }.

Definition sh_with_db d (s : shared) := mkShared d (sh_breaker s) (sh_cancelled s) (sh_channels s).
Definition sh_with_breaker b c (s : shared) := mkShared (sh_db s) b c (sh_channels s).
Definition sh_with_channels ch (s : shared) := mkShared (sh_db s) (sh_breaker s) (sh_cancelled s) ch.

(** A write under a fault: the answer and the tables after it. *)
Definition awrite (f : fault) (r : result store_error board_db) (d : board_db)
    : option store_error * board_db :=
  let d' := match r with Ok d' => d' | Err _ => d end in
  match f with
  | NoFault => (match r with Ok _ => None | Err e => Some e end, d')
  | FailBefore => (Some ErrStore, d)
  | FailAfter => (Some ErrStore, d')
  end.

(** One [select] on the channel of [g]: the environment chooses among the
    cases that are ready.  A goroutine that is picked while nothing is ready
    has waited until its timer fired. *)
Definition receive (g : GroupID) (done : bool) (choice : received) (ch : channels) : received * channels :=
  match ch !! g with
  | None => (RecvUnknown, ch)
  | Some (Some failed) =>
      match choice with
      | RecvDeadline => (RecvDeadline, ch)
      | RecvDone => if done then (RecvDone, ch) else (RecvResult failed, <[g := None]> ch)
      | _ => (RecvResult failed, <[g := None]> ch)
      end
  | Some None =>
      match choice with
      | RecvDone => (if done then RecvDone else RecvDeadline, ch)
      | _ => (RecvDeadline, ch)
      end
  end.

Definition ashared (E : aenv) {R} (e : aeff R) (n : nat) (s : shared) : R * shared :=
  let done := sh_cancelled s || ae_done E n in
  match e in aeff R return (aeff R → nat → R) → R * shared with
  | AFindBoard p => λ _,
      (match ae_fault E n with NoFault => FindBoardByPhaseID p (sh_db s) | _ => Err ErrStore end, s)
  | ASaveBoard b => λ _,
      let '(r, d) := awrite (ae_fault E n) (SaveBoard b (sh_db s)) (sh_db s) in (r, sh_with_db d s)
  | ASaveGroup g => λ _,
      let '(r, d) := awrite (ae_fault E n) (SaveGroup g (sh_db s)) (sh_db s) in (r, sh_with_db d s)
  | ASaveTask t => λ _,
      let '(r, d) := awrite (ae_fault E n) (SaveTask t (sh_db s)) (sh_db s) in (r, sh_with_db d s)
  | AClaimTask t sid => λ _,
      let '(ok, d) := ClaimTask t sid (sh_db s) in
      match ae_fault E n with
      | NoFault => (Ok ok, sh_with_db d s)
      | FailBefore => (Err ErrStore, s)
      | FailAfter => (Err ErrStore, sh_with_db d s)
      end
  | ACancelled => λ _, (done, s)
  | ASleep d => λ ext, (if done then ext (ASleep d) n else true, s)
  | AEnter => λ ext, (if done then ext AEnter n else true, s)
  | AOpen th => λ _, (tt, sh_with_breaker (mkBreaker 0 th false None) false s)
  | AQuotaOutcome q => λ _,
      let '(t, b) := recordQuotaOutcome q (sh_breaker s) in
      (t, sh_with_breaker b (sh_cancelled s || t) s)
  | ASuccessOutcome => λ _, (tt, sh_with_breaker (recordSuccess (sh_breaker s)) (sh_cancelled s) s)
  | ATripped => λ _, (qb_tripped (sh_breaker s), s)
  | ASnapshot => λ _, (snapshot (sh_breaker s), s)
  | ACoordinate gs => λ _, (tt, sh_with_channels (NewDAGCoordinator gs) s)
  | ASignal g failed => λ _, (tt, sh_with_channels (Signal g failed (sh_channels s)) s)
  | AReceive g => λ ext,
      let '(r, ch) := receive g done (ext (AReceive g) n) (sh_channels s) in (r, sh_with_channels ch s)
  | e => λ ext, (ext e n, s)
  end (ae_ext E _).

Definition aperform (E : aenv) {R} (e : aeff R) (w : aworld) : R * aworld :=
  let '(r, s) := ashared E e (aw_tick w)
    (mkShared (aw_db w) (aw_breaker w) (aw_cancelled w) (aw_channels w)) in
  (r, mkAWorld (sh_db s) (sh_breaker s) (sh_cancelled s) (sh_channels s)
        (Perf e r :: aw_log w) (S (aw_tick w))).

Fixpoint aexec (E : aenv) {A} (m : aprog A) (w : aworld) : A * aworld :=
  match m with
  | Ret a => (a, w)
  | Do e k => let '(r, w') := aperform E e w in aexec E (k r) w'
  end.

Lemma aexec_bind E {A B} (m : aprog A) (f : A → aprog B) w :
  aexec E (prog_bind m f) w = let '(a, w') := aexec E m w in aexec E (f a) w'.
Proof.
  revert w. induction m as [a|R e k IH]; intros w; simpl; [done|].
  destruct (aperform E e w) as [r w']. apply IH.
Qed.

(** A run in an environment is one of the behaviours, recorded in the
    history. *)
Lemma aexec_behaves E {A} (m : aprog A) w :
  ∃ tr, behaves m tr (aexec E m w).1 ∧ aw_log (aexec E m w).2 = reverse tr ++ aw_log w.
Proof.
  revert w. induction m as [a|R e k IH]; intros w; simpl; [by exists []|].
  unfold aperform. destruct (ashared _ _ _ _) as [r s].
  destruct (IH r (mkAWorld (sh_db s) (sh_breaker s) (sh_cancelled s) (sh_channels s)
    (Perf e r :: aw_log w) (S (aw_tick w)))) as (tr & Hb & Hl). simpl in Hl.
  exists (Perf e r :: tr). split; [by exists r, tr|]. rewrite Hl, reverse_cons, <-app_assoc. done.
Qed.

(** [Q] holds of the answer and the world when [m] has run. *)
Definition aruns (E : aenv) {A} (m : aprog A) (Q : A → aworld → Prop) (w : aworld) : Prop :=
  Q (aexec E m w).1 (aexec E m w).2.

Lemma aruns_bind E {A B} (m : aprog A) (f : A → aprog B) Q w :
  aruns E m (λ a, aruns E (f a) Q) w → aruns E (prog_bind m f) Q w.
Proof. unfold aruns. rewrite aexec_bind. by destruct (aexec E m w). Qed.

Lemma aruns_mono E {A} (m : aprog A) (Q Q' : A → aworld → Prop) w :
  aruns E m Q w → (∀ a w', Q a w' → Q' a w') → aruns E m Q' w.
Proof. unfold aruns. auto. Qed.

(** ** Best-effort calls

    A failed write is logged and recorded in the audit trail. *)
Definition publish (e : apply_event) : aprog unit := act (APublish e).
Definition appendAuditErr (op : string) : aprog unit := act (AAuditDiscarded op).

Definition audit_if (failed : option store_error) (op : string) : aprog unit :=
  match failed with None => Ret tt | Some _ => appendAuditErr op end.

Definition saveGroup (g : Group) : aprog unit :=
  let! e := act (ASaveGroup g) in audit_if e "BoardRepo.SaveGroup".
Definition saveTask (t : Task) : aprog unit :=
  let! e := act (ASaveTask t) in audit_if e "BoardRepo.SaveTask".
Definition saveSession (s : Session) : aprog unit :=
  let! e := act (ASaveSession s) in audit_if e "SessionRepo.Save".

(** A transition whose error is discarded leaves the value as it was. *)
Definition discard {E A} (r : result E A) (old : A) (op : string) : aprog A :=
  match r with
  | Ok x => Ret x
  | Err _ => do! appendAuditErr op in Ret old
  end.

(** A map that the goroutines fill in as they end, keyed by what each worked
    on; a goroutine may end without an entry. *)
Section Collect.
Context {K A B : Type} `{Countable K} (key : A → K).

Definition collect_into : gmap K B → list (option B * A) → gmap K B :=
  foldl (λ m r, match r.1 with Some b => <[key r.2 := b]> m | None => m end).
Definition collect : list (option B * A) → gmap K B := collect_into ∅.

Lemma collect_other rs m k : k ∉ key <$> rs.*2 → collect_into m rs !! k = m !! k.
Proof.
  revert m. induction rs as [|[o x] rs IH]; intros m Hk; [done|].
  apply not_elem_of_cons in Hk as [Hne Hk]. simpl in *. rewrite IH by done.
  destruct o; [by rewrite lookup_insert_ne|done].
Qed.

Lemma collect_lookup rs o x :
  NoDup (key <$> rs.*2) → (o, x) ∈ rs → collect rs !! key x = o.
Proof.
  unfold collect. assert (H0 : (∅ : gmap K B) !! key x = None) by apply lookup_empty. revert H0.
  generalize (∅ : gmap K B) as m.
  induction rs as [|[o' y] rs IH]; intros m H0 Hnd Hin; [by apply elem_of_nil in Hin|].
  apply NoDup_cons in Hnd as [Hni Hnd]. simpl in *. apply elem_of_cons in Hin as [[= <- <-]|Hin].
  - rewrite collect_other by done. destruct o; [apply lookup_insert_eq|done].
  - apply IH; [|done..]. destruct o'; [|done]. rewrite lookup_insert_ne; [done|].
    intros Heq. apply Hni. rewrite Heq. apply list_elem_of_fmap. exists x. split; [done|].
    apply list_elem_of_fmap. by exists (o, x).
Qed.
End Collect.

(** Every goroutine of a list, until all have returned. *)
Abbreviation go_all := (par APick).
