(* ===== verification/ApplyBuild.v ===== *)
(** * The group build gate

    [internal/application/apply/build_registry.go], [build_feedback.go] and
    [synthesize_envelope.go]: probing a worktree for a package manifest, and the
    loop that builds it and dispatches repairs. *)
From S2P Require Import Prelude Ids Json Envelope PhaseDomain ChangeDomain ApplyDomain Session Store BoardStore GoPath PhaseHelpers Effects Concurrency ApplyInputs ApplyEffects.
From stdpp Require Import list.

(** ** Probes *)

(** [None] is an error of the runtime. *)
Definition fileExistsInWorktree (cwd path : string) : aprog (option bool) :=
  let! r := act (AShell "test" ["-f"%string; GoPath.Join [cwd; path]] cwd 10000) in
  Ret (match r with
       | Ok receipt => Some (rc_ExitCode receipt =? 0)%Z
       | Err _ => None
       end).

Definition readFileInWorktree (cwd relPath : string) : aprog (option rawjson) :=
  let! r := act (AShell "cat" [GoPath.Join [cwd; relPath]] cwd 10000) in
  Ret (match r with
       | Ok receipt => if (rc_ExitCode receipt =? 0)%Z then Some (rc_Stdout receipt) else None
       | Err _ => None
       end).

(** ** Rules

    [Err tt] is a failed probe, [Ok None] a rule that does not fire. *)
Abbreviation resolution := (result unit (option BuildPlan)).

Definition goModRule (cwd : string) : aprog resolution :=
  let! exists_ := fileExistsInWorktree cwd "go.mod" in
  Ret (match exists_ with
       | None => Err tt
       | Some false => Ok None
       | Some true => Ok (Some goPlan)
       end).

Definition packageJSONRule (cwd : string) : aprog resolution :=
  let! exists_ := fileExistsInWorktree cwd "package.json" in
  match exists_ with
  | None => Ret (Err tt)
  | Some false => Ret (Ok None)
  | Some true =>
      let! content := readFileInWorktree cwd "package.json" in
      Ret (match content with
           | None => Err tt
           | Some pkg => Ok (if has_build_script pkg then Some npmPlan else None)
           end)
  end.

Definition isFlutterProject (cwd : string) : aprog bool :=
  let! plugins := fileExistsInWorktree cwd ".flutter-plugins" in
  match plugins with
  | Some true => Ret true
  | _ =>
      let! content := readFileInWorktree cwd "pubspec.yaml" in
      Ret (match content with
           | None => false
           | Some pubspec => mentions_flutter (raw_text pubspec)
           end)
  end.

Definition pubspecRule (cwd : string) : aprog resolution :=
  let! exists_ := fileExistsInWorktree cwd "pubspec.yaml" in
  match exists_ with
  | None => Ret (Err tt)
  | Some false => Ret (Ok None)
  | Some true =>
      let! isFlutter := isFlutterProject cwd in
      if (isFlutter : bool) then Ret (Ok (Some flutterPlan)) else
      let! hasEntrypoint := fileExistsInWorktree cwd (GoPath.Join ["lib"; "main.dart"]%string) in
      Ret (match hasEntrypoint with
           | None => Err tt
           | Some false => Ok None
           | Some true => Ok (Some dartPlan)
           end)
  end.

Fixpoint first_match (rules : list (string → aprog resolution)) (cwd : string) : aprog resolution :=
  match rules with
  | [] => Ret (Ok None)
  | rule :: rules' =>
      let! r := rule cwd in
      match r with
      | Err _ => Ret (Err tt)
      | Ok (Some plan) => Ret (Ok (Some plan))
      | Ok None => first_match rules' cwd
      end
  end.

Definition DetectBuildPlan : string → aprog resolution :=
  first_match [goModRule; packageJSONRule; pubspecRule].

(** ** The envelope of an in-place adapter *)

Definition synthesizeEnvelopeFromGit (worktreePath : string) : aprog (option rawjson) :=
  if str_empty worktreePath then Ret None else
  let! r := act (AShell "git" ["status"; "--porcelain=v1"]%string worktreePath 5000) in
  Ret (match r with
       | Err _ => None
       | Ok receipt =>
           if rc_success receipt then Some (git_envelope (parsePorcelainV1 (raw_text (rc_Stdout receipt))))
           else None
       end).

(** The raw envelope of a dispatch, rebuilt when the adapter edits in place. *)
Definition envelope_of_result (res : agent_result) (worktreePath : string) : aprog (option rawjson) :=
  match ar_EnvelopeRaw res with
  | Some raw => Ret (Some raw)
  | None =>
      if bool_decide (ar_AdapterID res = "aider"%string) then synthesizeEnvelopeFromGit worktreePath
      else Ret None
  end.

(** ** The build loop *)

Record buildOutcome := mkBuildOutcome { bo_exitCode : Z; bo_stderr : string; bo_truncated : bool }.

(** [executeBuild], with the replacement the loop makes for its error. *)
Definition executeBuild (plan : BuildPlan) (group : Group) : aprog buildOutcome :=
  let! r := act (AShell (bp_Command plan) (bp_Args plan) (g_worktreePath group) (bp_TimeoutMS plan)) in
  Ret (match r with
       | Err msg => mkBuildOutcome (-1) (cat ["build execute: "; msg]) false
       | Ok receipt =>
           let '(text, truncated) := TruncateStderr (rc_Stderr receipt) in
           mkBuildOutcome (rc_ExitCode receipt) text truncated
       end).

Definition dispatchBuildRepair (group : Group) (repairPrompt : string) : aprog unit :=
  let! r := act (ADispatch (ForBuild (g_id group)) repairPrompt (g_worktreePath group) None) in
  match r with
  | Err _ => publish (EvDispatchError (ForBuild (g_id group)))
  | Ok res => do! envelope_of_result res (g_worktreePath group) in Ret tt
  end.

(** [BuildOk] is a nil error; [BuildDiverged] means that the fuel ran out. *)
Inductive build_verdict := BuildOk | BuildErr | BuildDiverged.

Fixpoint build_loop (fuel : nat) (plan : BuildPlan) (priorContext : string) (group : Group)
    : aprog (build_verdict * Group) :=
  match fuel with
  | O => Ret (BuildDiverged, group)
  | S fuel' =>
      let attempt := (g_buildAttempts group + 1)%Z in
      do! publish (EvBuildStarted (g_id group) (bp_Manifest plan) attempt) in
      let! outcome := executeBuild plan group in
      if (bo_exitCode outcome =? 0)%Z then
        let '(group1, _) := Group_RecordBuildAttempt true group in
        do! saveGroup group1 in
        do! publish (EvBuildPassed (g_id group1) (bp_Manifest plan) attempt) in
        Ret (BuildOk, group1)
      else
        let '(group1, budgetErr) := Group_RecordBuildAttempt false group in
        do! saveGroup group1 in
        do! publish (EvBuildFailed (g_id group1) (bp_Manifest plan) attempt (bo_exitCode outcome)
                       (bo_stderr outcome) (bo_truncated outcome)) in
        match budgetErr with
        | Some _ => Ret (BuildErr, group1)
        | None =>
            do! dispatchBuildRepair group1
                  (assembleBuildRepairPrompt plan (bo_stderr outcome) group1 priorContext) in
            build_loop fuel' plan priorContext group1
        end
  end.

(** One more round than the group has build attempts left is always enough
    (see [build_loop_bounded]). *)
Definition build_fuel (group : Group) : nat := S (Z.to_nat (MaxAttempts - g_buildAttempts group)).

Definition runGroupBuildFeedbackLoop (priorContext : string) (group : Group)
    : aprog (build_verdict * Group) :=
  let! r := DetectBuildPlan (g_worktreePath group) in
  do! match r with Err _ => publish (EvWorktreeError (g_id group)) | Ok _ => Ret tt end in
  match r with
  | Ok (Some plan) => build_loop (build_fuel group) plan priorContext group
  | _ =>
      match Group_SkipBuild group with
      | Err _ => Ret (BuildErr, group)
      | Ok group1 => do! saveGroup group1 in Ret (BuildOk, group1)
      end
  end.
