(* ===== verification/ApplyTeam.v ===== *)
(** * Team leads and implement agents

    [internal/application/apply/teamlead.go]: one team lead per group, one
    goroutine per task, the attempt budget of Iron Law #5, the quota fallback and
    fail-fast, and the spawn-governor gate. *)
From S2P Require Import Prelude Ids Json Envelope PhaseDomain ChangeDomain ApplyDomain Session Discipline Store BoardStore Sha256 PhaseHelpers Effects Concurrency ApplyInputs ApplyEffects ApplyBuild.
From stdpp Require Import list pretty.

(** ** Configuration (run.go) *)

(** RunConfig, with the default of a threshold that is not positive left to
    [breakerThreshold], and two facts of RunDeps: what [Dispatcher.Provider]
    answers and whether a SkillUsageRepo is wired. *)
Record RunConfig := mkRunConfig {
  rc_WorktreeRoot : string;
  rc_SourceRepoPath : string;
  rc_TargetPath : string;
  rc_WorktreeInit : string;
  rc_FallbackModel : string;
  rc_QuotaBreakerThreshold : Z;
  rc_Provider : string;
  rc_SkillUsageRepo : bool
}.

Record groupOutcome := mkOutcome { go_failed : bool; go_tasksDone : nat }.

Section TeamLead.
Context `{UlidLib} (cfg : RunConfig).
(** The change, the phase and the statuses of its earlier phases. *)
Context (c : Change) (p : Phase) (priorPhasesStatus : gmap string string).

(** ** Sessions *)

Definition makeSession (role command : string) : aprog (result unit Session) :=
  let! s := act ANewID in
  match ParseID SessionK s with
  | Err _ => Ret (Err tt)
  | Ok sid =>
      let! t := act ANow in
      match Session_New sid (ch_id c) (p_id p) role (rc_Provider cfg) (hashPrompt command) command t with
      | Err _ => Ret (Err tt)
      | Ok sess =>
          let! e := act (ASaveSession sess) in
          Ret (match e with None => Ok sess | Some _ => Err tt end)
      end
  end.

(** ** Acquiring a slot *)

(** [left] retries remain; the answer is whether a slot was acquired. *)
Fixpoint acquire_retries (left : nat) (attempt : Z) : aprog bool :=
  match left with
  | O => Ret false
  | S left' =>
      let! r := act AAcquire in
      match r with
      | SlotAcquired => Ret true
      | SlotError => Ret false
      | SlotSaturated =>
          let! slept := act (ASleep (saturationBackoff attempt)) in
          if (slept : bool) then acquire_retries left' (attempt + 1)%Z else Ret false
      end
  end.

Definition acquireWithSaturationRetries : aprog bool := acquire_retries saturationRetryBudget 0.

(** ** One dispatch *)

Definition refreshApplyProgress (base : string) : aprog string :=
  let! rec := act (AMemoryGet (cat ["sdd/"; ch_name c; "/apply-progress"])) in
  Ret (match rec with
       | MemRecord content =>
           if str_empty (raw_text content) then base
           else
             let section := progress_section (ch_name c) (raw_text content) in
             if str_empty base then section else cat [base; nl2; section]
       | _ => base
       end).

Fixpoint insert_usage (at_ : Time) (skills : list MatchedSkill) : aprog unit :=
  match skills with
  | [] => Ret tt
  | sk :: skills' =>
      let! s := act ANewID in
      do! match ParseID SkillUsageK s with
          | Err _ => Ret tt
          | Ok uid =>
              do! act (AUsageInsert (SkillUsage_New uid (ch_id c) (pt_string (p_type p)) (ms_id sk)
                         (ms_version sk) at_)) in Ret tt
          end in
      insert_usage at_ skills'
  end.

Definition recordSkillUsageInjection (skills : list MatchedSkill) : aprog unit :=
  if negb (rc_SkillUsageRepo cfg) || bool_decide (skills = []) then Ret tt
  else let! t := act ANow in insert_usage t skills.

(** [(ok, quotaErr)], with the task and the session as the call leaves them. *)
Record dispatched := mkDispatched {
  di_ok : bool;
  di_quota : option quota;
  di_task : Task;
  di_session : Session
}.

Definition accepted (s : EnvStatus) : bool :=
  bool_decide (s = StatusDone) || bool_decide (s = StatusDoneWithConcerns).

(** A result that carries an envelope. *)
Definition recordEnvelope (task : Task) (sess : Session) (exitCode : Z) (raw : rawjson) : aprog dispatched :=
  match Validator_Validate raw PhaseApply with
  | Err _ =>
      do! publish (EvEnvelopeValidationFailed (t_id task)) in
      Ret (mkDispatched false None task sess)
  | Ok env =>
      let! t := act ANow in
      let! sess1 := discard (Session_RecordOutcome (Some env) exitCode t sess) sess "sess.RecordOutcome" in
      do! saveSession sess1 in
      let! task1 := discard (Task_Complete (Some env) task) task "task.Complete" in
      do! saveTask task1 in
      Ret (mkDispatched (accepted (e_Status env)) None task1 sess1)
  end.

(** The answer of the dispatcher. *)
Definition receiveDispatch (group : Group) (task : Task) (sess : Session)
    (r : result dispatch_error agent_result) : aprog dispatched :=
  match r with
  | Err (DispatchQuota q) => Ret (mkDispatched false (Some q) task sess)
  | Err ErrDispatchFailed =>
      do! publish (EvRuntimeDispatchFailed (t_id task)) in Ret (mkDispatched false None task sess)
  | Err DispatchOther =>
      do! publish (EvDispatchError (ForTask (t_id task))) in Ret (mkDispatched false None task sess)
  | Ok res =>
      let! envelopeRaw := envelope_of_result res (g_worktreePath group) in
      match envelopeRaw with
      | None =>
          do! publish (EvEnvelopeValidationFailed (t_id task)) in
          Ret (mkDispatched false None task sess)
      | Some raw => recordEnvelope task sess (ar_ExitCode res) raw
      end
  end.

(** [dispatchImplementWithOverride]; [dispatchImplement] is the same function
    without a model. *)
Definition dispatchImplementWithOverride (model : option string) (group : Group) (task : Task)
    (sess : Session) (priorContext : string) : aprog dispatched :=
  let! enrichedContext := refreshApplyProgress priorContext in
  let! phaseSkills := act ASkills in
  do! recordSkillUsageInjection phaseSkills in
  let! prompt := act (APromptBuild c enrichedContext phaseSkills
                        (taskPromptText task (g_worktreePath group)) priorPhasesStatus) in
  match prompt with
  | Err _ => Ret (mkDispatched false None task sess)
  | Ok prompt =>
      let! sess1 := discard (Session_MarkRunning sess) sess "sess.MarkRunning" in
      let! r := act (ADispatch (ForTask (t_id task)) prompt (g_worktreePath group) model) in
      receiveDispatch group task sess1 r
  end.

Definition dispatchImplement := dispatchImplementWithOverride None.

(** ** The attempts of one task *)

Definition escalation_event (task : Task) : apply_event :=
  EvTaskEscalated (t_id task) (t_attempts task)
    (match t_envelope task with Some e => e_ExecutiveSummary e | None => EmptyString end)
    (extractBlockingReasons (t_envelope task)).

(** Slice 2: the provider's quota is exhausted and no fallback helped. *)
Definition quotaFailFast (q : quota) (task : Task) : aprog (bool * Task) :=
  let! task1 := discard (Task_Release task) task "task.Release" in
  do! saveTask task1 in
  do! publish (EvProviderQuotaExceeded (t_id task1) q) in
  do! act (AQuotaOutcome q) in
  Ret (false, task1).

(** Slice 4: one more dispatch with the fallback model. *)
Definition quotaFallback (q : quota) (group : Group) (task : Task) (sess : Session)
    (priorContext : string) : aprog (bool * Task) :=
  if str_empty (rc_FallbackModel cfg) then quotaFailFast q task else
  let! d := dispatchImplementWithOverride (Some (rc_FallbackModel cfg)) group task sess priorContext in
  if bool_decide (di_quota d = None) && di_ok d then
    do! publish (EvProviderFallbackUsed (t_id (di_task d)) (rc_FallbackModel cfg) q) in
    let '(task1, recordErr) := Task_RecordAttempt true (di_task d) in
    do! saveTask task1 in
    match recordErr with
    | Some _ => Ret (false, task1)
    | None => do! act ASuccessOutcome in Ret (true, task1)
    end
  else quotaFailFast q (di_task d).

(** [for attempt := 0; attempt < MaxAttempts; attempt++], [left] iterations
    before the end. *)
Fixpoint implement_attempts (left : nat) (group : Group) (task : Task) (sess : Session)
    (priorContext : string) : aprog (bool * Task) :=
  match left with
  | O => Ret (false, task)
  | S left' =>
      let! done := act ACancelled in
      if (done : bool) then Ret (false, task) else
      let! acquired := acquireWithSaturationRetries in
      if negb acquired then
        do! publish (EvImplementSpawnGovernorError (t_id task)) in Ret (false, task)
      else
        let! d := dispatchImplement group task sess priorContext in
        let! released := act ARelease in
        do! (if (released : bool) then Ret tt else appendAuditErr "SpawnGov.Release") in
        match di_quota d with
        | Some q => quotaFallback q group (di_task d) (di_session d) priorContext
        | None =>
            let '(task1, recordErr) := Task_RecordAttempt (di_ok d) (di_task d) in
            do! saveTask task1 in
            if di_ok d then do! act ASuccessOutcome in Ret (true, task1)
            else
              match recordErr with
              | Some _ => do! publish (escalation_event task1) in Ret (false, task1)
              | None =>
                  do! publish (EvTaskRetry (t_id task1) (t_attempts task1)) in
                  implement_attempts left' group task1 (di_session d) priorContext
              end
        end
  end.

Definition runImplementWithRetry (group : Group) (priorContext : string) (task : Task)
    : aprog (bool * Task) :=
  if bool_decide (t_status task = TaskStatusDone) then Ret (true, task) else
  let! s := makeSession RoleImplement (t_description task) in
  match s with
  | Err _ => do! publish (EvImplementSpawnFailed (t_id task)) in Ret (false, task)
  | Ok implSession =>
      let! claimed := act (AClaimTask (t_id task) (s_id implSession)) in
      match claimed with
      | Ok true =>
          do! publish (EvTaskClaimed (t_id task) (s_id implSession)) in
          implement_attempts (Z.to_nat MaxAttempts) group task implSession priorContext
      | _ => do! publish (EvTaskClaimSkipped (t_id task)) in Ret (false, task)
      end
  end.

(** ** One group *)

(** The goroutine of a task: no outcome when the context ends before it enters
    the semaphore. *)
Definition task_goroutine (group : Group) (priorContext : string) (task : Task)
    : aprog (option bool * Task) :=
  let! entered := act AEnter in
  if (entered : bool) then
    let! r := runImplementWithRetry group priorContext task in Ret (Some r.1, r.2)
  else Ret (None, task).

(** The map of outcomes, keyed by task. *)
Definition outcomes_of : list (option bool * Task) → gmap TaskID bool := collect t_id.

Definition count_done (m : gmap TaskID bool) : nat := size (filter (λ kv, kv.2 = true) m).
Definition had_failure (m : gmap TaskID bool) : bool :=
  bool_decide (filter (λ kv, kv.2 = false) m ≠ ∅).

Definition teamLeadEnvelope (group : Group) (ndone : nat) (hadFailure : bool) : Envelope :=
  mkEnvelope SchemaVersionV1 (pt_string PhaseApply) (ch_name c) (ch_project c)
    (if hadFailure then StatusBlocked else StatusDone)
    (if hadFailure then f64_0 else f64_0_85)
    (cat ["group "; g_name group; ": "; pretty ndone; "/"; pretty (length (g_tasks group)); " tasks done"])
    [] [] [] None.

Definition recordTeamLead (group : Group) (sess : Session) (ndone : nat) (hadFailure : bool) : aprog unit :=
  let! t := act ANow in
  let! sess1 := discard (Session_RecordOutcome (Some (teamLeadEnvelope group ndone hadFailure))
                           (if hadFailure then 1 else 0) t sess) sess "teamLeadSess.RecordOutcome" in
  saveSession sess1.

(** The group once all its tasks have returned. *)
Definition concludeGroup (priorContext : string) (sess : Session) (rs : list (option bool * Task))
    (group0 : Group) : aprog (groupOutcome * Group) :=
  let group := g_with_tasks rs.*2 group0 in
  let taskOutcomes := outcomes_of rs in
  let ndone := count_done taskOutcomes in
  if had_failure taskOutcomes then
    let! group1 := discard (Group_Fail group) group "group.Fail" in
    do! saveGroup group1 in
    do! recordTeamLead group1 sess ndone true in
    Ret (mkOutcome true ndone, group1)
  else
    let! r := runGroupBuildFeedbackLoop priorContext group in
    match r with
    | (BuildOk, group1) =>
        let! group2 := discard (Group_Complete group1) group1 "group.Complete" in
        do! saveGroup group2 in
        do! recordTeamLead group2 sess ndone false in
        Ret (mkOutcome false ndone, group2)
    | (_, group1) =>
        let! group2 := discard (Group_Fail group1) group1 "group.Fail" in
        do! saveGroup group2 in
        Ret (mkOutcome true ndone, group2)
    end.

Definition runTeamLead (priorContext : string) (group0 : Group) : aprog (groupOutcome * Group) :=
  match Group_Start group0 with
  | Err _ => Ret (mkOutcome true 0, group0)
  | Ok group =>
      let! e := act (ASaveGroup group) in
      match e with
      | Some _ => Ret (mkOutcome true 0, group)
      | None =>
          let! s := makeSession RoleTeamLead (cat ["team-lead orchestrating "; g_name group]) in
          match s with
          | Err _ => Ret (mkOutcome true 0, group)
          | Ok teamLeadSess =>
              do! publish (EvTeamLeadSpawned (s_id teamLeadSess) (g_id group)) in
              let! rs := go_all (task_goroutine group priorContext <$> g_tasks group) in
              concludeGroup priorContext teamLeadSess rs group
          end
      end
  end.
End TeamLead.
