(* ===== verification/ApplyRun.v ===== *)
(** * The apply executor

    [internal/application/apply/run.go] and [dag.go]: loading the tasks list,
    building or resuming the board, creating the worktrees, one goroutine per
    group ordered by the dependency coordinator, and the final envelope. *)
From S2P Require Import Prelude Ids Json Envelope PhaseDomain ChangeDomain ApplyDomain Session Discipline Store BoardStore GoPath PhaseHelpers Effects Concurrency ApplyInputs ApplyEffects ApplyBuild ApplyTeam.
From stdpp Require Import list pretty.

(** The errors [Execute] returns; their texts (the wrapping by fmt, the messages
    of encoding/json, of the driver and of the memory client) are a
    parameter. *)
Inductive run_error :=
  | ErrNoTasksList | ErrInvalidTasksList | RunErrMemory | RunErrID | RunErrStore
  | RunErrApply (e : apply_error).
Class ErrorTexts := { error_text : run_error → string }.

(** ** Waiting for dependencies (dag.go) *)

(** [Wait]: nil, a dependency failed, or another error. *)
Inductive wait_result := WaitOk | WaitGroupFailed (dep : GroupID) | WaitErr.

Fixpoint Wait (deps : list GroupID) : aprog wait_result :=
  match deps with
  | [] => Ret WaitOk
  | dep :: deps' =>
      let! r := act (AReceive dep) in
      match r with
      | RecvResult failed =>
          do! act (ASignal dep failed) in
          if (failed : bool) then Ret (WaitGroupFailed dep) else Wait deps'
      | _ => Ret WaitErr
      end
  end.

(** ** Path of a worktree *)

Definition worktree_path (root : string) (cid : ChangeID) (groupName : string) : string :=
  GoPath.Join [root; raw cid; groupName].

Definition WorktreeInitEmpty : string := "empty".

Definition breakerThreshold (cfg : RunConfig) : Z :=
  if (rc_QuotaBreakerThreshold cfg <=? 0)%Z then 3%Z else rc_QuotaBreakerThreshold cfg.

Section Execute.
Context `{UlidLib} `{ErrorTexts} (cfg : RunConfig) (c : Change) (p : Phase).

(** ** Inputs from memory *)

Definition loadTasksList : aprog (result run_error tasksList) :=
  let! rec := act (AMemoryGet (cat ["sdd/"; ch_name c; "/tasks"])) in
  Ret (match rec with
       | MemNotFound => Err ErrNoTasksList
       | MemError => Err RunErrMemory
       | MemRecord content =>
           if str_empty (raw_text content) then Err ErrNoTasksList else
           match unwrapArtifactData content with
           | None => Err ErrInvalidTasksList
           | Some payload =>
               match decode_tasksList payload with
               | None => Err ErrInvalidTasksList
               | Some tl => Ok tl
               end
           end
       end).

Fixpoint load_sections (keys : list string) : aprog (result run_error (list string)) :=
  match keys with
  | [] => Ret (Ok [])
  | key :: keys' =>
      let! rec := act (AMemoryGet (cat ["sdd/"; ch_name c; "/"; key])) in
      match rec with
      | MemError => Ret (Err RunErrMemory)
      | MemNotFound => load_sections keys'
      | MemRecord content =>
          let! rest := load_sections keys' in
          Ret (let? l := rest in
               Ok (if str_empty (raw_text content) then l
                   else prior_section key (ch_name c) (raw_text content) :: l))
      end
  end.

Definition loadPriorContext : aprog (result run_error string) :=
  let! r := load_sections ["spec"; "design"]%string in
  Ret (let? l := r in Ok (join_sections l)).

(** ** The board *)

Fixpoint mint_groups (tl : tasksList) (idByName : gmap string GroupID)
    : aprog (result run_error (gmap string GroupID)) :=
  match tl with
  | [] => Ret (Ok idByName)
  | gs :: tl' =>
      let! s := act ANewID in
      match ParseID GroupK s with
      | Err _ => Ret (Err RunErrID)
      | Ok gid => mint_groups tl' (<[tg_Name gs := gid]> idByName)
      end
  end.

Fixpoint build_tasks (groupName : string) (specs : list taskItemSpec) (group : Group)
    : aprog (result run_error Group) :=
  match specs with
  | [] => Ret (Ok group)
  | ts :: specs' =>
      let! s := act ANewID in
      match ParseID TaskK s with
      | Err _ => Ret (Err RunErrID)
      | Ok tid =>
          match NewTask tid (g_id group) (ti_Description ts) (stripGroupPrefix groupName (ti_FilesPattern ts)) with
          | Err e => Ret (Err (RunErrApply e))
          | Ok task =>
              match Group_AddTask task group with
              | Err e => Ret (Err (RunErrApply e))
              | Ok group1 => build_tasks groupName specs' group1
              end
          end
      end
  end.

Fixpoint save_tasks_of (ts : list Task) : aprog (option store_error) :=
  match ts with
  | [] => Ret None
  | t :: ts' =>
      let! e := act (ASaveTask t) in
      match e with Some e => Ret (Some e) | None => save_tasks_of ts' end
  end.

(** The group of one spec, without its tasks.  Every name has an identifier
    ([mint_groups]); of two groups with one name the later identifier is both
    groups'. *)
Definition new_group (bid : BoardID) (idByName : gmap string GroupID) (gs : taskGroupSpec) : Group :=
  NewGroup (default (mkID EmptyString) (idByName !! tg_Name gs)) bid (tg_Name gs)
    (omap (λ depName, idByName !! depName) (tg_DependsOn gs)).

(** The check is total ([ApplyDag.visit_total]): [None] does not occur. *)
Definition add_valid_group (group : Group) (board : Board) : result apply_error Board :=
  match ValidateDAG (b_groups board ++ [group]) with
  | Some (Ok _) => Board_AddGroup group board
  | Some (Err e) => Err e
  | None => Err ErrCycle
  end.

Fixpoint build_groups (idByName : gmap string GroupID) (tl : tasksList) (board : Board)
    : aprog (result run_error Board) :=
  match tl with
  | [] => Ret (Ok board)
  | gs :: tl' =>
      let! r := build_tasks (tg_Name gs) (tg_Tasks gs) (new_group (b_id board) idByName gs) in
      match r with
      | Err e => Ret (Err e)
      | Ok group =>
          match add_valid_group group board with
          | Err e => Ret (Err (RunErrApply e))
          | Ok board1 =>
              let! e := act (ASaveGroup group) in
              match e with
              | Some _ => Ret (Err RunErrStore)
              | None =>
                  let! e := save_tasks_of (g_tasks group) in
                  match e with
                  | Some _ => Ret (Err RunErrStore)
                  | None => build_groups idByName tl' board1
                  end
              end
          end
      end
  end.

(** A board of an earlier run of the phase is reused as it is. *)
Definition buildBoard (tl : tasksList) : aprog (result run_error Board) :=
  let! existing := act (AFindBoard (p_id p)) in
  match existing with
  | Ok b => Ret (Ok b)
  | Err _ =>
      let! s := act ANewID in
      match ParseID BoardK s with
      | Err _ => Ret (Err RunErrID)
      | Ok bid =>
          let board := NewBoard bid (p_id p) in
          let! e := act (ASaveBoard board) in
          match e with
          | Some _ => Ret (Err RunErrStore)
          | None =>
              let! r := mint_groups tl ∅ in
              match r with
              | Err e => Ret (Err e)
              | Ok idByName => build_groups idByName tl board
              end
          end
      end
  end.

(** ** Worktrees *)

Definition populate_worktree (g : Group) (path : string) : aprog unit :=
  let! r := act (AShell "mkdir" ["-p"%string; path] "" 30000) in
  match r with
  | Err _ => publish (EvWorktreeError (g_id g))
  | Ok _ =>
      if bool_decide (rc_WorktreeInit cfg = WorktreeInitEmpty) then Ret tt
      else if str_empty (rc_SourceRepoPath cfg) then Ret tt
      else
        let! r := act (AShell "cp" ["-aR"; cat [rc_SourceRepoPath cfg; "/."]; cat [path; "/"]]%string "" 300000) in
        match r with
        | Err _ => publish (EvWorktreeError (g_id g))
        | Ok _ => Ret tt
        end
  end.

(** [None] when the assignment of a worktree could not be saved. *)
Fixpoint createWorktrees (gs : list Group) : aprog (option (list Group)) :=
  match gs with
  | [] => Ret (Some [])
  | g :: gs' =>
      let path := worktree_path (rc_WorktreeRoot cfg) (ch_id c) (g_name g) in
      let g1 := Group_AssignWorktree path (cat ["sophia/"; ch_name c; "/"; g_name g]) g in
      let! e := act (ASaveGroup g1) in
      match e with
      | Some _ => Ret None
      | None =>
          do! populate_worktree g1 path in
          let! rest := createWorktrees gs' in
          Ret (rest' ← rest; Some (g1 :: rest'))
      end
  end.

Definition materialize_group (results : gmap GroupID groupOutcome) (g : Group) : aprog bool :=
  match results !! g_id g with
  | None => Ret false
  | Some outcome =>
      if go_failed outcome || str_empty (g_worktreePath g) then Ret false else
      let dst := GoPath.Join [rc_TargetPath cfg; g_name g] in
      let! r := act (AShell "mkdir" ["-p"%string; dst] "" 30000) in
      match r with
      | Err _ => do! publish (EvMaterializeError (g_id g)) in Ret false
      | Ok _ =>
          let! r := act (AShell "cp" ["-aR"; cat [g_worktreePath g; "/."]; cat [dst; "/"]]%string "" 300000) in
          match r with
          | Err _ => do! publish (EvMaterializeError (g_id g)) in Ret false
          | Ok _ => Ret true
          end
      end
  end.

Fixpoint materialize_groups (results : gmap GroupID groupOutcome) (gs : list Group) (n : nat) : aprog nat :=
  match gs with
  | [] => Ret n
  | g :: gs' =>
      let! ok := materialize_group results g in
      materialize_groups results gs' (if (ok : bool) then S n else n)
  end.

Definition materializeWorktrees (board : Board) (results : gmap GroupID groupOutcome) : aprog unit :=
  do! publish EvMaterializeStarted in
  let! n := materialize_groups results (b_groups board) 0 in
  publish (EvMaterializeCompleted n).

(** ** The groups *)

Section Groups.
Context (priorPhasesStatus : gmap string string) (priorContext : string).

Definition runTeamLeadOf : Group → aprog (groupOutcome * Group) :=
  runTeamLead cfg c p priorPhasesStatus priorContext.

(** The group may start: its dependencies have signalled. *)
Definition enterGroup (group : Group) : aprog (option groupOutcome * Group) :=
  let! entered := act AEnter in
  if negb entered then do! act (ASignal (g_id group) true) in Ret (None, group) else
  let! acquired := acquireWithSaturationRetries in
  if negb acquired then
    do! act (ASignal (g_id group) true) in Ret (Some (mkOutcome true 0), group)
  else
    let! r := runTeamLeadOf group in
    do! act ARelease in
    do! act (ASignal (g_id group) (go_failed r.1)) in
    do! publish (if go_failed r.1 then EvGroupFailed (g_id group)
                 else EvGroupCompleted (g_id group) (go_tasksDone r.1)) in
    Ret (Some r.1, r.2).

(** The goroutine of a group; no outcome when the context ended while it waited
    for the semaphore. *)
Definition group_goroutine (group : Group) : aprog (option groupOutcome * Group) :=
  if bool_decide (g_status group = GroupStatusCompleted) then
    do! act (ASignal (g_id group) false) in
    Ret (Some (mkOutcome false (length (g_tasks group))), group)
  else
    let! w := Wait (g_dependsOn group) in
    match w with
    | WaitErr =>
        do! act (ASignal (g_id group) true) in
        do! publish (EvGroupFailed (g_id group)) in
        Ret (Some (mkOutcome true 0), group)
    | WaitGroupFailed dep =>
        do! publish (EvGroupDegraded (g_id group) (raw dep)) in
        enterGroup group
    | WaitOk => enterGroup group
    end.

(** The map of outcomes and the groups as their goroutines left them. *)
Definition results_of : list (option groupOutcome * Group) → gmap GroupID groupOutcome := collect g_id.

Definition runAllGroups (board : Board) : aprog (gmap GroupID groupOutcome * Board * bool) :=
  let! rs := go_all (group_goroutine <$> b_groups board) in
  let! tripped := act ATripped in
  Ret (results_of rs, mkBoard (b_id board) (b_phaseID board) (b_status board) rs.*2, tripped).
End Groups.

(** ** The final envelope *)

Definition outcome_of (results : gmap GroupID groupOutcome) (g : Group) : groupOutcome :=
  default (mkOutcome false 0) (results !! g_id g).

Definition failed_groups (results : gmap GroupID groupOutcome) (gs : list Group) : nat :=
  length (filter (λ g, go_failed (outcome_of results g) = true) gs).

Definition tasks_done (results : gmap GroupID groupOutcome) (gs : list Group) : nat :=
  sum_list_with (λ g, let o := outcome_of results g in if go_failed o then 0 else go_tasksDone o) gs.

Definition tasks_total (gs : list Group) : nat := sum_list_with (λ g, length (g_tasks g)) gs.

Definition final_envelope (results : gmap GroupID groupOutcome) (gs : list Group) : Envelope :=
  let failedGroups := failed_groups results gs in
  let blocked := negb (Nat.eqb failedGroups 0) in
  mkEnvelope SchemaVersionV1 (pt_string PhaseApply) (ch_name c) (ch_project c)
    (if blocked then StatusBlocked else StatusDone)
    (if blocked then f64_0 else f64_0_85)
    (if blocked
     then cat ["Apply phase: "; pretty failedGroups; "/"; pretty (length gs); " groups failed"]
     else cat ["Apply phase: "; pretty (length gs); " groups, "; pretty (tasks_done results gs); "/";
               pretty (tasks_total gs); " tasks done"])
    [mkArtifactRef (cat ["sdd/"; ch_name c; "/apply-progress"]) "sdd_apply_progress"] [] [] None.

Definition finalize (board : Board) (results : gmap GroupID groupOutcome) : aprog Envelope :=
  let gs := b_groups board in
  let failedGroups := failed_groups results gs in
  let moved := if Nat.eqb failedGroups 0 then Board_Complete board else Board_Fail board in
  let board1 := match moved with Ok b => b | Err _ => board end in
  let! e := act (ASaveBoard board1) in
  do! match e with Some _ => publish EvBoardSaveFailed | None => Ret tt end in
  do! act (AAuditFinalized (length gs) (tasks_total gs) (tasks_done results gs) failedGroups) in
  Ret (final_envelope results gs).

(** ** Execute *)

Definition quota_reason : string :=
  "provider quota exhausted; resets 1st of month 00:00 UTC, or set SOPHIA_DISPATCHER_FALLBACK_MODEL to a model with quota".

(** A failure before the groups start: the BLOCKED envelope and the error. *)
Definition preflight_failure (step : string) (e : run_error) : Envelope * option run_error :=
  (failEnv c (cat [step; ": "; error_text e]), Some e).

(** Steps 5 to 18, on a board that is running. *)
Definition runBoard (priorPhasesStatus : gmap string string) (priorContext : string) (board : Board)
    : aprog (Envelope * option run_error) :=
  do! publish (EvBoardCreated (b_id board) (length (b_groups board))) in
  do! act (ACoordinate (g_id <$> b_groups board)) in
  let! r := runAllGroups priorPhasesStatus priorContext board in
  let '(groupResults, board1, breakerTripped) := r in
  if (breakerTripped : bool) then
    let! s := act ASnapshot in
    do! publish (EvPhaseQuotaAborted (breakerThreshold cfg) s.1 s.2) in
    Ret (failEnv c quota_reason, None)
  else
    let! finalEnv := finalize board1 groupResults in
    do! (if str_empty (rc_TargetPath cfg) then Ret tt else materializeWorktrees board1 groupResults) in
    Ret (finalEnv, None).

(** Step 4: a new board starts; the board of a resumed phase stays as it is. *)
Definition startBoard (priorPhasesStatus : gmap string string) (priorContext : string) (board : Board)
    : aprog (Envelope * option run_error) :=
  if bool_decide (b_status board = BoardStatusBuilding) then
    match Board_Start board with
    | Err e => Ret (preflight_failure "board start" (RunErrApply e))
    | Ok board1 =>
        let! e := act (ASaveBoard board1) in
        match e with
        | Some _ => Ret (preflight_failure "save board" RunErrStore)
        | None => runBoard priorPhasesStatus priorContext board1
        end
    end
  else runBoard priorPhasesStatus priorContext board.

Definition Execute (priorPhasesStatus : gmap string string) : aprog (Envelope * option run_error) :=
  do! act (AOpen (breakerThreshold cfg)) in
  let! r := loadTasksList in
  match r with
  | Err e => Ret (preflight_failure "load tasks" e)
  | Ok [] => Ret (failEnv c "tasks list has no groups", Some ErrInvalidTasksList)
  | Ok tl =>
      let! r := loadPriorContext in
      match r with
      | Err e => Ret (preflight_failure "load prior context" e)
      | Ok priorContext =>
          let! r := buildBoard tl in
          match r with
          | Err e => Ret (preflight_failure "build board" e)
          | Ok board =>
              let! gs := createWorktrees (b_groups board) in
              match gs with
              | None => Ret (preflight_failure "create worktrees" RunErrStore)
              | Some gs =>
                  startBoard priorPhasesStatus priorContext
                    (mkBoard (b_id board) (b_phaseID board) (b_status board) gs)
              end
          end
      end
  end.
End Execute.

(** ** Reading a board (service.go) *)
Definition GetBoard (phaseID : PhaseID) : aprog (result store_error Board) := act (AFindBoard phaseID).
