(* ===== verification/ApplyLogic.v ===== *)
(** * Counting what the apply executor does

    What a run of the apply executor spends: spawn slots taken and given back,
    agents dispatched for a task (with its own model or the fallback), repairs
    dispatched for a build, quota outcomes recorded.  The counts of a run of
    parallel goroutines are the sums of theirs. *)
From S2P Require Import Prelude Ids Json Envelope PhaseDomain ChangeDomain ApplyDomain Session Discipline Store BoardStore Effects Concurrency PhaseHelpers ApplyInputs ApplyEffects ApplyBuild ApplyTeam ApplyRun.
From stdpp Require Import list.

Abbreviation trace := (list (performed aeff)).

(** ** Weights *)

Definition slot_taken (x : performed aeff) : nat :=
  match x with
  | Perf e r =>
      match e in aeff R return R → nat with
      | AAcquire => λ r, match r with SlotAcquired => 1 | _ => 0 end
      | _ => λ _, 0
      end r
  end.

(** A call of Release; it gives the slot back only when its answer is no error. *)
Definition release_call (x : performed aeff) : nat :=
  match x with Perf e _ => match e with ARelease => 1 | _ => 0 end end.
Definition slot_returned (x : performed aeff) : nat :=
  match x with Perf e r => match e in aeff R return R → nat with ARelease => λ ok, if ok then 1 else 0 | _ => λ _, 0 end r end.
Definition slot_kept (x : performed aeff) : nat :=
  match x with Perf e r => match e in aeff R return R → nat with ARelease => λ ok, if ok then 0 else 1 | _ => λ _, 0 end r end.

Lemma release_answers tr : weigh release_call tr = weigh slot_returned tr + weigh slot_kept tr.
Proof. induction tr as [|[R e r] tr IH]; [done|]. rewrite !weigh_cons, IH. destruct e; cbn; try lia. destruct r; cbn; lia. Qed.

Definition primary_dispatch (x : performed aeff) : nat :=
  match x with Perf e _ => match e with ADispatch (ForTask _) _ _ None => 1 | _ => 0 end end.

Definition fallback_dispatch (x : performed aeff) : nat :=
  match x with Perf e _ => match e with ADispatch (ForTask _) _ _ (Some _) => 1 | _ => 0 end end.

Definition repair_dispatch (x : performed aeff) : nat :=
  match x with Perf e _ => match e with ADispatch (ForBuild _) _ _ _ => 1 | _ => 0 end end.

Definition quota_outcome (x : performed aeff) : nat :=
  match x with Perf e _ => match e with AQuotaOutcome _ => 1 | _ => 0 end end.

Definition signal_of (g : GroupID) (x : performed aeff) : nat :=
  match x with
  | Perf e _ => match e with ASignal g' _ => if bool_decide (g' = g) then 1 else 0 | _ => 0 end
  end.

(** ** Tallies *)

Record tally := mkTally {
  n_taken : nat; n_released : nat; n_primary : nat; n_fallback : nat; n_repair : nat; n_quota : nat
}.

Definition tadd (x y : tally) : tally :=
  mkTally (n_taken x + n_taken y) (n_released x + n_released y) (n_primary x + n_primary y)
    (n_fallback x + n_fallback y) (n_repair x + n_repair y) (n_quota x + n_quota y).

Definition tzero : tally := mkTally 0 0 0 0 0 0.

Definition tally_of (tr : trace) : tally :=
  mkTally (weigh slot_taken tr) (weigh release_call tr) (weigh primary_dispatch tr)
    (weigh fallback_dispatch tr) (weigh repair_dispatch tr) (weigh quota_outcome tr).

Lemma tally_nil : tally_of [] = tzero.
Proof. done. Qed.

Lemma tally_app tr1 tr2 : tally_of (tr1 ++ tr2) = tadd (tally_of tr1) (tally_of tr2).
Proof. unfold tally_of, tadd. simpl. by rewrite !weigh_app. Qed.

Definition cost_of (x : performed aeff) : tally :=
  mkTally (slot_taken x) (release_call x) (primary_dispatch x) (fallback_dispatch x) (repair_dispatch x)
    (quota_outcome x).

Lemma tally_cons x tr : tally_of (x :: tr) = tadd (cost_of x) (tally_of tr).
Proof. done. Qed.

Lemma tadd_zero_l x : tadd tzero x = x.
Proof. by destruct x. Qed.
Lemma tadd_zero_r x : tadd x tzero = x.
Proof. destruct x. unfold tadd; simpl. by rewrite !Nat.add_0_r. Qed.

Lemma tally_eta n : mkTally (n_taken n) (n_released n) (n_primary n) (n_fallback n) (n_repair n) (n_quota n) = n.
Proof. by destruct n. Qed.

Definition tsum (l : list tally) : tally := foldr tadd tzero l.

Lemma tally_shuffles trs l : shuffles APick trs l → tally_of l = tsum (tally_of <$> trs).
Proof.
  induction 1 as [|t ts l' l Hts IH Hsh]; [done|].
  rewrite fmap_cons. cbn [tsum foldr]. fold (tsum (tally_of <$> ts)). rewrite <-IH.
  unfold tally_of, tadd. simpl. by rewrite !(weigh_shuffle APick _ _ _ _ (λ _, eq_refl) Hsh).
Qed.

Lemma n_released_calls tr : n_released (tally_of tr) = weigh slot_returned tr + weigh slot_kept tr.
Proof. apply release_answers. Qed.

#[global] Opaque tally_of.

(** ** Programs that spend nothing *)

(** Neither counted nor a signal nor a claim, nor the start of a run. *)
Definition free_of_charge R (e : aeff R) : Prop :=
  match e with
  | AAcquire | ARelease | ADispatch _ _ _ _ | AQuotaOutcome _ | ASignal _ _ | AClaimTask _ _
  | AOpen _ | ACoordinate _ => False
  | _ => True
  end.

Definition plain (tr : trace) : Prop :=
  Forall (λ x, match x with Perf e _ => free_of_charge _ e end) tr.

Lemma plain_nil : plain [].
Proof. constructor. Qed.
#[export] Hint Resolve plain_nil : core.

Lemma plain_tally tr : plain tr → tally_of tr = tzero.
Proof.
  induction 1 as [|[R e r] tr Hx Htr IH]; [done|]. rewrite tally_cons, IH. by destruct e.
Qed.

Lemma plain_weigh w tr :
  (∀ R (e : aeff R) r, free_of_charge _ e → w (Perf e r) = 0) → plain tr → weigh w tr = 0.
Proof.
  intros Hw. induction 1 as [|[R e r] tr Hx Htr IH]; [done|]. rewrite weigh_cons, IH. by rewrite Hw.
Qed.

Lemma plain_no_signal g tr : plain tr → weigh (signal_of g) tr = 0.
Proof. apply plain_weigh. by intros R []. Qed.

Lemma effects_plain {A} (m : aprog A) : effects_in free_of_charge m → always m (λ tr _, plain tr).
Proof.
  induction m as [a|R e k IH]; intros Hm; [by apply always_ret; constructor|].
  destruct Hm as [He Hk]. apply always_do. intros r. eapply always_mono; [by apply IH|].
  intros tr a Htr. by constructor.
Qed.

Lemma always_plain {A B} (m : aprog A) (f : A → aprog B) (Q : trace → B → Prop) :
  effects_in free_of_charge m →
  (∀ tr a, plain tr → always (f a) (λ tr2 b, Q (tr ++ tr2) b)) → always (prog_bind m f) Q.
Proof. intros Hm Hf. eapply always_bind_inv; [by apply effects_plain|done]. Qed.

Lemma effects_act {R} (e : aeff R) : free_of_charge R e → effects_in free_of_charge (act e).
Proof. intros He. by split. Qed.

#[export] Hint Extern 1 (effects_in free_of_charge (act _)) => (apply effects_act; exact I) : effects.
#[export] Hint Extern 1 (effects_in free_of_charge (publish _)) => (apply effects_act; exact I) : effects.
#[export] Hint Extern 1 (effects_in free_of_charge (appendAuditErr _)) => (apply effects_act; exact I) : effects.

Lemma plain_audit_if e op : effects_in free_of_charge (audit_if e op).
Proof. unfold audit_if. effects. Qed.
#[export] Hint Resolve plain_audit_if : effects.

Lemma plain_saveGroup g : effects_in free_of_charge (saveGroup g).
Proof. unfold saveGroup. effects. Qed.
Lemma plain_saveTask t : effects_in free_of_charge (saveTask t).
Proof. unfold saveTask. effects. Qed.
Lemma plain_saveSession s : effects_in free_of_charge (saveSession s).
Proof. unfold saveSession. effects. Qed.
Lemma plain_discard {E A} (r : result E A) old op : effects_in free_of_charge (discard r old op).
Proof. unfold discard. effects. Qed.
#[export] Hint Resolve plain_saveGroup plain_saveTask plain_saveSession plain_discard : effects.

Lemma discard_spec {E A} (r : result E A) old op :
  always (discard r old op) (λ tr a, plain tr ∧ a = match r with Ok x => x | Err _ => old end).
Proof.
  destruct r; cbn [discard]; [apply always_ret; by split; [constructor|]|]. apply always_plain; [effects|].
  intros tr _ Htr. apply always_ret. by rewrite app_nil_r.
Qed.

Lemma always_discard {E A B} (r : result E A) old op (f : A → aprog B) (Q : trace → B → Prop) :
  (∀ tr, plain tr →
     always (f (match r with Ok x => x | Err _ => old end)) (λ tr2 b, Q (tr ++ tr2) b)) →
  always (prog_bind (discard r old op) f) Q.
Proof. intros Hf. eapply always_bind_inv; [apply discard_spec|]. intros tr a [Htr ->]. auto. Qed.

Lemma plain_app tr1 tr2 : plain (tr1 ++ tr2) ↔ plain tr1 ∧ plain tr2.
Proof. apply Forall_app. Qed.

(** *** The build registry and the adapters *)

Lemma plain_fileExists cwd path : effects_in free_of_charge (fileExistsInWorktree cwd path).
Proof. unfold fileExistsInWorktree. effects. Qed.
Lemma plain_readFile cwd path : effects_in free_of_charge (readFileInWorktree cwd path).
Proof. unfold readFileInWorktree. effects. Qed.
#[export] Hint Resolve plain_fileExists plain_readFile : effects.

Lemma plain_isFlutter cwd : effects_in free_of_charge (isFlutterProject cwd).
Proof. unfold isFlutterProject. effects. Qed.
#[export] Hint Resolve plain_isFlutter : effects.

Lemma plain_first_match rules cwd :
  Forall (λ rule, effects_in free_of_charge (rule cwd)) rules →
  effects_in free_of_charge (first_match rules cwd).
Proof. induction 1; cbn [first_match]; effects; done. Qed.

Lemma plain_DetectBuildPlan cwd : effects_in free_of_charge (DetectBuildPlan cwd).
Proof.
  apply plain_first_match. repeat constructor; unfold goModRule, packageJSONRule, pubspecRule; effects.
Qed.
#[export] Hint Resolve plain_DetectBuildPlan : effects.

Lemma plain_synthesize wt : effects_in free_of_charge (synthesizeEnvelopeFromGit wt).
Proof. unfold synthesizeEnvelopeFromGit. effects. Qed.
#[export] Hint Resolve plain_synthesize : effects.

Lemma plain_envelope_of_result res wt : effects_in free_of_charge (envelope_of_result res wt).
Proof. unfold envelope_of_result. effects. Qed.
#[export] Hint Resolve plain_envelope_of_result : effects.

Lemma plain_executeBuild plan g : effects_in free_of_charge (executeBuild plan g).
Proof. unfold executeBuild. effects. Qed.
#[export] Hint Resolve plain_executeBuild : effects.

(** *** Sessions and prompts *)

Section Team.
Context `{UlidLib} (cfg : RunConfig) (c : Change) (p : Phase) (prior : gmap string string).

Lemma plain_makeSession role command : effects_in free_of_charge (makeSession cfg c p role command).
Proof. unfold makeSession. effects. Qed.
Lemma plain_refresh base : effects_in free_of_charge (refreshApplyProgress c base).
Proof. unfold refreshApplyProgress. effects. Qed.
Lemma plain_insert_usage t l : effects_in free_of_charge (insert_usage c p t l).
Proof. induction l; cbn [insert_usage]; effects; done. Qed.
Hint Resolve plain_insert_usage : effects.
Lemma plain_recordSkillUsageInjection l : effects_in free_of_charge (recordSkillUsageInjection cfg c p l).
Proof. unfold recordSkillUsageInjection. effects. Qed.
Lemma plain_recordEnvelope t s x raw : effects_in free_of_charge (recordEnvelope t s x raw).
Proof. unfold recordEnvelope. effects. Qed.
Hint Resolve plain_recordEnvelope : effects.
Lemma plain_receiveDispatch g t s r : effects_in free_of_charge (receiveDispatch g t s r).
Proof. unfold receiveDispatch. effects. Qed.
Lemma plain_recordTeamLead g s n b : effects_in free_of_charge (recordTeamLead c g s n b).
Proof. unfold recordTeamLead. effects. Qed.
End Team.
#[export] Hint Resolve plain_makeSession plain_refresh plain_recordSkillUsageInjection
  plain_receiveDispatch plain_recordTeamLead : effects.

(** ** Walking through a program *)

(** Skip what spends nothing, enter what is known, split the rest. *)
Ltac spend_step :=
  lazymatch goal with
  | |- always (Ret _) _ => apply always_ret
  | |- always (prog_bind (act ?e) _) _ =>
      first [ apply always_plain; [solve [effects]|]; intros ? ? ?
            | apply always_bind, always_do; intros ?; apply always_ret ]
  | |- always (prog_bind _ _) _ => apply always_plain; [solve [effects]|]; intros ? ? ?
  | |- always (if ?b then _ else _) _ => destruct b eqn:?
  | |- always (match ?x with _ => _ end) _ => destruct x eqn:?
  end.

(** Close a goal about the tally of a run from the tallies of its parts. *)
Ltac tallies :=
  repeat (rewrite tally_app || rewrite tally_cons);
  repeat match goal with Hp : plain ?tr |- _ => rewrite (plain_tally tr Hp); clear Hp end;
  rewrite ?tadd_zero_l, ?tadd_zero_r, ?tally_nil;
  unfold tadd, tzero, cost_of; cbn [slot_taken release_call primary_dispatch fallback_dispatch repair_dispatch
    quota_outcome n_taken n_released n_primary n_fallback n_repair n_quota].
