(* ===== verification/ApplyTask.v ===== *)
(** * One task of the apply phase

    What [runImplementWithRetry] may do, whatever its collaborators answer. *)
From S2P Require Import Prelude Ids Json Envelope PhaseDomain ChangeDomain ApplyDomain Session Discipline Store BoardStore Effects Concurrency PhaseHelpers ApplyInputs ApplyEffects ApplyBuild ApplyTeam ApplyRun ApplyLogic.
From stdpp Require Import list.

Section Task.
Context `{UlidLib} (cfg : RunConfig) (c : Change) (p : Phase) (prior : gmap string string).

(** ** Slots *)

Lemma acquire_retries_spec left attempt :
  always (acquire_retries left attempt)
    (λ tr ok, tally_of tr = mkTally (if ok then 1 else 0) 0 0 0 0 0).
Proof.
  revert attempt. induction left as [|left IH]; intros attempt; cbn [acquire_retries].
  { by apply always_ret. }
  apply always_bind, always_do. intros r. apply always_ret. destruct r.
  - by apply always_ret.
  - apply always_bind, always_do. intros slept. apply always_ret. destruct slept.
    + eapply always_mono; [apply IH|]. intros tr ok Htr. tallies. rewrite Htr. done.
    + by apply always_ret.
  - by apply always_ret.
Qed.

Lemma acquire_spec :
  always acquireWithSaturationRetries (λ tr ok, tally_of tr = mkTally (if ok then 1 else 0) 0 0 0 0 0).
Proof. apply acquire_retries_spec. Qed.

(** ** One dispatch

    In memory a task is never Claimed or Running on the way here, so
    [task.Complete] refuses the envelope and the task stays what it was. *)

Lemma recordEnvelope_spec t s x raw :
  t_status t ≠ TaskStatusRunning →
  always (recordEnvelope t s x raw) (λ tr d, plain tr ∧ di_task d = t ∧ di_quota d = None).
Proof.
  intros Ht. unfold recordEnvelope. destruct (Validator_Validate raw PhaseApply) as [env|].
  - do 3 (apply always_plain; [solve [effects]|]; intros ? ? ?).
    apply always_discard. intros ? ?. unfold Task_Complete. rewrite bool_decide_eq_true_2 by done.
    apply always_plain; [solve [effects]|]. intros ? ? ?. apply always_ret. by rewrite !plain_app.
  - apply always_plain; [solve [effects]|]. intros. apply always_ret. by rewrite plain_app.
Qed.

Lemma receiveDispatch_spec g t s r :
  t_status t ≠ TaskStatusRunning →
  always (receiveDispatch g t s r)
    (λ tr d, plain tr ∧ di_task d = t ∧ (is_Some (di_quota d) → di_ok d = false)).
Proof.
  intros Ht. unfold receiveDispatch. destruct r as [res|[q| |]].
  - apply always_plain; [solve [effects]|]. intros tr envelopeRaw Htr. destruct envelopeRaw as [raw|].
    + eapply always_mono; [by apply recordEnvelope_spec|]. intros tr2 d (Hp & Hd & Hq).
      rewrite plain_app, Hq. split_and!; [done..|]. by intros [? ?].
    + apply always_plain; [solve [effects]|]. intros. apply always_ret. rewrite !plain_app. by repeat split.
  - by apply always_ret.
  - apply always_plain; [solve [effects]|]. intros. apply always_ret. rewrite plain_app. by repeat split.
  - apply always_plain; [solve [effects]|]. intros. apply always_ret. rewrite plain_app. by repeat split.
Qed.

(** The tally of at most one dispatch for a task. *)
Definition dispatched_once (model : option string) (n : tally) : Prop :=
  ∃ k, (k ≤ 1)%nat ∧
    n = mkTally 0 0 (match model with None => k | Some _ => 0 end)
          (match model with None => 0 | Some _ => k end) 0 0.

Lemma dispatch_spec model g t s ctx :
  t_status t ≠ TaskStatusRunning →
  always (dispatchImplementWithOverride cfg c p prior model g t s ctx)
    (λ tr d, dispatched_once model (tally_of tr) ∧ di_task d = t ∧
             (is_Some (di_quota d) → di_ok d = false)).
Proof.
  intros Ht. unfold dispatchImplementWithOverride.
  do 4 (apply always_plain; [solve [effects]|]; intros ? ? ?). destruct a2 as [prompt|].
  - apply always_plain; [solve [effects]|]. intros ? sess1 ?.
    apply always_bind, always_do. intros r. apply always_ret.
    eapply always_mono; [by apply receiveDispatch_spec|]. intros tr5 d (Hp & Hd & Hq).
    split_and!; [|done..]. exists 1. split; [done|]. tallies. by destruct model.
  - apply always_ret. split_and!; [|done|by intros [? ?]]. exists 0. split; [lia|]. tallies. by destruct model.
Qed.

(** ** The attempts *)

Definition same_task (t t' : Task) : Prop :=
  t_id t' = t_id t ∧ t_groupID t' = t_groupID t ∧ t_description t' = t_description t ∧
  t_filesPattern t' = t_filesPattern t ∧ t_envelope t' = t_envelope t.

(** What a run of attempts leaves: [n] is what it spent, [t] the task before,
    [r] the outcome and the task after. *)
Record attempts_done (bound : nat) (t : Task) (n : tally) (r : bool * Task) : Prop := {
  ad_slots : n_released n = n_taken n;
  ad_bound : (n_primary n ≤ n_taken n ≤ bound)%nat;
  ad_fallback : (n_fallback n ≤ 1)%nat;
  ad_repair : n_repair n = 0;
  ad_quota : (n_quota n ≤ 1)%nat ∧ (n_quota n = 1 → r.1 = false);
  ad_count : Z.of_nat (n_taken n) = (t_attempts r.2 - t_attempts t + Z.of_nat (n_quota n))%Z;
  ad_task : same_task t r.2;
  ad_done : r.1 = true ↔ t_status r.2 = TaskStatusDone;
  ad_running : t_status r.2 ≠ TaskStatusRunning
}.

Lemma quotaFailFast_spec q t :
  t_status t ≠ TaskStatusRunning → t_status t ≠ TaskStatusDone →
  always (quotaFailFast q t)
    (λ tr r, tally_of tr = mkTally 0 0 0 0 0 1 ∧ r.1 = false ∧ t_attempts r.2 = t_attempts t ∧
             same_task t r.2 ∧ t_status r.2 ≠ TaskStatusDone ∧ t_status r.2 ≠ TaskStatusRunning).
Proof.
  intros Hr Hd. unfold quotaFailFast. apply always_discard. intros tr Htr.
  do 2 (apply always_plain; [solve [effects]|]; intros ? ? ?).
  apply always_bind, always_do. intros b. do 2 apply always_ret. split; [by tallies|].
  unfold Task_Release. repeat case_bool_decide; by repeat split.
Qed.

Lemma quotaFallback_spec q g t s ctx :
  t_status t ≠ TaskStatusRunning → t_status t ≠ TaskStatusDone →
  always (quotaFallback cfg c p prior q g t s ctx)
    (λ tr r, ∃ (k : nat) (b : bool), (k ≤ 1)%nat ∧ tally_of tr = mkTally 0 0 0 k 0 (if b then 0 else 1) ∧ r.1 = b ∧
       t_attempts r.2 = (t_attempts t + (if b then 1 else 0))%Z ∧ same_task t r.2 ∧
       (b = true ↔ t_status r.2 = TaskStatusDone) ∧ t_status r.2 ≠ TaskStatusRunning).
Proof.
  intros Hr Hd. unfold quotaFallback. destruct (str_empty (rc_FallbackModel cfg)).
  { eapply always_mono; [by apply quotaFailFast_spec|]. intros tr r (Hn & H1 & Ha & Hs & Hnd & Hnr).
    exists 0, false. rewrite Hn, Z.add_0_r. by split_and!; [lia|..]. }
  eapply always_bind_inv; [by apply dispatch_spec|].
  intros tr1 d ((k & Hk & Hn) & Ht & Hq). rewrite Ht.
  destruct (bool_decide (di_quota d = None) && di_ok d).
  - apply always_plain; [solve [effects]|]. intros tr2 _ Hp2. cbn [Task_RecordAttempt].
    apply always_plain; [solve [effects]|]. intros tr3 _ Hp3.
    apply always_bind, always_do. intros []. do 2 apply always_ret. exists k, true.
    split_and!; [done|by tallies; rewrite Hn; cbn; rewrite ?Nat.add_0_r|done..].
  - eapply always_mono; [by apply quotaFailFast_spec|]. intros tr r (Hn2 & H1 & Ha & Hs & Hnd & Hnr).
    exists k, false. rewrite Z.add_0_r. split_and!; try done. tallies. rewrite Hn, Hn2. cbn.
    by rewrite Nat.add_0_r.
Qed.
Lemma same_task_trans t1 t2 t3 : same_task t1 t2 → same_task t2 t3 → same_task t1 t3.
Proof. intros (? & ? & ? & ? & ?) (? & ? & ? & ? & ?). repeat split; congruence. Qed.

(** A round that ends the run: one slot, at most one dispatch. *)
Lemma attempts_idle bound t :
  t_status t ≠ TaskStatusRunning → t_status t ≠ TaskStatusDone →
  attempts_done bound t tzero (false, t).
Proof. intros Hr Hd. split; simpl; try done; lia. Qed.

Lemma RecordAttempt_facts ok t :
  let r := Task_RecordAttempt ok t in
  t_attempts r.1 = (t_attempts t + 1)%Z ∧ same_task t r.1 ∧
  (ok = true ↔ t_status r.1 = TaskStatusDone) ∧ t_status r.1 ≠ TaskStatusRunning.
Proof.
  unfold Task_RecordAttempt. destruct ok; [by repeat split|].
  destruct (MaxAttempts <=? t_attempts t + 1)%Z; by repeat split.
Qed.

(** One slot taken, given back, and a recorded attempt, before [n] more. *)
Lemma attempts_more bound t t1 k n r :
  (k ≤ 1)%nat → t_attempts t1 = (t_attempts t + 1)%Z → same_task t t1 →
  attempts_done bound t1 n r →
  attempts_done (S bound) t (tadd (mkTally 1 1 k 0 0 0) n) r.
Proof.
  intros Hk Ha Hs [H1 H2 H3 H4 H5 H6 H7 H8 H9].
  split; simpl; try done; try lia. by eapply same_task_trans.
Qed.

Lemma implement_attempts_spec left g t s ctx :
  t_status t ≠ TaskStatusRunning → t_status t ≠ TaskStatusDone →
  always (implement_attempts cfg c p prior left g t s ctx)
    (λ tr r, attempts_done left t (tally_of tr) r).
Proof.
  revert t s. induction left as [|left IH]; intros t s Hr Hd; cbn [implement_attempts].
  { apply always_ret. by apply attempts_idle. }
  apply always_plain; [solve [effects]|]. intros tr0 cancelled Hp0. destruct cancelled.
  { apply always_ret. rewrite app_nil_r, plain_tally by done. by apply attempts_idle. }
  eapply always_bind_inv; [apply acquire_spec|]. intros tr1 acquired Hn1. destruct acquired; cbn [negb].
  2: { apply always_plain; [solve [effects]|]. intros tr2 _ Hp2. apply always_ret.
       tallies. rewrite Hn1. by apply attempts_idle. }
  eapply always_bind_inv; [by apply dispatch_spec|].
  intros tr2 d ((k & Hk & Hn2) & Ht & Hq). rewrite Ht.
  apply always_bind, always_do. intros released. apply always_ret.
  apply always_plain; [destruct released; solve [effects]|]. intros tr3 _ Hp3.
  destruct (di_quota d) as [q|].
  - eapply always_mono; [by apply quotaFallback_spec|].
    intros tr4 r (k4 & b & Hk4 & Hn4 & Hb & Ha & Hs & Hdone & Hrun).
    tallies. rewrite Hn1, Hn2, Hn4. cbn. rewrite ?Nat.add_0_r.
    destruct b; split; simpl; rewrite ?Hb; try done; lia.
  - pose proof (RecordAttempt_facts (di_ok d) t) as (Ha & Hs & Hdone & Hrun).
    destruct (Task_RecordAttempt (di_ok d) t) as [t1 recordErr]. cbn [fst] in *.
    apply always_plain; [solve [effects]|]. intros tr4 _ Hp4.
    assert (Hspent : tally_of (tr0 ++ tr1 ++ tr2 ++ [Perf ARelease released] ++ tr3 ++ tr4)
                     = mkTally 1 1 k 0 0 0).
    { tallies. rewrite Hn1, Hn2. cbn. by rewrite ?Nat.add_0_r. }
    destruct (di_ok d).
    + apply always_plain; [solve [effects]|]. intros tr5 _ Hp5. apply always_ret.
      replace (tally_of _) with (tadd (mkTally 1 1 k 0 0 0) tzero).
      * apply (attempts_more _ _ t1); try done. split; simpl; try done; try lia; by repeat split.
      * rewrite <-Hspent. tallies. done.
    + destruct recordErr as [e|].
      * apply always_plain; [solve [effects]|]. intros tr5 _ Hp5. apply always_ret.
        replace (tally_of _) with (tadd (mkTally 1 1 k 0 0 0) tzero).
        { apply (attempts_more _ _ t1); try done. apply attempts_idle; [done|]. by rewrite <-Hdone. }
        rewrite <-Hspent. tallies. done.
      * apply always_plain; [solve [effects]|]. intros tr5 _ Hp5.
        eapply always_mono; [apply IH; [done|by rewrite <-Hdone]|]. intros tr6 r Hd6.
        replace (tally_of _) with (tadd (mkTally 1 1 k 0 0 0) (tally_of tr6)).
        { by apply (attempts_more _ _ t1). }
        tallies. rewrite Hn1, Hn2. cbn. f_equal; lia.
Qed.

(** Nothing is spent before the task has been claimed. *)
Definition claimed_before (t : Task) (tr : trace) : Prop :=
  tally_of tr = tzero ∨
  ∃ tr1 sid tr2, tr = tr1 ++ Perf (AClaimTask (t_id t) sid) (Ok true) :: tr2 ∧ plain tr1.

Lemma runImplementWithRetry_spec g ctx t :
  t_status t ≠ TaskStatusRunning →
  always (runImplementWithRetry cfg c p prior g ctx t)
    (λ tr r, attempts_done (Z.to_nat MaxAttempts) t (tally_of tr) r ∧ claimed_before t tr).
Proof.
  intros Hr. unfold runImplementWithRetry. case_bool_decide as Hd.
  { apply always_ret. rewrite tally_nil. split; [|by left]. split; simpl; try done; try lia; by repeat split. }
  assert (Hidle : ∀ tr, plain tr →
    attempts_done (Z.to_nat MaxAttempts) t (tally_of tr) (false, t) ∧ claimed_before t tr).
  { intros tr Hp. rewrite (plain_tally tr Hp). split; [by apply attempts_idle|]. left. by apply plain_tally. }
  apply always_plain; [solve [effects]|]. intros tr1 sess Hp1. destruct sess as [sess|].
  2: { apply always_plain; [solve [effects]|]. intros tr2 _ Hp2. apply always_ret.
       apply Hidle. rewrite !plain_app. by repeat split. }
  apply always_bind, always_do. intros claimed. apply always_ret.
  destruct claimed as [[]|e]; [|apply always_plain; [solve [effects]|]; intros tr2 _ Hp2; apply always_ret; split..].
  - apply always_plain; [solve [effects]|]. intros tr2 _ Hp2.
    eapply always_mono; [by apply implement_attempts_spec|]. intros tr3 r H3. split.
    + by tallies.
    + right. by eexists tr1, _, _.
  - tallies. by apply attempts_idle.
  - left. by tallies.
  - tallies. by apply attempts_idle.
  - left. by tallies.
Qed.

(** C10: (one task of the apply phase) whatever the dispatcher, the governor, the
    memory service, the database and the runtime answer, the run of a task that
    is not marked running in memory dispatches nothing before the database has
    granted its claim; takes at most three spawn slots and calls Release exactly
    once for each, so every slot is given back but those whose Release was
    answered with an error, which stay taken; dispatches the agent at most once
    per slot and the fallback model at most once; records exactly one attempt per
    slot, except the slot that ended in an exhausted provider quota, which costs
    no attempt; succeeds exactly when the task ends done; and leaves description,
    files and stored envelope of the task as they were. *)
Theorem task_run_disciplined g ctx t :
  t_status t ≠ TaskStatusRunning →
  always (runImplementWithRetry cfg c p prior g ctx t)
    (λ tr r, attempts_done (Z.to_nat MaxAttempts) t (tally_of tr) r ∧ claimed_before t tr ∧
             n_taken (tally_of tr) = (weigh slot_returned tr + weigh slot_kept tr)%nat).
Proof.
  intros Ht. eapply always_mono; [by apply runImplementWithRetry_spec|]. intros tr r [Hd Hc].
  split_and!; try done. by rewrite <-(ad_slots _ _ _ _ Hd), n_released_calls.
Qed.
End Task.
