(* ===== verification/ApplyGroup.v ===== *)
(** * One group of the apply phase

    The build gate and the team lead: how often a group is built, what its
    outcome says about its tasks, and that a group is only ever started once. *)
From S2P Require Import Prelude Ids Json Envelope PhaseDomain ChangeDomain ApplyDomain Session Discipline Store BoardStore Effects Concurrency PhaseHelpers ApplyInputs ApplyEffects ApplyBuild ApplyTeam ApplyRun ApplyLogic ApplyTask.
From stdpp Require Import list.

(** ** The build loop *)

Lemma dispatchBuildRepair_spec g prompt :
  always (dispatchBuildRepair g prompt) (λ tr _, tally_of tr = mkTally 0 0 0 0 1 0).
Proof.
  unfold dispatchBuildRepair. apply always_bind, always_do. intros r. apply always_ret.
  eapply always_mono with (Q := λ tr _, plain tr).
  - apply effects_plain. destruct r; effects.
  - intros tr [] Hp. by tallies.
Qed.

(** The state of a group after [k] failed builds and one more that either
    passed or used up the budget. *)
Record built (g : Group) (k : nat) (v : build_verdict) (g' : Group) : Prop := {
  bu_attempts : g_buildAttempts g' = (g_buildAttempts g + Z.of_nat k + 1)%Z;
  bu_verdict : v = BuildOk ∧ g_buildStatus g' = GroupBuildStatusPassed ∨
               v = BuildErr ∧ g_buildStatus g' = GroupBuildStatusFailed ∧ (MaxAttempts <= g_buildAttempts g')%Z;
  bu_budget : k = 0 ∨ (g_buildAttempts g' <= MaxAttempts)%Z;
  bu_rest : g_with_build (g_buildStatus g) (g_buildAttempts g) g' = g
}.

Lemma with_build_same g : g_with_build (g_buildStatus g) (g_buildAttempts g) g = g.
Proof. by destruct g. Qed.

Lemma build_loop_spec fuel plan ctx g :
  (Z.to_nat (MaxAttempts - g_buildAttempts g) < fuel)%nat →
  always (build_loop fuel plan ctx g)
    (λ tr r, ∃ k, tally_of tr = mkTally 0 0 0 0 k 0 ∧ built g k r.1 r.2).
Proof.
  revert g. induction fuel as [|fuel IH]; intros g Hf; [lia|]. cbn [build_loop].
  do 2 (apply always_plain; [solve [effects]|]; intros ? ? ?).
  destruct (bo_exitCode a0 =? 0)%Z.
  - cbn [Group_RecordBuildAttempt].
    do 2 (apply always_plain; [solve [effects]|]; intros ? ? ?). apply always_ret. exists 0.
    split; [by tallies|]. split; simpl; [lia|by left|by left|by destruct g].
  - unfold Group_RecordBuildAttempt. destruct (MaxAttempts <=? g_buildAttempts g + 1)%Z eqn:Hb.
    + do 2 (apply always_plain; [solve [effects]|]; intros ? ? ?). apply always_ret. exists 0.
      split; [by tallies|]. split; simpl; [lia|right; split_and!; [done|done|lia]|by left|by destruct g].
    + do 2 (apply always_plain; [solve [effects]|]; intros ? ? ?).
      eapply always_bind_inv; [apply dispatchBuildRepair_spec|]. intros tr3 ? Hn3.
      eapply always_mono; [apply IH; simpl; unfold MaxAttempts in *; lia|].
      intros tr4 r (k & Hn4 & [B1 B2 B3 B4]). simpl in *. exists (S k).
      split; [tallies; by rewrite Hn3, Hn4|]. split; [lia|done| |].
      * right. destruct B3 as [-> |B3]; lia.
      * destruct g, (r.2); simpl in *; by simplify_eq.
Qed.

Section Group.
Context `{UlidLib} (cfg : RunConfig) (c : Change) (p : Phase) (prior : gmap string string).

(** (the build gate) the loop always ends, whatever the runtime and the
    repair agents do: it never runs out of the fuel it is given.  It reports a
    pass exactly when its last build passed, dispatches one repair between two
    builds, and never takes the group past three builds unless it had used them
    up before; nothing of the group but its build status and counter changes. *)
Theorem build_loop_bounded plan ctx g :
  always (build_loop (build_fuel g) plan ctx g)
    (λ tr r, ∃ repairs, tally_of tr = mkTally 0 0 0 0 repairs 0 ∧ built g repairs r.1 r.2).
Proof. apply build_loop_spec. unfold build_fuel. lia. Qed.

(** ** The gate as the team lead calls it *)

(** What the gate leaves of a group. *)
Definition gated (g : Group) (r : build_verdict * Group) : Prop :=
  r.1 ≠ BuildDiverged ∧ g_id r.2 = g_id g ∧ g_dependsOn r.2 = g_dependsOn g ∧ g_tasks r.2 = g_tasks g ∧
  g_status r.2 = g_status g ∧ g_name r.2 = g_name g ∧ g_worktreePath r.2 = g_worktreePath g.

Lemma built_gated g k v g' : built g k v g' → gated g (v, g').
Proof.
  intros [_ Hv _ Hr]. split; simpl; [by destruct Hv as [[-> _]|[-> _]]|].
  rewrite <-Hr. by destruct g'.
Qed.

Lemma gate_spec ctx g :
  (0 <= g_buildAttempts g)%Z →
  always (runGroupBuildFeedbackLoop ctx g)
    (λ tr r, (∃ k, (k ≤ 2)%nat ∧ tally_of tr = mkTally 0 0 0 0 k 0) ∧ gated g r).
Proof.
  intros H0. unfold runGroupBuildFeedbackLoop.
  apply always_plain; [solve [effects]|]. intros tr1 plan Hp1.
  apply always_plain; [destruct plan; solve [effects]|]. intros tr2 _ Hp2.
  assert (Hskip : always (match Group_SkipBuild g with
      | Ok group1 => do! saveGroup group1 in Ret (BuildOk, group1)
      | Err _ => Ret (BuildErr, g) end)
      (λ tr r, tally_of (tr1 ++ tr2 ++ tr) = mkTally 0 0 0 0 0 0 ∧ gated g r)).
  { unfold Group_SkipBuild. case_bool_decide.
    - apply always_ret. split; [by tallies|by repeat split].
    - apply always_plain; [solve [effects]|]. intros tr3 _ Hp3. apply always_ret.
      split; [by tallies|by repeat split]. }
  destruct plan as [[plan|]|]; [|eapply always_mono; [exact Hskip|]; intros tr r [Hn Hg]; split; [exists 0; eauto with lia|done]..].
  eapply always_mono; [apply build_loop_spec; unfold build_fuel; lia|]. intros tr r (k & Hn & Hb). split.
  - exists k. destruct Hb as [H1 _ H3 _]. split; [destruct H3; unfold MaxAttempts in *; lia|].
    tallies. by rewrite Hn.
  - apply built_gated in Hb. by destruct r.
Qed.
End Group.

(** ** The map of outcomes *)

Lemma had_failure_false rs t :
  had_failure (outcomes_of rs) = false → NoDup (t_id <$> rs.*2) → (Some false, t) ∉ rs.
Proof.
  unfold had_failure. intros Hf Hnd Hin. apply bool_decide_eq_false in Hf. apply Hf.
  pose proof (collect_lookup t_id _ _ _ Hnd Hin) as Hl. intros Hemp.
  apply (map_filter_empty_not_lookup (λ kv : TaskID * bool, kv.2 = false) _ (t_id t) false) in Hemp; auto.
Qed.

Section Lead.
Context `{UlidLib} (cfg : RunConfig) (c : Change) (p : Phase) (prior : gmap string string).

(** ** The goroutine of a task *)

Record task_ran (t : Task) (tr : trace) (r : option bool * Task) : Prop := {
  tk_slots : n_released (tally_of tr) = n_taken (tally_of tr);
  tk_primary : (n_primary (tally_of tr) ≤ 3)%nat;
  tk_fallback : (n_fallback (tally_of tr) ≤ 1)%nat;
  tk_repair : n_repair (tally_of tr) = 0;
  tk_same : same_task t r.2;
  tk_outcome : match r.1 with Some ok => ok = true ↔ t_status r.2 = TaskStatusDone | None => r.2 = t end
}.

Lemma same_task_refl t : same_task t t.
Proof. by repeat split. Qed.

Lemma task_goroutine_spec g ctx t :
  t_status t ≠ TaskStatusRunning →
  always (task_goroutine cfg c p prior g ctx t) (task_ran t).
Proof.
  intros Hr. unfold task_goroutine. apply always_plain; [solve [effects]|]. intros tr0 entered Hp.
  destruct entered.
  - eapply always_bind_inv; [by apply runImplementWithRetry_spec|]. intros tr1 r [[B1 B2 B3 B4 B5 B6 B7 B8 B9] _].
    apply always_ret. rewrite app_nil_r. change (Z.to_nat MaxAttempts) with 3 in *.
    split; simpl; tallies; rewrite ?Nat.add_0_l; try done; lia.
  - apply always_ret. split; tallies; simpl; try done; try lia.
Qed.

(** ** The group *)

Record team_ran (g : Group) (n : tally) (r : groupOutcome * Group) : Prop := {
  tm_slots : n_released n = n_taken n;
  tm_primary : (n_primary n ≤ 3 * length (g_tasks g))%nat;
  tm_fallback : (n_fallback n ≤ length (g_tasks g))%nat;
  tm_repair : (n_repair n ≤ 2)%nat;
  tm_key : g_id r.2 = g_id g ∧ g_dependsOn r.2 = g_dependsOn g;
  tm_tasks : Forall2 same_task (g_tasks g) (g_tasks r.2);
  tm_status : go_failed r.1 = false ↔ g_status r.2 = GroupStatusCompleted;
  tm_done : go_failed r.1 = false → ∀ i t', g_tasks r.2 !! i = Some t' →
    t_status t' = TaskStatusDone ∨ g_tasks g !! i = Some t'
}.

(** What a group needs on the way in. *)
Record group_ready (g : Group) : Prop := {
  gr_ids : NoDup (t_id <$> g_tasks g);
  gr_tasks : ∀ t, t ∈ g_tasks g → t_status t ≠ TaskStatusRunning;
  gr_builds : (0 <= g_buildAttempts g)%Z;
  gr_status : g_status g ≠ GroupStatusCompleted
}.

Lemma tasks_ran ts trs rs :
  Forall3 task_ran ts trs rs →
  n_released (tsum (tally_of <$> trs)) = n_taken (tsum (tally_of <$> trs)) ∧
  (n_primary (tsum (tally_of <$> trs)) ≤ 3 * length ts)%nat ∧
  (n_fallback (tsum (tally_of <$> trs)) ≤ length ts)%nat ∧
  n_repair (tsum (tally_of <$> trs)) = 0 ∧
  Forall2 same_task ts rs.*2 ∧
  (∀ i t', rs.*2 !! i = Some t' → (Some false, t') ∉ rs → t_status t' = TaskStatusDone ∨ ts !! i = Some t').
Proof.
  induction 1 as [|t tr r ts trs rs [H1 H2 H3 H4 H5 H6] _ (I1 & I2 & I3 & I4 & I5 & I6)]; [done|].
  rewrite !fmap_cons. cbn [tsum foldr]. fold (tsum (tally_of <$> trs)). unfold tadd.
  cbn [n_released n_taken n_primary n_fallback n_repair length].
  split_and!; [lia..|by constructor|]. intros [|i] t'; simpl.
  - intros [= <-] Hn. destruct r as [[[]|] t']; simpl in *.
    + left. by apply H6.
    + destruct Hn. by left.
    + right. by subst.
  - intros Hi Hn. apply I6; [done|]. intros Hin. apply Hn. by right.
Qed.

Lemma same_task_ids ts ts' : Forall2 same_task ts ts' → t_id <$> ts' = t_id <$> ts.
Proof. induction 1 as [|t t' ts ts' (He & _) _ IH]; [done|]. by rewrite !fmap_cons, He, IH. Qed.

Lemma team_failed g n g' :
  n = tzero → g_id g' = g_id g → g_dependsOn g' = g_dependsOn g → g_tasks g' = g_tasks g →
  g_status g' ≠ GroupStatusCompleted → team_ran g n (mkOutcome true 0, g').
Proof.
  intros -> Hi Hd Ht Hs. split; simpl; try done; try lia. rewrite Ht.
  apply Forall_Forall2_diag, Forall_forall. intros. apply same_task_refl.
Qed.

Lemma concludeGroup_spec ctx sess rs g n0 :
  group_ready g → g_status g = GroupStatusRunning →
  n_released n0 = n_taken n0 → (n_primary n0 ≤ 3 * length (g_tasks g))%nat →
  (n_fallback n0 ≤ length (g_tasks g))%nat → n_repair n0 = 0 →
  Forall2 same_task (g_tasks g) rs.*2 →
  (∀ i t', rs.*2 !! i = Some t' → (Some false, t') ∉ rs → t_status t' = TaskStatusDone ∨ g_tasks g !! i = Some t') →
  always (concludeGroup c ctx sess rs g) (λ tr r, team_ran g (tadd n0 (tally_of tr)) r).
Proof.
  intros [Hids _ Hb _] Hrun S1 S2 S3 S4 S5 S6. unfold concludeGroup.
  assert (Hnd : NoDup (t_id <$> rs.*2)) by by rewrite (same_task_ids _ _ S5).
  destruct (had_failure (outcomes_of rs)) eqn:Hf.
  - unfold Group_Fail. cbn [g_status g_with_tasks]. rewrite Hrun. simpl bool_decide. cbn [orb discard].
    apply always_bind, always_ret.
    do 2 (apply always_plain; [solve [effects]|]; intros ? ? ?). apply always_ret.
    tallies. by split; simpl; try done; try lia.
  - eapply always_bind_inv; [by apply gate_spec|].
    intros tr1 [v group1] ((k & Hk & Hn1) & Hv & G1 & G2 & G3 & G4 & G5 & G6).
    cbn [fst snd g_id g_dependsOn g_tasks g_status g_with_tasks] in Hv, G1, G2, G3, G4, G5, G6.
    assert (Hdone : ∀ i t', rs.*2 !! i = Some t' → t_status t' = TaskStatusDone ∨ g_tasks g !! i = Some t').
    { intros i t' Hi. apply S6; [done|]. by apply had_failure_false. }
    destruct v; [| |done].
    + unfold Group_Complete. rewrite G4, Hrun. cbn [bool_decide decide discard].
      apply always_bind, always_ret.
      do 2 (apply always_plain; [solve [effects]|]; intros ? ? ?). apply always_ret.
      tallies. rewrite Hn1. split; simpl; rewrite ?G3; try done; try lia.
    + unfold Group_Fail. rewrite G4, Hrun. cbn [bool_decide decide orb discard].
      apply always_bind, always_ret. apply always_plain; [solve [effects]|]. intros ? ? ?. apply always_ret.
      tallies. rewrite Hn1. split; simpl; rewrite ?G3; try done; try lia.
Qed.

Lemma runTeamLead_spec ctx g :
  group_ready g →
  always (runTeamLead cfg c p prior ctx g) (λ tr r, team_ran g (tally_of tr) r).
Proof.
  intros Hg. unfold runTeamLead, Group_Start. case_bool_decide as Hs.
  { apply always_ret. apply team_failed; try done. apply Hg. }
  apply always_plain; [solve [effects]|]. intros tr1 saved Hp1.
  destruct saved; [apply always_ret; apply team_failed; try done; by tallies|].
  apply always_plain; [solve [effects]|]. intros tr2 sess Hp2.
  destruct sess as [sess|]; [|apply always_ret; apply team_failed; try done; by tallies].
  apply always_plain; [solve [effects]|]. intros tr3 _ Hp3.
  eapply always_bind_inv.
  { apply (always_par APick _ task_ran). intros t Ht. by apply task_goroutine_spec, Hg. }
  intros tr4 rs (trs & Hts & Hsh). apply tally_shuffles in Hsh.
  apply tasks_ran in Hts as (S1 & S2 & S3 & S4 & S5 & S6). rewrite <-Hsh in *.
  eapply always_mono; [apply (concludeGroup_spec ctx sess rs (g_with_status GroupStatusRunning g) (tally_of tr4)); try done|].
  - destruct Hg. by split.
  - intros tr5 r Hr. replace (tally_of _) with (tadd (tally_of tr4) (tally_of tr5)) by by tallies.
    by destruct Hr.
Qed.
(** The session of a team lead is never marked running, so its outcome is always
    discarded. *)
Lemma team_lead_outcome_discarded g sess n b :
  s_status sess = SessPending →
  always (recordTeamLead c g sess n b) (λ tr _, ∃ u, Perf (AAuditDiscarded "teamLeadSess.RecordOutcome") u ∈ tr).
Proof.
  intros Hs. unfold recordTeamLead. apply always_bind, always_do. intros t. apply always_ret.
  unfold Session_RecordOutcome. rewrite bool_decide_eq_true_2 by (by rewrite Hs). cbn [discard].
  apply always_bind, always_bind, always_do. intros u. do 2 apply always_ret. intros tr v _. exists u.
  apply elem_of_app. right. apply elem_of_app. left. apply elem_of_app. left. by left.
Qed.
End Lead.
