(* ===== verification/ApplyVerdict.v ===== *)
(** * All groups of the apply phase

    What the goroutines of a board spend together, that each group signals
    exactly once, what the final envelope says about the groups, and that a
    group which did not complete is never taken up again. *)
From S2P Require Import Prelude Ids Json Envelope PhaseDomain ChangeDomain ApplyDomain Session Discipline Store BoardStore Effects Concurrency PhaseHelpers ApplyInputs ApplyEffects ApplyBuild ApplyTeam ApplyRun ApplyLogic ApplyTask ApplyGroup.
From stdpp Require Import list.

(** ** Signals *)

(** What a team lead and its tasks do: no signal, no new breaker, no new
    coordinator. *)
Definition signal_free R (e : aeff R) : Prop :=
  match e with ASignal _ _ | AOpen _ | ACoordinate _ => False | _ => True end.

Lemma signal_free_plain {A} (m : aprog A) : effects_in free_of_charge m → effects_in signal_free m.
Proof. apply effects_mono. by intros R []. Qed.

Lemma always_signal_free g {A} (m : aprog A) :
  effects_in signal_free m → always m (λ tr _, weigh (signal_of g) tr = 0).
Proof.
  induction m as [a|R e k IH]; intros Hm; [by apply always_ret|]. destruct Hm as [He Hk].
  apply always_do. intros r. eapply always_mono; [by apply IH|]. intros tr a Htr.
  rewrite weigh_cons, Htr. by destruct e.
Qed.

Lemma signal_free_act {R} (e : aeff R) : signal_free R e → effects_in signal_free (act e).
Proof. intros He. by split. Qed.

Create HintDb signals.
#[export] Hint Extern 1 (effects_in signal_free (act _)) => (apply signal_free_act; exact I) : effects.
#[export] Hint Extern 2 (effects_in signal_free _) => (apply signal_free_plain; solve [auto with effects]) : effects.

Section Free.
Context `{UlidLib} (cfg : RunConfig) (c : Change) (p : Phase) (prior : gmap string string).

Lemma free_acquire left n : effects_in signal_free (acquire_retries left n).
Proof. revert n. induction left; intros n; cbn [acquire_retries]; effects; auto. Qed.
Lemma free_acquire_all : effects_in signal_free acquireWithSaturationRetries.
Proof. apply free_acquire. Qed.
Hint Resolve free_acquire_all : effects.

Lemma free_dispatch m g t s ctx : effects_in signal_free (dispatchImplementWithOverride cfg c p prior m g t s ctx).
Proof. unfold dispatchImplementWithOverride. effects. Qed.
Hint Resolve free_dispatch : effects.
Lemma free_dispatchImplement g t s ctx : effects_in signal_free (dispatchImplement cfg c p prior g t s ctx).
Proof. apply free_dispatch. Qed.
Hint Resolve free_dispatchImplement : effects.

Lemma free_failfast q t : effects_in signal_free (quotaFailFast q t).
Proof. unfold quotaFailFast. effects. Qed.
Hint Resolve free_failfast : effects.
Lemma free_fallback q g t s ctx : effects_in signal_free (quotaFallback cfg c p prior q g t s ctx).
Proof. unfold quotaFallback. effects. Qed.
Hint Resolve free_fallback : effects.

Lemma free_attempts left g t s ctx : effects_in signal_free (implement_attempts cfg c p prior left g t s ctx).
Proof. revert t s. induction left as [|left IH]; intros t s; cbn [implement_attempts]; effects; apply IH. Qed.
Hint Resolve free_attempts : effects.
Lemma free_run g ctx t : effects_in signal_free (runImplementWithRetry cfg c p prior g ctx t).
Proof. unfold runImplementWithRetry. effects. Qed.
Hint Resolve free_run : effects.
Lemma free_goroutine g ctx t : effects_in signal_free (task_goroutine cfg c p prior g ctx t).
Proof. unfold task_goroutine. effects. Qed.

Lemma free_repair g prompt : effects_in signal_free (dispatchBuildRepair g prompt).
Proof. unfold dispatchBuildRepair. effects. Qed.
Hint Resolve free_repair : effects.
Lemma free_build fuel plan ctx g : effects_in signal_free (build_loop fuel plan ctx g).
Proof. revert g. induction fuel as [|fuel IH]; intros g; cbn [build_loop]; effects; apply IH. Qed.
Hint Resolve free_build : effects.
Lemma free_gate ctx g : effects_in signal_free (runGroupBuildFeedbackLoop ctx g).
Proof. unfold runGroupBuildFeedbackLoop. effects. Qed.
Hint Resolve free_gate : effects.
Lemma free_conclude ctx s rs g : effects_in signal_free (concludeGroup c ctx s rs g).
Proof. unfold concludeGroup. effects. Qed.
Hint Resolve free_conclude : effects.

Lemma free_team ctx g : effects_in signal_free (runTeamLead cfg c p prior ctx g).
Proof.
  unfold runTeamLead. effects. apply effects_par; [exact I|]. apply Forall_fmap, Forall_forall.
  intros t _. apply free_goroutine.
Qed.
End Free.
#[export] Hint Resolve free_acquire_all free_team : effects.

(** ** Waiting *)

(** The result of group [d] was received. *)
Definition heard (tr : trace) (d : GroupID) (failed : bool) : Prop :=
  Perf (AReceive d) (RecvResult failed) ∈ tr.

Lemma heard_app_l tr1 tr2 d f : heard tr1 d f → heard (tr1 ++ tr2) d f.
Proof. intros H. apply elem_of_app. by left. Qed.

(** What the group knows of its dependencies when it goes on. *)
Definition informed (deps : list GroupID) (tr : trace) : Prop :=
  (∀ d, d ∈ deps → heard tr d false) ∨ (∃ d, d ∈ deps ∧ heard tr d true).

Lemma informed_app deps tr1 tr2 : informed deps tr1 → informed deps (tr1 ++ tr2).
Proof.
  intros [H|(d & Hd & H)]; [left; intros; by apply heard_app_l, H|right; exists d; split; [done|by apply heard_app_l]].
Qed.

Lemma Wait_spec deps :
  always (Wait deps) (λ tr w, tally_of tr = tzero ∧ (∀ g, g ∉ deps → weigh (signal_of g) tr = 0) ∧
                              (w ≠ WaitErr → informed deps tr)).
Proof.
  induction deps as [|d deps IH]; cbn [Wait].
  { apply always_ret. split_and!; [done..|]. intros _. left. by intros d ?%elem_of_nil. }
  apply always_bind, always_do. intros r. apply always_ret.
  destruct r as [|failed| |]; try (apply always_ret; by split_and!).
  apply always_bind, always_do. intros u. apply always_ret. destruct u.
  assert (Hsig : ∀ g, g ∉ d :: deps → signal_of g (Perf (ASignal d failed) tt) = 0).
  { intros g Hg. simpl. rewrite bool_decide_eq_false_2; [done|]. intros ->. apply Hg. by left. }
  destruct failed.
  - apply always_ret. split_and!.
    + by tallies.
    + intros g Hg. rewrite app_nil_r, weigh_app, !weigh_cons, Hsig by done. done.
    + intros _. right. exists d. split; [by left|]. by left.
  - eapply always_mono; [apply IH|]. intros tr w (Hn & Hs & Hi). split_and!.
    + tallies. by rewrite Hn.
    + intros g Hg. rewrite weigh_app, weigh_app, !weigh_cons, Hsig by done. simpl.
      apply Hs. intros Hin. apply Hg. by right.
    + intros Hw. destruct (Hi Hw) as [Hall|(d' & Hd' & Hf)].
      * left. intros d' [->|Hd']%elem_of_cons; [by left|]. right. right. by apply Hall.
      * right. exists d'. split; [by right|]. right. by right.
Qed.

(** A dependency that failed ends the waiting: the dependencies after it are not
    looked at, and may still be running when the group goes on. *)
Lemma Wait_stops_at_failure d deps :
  behaves (Wait (d :: deps)) [Perf (AReceive d) (RecvResult true); Perf (ASignal d true) tt] (WaitGroupFailed d).
Proof. exists (RecvResult true), [Perf (ASignal d true) tt]. split; [done|]. exists tt, []. done. Qed.

(** ** The goroutine of a group *)

(** A group as the database stores it. *)
Record group_sound (g : Group) : Prop := {
  gs_ids : NoDup (t_id <$> g_tasks g);
  gs_tasks : ∀ t, t ∈ g_tasks g → t_status t ≠ TaskStatusRunning;
  gs_builds : (0 <= g_buildAttempts g)%Z;
  gs_acyclic : g_id g ∉ g_dependsOn g
}.

Record group_ran (g : Group) (tr : trace) (r : option groupOutcome * Group) : Prop := {
  gn_slots : n_released (tally_of tr) = n_taken (tally_of tr);
  gn_primary : (n_primary (tally_of tr) ≤ 3 * length (g_tasks g))%nat;
  gn_fallback : (n_fallback (tally_of tr) ≤ length (g_tasks g))%nat;
  gn_repair : (n_repair (tally_of tr) ≤ 2)%nat;
  gn_signal : weigh (signal_of (g_id g)) tr = 1;
  gn_key : g_id r.2 = g_id g ∧ g_dependsOn r.2 = g_dependsOn g;
  gn_tasks : Forall2 same_task (g_tasks g) (g_tasks r.2);
  gn_outcome : match r.1 with
               | Some o => go_failed o = false ↔ g_status r.2 = GroupStatusCompleted
               | None => r.2 = g ∧ tally_of tr = tzero
               end;
  gn_done : ∀ o, r.1 = Some o → go_failed o = false → ∀ i t', g_tasks r.2 !! i = Some t' →
    t_status t' = TaskStatusDone ∨ g_tasks g !! i = Some t';
  gn_order : tally_of tr = tzero ∨
    ∃ tr1 tr2, tr = tr1 ++ tr2 ∧ tally_of tr1 = tzero ∧ informed (g_dependsOn g) tr1
}.

Section Groups.
Context `{UlidLib} (cfg : RunConfig) (c : Change) (p : Phase) (prior : gmap string string).

(** A goroutine that only signals. *)
Lemma group_idle g tr o :
  tally_of tr = tzero → weigh (signal_of (g_id g)) tr = 1 →
  match o with
  | Some o => go_failed o = false ↔ g_status g = GroupStatusCompleted
  | None => True
  end →
  group_ran g tr (o, g).
Proof.
  intros Hn Hs Ho. split; simpl; rewrite ?Hn; simpl; try done; try lia.
  - apply Forall_Forall2_diag, Forall_forall. intros. apply same_task_refl.
  - by destruct o.
  - intros. by right.
  - by left.
Qed.

Lemma signal_own g f : weigh (signal_of g) [Perf (ASignal g f) tt] = 1.
Proof. unfold weigh. simpl. by rewrite bool_decide_eq_true_2. Qed.

(** After the dependencies: [tr0] is what waiting for them took. *)
Lemma enterGroup_spec ctx g tr0 :
  group_ready g → tally_of tr0 = tzero → weigh (signal_of (g_id g)) tr0 = 0 →
  informed (g_dependsOn g) tr0 →
  always (enterGroup cfg c p prior ctx g) (λ tr r, group_ran g (tr0 ++ tr) r).
Proof.
  intros Hg Hn0 Hs0 Hi. pose proof (gr_status _ Hg) as Hst. unfold enterGroup.
  apply always_plain; [solve [effects]|]. intros tr1 entered Hp1.
  assert (Hs1 : weigh (signal_of (g_id g)) tr1 = 0) by by apply plain_no_signal.
  destruct entered; cbn [negb].
  2: { apply always_bind, always_do. intros u. do 2 apply always_ret. destruct u.
       apply group_idle; [tallies; by rewrite Hn0|by rewrite ?app_nil_r, !weigh_app, Hs0, Hs1, signal_own|done]. }
  eapply always_bind_inv.
  { apply always_and; [apply acquire_spec|apply (always_signal_free (g_id g)), free_acquire_all]. }
  intros tr2 acquired [Hn2 Hs2]. destruct acquired; cbn [negb].
  2: { apply always_bind, always_do. intros u. do 2 apply always_ret. destruct u.
       apply group_idle; [tallies; by rewrite Hn0, Hn2| |split; [done|intros; by destruct Hst]].
       by rewrite ?app_nil_r, !weigh_app, Hs0, Hs1, Hs2, signal_own. }
  eapply always_bind_inv.
  { apply always_and; [by apply runTeamLead_spec|apply (always_signal_free (g_id g)), free_team]. }
  intros tr3 r [[T1 T2 T3 T4 T5 T6 T7 T8] Hs3].
  apply always_bind, always_do. intros rel. apply always_ret.
  apply always_bind, always_do. intros u. apply always_ret. destruct u.
  apply always_plain; [destruct (go_failed r.1); solve [effects]|]. intros tr6 _ Hp6. apply always_ret.
  split; cbn [fst snd]; try done.
  - tallies. rewrite Hn0, Hn2. simpl. lia.
  - tallies. rewrite Hn0, Hn2. simpl. lia.
  - tallies. rewrite Hn0, Hn2. simpl. lia.
  - tallies. rewrite Hn0, Hn2. simpl. lia.
  - rewrite !weigh_app, Hs0, Hs1, Hs2, Hs3, signal_own, (plain_no_signal _ _ Hp6). done.
  - by intros o [= <-].
  - right. by eexists tr0, _.
Qed.

Lemma group_goroutine_spec ctx g :
  group_sound g → always (group_goroutine cfg c p prior ctx g) (group_ran g).
Proof.
  intros [Hids Hts Hb Hac]. unfold group_goroutine. case_bool_decide as Hst.
  { apply always_bind, always_do. intros u. do 2 apply always_ret. destruct u.
    by apply group_idle; [tallies|rewrite ?app_nil_r, signal_own|]. }
  eapply always_bind_inv; [apply Wait_spec|]. intros tr0 w (Hn0 & Hs0 & Hi).
  specialize (Hs0 _ Hac). destruct w as [|dep|].
  - by apply enterGroup_spec; [split|..|apply Hi].
  - apply always_plain; [solve [effects]|]. intros tr1 _ Hp1.
    eapply always_mono; [apply (enterGroup_spec ctx g (tr0 ++ tr1)); try by split|].
    + tallies. by rewrite Hn0.
    + by rewrite weigh_app, Hs0, plain_no_signal.
    + by apply informed_app, Hi.
    + intros tr r Hr. by rewrite app_assoc.
  - apply always_bind, always_do. intros u. apply always_ret. destruct u.
    apply always_plain; [solve [effects]|]. intros tr1 _ Hp1. apply always_ret. apply group_idle.
    + tallies. by rewrite Hn0.
    + by rewrite ?app_nil_r, !weigh_app, Hs0, signal_own, (plain_no_signal _ _ Hp1).
    + split; [done|]. intros. by destruct Hst.
Qed.
End Groups.

(** ** All groups *)

Record board_ran (gs : list Group) (tr : trace) (results : gmap GroupID groupOutcome) (gs' : list Group) : Prop := {
  br_slots : n_released (tally_of tr) = n_taken (tally_of tr);
  br_primary : (n_primary (tally_of tr) ≤ 3 * tasks_total gs)%nat;
  br_fallback : (n_fallback (tally_of tr) ≤ tasks_total gs)%nat;
  br_repair : (n_repair (tally_of tr) ≤ 2 * length gs)%nat;
  br_signal : ∀ g, g ∈ gs → (1 ≤ weigh (signal_of (g_id g)) tr)%nat;
  br_groups : Forall2 (λ g g', g_id g' = g_id g ∧ g_dependsOn g' = g_dependsOn g ∧
                               Forall2 same_task (g_tasks g) (g_tasks g')) gs gs';
  br_outcomes : ∀ i g g', gs !! i = Some g → gs' !! i = Some g' →
    match results !! g_id g with
    | None => g' = g
    | Some o =>
        (go_failed o = false ↔ g_status g' = GroupStatusCompleted) ∧
        (go_failed o = false → ∀ j t', g_tasks g' !! j = Some t' →
           t_status t' = TaskStatusDone ∨ g_tasks g !! j = Some t')
    end
}.

Lemma groups_ran gs trs rs :
  Forall3 group_ran gs trs rs →
  n_released (tsum (tally_of <$> trs)) = n_taken (tsum (tally_of <$> trs)) ∧
  (n_primary (tsum (tally_of <$> trs)) ≤ 3 * tasks_total gs)%nat ∧
  (n_fallback (tsum (tally_of <$> trs)) ≤ tasks_total gs)%nat ∧
  (n_repair (tsum (tally_of <$> trs)) ≤ 2 * length gs)%nat ∧
  (∀ g, g ∈ gs → (1 ≤ sum_list_with (weigh (signal_of (g_id g))) trs)%nat) ∧
  Forall2 (λ g g', g_id g' = g_id g ∧ g_dependsOn g' = g_dependsOn g ∧
                   Forall2 same_task (g_tasks g) (g_tasks g')) gs rs.*2.
Proof.
  induction 1 as [|g tr r gs trs rs [H1 H2 H3 H4 H5 [H6 H6'] H7 _ _ _] _ (I1 & I2 & I3 & I4 & I5 & I6)].
  { split_and!; try done. by intros g ?%elem_of_nil. }
  rewrite !fmap_cons. cbn [tsum foldr]. fold (tsum (tally_of <$> trs)). unfold tadd.
  cbn [n_released n_taken n_primary n_fallback n_repair length tasks_total sum_list_with].
  fold (tasks_total gs). split_and!; [lia..| |by constructor].
  intros g' [->|Hg']%elem_of_cons; [lia|]. specialize (I5 _ Hg'). lia.
Qed.

Lemma run_outcomes gs trs rs :
  Forall3 group_ran gs trs rs → NoDup (g_id <$> gs) →
  ∀ i g g', gs !! i = Some g → rs.*2 !! i = Some g' →
    match results_of rs !! g_id g with
    | None => g' = g
    | Some o =>
        (go_failed o = false ↔ g_status g' = GroupStatusCompleted) ∧
        (go_failed o = false → ∀ j t', g_tasks g' !! j = Some t' →
           t_status t' = TaskStatusDone ∨ g_tasks g !! j = Some t')
    end.
Proof.
  intros Hr Hnd. assert (Hids : g_id <$> rs.*2 = g_id <$> gs).
  { clear Hnd. induction Hr as [|g tr r gs trs rs [_ _ _ _ _ [H _] _ _ _ _] _ IH]; [done|].
    by rewrite !fmap_cons, H, IH. }
  intros i g g' Hg Hg'. rewrite list_lookup_fmap in Hg'. destruct (rs !! i) as [[o x]|] eqn:Hi; [|done].
  simpl in Hg'. injection Hg' as ->.
  destruct (Forall3_lookup_l _ _ _ _ _ _ Hr Hg) as (tr & r & _ & Hri & Hran). simplify_eq.
  destruct Hran as [_ _ _ _ _ [Hid _] _ Ho Hd _]. simpl in Hid, Ho, Hd. rewrite <-Hid.
  unfold results_of. rewrite (collect_lookup g_id rs o g'); [|by rewrite Hids|by eapply list_elem_of_lookup_2].
  destruct o as [o|]; [|by destruct Ho]. split; [done|]. by apply Hd.
Qed.

Section Board.
Context `{UlidLib} (cfg : RunConfig) (c : Change) (p : Phase) (prior : gmap string string).

Lemma runAllGroups_spec ctx board :
  NoDup (g_id <$> b_groups board) → Forall group_sound (b_groups board) →
  always (runAllGroups cfg c p prior ctx board)
    (λ tr r, board_ran (b_groups board) tr r.1.1 (b_groups r.1.2) ∧
             b_id r.1.2 = b_id board ∧ b_status r.1.2 = b_status board).
Proof.
  intros Hnd Hs. rewrite Forall_forall in Hs. unfold runAllGroups.
  eapply always_bind_inv.
  { apply (always_par APick _ group_ran). intros g Hg. by apply group_goroutine_spec, Hs. }
  intros tr rs (trs & Hts & Hsh). apply always_plain; [solve [effects]|]. intros tr2 tripped Hp2.
  apply always_ret. pose proof (tally_shuffles _ _ Hsh) as Htl.
  pose proof (groups_ran _ _ _ Hts) as (S1 & S2 & S3 & S4 & S5 & S6). rewrite <-Htl in *.
  split; [|done]. rewrite app_nil_r. simpl. split; tallies; rewrite ?tadd_zero_r; try done.
  - intros g Hg. rewrite weigh_app, (weigh_shuffles APick _ _ _ (λ _, eq_refl) Hsh). specialize (S5 g Hg). lia.
  - by eapply run_outcomes.
Qed.

(** C9: (the apply phase is accounted for) on a board whose groups have distinct
    identifiers, do not depend on themselves, have not built a negative number of
    times, and hold distinct tasks none of which is marked running in memory:
    whatever the collaborators answer and however the goroutines of groups and
    tasks interleave, Release is called exactly once for every spawn slot that
    was taken, so the slots taken are those given back (Release answered without
    an error) and those kept (Release answered with one: nothing calls it again,
    the slot stays taken); at most three agents per task are dispatched, the
    fallback model at most once per task, and at most two build repairs per
    group; every group signals its end, so no dependent waits for nothing; and
    the groups that come back are the groups that went in, with the same
    tasks. *)
Theorem apply_run_is_accounted ctx board :
  NoDup (g_id <$> b_groups board) → Forall group_sound (b_groups board) →
  always (runAllGroups cfg c p prior ctx board)
    (λ tr r, let n := tally_of tr in
       n_released n = n_taken n ∧ n_taken n = (weigh slot_returned tr + weigh slot_kept tr)%nat ∧
       (n_primary n ≤ 3 * tasks_total (b_groups board))%nat ∧
       (n_fallback n ≤ tasks_total (b_groups board))%nat ∧
       (n_repair n ≤ 2 * length (b_groups board))%nat ∧
       (∀ g, g ∈ b_groups board → (1 ≤ weigh (signal_of (g_id g)) tr)%nat) ∧
       Forall2 (λ g g', g_id g' = g_id g ∧ g_dependsOn g' = g_dependsOn g ∧
                        Forall2 same_task (g_tasks g) (g_tasks g'))
         (b_groups board) (b_groups r.1.2)).
Proof.
  intros Hnd Hs. eapply always_mono; [by apply runAllGroups_spec|].
  intros tr r [[H1 H2 H3 H4 H5 H6 _] _]. split_and!; try done. by rewrite <-H1, n_released_calls.
Qed.

(** ** The verdict *)

Lemma failed_groups_zero results gs :
  failed_groups results gs = 0 ↔ ∀ g, g ∈ gs → go_failed (outcome_of results g) = false.
Proof.
  unfold failed_groups. rewrite length_zero_iff_nil. split.
  - intros Hn g Hg. destruct (go_failed _) eqn:Hf; [|done].
    assert (Hin : g ∈ filter (λ g, go_failed (outcome_of results g) = true) gs) by by apply list_elem_of_filter.
    rewrite Hn in Hin. by apply elem_of_nil in Hin.
  - intros Hall. destruct (filter _ _) as [|g l] eqn:Hf; [done|].
    assert (Hin : g ∈ filter (λ g, go_failed (outcome_of results g) = true) gs) by (rewrite Hf; by left).
    apply list_elem_of_filter in Hin as [Ht Hg]. by rewrite Hall in Ht.
Qed.

Lemma final_status results gs :
  e_Status (final_envelope c results gs) =
    if bool_decide (Forall (λ g, go_failed (outcome_of results g) = false) gs) then StatusDone else StatusBlocked.
Proof.
  simpl. case_bool_decide as Hd; destruct (Nat.eqb_spec (failed_groups results gs) 0) as [H0|H0]; simpl; try done.
  - destruct H0. rewrite Forall_forall in Hd. by apply failed_groups_zero.
  - destruct Hd. rewrite Forall_forall. by apply failed_groups_zero.
Qed.


(** What a goroutine does that only waits, takes a slot, gives it back and
    reports: no agent, no command, no row. *)
Definition idle_effect R (e : aeff R) : Prop :=
  match e with
  | AReceive _ | ASignal _ _ | AEnter | AAcquire | ASleep _ | ARelease | APublish _ => True
  | _ => False
  end.

Definition idle (tr : trace) : Prop := Forall (λ x, match x with Perf e _ => idle_effect _ e end) tr.

Lemma effects_idle {A} (m : aprog A) : effects_in idle_effect m → always m (λ tr _, idle tr).
Proof.
  induction m as [a|R e k IH]; intros Hm; [by apply always_ret; constructor|].
  destruct Hm as [He Hk]. apply always_do. intros r. eapply always_mono; [by apply IH|].
  intros tr a Htr. by constructor.
Qed.

Lemma idle_acquire left n : effects_in idle_effect (acquire_retries left n).
Proof.
  revert n. induction left as [|left IH]; intros n; cbn [acquire_retries]; [exact I|].
  split; [exact I|]. intros []; simpl; auto. split; [exact I|]. intros []; simpl; auto.
Qed.

Lemma idle_Wait deps : effects_in idle_effect (Wait deps).
Proof.
  induction deps as [|d deps IH]; cbn [Wait]; [exact I|]. split; [exact I|].
  intros [|[]| |]; simpl; auto.
Qed.

(** What such a goroutine ends with. *)
Definition refused (g : Group) (tr : trace) (r : option groupOutcome * Group) : Prop :=
  r.2 = g ∧ Perf (ASignal (g_id g) true) tt ∈ tr ∧
  ((∃ n, r.1 = Some (mkOutcome true n)) ∨ (r.1 = None ∧ Perf AEnter false ∈ tr)).

Lemma refused_app g tr1 tr2 r : refused g tr2 r → refused g (tr1 ++ tr2) r.
Proof.
  intros (H1 & H2 & H3). split_and!; [done|set_solver|]. destruct H3 as [?|[? ?]]; [by left|right; set_solver].
Qed.

Lemma enterGroup_refuses ctx g :
  g_status g ≠ GroupStatusPending →
  effects_in idle_effect (enterGroup cfg c p prior ctx g) ∧
  always (enterGroup cfg c p prior ctx g) (refused g).
Proof.
  intros Hst. unfold enterGroup, runTeamLeadOf, runTeamLead, Group_Start. rewrite bool_decide_eq_true_2 by done.
  split.
  - apply effects_bind; [by split|]. intros []; cbn [negb]; [|by repeat split].
    apply effects_bind; [apply idle_acquire|]. intros []; cbn [negb]; by repeat split.
  - apply always_bind, always_do. intros entered. apply always_ret. destruct entered; cbn [negb].
    2: { apply always_bind, always_do. intros []. do 2 apply always_ret.
         split_and!; [done|set_solver|]. right. split; [done|set_solver]. }
    apply always_bind. intros tr1 acquired _. destruct acquired; cbn [negb].
    2: { apply always_bind, always_do. intros []. do 2 apply always_ret.
         split_and!; [done|set_solver|]. left. by exists 0. }
    apply always_bind, always_ret. apply always_bind, always_do. intros rel. apply always_ret.
    apply always_bind, always_do. intros []. apply always_ret.
    apply always_bind. intros tr2 u _. apply always_ret.
    split_and!; [done|set_solver|]. left. by exists 0.
Qed.

(** C14: (a group gets one chance) on a resumed board, a group that failed in an
    earlier run, or that a crash left running, is not taken up again: all its
    goroutine does is receive from its dependencies, wait for its turn, take a
    spawn slot, call Release and report (it dispatches no agent and no repair,
    runs no command, so no build, and writes no row); the group stays as it is;
    its dependents are signalled a failure; and its outcome is failed, or there
    is none, which happens only when the context ended before the group was
    entered. *)
Theorem unfinished_group_never_reruns ctx g :
  g_status g = GroupStatusFailed ∨ g_status g = GroupStatusRunning →
  always (group_goroutine cfg c p prior ctx g)
    (λ tr r, Forall (λ x, match x with Perf e _ => idle_effect _ e end) tr ∧
             r.2 = g ∧ Perf (ASignal (g_id g) true) tt ∈ tr ∧
             ((∃ n, r.1 = Some (mkOutcome true n)) ∨ (r.1 = None ∧ Perf AEnter false ∈ tr))).
Proof.
  intros Hst. apply always_and; [apply effects_idle|change (always (group_goroutine cfg c p prior ctx g) (refused g))];
    unfold group_goroutine; rewrite bool_decide_eq_false_2 by (destruct Hst; congruence);
    destruct (enterGroup_refuses ctx g ltac:(by destruct Hst; congruence)) as [He Hr].
  - apply effects_bind; [apply idle_Wait|]. intros [|dep|]; [done|by split|by repeat split].
  - apply always_bind. intros tr0 w _. destruct w as [|dep|].
    + eapply always_mono; [exact Hr|]. intros. by apply refused_app.
    + apply always_bind. intros tr1 u _. eapply always_mono; [exact Hr|]. intros. by do 2 apply refused_app.
    + apply always_bind, always_do. intros []. apply always_ret. apply always_bind. intros tr1 u _. apply always_ret.
      split_and!; [done|set_solver|]. left. by exists 0.
Qed.

(** ** The contract with the phase service *)

(** An envelope that completes a running apply phase. *)
Definition conforming (r : Envelope * option run_error) : Prop :=
  e_Phase r.1 = pt_string PhaseApply ∧ (e_Status r.1 = StatusDone ∨ e_Status r.1 = StatusBlocked) ∧
  (e_Status r.1 = StatusDone → e_Confidence r.1 = f64_0_85) ∧ (is_Some r.2 → e_Status r.1 = StatusBlocked).

Context `{ErrorTexts}.

Lemma conforming_failEnv reason e : conforming (failEnv c reason, e).
Proof. split_and!; [done|by right|done|done]. Qed.

Lemma conforming_final results gs : conforming (final_envelope c results gs, None).
Proof.
  unfold conforming. cbn [fst snd]. split_and!; [done| | |by intros []].
  - rewrite final_status. case_bool_decide; auto.
  - simpl. by destruct (negb _).
Qed.

Lemma finalize_conforms board results : always (finalize c board results) (λ _ env, conforming (env, None)).
Proof.
  unfold finalize. do 3 (apply always_bind; intros ? ? _). apply always_ret. apply conforming_final.
Qed.

Ltac conform :=
  repeat match goal with
  | |- always (Ret _) _ => apply always_ret
  | |- always (prog_bind (finalize _ _ _) _) _ =>
      eapply always_bind_inv; [apply finalize_conforms|]; intros ? ? Henv
  | |- always (prog_bind _ _) _ => apply always_bind; intros ? ? _
  | |- always (match ?x with _ => _ end) _ => destruct x
  | |- always (let '(_, _) := ?x in _) _ => destruct x
  | |- conforming _ => apply conforming_failEnv
  end.

Lemma Execute_conforms priorStatus : always (Execute cfg c p priorStatus) (λ _ r, conforming r).
Proof.
  unfold Execute, startBoard, runBoard, preflight_failure. conform; assumption.
Qed.
End Board.
