(* ===== verification/ApplyBreaker.v ===== *)
(** * The quota breaker refines its specification

    The specification of the breaker is a property of the history: it trips when
    [threshold] tasks in a row ended in an exhausted quota, with no success
    between them.  The implementation is a counter under a mutex. *)
From S2P Require Import Prelude Ids Json Envelope PhaseDomain ChangeDomain ApplyDomain Session Store BoardStore Effects Concurrency PhaseHelpers ApplyInputs ApplyEffects ApplyBuild ApplyTeam ApplyRun ApplyLogic ApplyVerdict.
From stdpp Require Import list.

(** ** Specification *)

(** The outcomes of a history, oldest first: [true] for an exhausted quota,
    [false] for a success; other endings of a task do not count. *)
Definition outcome (x : performed aeff) : option bool :=
  match x with
  | Perf e _ => match e with AQuotaOutcome _ => Some true | ASuccessOutcome => Some false | _ => None end
  end.
Definition outcomes (tr : list (performed aeff)) : list bool := omap outcome tr.

Definition consecutive (n : nat) (h : list bool) : Prop := ∃ h1 h2, h = h1 ++ replicate n true ++ h2.

(** ** Simulation *)

(** Length of the run of quotas at the end of a history. *)
Fixpoint run_of (h : list bool) : nat :=
  match h with true :: h' => S (run_of h') | _ => 0 end.
Definition trailing (h : list bool) : nat := run_of (reverse h).

Record simulates (th : nat) (h : list bool) (b : quotaBreaker) : Prop := {
  si_threshold : qb_threshold b = Z.of_nat th;
  si_tripped : qb_tripped b = true ↔ consecutive th h;
  si_streak : qb_tripped b = false → qb_streak b = Z.of_nat (trailing h)
}.

Lemma trailing_snoc h x : trailing (h ++ [x]) = if x then S (trailing h) else 0.
Proof. unfold trailing. rewrite reverse_app. by destruct x. Qed.

Lemma run_of_replicate h : ∃ h', h = replicate (run_of h) true ++ h'.
Proof.
  induction h as [|[] h (h' & IH)]; simpl; [by exists []| |by exists (false :: h)].
  exists h'. by rewrite IH at 1.
Qed.

Lemma trailing_replicate h : ∃ h', h = h' ++ replicate (trailing h) true.
Proof.
  unfold trailing. destruct (run_of_replicate (reverse h)) as (h' & Hh). exists (reverse h').
  apply (f_equal reverse) in Hh. rewrite reverse_involutive, reverse_app, reverse_replicate in Hh. exact Hh.
Qed.

Lemma run_of_prefix n h : (n ≤ run_of (replicate n true ++ h))%nat.
Proof. induction n; simpl; lia. Qed.

(** A run either was there before, or ends in the last outcome. *)
Lemma consecutive_snoc n h x :
  (0 < n)%nat → consecutive n (h ++ [x]) ↔ consecutive n h ∨ (n ≤ trailing (h ++ [x]))%nat.
Proof.
  intros Hn. split.
  - intros (h1 & h2 & Heq). destruct (decide (h2 = [])) as [->|Hne].
    + right. rewrite app_nil_r in Heq. rewrite Heq. unfold trailing.
      rewrite reverse_app, reverse_replicate. apply run_of_prefix.
    + left. destruct (exists_last Hne) as (h2' & y & ->). exists h1, h2'.
      rewrite !app_assoc in Heq. apply app_inj_tail in Heq as [-> _]. by rewrite app_assoc.
  - intros [(h1 & h2 & ->)|Ht].
    + exists h1, (h2 ++ [x]). by rewrite <-!app_assoc.
    + destruct (trailing_replicate (h ++ [x])) as (h' & Hh).
      exists (h' ++ replicate (trailing (h ++ [x]) - n) true), [].
      rewrite app_nil_r, <-app_assoc, <-replicate_add, Nat.sub_add by done. exact Hh.
Qed.

Lemma recordQuotaOutcome_simulates th h q b :
  (0 < th)%nat → simulates th h b →
  simulates th (h ++ [true]) (recordQuotaOutcome q b).2 ∧
  ((recordQuotaOutcome q b).1 = true ↔ ¬ consecutive th h ∧ consecutive th (h ++ [true])).
Proof.
  intros Hth [Ht Htr Hs]. unfold recordQuotaOutcome. destruct (qb_tripped b) eqn:Hb.
  - assert (Hc : consecutive th h) by by apply Htr.
    split; [|split; [done|by intros [? _]]].
    split; simpl; rewrite ?Hb; try done. split; [|done]. intros _. apply consecutive_snoc; auto.
  - assert (Hc : ¬ consecutive th h) by (intros Hc; apply Htr in Hc; done).
    specialize (Hs eq_refl). rewrite Ht, Hs.
    assert (Hnew : consecutive th (h ++ [true]) ↔ (Z.of_nat th <=? Z.of_nat (trailing h) + 1)%Z = true).
    { rewrite consecutive_snoc, trailing_snoc by done. rewrite Z.leb_le. split; [intros [?|?]; [done|lia]|right; lia]. }
    destruct (Z.of_nat th <=? _)%Z eqn:Hle; simpl.
    + split; [split; simpl|split; [|done]]; try done; by rewrite ?Hnew.
    + split; [split; simpl|split; [done|]]; try done.
      * intros _. rewrite trailing_snoc. lia.
      * intros [_ Hx]. by apply Hnew in Hx.
Qed.

Lemma recordSuccess_simulates th h b :
  (0 < th)%nat → simulates th h b → simulates th (h ++ [false]) (recordSuccess b).
Proof.
  intros Hth [Ht Htr Hs]. split; simpl; [done| |by rewrite trailing_snoc].
  rewrite Htr, consecutive_snoc, trailing_snoc by done. split; [auto|]. intros [?|?]; [done|lia].
Qed.

(** ** Programs *)

Lemma outcomes_cons x tr : outcomes (x :: tr) = outcomes [x] ++ outcomes tr.
Proof. unfold outcomes. simpl. by destruct (outcome x). Qed.

(** A breaker is opened once, at the start of [Execute]. *)
Definition no_open R (e : aeff R) : Prop := match e with AOpen _ => False | _ => True end.

(** The shared state agrees with the history [h]; [done0] says whether the
    context had been cancelled before. *)
Definition breaker_agrees (th : nat) (h : list bool) (w : aworld) : Prop :=
  simulates th h (aw_breaker w) ∧ aw_cancelled w = qb_tripped (aw_breaker w).

Lemma aperform_agrees E {R} (e : aeff R) th h w :
  (0 < th)%nat → no_open R e → breaker_agrees th h w →
  breaker_agrees th (h ++ outcomes [Perf e (aperform E e w).1]) (aperform E e w).2.
Proof.
  intros Hth Hno [Hs Hc]. unfold aperform, breaker_agrees.
  destruct e; simpl; rewrite ?app_nil_r; try (split; assumption); try done;
    try (destruct (awrite _ _ _); split; assumption).
  - destruct (ClaimTask t s (aw_db w)). destruct (ae_fault E (aw_tick w)); split; assumption.
  - destruct (recordQuotaOutcome q (aw_breaker w)) as [t b] eqn:Hq. simpl.
    pose proof (recordQuotaOutcome_simulates th h q _ Hth Hs) as [H1 _]. rewrite Hq in H1. split; [done|].
    unfold recordQuotaOutcome in Hq. rewrite Hc.
    destruct (qb_tripped (aw_breaker w)) eqn:Hb; [by simplify_eq|]. by destruct (_ <=? _)%Z; simplify_eq.
  - split; [by apply recordSuccess_simulates|done].
  - destruct (receive _ _ _ _). split; assumption.
Qed.

Lemma aexec_agrees E {A} (m : aprog A) th h w :
  (0 < th)%nat → effects_in no_open m → breaker_agrees th h w →
  ∃ tr, aw_log (aexec E m w).2 = reverse tr ++ aw_log w ∧
        breaker_agrees th (h ++ outcomes tr) (aexec E m w).2.
Proof.
  intros Hth. revert h w. induction m as [a|R e k IH]; intros h w Hm Ha.
  { exists []. by rewrite app_nil_r. }
  destruct Hm as [He Hk]. pose proof (aperform_agrees E e _ _ _ Hth He Ha) as Ha'.
  simpl. destruct (aperform E e w) as [r w'] eqn:Hp. simpl in Ha'.
  destruct (IH r _ _ (Hk r) Ha') as (tr & Hl & Hb). exists (Perf e r :: tr). split.
  - rewrite Hl, reverse_cons, <-app_assoc. f_equal. unfold aperform in Hp.
    destruct (ashared _ _ _ _). by simplify_eq.
  - rewrite <-app_assoc in Hb. by rewrite (outcomes_cons (Perf e r)).
Qed.

#[local] Hint Extern 1 (effects_in no_open (act _)) => (split; [exact I|done]) : effects.

Lemma no_open_signal_free {A} (m : aprog A) : effects_in signal_free m → effects_in no_open m.
Proof. apply effects_mono. by intros R []. Qed.
#[local] Hint Extern 2 (effects_in no_open _) => (apply no_open_signal_free; solve [auto with effects]) : effects.

Section Groups.
Context `{UlidLib} (cfg : RunConfig) (c : Change) (p : Phase) (prior : gmap string string).

Lemma no_open_Wait deps : effects_in no_open (Wait deps).
Proof. induction deps; cbn [Wait]; effects; done. Qed.
Hint Resolve no_open_Wait : effects.

Lemma no_open_enter ctx g : effects_in no_open (enterGroup cfg c p prior ctx g).
Proof. unfold enterGroup, runTeamLeadOf. effects. Qed.
Hint Resolve no_open_enter : effects.

Lemma no_open_group ctx g : effects_in no_open (group_goroutine cfg c p prior ctx g).
Proof. unfold group_goroutine. effects. Qed.

Lemma no_open_groups ctx gs : effects_in no_open (go_all (group_goroutine cfg c p prior ctx <$> gs)).
Proof.
  apply effects_par; [exact I|]. apply Forall_fmap, Forall_forall. intros g _. apply no_open_group.
Qed.

(** C11: (the breaker refines its specification) from a breaker that [Execute]
    has just opened with threshold [th], after any run of the groups (any answers
    of the collaborators, any interleaving of the goroutines, any faults): the
    phase is aborted exactly when [th] tasks in a row, in the order in which they
    ended, found the provider's quota exhausted with no success between them;
    and the breaker cancels the context exactly then. *)
Theorem breaker_refines_consecutive E th ctx board w :
  (0 < th)%nat → aw_breaker w = mkBreaker 0 (Z.of_nat th) false None → aw_cancelled w = false →
  aruns E (runAllGroups cfg c p prior ctx board)
    (λ r w', ∃ tr, aw_log w' = reverse tr ++ aw_log w ∧
       (r.2 = true ↔ consecutive th (outcomes tr)) ∧ (aw_cancelled w' = true ↔ consecutive th (outcomes tr))) w.
Proof.
  intros Hth Hb Hc. unfold aruns, runAllGroups. rewrite aexec_bind.
  assert (Ha : breaker_agrees th [] w).
  { split; [|by rewrite Hc, Hb]. rewrite Hb. split; simpl; [done| |done]. split; [done|].
    intros (h1 & h2 & Heq). destruct th; [lia|]. by destruct h1. }
  destruct (aexec_agrees E _ th [] w Hth (no_open_groups ctx (b_groups board)) Ha) as (tr & Hl & Hs & Hcan).
  destruct (aexec E (go_all _) w) as [rs w1]. simpl in *. exists (tr ++ [Perf ATripped (qb_tripped (aw_breaker w1))]).
  destruct Hs as [_ Ht _].
  assert (Ho : outcomes (tr ++ [Perf ATripped (qb_tripped (aw_breaker w1))]) = outcomes tr).
  { clear. induction tr as [|x tr IH]; [done|]. rewrite <-app_comm_cons, outcomes_cons, IH. by rewrite <-outcomes_cons. }
  rewrite Ho, Hcan, Hl. split; [by rewrite reverse_app|]. done.
Qed.
End Groups.
