(* ===== verification/ApplyBoard.v ===== *)
(** * The board built from the tasks list

    [buildBoard]: the board has the groups, dependencies and tasks of the list,
    its dependency graph is acyclic, and the tables hold it when the function
    returns. *)
From S2P Require Import Prelude Ids Json Envelope PhaseDomain ChangeDomain ApplyDomain ApplyDag Session Store BoardStore Effects Concurrency PhaseHelpers ApplyInputs ApplyEffects ApplyTeam ApplyRun.
From stdpp Require Import list.

(** ** What a board must be *)

Definition task_of_spec (gid : GroupID) (groupName : string) (ts : taskItemSpec) (t : Task) : Prop :=
  t = mkTask (t_id t) gid (ti_Description ts) (stripGroupPrefix groupName (ti_FilesPattern ts))
        TaskStatusPending None 0 None ∧
  ti_Description ts ≠ EmptyString ∧ stripGroupPrefix groupName (ti_FilesPattern ts) ≠ [].

Definition group_of_spec (bid : BoardID) (ids : gmap string GroupID) (gs : taskGroupSpec) (g : Group) : Prop :=
  ids !! tg_Name gs = Some (g_id g) ∧
  g = g_with_tasks (g_tasks g)
        (NewGroup (g_id g) bid (tg_Name gs) (omap (λ d, ids !! d) (tg_DependsOn gs))) ∧
  Forall2 (task_of_spec (g_id g) (tg_Name gs)) (tg_Tasks gs) (g_tasks g).

(** Every name of the list has an identifier. *)
Definition names_minted (ids : gmap string GroupID) (tl : tasksList) : Prop :=
  ∀ gs, gs ∈ tl → is_Some (ids !! tg_Name gs).

Record board_of_tasks (pid : PhaseID) (tl : tasksList) (b : Board) : Prop := {
  bo_phase : b_phaseID b = pid;
  bo_status : b_status b = BoardStatusBuilding;
  bo_groups : ∃ ids, Forall2 (group_of_spec (b_id b) ids) tl (b_groups b);
  bo_acyclic : NoDup (g_id <$> b_groups b) → ∀ x, ¬ tc (depends (b_groups b)) x x
}.

(** ** Running with tables that answer *)

Section Build.
Context `{UlidLib} (p : Phase) (E : aenv) (HE : ∀ n, ae_fault E n = NoFault).

(** Tables untouched by the effects that are not statements. *)
Lemma aruns_act {R B} (e : aeff R) (f : R → aprog B) Q w :
  aruns E (f (aperform E e w).1) Q (aperform E e w).2 → aruns E (prog_bind (act e) f) Q w.
Proof. intros HQ. apply aruns_bind. unfold aruns at 1, act. simpl. by destruct (aperform E e w). Qed.

Lemma aruns_ret {A} (a : A) (Q : A → aworld → Prop) w : Q a w → aruns E (Ret a) Q w.
Proof. done. Qed.

Lemma perform_newid w : aw_db (aperform E ANewID w).2 = aw_db w.
Proof. done. Qed.

Lemma perform_save {X} (save : X → board_db → result store_error board_db) (e : aeff (option store_error)) x w :
  (∀ s n, ashared E e n s = let '(r, d) := awrite (ae_fault E n) (save x (sh_db s)) (sh_db s) in (r, sh_with_db d s)) →
  (aperform E e w).1 = None → save x (aw_db w) = Ok (aw_db (aperform E e w).2).
Proof.
  intros Hsh. unfold aperform. rewrite Hsh, HE. simpl. by destruct (save x (aw_db w)).
Qed.

Lemma mint_groups_runs tl ids w :
  aruns E (mint_groups tl ids) (λ r w', aw_db w' = aw_db w ∧
    ∀ ids', r = Ok ids' → names_minted ids' tl ∧ dom ids ⊆ dom ids') w.
Proof.
  revert ids w. induction tl as [|gs tl IH]; intros ids w; cbn [mint_groups].
  { apply aruns_ret. split; [done|]. intros ? [= <-]. split; [by intros gs ?%elem_of_nil|done]. }
  apply aruns_act. destruct (ParseID GroupK _) as [gid|]; [|by apply aruns_ret].
  eapply aruns_mono; [apply IH|]. intros r w' [Hd Hr]. split; [by rewrite Hd|].
  intros ids' Hids. destruct (Hr _ Hids) as [Hm Hs]. split; [|set_solver].
  intros gs' [->|Hin]%elem_of_cons; [|auto]. apply elem_of_dom. set_solver.
Qed.

Lemma build_tasks_runs name specs g w :
  g_status g = GroupStatusPending →
  aruns E (build_tasks name specs g) (λ r w', aw_db w' = aw_db w ∧
    ∀ g', r = Ok g' → ∃ ts, g' = g_with_tasks (g_tasks g ++ ts) g ∧
      Forall2 (task_of_spec (g_id g) name) specs ts) w.
Proof.
  revert g w. induction specs as [|sp specs IH]; intros g w Hg; cbn [build_tasks].
  { apply aruns_ret. split; [done|]. intros ? [= <-]. exists []. rewrite app_nil_r. by destruct g. }
  apply aruns_act. destruct (ParseID TaskK _) as [tid|]; [|by apply aruns_ret].
  destruct (NewTask _ _ _ _) as [t|] eqn:Ht; [|by apply aruns_ret].
  unfold Group_AddTask. rewrite bool_decide_eq_false_2 by auto.
  eapply aruns_mono; [by apply IH|]. intros r w' [Hd Hr]. split; [by rewrite Hd|].
  intros g' Hg'. destruct (Hr _ Hg') as (ts & -> & Hts). exists (t :: ts). split.
  - simpl. by rewrite <-app_assoc.
  - constructor; [|done]. unfold NewTask in Ht. split_all. bool_facts. unfold str_empty in *. bool_facts. by repeat split.
Qed.

Lemma save_tasks_runs ts w :
  aruns E (save_tasks_of ts) (λ r w', r = None → save_all SaveTask ts (aw_db w) = Ok (aw_db w')) w.
Proof.
  revert w. induction ts as [|t ts IH]; intros w; cbn [save_tasks_of]; [by apply aruns_ret|].
  apply aruns_act. pose proof (perform_save SaveTask (ASaveTask t) t w (λ s n, eq_refl)) as Hp.
  destruct (aperform E (ASaveTask t) w) as [[e|] w1]; simpl in Hp; [by apply aruns_ret|].
  eapply aruns_mono; [apply IH|]. intros r w' Hr Hn. simpl. rewrite Hp by done. by apply Hr.
Qed.

Lemma save_all_app {A} (save : A → board_db → result store_error board_db) l1 l2 d d1 :
  save_all save l1 d = Ok d1 → save_all save (l1 ++ l2) d = save_all save l2 d1.
Proof.
  revert d. induction l1 as [|x l1 IH]; intros d; simpl; [by intros [= ->]|].
  destruct (save x d); [apply IH|done].
Qed.

Lemma build_groups_runs ids tl b d w :
  b_status b = BoardStatusBuilding → names_minted ids tl →
  save_all save_group_tree (b_groups b) d = Ok (aw_db w) →
  aruns E (build_groups ids tl b) (λ r w', ∀ b', r = Ok b' → ∃ gs,
    b' = mkBoard (b_id b) (b_phaseID b) BoardStatusBuilding (b_groups b ++ gs) ∧
    Forall2 (group_of_spec (b_id b) ids) tl gs ∧
    save_all save_group_tree (b_groups b') d = Ok (aw_db w') ∧
    (tl = [] ∨ ValidateDAG (b_groups b') = Some (Ok tt))) w.
Proof.
  revert b w. induction tl as [|sp tl IH]; intros b w Hb Hm Hd; cbn [build_groups].
  { apply aruns_ret. intros ? [= <-]. exists []. rewrite app_nil_r. split_and!; [by destruct b; simpl in *; subst|constructor|done|by left]. }
  apply aruns_bind. eapply aruns_mono; [by apply build_tasks_runs|]. intros r1 w1 [Hd1 Hr1].
  destruct r1 as [g|]; [|by apply aruns_ret]. destruct (Hr1 g eq_refl) as (ts & Hg & Hts). clear Hr1.
  unfold add_valid_group. destruct (ValidateDAG (b_groups b ++ [g])) as [[[]|]|] eqn:Hdag; [|by apply aruns_ret..].
  unfold Board_AddGroup. rewrite bool_decide_eq_false_2 by auto.
  apply aruns_act. pose proof (perform_save SaveGroup (ASaveGroup g) g w1 (λ s n, eq_refl)) as Hp.
  destruct (aperform E (ASaveGroup g) w1) as [[e|] w2]; simpl in Hp; [by apply aruns_ret|].
  specialize (Hp eq_refl). cbn [snd] in Hp. apply aruns_bind. eapply aruns_mono; [apply save_tasks_runs|].
  intros r3 w3 Hr3. destruct r3; [by apply aruns_ret|]. specialize (Hr3 eq_refl). cbn [snd] in Hr3.
  assert (Hsp : group_of_spec (b_id b) ids sp g).
  { destruct (Hm sp ltac:(by left)) as [gid Hgid]. subst g. unfold new_group. rewrite Hgid. simpl.
    split_and!; [done|done|]. unfold new_group in Hts. rewrite Hgid in Hts. exact Hts. }
  set (b1 := mkBoard (b_id b) (b_phaseID b) (b_status b) (b_groups b ++ [g])).
  assert (Hd3 : save_all save_group_tree (b_groups b1) d = Ok (aw_db w3)).
  { simpl. rewrite (save_all_app _ _ _ _ _ Hd). cbn [save_all]. unfold save_group_tree.
    rewrite <-Hd1, Hp, Hr3. done. }
  eapply aruns_mono; [apply (IH b1); [done|by intros x Hx; apply Hm; right|done]|].
  intros r w' Hr b' Hb'. destruct (Hr b' Hb') as (gs & -> & Hgs & Hsv & Hv). simpl in *.
  exists (g :: gs). rewrite <-app_assoc in *. split_and!; [done|by constructor|done|]. right.
  destruct Hv as [->|Hv]; [|done]. inversion Hgs. by subst.
Qed.

(** C12: (the board is what the tasks list says) when the statements of the
    database do not fail: if the phase has no board yet, a board that
    [buildBoard] returns has exactly the groups of the list in order, each with
    the identifier minted for its name (so two groups of one name share one
    identifier), the identifiers of the groups it depends on (unknown names
    dropped) and its tasks, pending and untried, with the group's prefix stripped
    from their file patterns; if the groups have distinct identifiers, no group
    depends, directly or through others, on itself; and the tables then hold that
    board, its groups and its tasks.  If the phase has a board, that board is
    returned and nothing is written. *)
Theorem buildBoard_follows_tasks tl w :
  aruns E (buildBoard p tl) (λ r w',
    match FindBoardByPhaseID (p_id p) (aw_db w) with
    | Ok b0 => r = Ok b0 ∧ aw_db w' = aw_db w
    | Err _ => ∀ b, r = Ok b →
        board_of_tasks (p_id p) tl b ∧ save_board_tree b (aw_db w) = Ok (aw_db w')
    end) w.
Proof.
  unfold buildBoard. apply aruns_act.
  assert (Hf : (aperform E (AFindBoard (p_id p)) w).1 = FindBoardByPhaseID (p_id p) (aw_db w)).
  { unfold aperform. simpl. by rewrite HE. }
  assert (Hdb : aw_db (aperform E (AFindBoard (p_id p)) w).2 = aw_db w) by done.
  destruct (aperform E (AFindBoard (p_id p)) w) as [f w0]. simpl in Hf, Hdb. subst f.
  destruct (FindBoardByPhaseID (p_id p) (aw_db w)) as [b0|e]; [by apply aruns_ret|].
  cbn [fst snd]. apply aruns_act. destruct (ParseID BoardK _) as [bid|]; [|by apply aruns_ret].
  set (w1 := (aperform E ANewID w0).2). apply aruns_act.
  pose proof (perform_save SaveBoard (ASaveBoard (NewBoard bid (p_id p))) (NewBoard bid (p_id p)) w1 (λ s n, eq_refl)) as Hp.
  destruct (aperform E (ASaveBoard _) w1) as [[x|] w2]; simpl in Hp; [by apply aruns_ret|].
  specialize (Hp eq_refl). cbn [snd] in Hp. apply aruns_bind. eapply aruns_mono; [apply mint_groups_runs|].
  intros r3 w3 [Hd3 Hm]. destruct r3 as [ids|]; [|by apply aruns_ret]. destruct (Hm _ eq_refl) as [Hids _].
  eapply aruns_mono; [apply (build_groups_runs ids tl (NewBoard bid (p_id p)) (aw_db w2)); [done|done|]|].
  - simpl. by rewrite Hd3.
  - intros r w' Hr b Hb. destruct (Hr b Hb) as (gs & -> & Hgs & Hsv & Hv). simpl in *. split.
    + split; simpl; [done|done|by exists ids|]. intros Hnd. apply (ValidateDAG_verdict gs Hnd).
      destruct Hv as [->|Hv]; [by inversion Hgs|done].
    + unfold save_board_tree. simpl. assert (He : SaveBoard (mkBoard bid (p_id p) BoardStatusBuilding gs) (aw_db w)
        = SaveBoard (NewBoard bid (p_id p)) (aw_db w)) by done.
      rewrite He, <-Hdb, Hp. exact Hsv.
Qed.
End Build.
