(* ===== verification/Logic.v ===== *)
(** * A program logic for handlers

    The history of the system is append-only, so what a handler has learned
    from it stays true whatever other handlers do in between.  [wp m Q L] says
    that program [m], started when the history contains [L], only ever performs
    effects that are justified by what is in the history at that point, and
    satisfies [Q] if it returns.  [sys_sound] carries the per-program fact to
    every interleaving, fault and crash. *)
From S2P Require Import Prelude Ids Json Envelope PhaseDomain ChangeDomain Session Outbox Store Effects PhaseHelpers.

Section Logic.
Context `{PgTypes} `{WireContract}.
(** Whether the outbox is wired. *)
Context (outbox_wired : bool).

Implicit Types (L : list entry) (p : Phase) (c : Change).

(** ** What the history may contain *)

(** A row that counts as finished carries the envelope it was derived from. *)
Definition accepted_row p : Prop :=
  AdvanceAllowed (p_status p) = true ∧
  ∃ e, p_envelope p = Some e ∧ e_Phase e = pt_string (p_type p) ∧
       complete_status (e_Status e) PhaseStatusRunning = p_status p.

Definition logged_phase L (cid : ChangeID) (pt : PhaseType) (P : Phase → Prop) : Prop :=
  ∃ p, InDb (WrotePhase p) ∈ L ∧ p_changeID p = cid ∧ p_type p = pt ∧ P p.

(** The phase [pt] of the change was persisted with an accepted envelope. *)
Definition accepted_in L cid pt : Prop := logged_phase L cid pt accepted_row.

(** The verify phase was persisted as DONE at its threshold. *)
Definition verified_in L cid : Prop :=
  logged_phase L cid PhaseVerify (λ p, p_status p = PhaseStatusDone ∧
                                      (ConfidenceThreshold PhaseVerify <= p_confidence p)%Q).

(** Every phase from explore up to [cur] was accepted. *)
Definition backed L (cid : ChangeID) (cur : PhaseType) : Prop :=
  ∃ n, phase_index cur = Some n ∧
       ∀ i pt, (1 <= i <= n)%nat → AllPhaseTypes !! i = Some pt → accepted_in L cid pt.

Definition permits (d : GovDecision) : Prop := d ≠ DecisionDeny ∧ d ≠ DecisionRequireApproval.
Definition governed L (pid : PhaseID) : Prop := ∃ d, Governed pid d ∈ L ∧ permits d.

Definition gated L (pid : PhaseID) : Prop :=
  InDb (WroteAudit (Some pid) EventApprovalRequired) ∈ L.

(** What a phase row must satisfy to be written when the history is [L]. *)
Definition phase_ok p L : Prop :=
  (AdvanceAllowed (p_status p) = true → accepted_row p) ∧
  (AdvanceAllowed (p_status p) = true → p_type p = PhaseArchive →
   verified_in L (p_changeID p)).

(** A change row. *)
Definition change_ok c L : Prop :=
  backed L (ch_id c) (ch_currentPhase c) ∧
  (ch_status c = StatusCompleted → ch_currentPhase c = PhaseArchive).

Definition enqueued c L : Prop :=
  ch_status c = StatusCompleted → outbox_wired = true →
  ∃ c' ev, ch_id c' = ch_id c ∧ InDb (WroteOutbox c' ev) ∈ L.

Definition audit_ok (pid : option PhaseID) (et : string) L : Prop :=
  et = EventApprovalResolved → ∃ id, pid = Some id ∧ gated L id.

(** A job may be scheduled. *)
Definition job_ok (j : job) L : Prop :=
  change_ok (j_change j) L ∧ p_changeID (j_phase j) = ch_id (j_change j).

Definition justified (e : entry) L : Prop :=
  match e with
  | InDb (WrotePhase p) => phase_ok p L
  | InDb (WroteChange c) => change_ok c L ∧ enqueued c L
  | InDb (WroteOutbox c ev) =>
      ch_status c = StatusCompleted ∧ change_ok c L ∧ ev_status ev = OutboxPending
  | InDb (WroteAudit pid et) => audit_ok pid et L
  | Dispatched pid => governed L pid
  | Executed _ pid => governed L pid
  | Scheduled j => job_ok j L
  | _ => True
  end.

Fixpoint Log_ok L : Prop :=
  match L with [] => True | e :: L' => justified e L' ∧ Log_ok L' end.

(** ** Monotonicity *)

Lemma logged_phase_mono L L' cid pt P : L ⊆ L' → logged_phase L cid pt P → logged_phase L' cid pt P.
Proof. intros Hs (p & Hp & Hr). exists p. split; [by apply Hs|done]. Qed.

Lemma backed_mono L L' cid cur : L ⊆ L' → backed L cid cur → backed L' cid cur.
Proof.
  intros Hs (n & Hn & Hb). exists n. split; [done|]. intros i pt Hi Hp.
  eapply logged_phase_mono; [done|]. by apply (Hb i).
Qed.

Lemma governed_mono L L' pid : L ⊆ L' → governed L pid → governed L' pid.
Proof. intros Hs (d & Hd & Hp). exists d. auto. Qed.

Lemma phase_ok_mono p L L' : L ⊆ L' → phase_ok p L → phase_ok p L'.
Proof. intros Hs [Ha Hv]. split; [done|]. intros. eapply logged_phase_mono; [done|by apply Hv]. Qed.

Lemma change_ok_mono c L L' : L ⊆ L' → change_ok c L → change_ok c L'.
Proof. intros Hs [Hb Hc]. split; [by eapply backed_mono|done]. Qed.

Lemma audit_ok_mono pid et L L' : L ⊆ L' → audit_ok pid et L → audit_ok pid et L'.
Proof. intros Hs Ha He. destruct (Ha He) as (id & -> & Hg). exists id. split; [done|by apply Hs]. Qed.

Lemma job_ok_mono j L L' : L ⊆ L' → job_ok j L → job_ok j L'.
Proof. intros Hs [Hc Hp]. split; [by eapply change_ok_mono|done]. Qed.

Lemma justified_mono e L L' : L ⊆ L' → justified e L → justified e L'.
Proof.
  intros Hs. destruct e as [[p|c|c ev|pid et]| | | | | |]; simpl; try done.
  - by apply phase_ok_mono.
  - intros [Hc He]. split; [by eapply change_ok_mono|]. intros Hst Hw.
    destruct (He Hst Hw) as (c' & ev & Hi & Hev). exists c', ev. auto.
  - intros (Hst & Hc & He). split_and!; [done|by eapply change_ok_mono|done].
  - by apply audit_ok_mono.
  - by apply governed_mono.
  - by apply governed_mono.
  - by apply job_ok_mono.
Qed.

(** Everything in a good history is justified by that history. *)
Lemma Log_ok_elem e L : Log_ok L → e ∈ L → justified e L.
Proof.
  induction L as [|e' L IH]; simpl; [by intros _ ?%elem_of_nil|].
  intros [Hj Hok] [->|Hin]%elem_of_cons.
  - eapply justified_mono; [|done]. set_solver.
  - eapply justified_mono; [|by apply IH]. set_solver.
Qed.

(** ** What an effect requires and what its answer teaches *)

Definition guard {R} (e : eff R) L : Prop :=
  match e with
  | Db (ChangeSave c) => change_ok c L ∧ enqueued c L
  | Db (PhaseSave p) => phase_ok p L
  | Db (AuditAppend pid et) => audit_ok pid et L
  | Db (OutboxSaveCompleted c ev) =>
      ch_status c = StatusCompleted ∧ change_ok c L ∧ ev_status ev = OutboxPending
  | Ext (Dispatch pid _ _) => governed L pid
  | Ext (ApplyExecute _ p _) => governed L (p_id p)
  | Ext (Schedule j) => job_ok j L
  | _ => True
  end.

(** [L] is the history after the effect. *)
Definition learned {R} (e : eff R) : R → list entry → Prop :=
  match e in eff R return R → list entry → Prop with
  | Db o =>
      match o in dbop R return R → list entry → Prop with
      | ChangeFindByID id => λ r L, ∀ c, r = Ok c → ch_id c = id ∧ InDb (WroteChange c) ∈ L
      | PhaseFindByID id => λ r L, ∀ p, r = Ok p → InDb (WrotePhase p) ∈ L
      | PhaseFindByChangeAndType cid pt => λ r L, ∀ p, r = Ok p →
          InDb (WrotePhase p) ∈ L ∧ p_changeID p = cid ∧ p_type p = pt
      | PhaseFindAllRunning => λ r L, ∀ ps, r = Ok ps →
          ∀ p, p ∈ ps → p_status p = PhaseStatusRunning ∧ InDb (WrotePhase p) ∈ L
      | PhaseSave p => λ r L, r = None →
          logged_phase L (p_changeID p) (p_type p)
            (λ row, p_status row = p_status p ∧ p_envelope row = stored_envelope <$> p_envelope p)
      | AuditHasEventForPhase pid et => λ r L, r = Ok true → InDb (WroteAudit (Some pid) et) ∈ L
      | _ => λ _ _, True
      end
  | Ext o =>
      match o in extop R return R → list entry → Prop with
      | EvaluatePhase _ pid _ _ => λ r L, ∀ d, r = Ok d → Governed pid d ∈ L
      | _ => λ _ _, True
      end
  end.

Fixpoint wp {A} (m : prog A) (Q : A → list entry → Prop) L : Prop :=
  match m with
  | Ret a => Q a L
  | Do e k => guard e L ∧
      ∀ r L', L ⊆ L' → Log_ok L' → learned e r L' → wp (k r) Q L'
  end.

Lemma guard_mono {R} (e : eff R) L L' : L ⊆ L' → guard e L → guard e L'.
Proof.
  intros Hs. destruct e as [? []|? []]; simpl; try done.
  - apply (justified_mono (InDb (WroteChange _))); done.
  - by apply phase_ok_mono.
  - by apply audit_ok_mono.
  - intros (Hst & Hc & He). split_and!; [done|by eapply change_ok_mono|done].
  - by apply governed_mono.
  - by apply governed_mono.
  - by apply job_ok_mono.
Qed.

Lemma wp_mono {A} (m : prog A) (Q Q' : A → list entry → Prop) L L' :
  L ⊆ L' → (∀ a L'', L ⊆ L'' → Q a L'' → Q' a L'') → wp m Q L →
  (∀ a L1 L2, L1 ⊆ L2 → Q a L1 → Q a L2) → wp m Q' L'.
Proof.
  revert L L'. induction m as [a|R e k IH]; intros L L' Hs HQ Hw Hm; simpl in *.
  - apply HQ; [done|]. by eapply Hm.
  - destruct Hw as [Hg Hk]. split; [by eapply guard_mono|].
    intros r L'' Hs' Hok Hl. eapply (IH r L'' L''); [done| |apply Hk|done].
    + intros a L3 Hs3. apply HQ. by do 2 (etrans; [done|]).
    + by etrans.
    + done.
    + done.
Qed.

Lemma wp_bind {A B} (m : prog A) (f : A → prog B) Q L :
  wp m (λ a L', wp (f a) Q L') L → wp (prog_bind m f) Q L.
Proof.
  revert L. induction m as [a|R e k IH]; intros L Hw; simpl in *; [done|].
  destruct Hw as [Hg Hk]. split; [done|]. eauto.
Qed.

(** Weaken the postcondition. *)
Lemma wp_conseq {A} (m : prog A) (Q Q' : A → list entry → Prop) L :
  wp m Q L → (∀ a L', L ⊆ L' → Q a L' → Q' a L') → wp m Q' L.
Proof.
  revert L. induction m as [a|R e k IH]; intros L Hw HQ; simpl in *; [by apply HQ|].
  destruct Hw as [Hg Hk]. split; [done|]. intros r L' Hs Hok Hl.
  apply (IH r L'); [by apply Hk|]. intros a L'' Hs'. apply HQ. by etrans.
Qed.

Lemma wp_bind_db {R A} (o : dbop R) (f : R → prog A) Q L :
  guard (Db o) L →
  (∀ r L', L ⊆ L' → Log_ok L' → learned (Db o) r L' → wp (f r) Q L') →
  wp (prog_bind (db o) f) Q L.
Proof. done. Qed.

Lemma wp_bind_ext {R A} (o : extop R) (f : R → prog A) Q L :
  guard (Ext o) L →
  (∀ r L', L ⊆ L' → Log_ok L' → learned (Ext o) r L' → wp (f r) Q L') →
  wp (prog_bind (ext o) f) Q L.
Proof. done. Qed.

(** Call a program whose specification is known. *)
Lemma wp_call {A B} (m : prog A) (f : A → prog B) (Q : A → list entry → Prop) Q' L :
  Log_ok L → wp m Q L →
  (∀ a L', L ⊆ L' → Log_ok L' → Q a L' → wp (f a) Q' L') →
  wp (prog_bind m f) Q' L.
Proof.
  revert L. induction m as [a|R e k IH]; intros L Hok Hw Hf; simpl in *; [by apply Hf|].
  destruct Hw as [Hg Hk]. split; [done|]. intros r L' Hs Hok' Hl.
  apply IH; [done|by apply Hk|]. intros a L'' Hs'. apply Hf. by etrans.
Qed.

(** A program without postcondition stays good as the history grows. *)
Definition wps (m : prog unit) L : Prop := wp m (λ _ _, True) L.

Lemma wps_mono m L L' : L ⊆ L' → wps m L → wps m L'.
Proof. intros Hs Hw. by eapply wp_mono. Qed.

(** ** The tables agree with the history *)

Record db_logged (d : DB) L : Prop := {
  dl_phases id p : t_phases d !! id = Some p → InDb (WrotePhase p) ∈ L;
  dl_changes id c : t_changes d !! id = Some c → ch_id c = id ∧ InDb (WroteChange c) ∈ L;
  dl_audit a : a ∈ t_audit d → InDb (WroteAudit (au_phase a) (au_type a)) ∈ L
}.

Lemma db_logged_mono d L L' : L ⊆ L' → db_logged d L → db_logged d L'.
Proof. intros Hs [Hp Hc Ha]. split; naive_solver. Qed.

(** ** One statement *)

(** Reads answer with logged rows. *)
Lemma best_elem {A} (f : A → A → bool) l x : best f l = Some x → x ∈ l.
Proof.
  revert x. induction l as [|y l IH]; intros x; simpl; [done|].
  destruct (best f l) as [z|]; [|intros [= <-]; set_solver].
  destruct (f z y); intros [= <-]; [|set_solver]. apply list_elem_of_further. by apply IH.
Qed.

Lemma rows_of_elem keep d p : p ∈ rows_of keep d → keep p = true ∧ ∃ id, t_phases d !! id = Some p.
Proof.
  unfold rows_of. rewrite list_elem_of_filter, list_elem_of_fmap.
  intros [Hk ([id q] & -> & Hq%elem_of_map_to_list)]. eauto.
Qed.

Lemma phase_latest_Ok cid pt d p :
  phase_latest cid pt d = Ok p →
  p_changeID p = cid ∧ p_type p = pt ∧ ∃ id, t_phases d !! id = Some p.
Proof.
  unfold phase_latest. destruct (best _ _) as [q|] eqn:Hb; [|done]. intros [= ->].
  apply best_elem, rows_of_elem in Hb as [Hk Hr]. by bool_facts.
Qed.

Lemma audit_has_true pid et d :
  audit_has pid et d = true → ∃ a, a ∈ t_audit d ∧ au_phase a = Some pid ∧ au_type a = et.
Proof.
  unfold audit_has. rewrite existsb_exists. intros (a & Ha & Hb). bool_facts.
  exists a. split; [|done]. by apply list_elem_of_In.
Qed.

Lemma phase_all_running_elem d p :
  p ∈ phase_all_running d → p_status p = PhaseStatusRunning ∧ ∃ id, t_phases d !! id = Some p.
Proof.
  unfold phase_all_running. rewrite sorting.merge_sort_Permutation.
  intros [Hk Hr]%rows_of_elem. by bool_facts.
Qed.

Lemma read_learned {R} (o : dbop R) d L :
  db_logged d L →
  match o with ChangeSave _ | PhaseSave _ => False | _ => True end →
  learned (Db o) (answer o d) L.
Proof.
  intros [Hp Hc Ha] Ho. destruct o; simpl; try done.
  - unfold change_find. intros c. destruct (t_changes d !! id) eqn:Hl; [|done].
    intros [= ->]. by apply Hc.
  - unfold phase_find. intros p. destruct (t_phases d !! id) eqn:Hl; [|done].
    intros [= ->]. by eapply Hp.
  - intros p (? & ? & id & Hid)%phase_latest_Ok. split_and!; [by eapply Hp|done|done].
  - intros ps [= <-] p (? & id & Hid)%phase_all_running_elem. split; [done|by eapply Hp].
  - intros [= (a & Hin & Hph & Het)%audit_has_true]. rewrite <-Hph, <-Het. by apply Ha.
Qed.

Lemma failed_learned {R} (o : dbop R) L : learned (Db o) (failed o) L.
Proof. by destruct o. Qed.

(** Writes log what they store. *)
Lemma same_attempt_true p r :
  same_attempt p r = true →
  p_changeID r = p_changeID p ∧ p_type r = p_type p ∧ p_attempts r = p_attempts p.
Proof. unfold same_attempt. intros Hs. bool_facts. by apply Z.eqb_eq in H2. Qed.

(** The row an upsert stores: identity columns of the row found, the rest from
    the argument. *)
Definition stored_as p row : Prop :=
  p_changeID row = p_changeID p ∧ p_type row = p_type p ∧
  p_status row = p_status p ∧ p_envelope row = stored_envelope <$> p_envelope p.

Lemma phase_upsert_Ok p d row d' :
  phase_upsert p d = Ok (row, d') →
  stored_as p row ∧ ∃ id, d' = with_phases (insert id row) d.
Proof.
  unfold phase_upsert. destruct (find_attempt p d) as [[id r]|] eqn:Hf.
  - intros [= <- <-]. apply find_some in Hf as [_ (Hc & Ht & _)%same_attempt_true].
    split; [by split_and!|eauto].
  - destruct (t_phases d !! p_id p); [done|]. destruct (t_changes d !! p_changeID p); [|done].
    intros [= <- <-]. split; [done|eauto].
Qed.

Lemma change_upsert_Ok c d L row d' :
  db_logged d L → change_upsert c d = Ok (row, d') →
  ch_id row = ch_id c ∧ ch_status row = ch_status c ∧ ch_currentPhase row = ch_currentPhase c ∧
  d' = with_changes (insert (ch_id c) row) d.
Proof.
  intros Hl. unfold change_upsert. destruct (t_changes d !! ch_id c) as [r|] eqn:Hr.
  - destruct (dl_changes _ _ Hl _ _ Hr) as [Hid _]. intros [= <- <-]. by rewrite <-Hid.
  - destruct (existsb _ _); [done|]. by intros [= <- <-].
Qed.

(** A finished row stays finished in the columns. *)
Lemma stored_accepted p row : stored_as p row → accepted_row p → accepted_row row.
Proof.
  intros (_ & Ht & Hs & He) (Ha & e & Hpe & Hph & Hst). split; [by rewrite Hs|].
  exists (stored_envelope e). rewrite He, Hpe, Ht, Hs, <-Hst. split_and!; [done|done|].
  cbn. rewrite env_status_of_string; [done|]. destruct (e_Status e); try done.
  cbn in Hst. by rewrite <-Hst in Ha.
Qed.

Lemma stored_phase_ok p row L : stored_as p row → phase_ok p L → phase_ok row L.
Proof.
  intros (Hc & Ht & Hs & He) [Ha Hv]. unfold phase_ok. rewrite Ht, Hc. split; [|by rewrite Hs].
  intros Hadv. rewrite Hs in Hadv. by eapply stored_accepted, Ha.
Qed.

Lemma stored_change_ok c row L :
  ch_id row = ch_id c → ch_status row = ch_status c → ch_currentPhase row = ch_currentPhase c →
  change_ok c L → change_ok row L.
Proof. intros Hi Hs Hp [Hb Hc]. unfold change_ok. by rewrite Hi, Hs, Hp. Qed.

Lemma db_logged_phase d L id row :
  db_logged d L →
  db_logged (with_phases (insert id row) d) (InDb (WrotePhase row) :: L).
Proof.
  intros [Hp Hc Ha]. split; simpl.
  - intros k p. destruct (decide (k = id)) as [->|Hne].
    + rewrite lookup_insert_eq. intros [= <-]. set_solver.
    + rewrite lookup_insert_ne by done. intros Hk. apply list_elem_of_further. by eapply Hp.
  - intros k c Hk. destruct (Hc k c Hk). split; [done|set_solver].
  - intros a Hin. apply list_elem_of_further. by apply Ha.
Qed.

Lemma db_logged_change d L row :
  db_logged d L →
  db_logged (with_changes (insert (ch_id row) row) d) (InDb (WroteChange row) :: L).
Proof.
  intros [Hp Hc Ha]. split; simpl.
  - intros k p Hk. apply list_elem_of_further. by eapply Hp.
  - intros k c. destruct (decide (k = ch_id row)) as [->|Hne].
    + rewrite lookup_insert_eq. intros [= <-]. split; [done|set_solver].
    + rewrite lookup_insert_ne by done. intros [Hid Hin]%Hc. split; [done|set_solver].
  - intros a Hin. apply list_elem_of_further. by apply Ha.
Qed.

Lemma db_logged_audit d L a :
  db_logged d L →
  db_logged (with_audit (cons a) d) (InDb (WroteAudit (au_phase a) (au_type a)) :: L).
Proof.
  intros [Hp Hc Ha]. split; simpl.
  - intros k p Hk. apply list_elem_of_further. by eapply Hp.
  - intros k c [Hid Hin]%Hc. split; [done|set_solver].
  - intros a' [->|Hin]%elem_of_cons; [set_solver|]. apply list_elem_of_further. by apply Ha.
Qed.

(** Tables that the history does not mention. *)
Lemma db_logged_same d d' L :
  t_phases d' = t_phases d → t_changes d' = t_changes d → t_audit d' = t_audit d →
  db_logged d L → db_logged d' L.
Proof. intros Hp Hc Ha [? ? ?]. split; rewrite ?Hp, ?Hc, ?Ha; done. Qed.

Definition saved_phase {R} (o : dbop R) : option Phase :=
  match o with PhaseSave p => Some p | _ => None end.

Lemma write_sound {R} (o : dbop R) d L es d' :
  Log_ok L → db_logged d L → guard (Db o) L → write_effect o d = Ok (es, d') →
  Log_ok (map InDb es ++ L) ∧ db_logged d' (map InDb es ++ L) ∧
  (∀ p, saved_phase o = Some p → ∃ row, stored_as p row ∧ InDb (WrotePhase row) ∈ map InDb es).
Proof.
  intros Hok Hl Hg Hw.
  destruct o; simpl in Hw;
    try (simplify_eq/=; split; [done|split; [by refine (db_logged_same _ _ _ _ _ _ Hl)|done]]).
  - destruct (change_upsert c d) as [[row d1]|] eqn:Hu; simplify_eq/=.
    destruct (change_upsert_Ok _ _ _ _ _ Hl Hu) as (Hi & Hs & Hp & ->). rewrite <-Hi.
    split; [split; [|done]|split; [by apply db_logged_change|done]].
    destruct Hg as [Hc He]. split; [by eapply stored_change_ok|].
    unfold enqueued in *. by rewrite Hs, Hi.
  - destruct (phase_upsert p d) as [[row d1]|] eqn:Hu; simplify_eq/=.
    destruct (phase_upsert_Ok _ _ _ _ Hu) as (Hst & id & ->).
    split; [split; [by eapply stored_phase_ok|done]|split; [by apply db_logged_phase|]].
    intros ? [= <-]. exists row. split; [done|set_solver].
  - unfold session_upsert in Hw. repeat case_match; simplify_eq/=;
      (split; [done|split; [by refine (db_logged_same _ _ _ _ _ _ Hl)|done]]).
  - simplify_eq/=. split; [done|].
    split; [by apply (db_logged_audit d L (mkAudit pid eventType))|done].
  - unfold completed_with_outbox in Hw.
    destruct (change_upsert c d) as [[row d1]|] eqn:Hu; [|done].
    destruct (t_outbox d1 !! ev_id ev); simplify_eq/=.
    destruct (change_upsert_Ok _ _ _ _ _ Hl Hu) as (Hi & Hs & Hp & ->).
    destruct Hg as (Hcomp & Hc & Hev).
    assert (Hrow : change_ok row L) by (by eapply stored_change_ok).
    split; [|split; [|done]].
    + split; [split|split; [split_and!; [by rewrite Hs|done..]|done]].
      * eapply change_ok_mono; [|done]. set_solver.
      * intros _ _. exists row, ev. split; [done|set_solver].
    + assert (Hd : db_logged (with_changes (insert (ch_id row) row) d)
                     (InDb (WroteChange row) :: InDb (WroteOutbox row ev) :: L)).
      { apply db_logged_change. eapply db_logged_mono; [|done]. set_solver. }
      rewrite <-Hi. by refine (db_logged_same _ _ _ _ _ _ Hd).
  - unfold usage_insert in Hw. repeat case_match; simplify_eq/=;
      (split; [done|split; [by refine (db_logged_same _ _ _ _ _ _ Hl)|done]]).
Qed.

Lemma db_exec_sound {R} (o : dbop R) f d L r es d' :
  Log_ok L → db_logged d L → guard (Db o) L → db_exec o f d = (r, es, d') →
  Log_ok (map InDb es ++ L) ∧ db_logged d' (map InDb es ++ L) ∧
  learned (Db o) r (map InDb es ++ L).
Proof.
  intros Hok Hl Hg He. unfold db_exec in He.
  set (after := match write_effect o d with Ok x => x | Err _ => ([], d) end) in *.
  assert (Hafter : Log_ok (map InDb after.1 ++ L) ∧ db_logged after.2 (map InDb after.1 ++ L)).
  { unfold after. destruct (write_effect o d) as [[es' d1]|] eqn:Hw; [|done].
    by destruct (write_sound o d L es' d1 Hok Hl Hg Hw) as (? & ? & _). }
  destruct f; simplify_eq.
  - destruct Hafter as [Ha1 Ha2]. split; [done|]. split; [done|]. unfold after.
    destruct (write_effect o d) as [[es' d1]|] eqn:Hw.
    + destruct (write_sound o d L es' d1 Hok Hl Hg Hw) as (_ & _ & Hs).
      destruct o; try (apply read_learned; [|done]; eapply db_logged_mono; [|done]; set_solver).
      * done.
      * intros _. destruct (Hs p eq_refl) as (row & (Hc & Ht & Hst & He) & Hin).
        exists row. split; [set_solver|done].
    + destruct o; try (apply read_learned; [done|done]); [done|].
      simpl in Hw. simpl. by destruct (phase_upsert p d) as [[]|].
  - split; [done|]. split; [done|]. apply failed_learned.
  - destruct Hafter. split; [done|]. split; [done|]. apply failed_learned.
Qed.

Lemma ext_sound {R} (o : extop R) L (r : R) :
  Log_ok L → guard (Ext o) L →
  Log_ok (ext_entries o r ++ L) ∧ learned (Ext o) r (ext_entries o r ++ L).
Proof.
  intros Hok Hg. destruct o; simpl in *; try done.
  - destruct r as [dec|]; simpl; [|done]. split; [done|]. intros d [= ->]. set_solver.
  - by destruct r.
Qed.

(** ** Every interleaving *)

Context (request : prog unit → Prop) (bg : job → prog unit).
(** What clients may start is good from any history, and so is the work
    scheduled by a justified entry. *)
Context (Hrequest : ∀ m L, request m → Log_ok L → wps m L).
Context (Hbg : ∀ j L, job_ok j L → Log_ok L → wps (bg j) L).

Record sys_ok (s : sys) : Prop := {
  so_log : Log_ok (sys_log s);
  so_db : db_logged (sys_db s) (sys_log s);
  so_threads : ∀ m, m ∈ sys_threads s → wps m (sys_log s)
}.

Lemma sys_step_ok s s' : sys_ok s → sys_step request bg s s' → sys_ok s'.
Proof.
  intros [Hlog Hdb Hth] Hstep.
  destruct Hstep as [d L ts m Hr|d L ts j Hj|d L ts1 ts2 R e k r d' L' Hp|d L ts ts' Hsub];
    simpl in *.
  - split; simpl; [done|done|]. intros m' [Hin|Hin]%elem_of_app; [auto|].
    apply list_elem_of_singleton in Hin as ->. by apply Hrequest.
  - split; simpl; [done|done|]. intros m' [Hin|Hin]%elem_of_app; [auto|].
    apply list_elem_of_singleton in Hin as ->. apply Hbg; [|done].
    apply (Log_ok_elem (Scheduled j)); done.
  - assert (Hw : wps (Do e k) L) by (apply Hth; set_solver). destruct Hw as [Hg Hk].
    assert (Log_ok L' ∧ db_logged d' L' ∧ learned e r L' ∧ L ⊆ L') as (Hlog' & Hdb' & Hl & Hsub).
    { destruct Hp as [o f r es d' -> He|o r ->].
      - destruct (db_exec_sound o f d L r es d' Hlog Hdb Hg He) as (? & ? & ?).
        split_and!; [done|done|done|]. set_solver.
      - destruct (ext_sound o L r Hlog Hg) as [? ?].
        split_and!; [done| |done|set_solver]. eapply db_logged_mono; [|done]. set_solver. }
    split; simpl; [done|done|]. intros m' [Hin|[->|Hin]%elem_of_cons]%elem_of_app.
    + eapply wps_mono; [done|]. apply Hth. set_solver.
    + by apply Hk.
    + eapply wps_mono; [done|]. apply Hth. set_solver.
  - split; simpl; [done|done|]. auto.
Qed.

Lemma sys_sound s : reachable sys_init (sys_step request bg) s → sys_ok s.
Proof.
  apply reachable_inv; [|eauto using sys_step_ok].
  intros ? ->. split; simpl; [done| |by intros ? ?%elem_of_nil].
  split; simpl; [intros ? ?; by rewrite lookup_empty..|by intros ? ?%elem_of_nil].
Qed.
End Logic.
