(* ===== verification/PhaseService.v ===== *)
(** * The phase service

    [internal/application/phase/service.go] and [persist_artifacts.go]: the
    handlers Run, Resume, Approve and Reject and the background work they
    schedule, as programs.  Also [internal/application/change/service.go] and
    the boot-time scan of [internal/application/recovery/service.go].

    Times that only go into an audit row or an event payload are not kept, nor
    is the text of an error inside a failure reason. *)
From S2P Require Import Prelude Ids Json Envelope PhaseDomain ChangeDomain Session Outbox Discipline Store Sha256 Effects PhaseHelpers.

(** The optional collaborators that are wired, and the dispatcher's provider. *)
Record Deps := mkDeps {
  d_ApplyExecutor : bool;
  d_Init : bool;
  d_Skills : bool;
  d_SkillUsageRepo : bool;
  d_OutboxEnqueuer : bool;
  d_Bootstrap : bool;
  d_Critic : bool;
  d_Provider : string
}.

Inductive svc_error :=
  | SvcStore (e : store_error)
  | SvcInvalidTransition | SvcPhaseRunning | SvcAlreadyTerminal | SvcApproverRequired
  | SvcPhaseNotGated | SvcGateAlreadyDecided
  | SvcPhase (e : phase_error)
  | SvcBadID.

(** inbound.RunPhaseOutput *)
Record RunPhaseOutput := mkRunOutput { out_PhaseID : PhaseID; out_Status : PhaseStatus }.

(** [string(decision.Decision)] *)
Definition gov_string (d : GovDecision) : string :=
  match d with
  | DecisionAllow => "allow"
  | DecisionAllowWithConstraints => "allow_with_constraints"
  | DecisionRequireApproval => "require_approval"
  | DecisionDeny => "deny"
  | DecisionOther s => s
  end.

(** [ArchivedAt] in the body of the archived event: a time as JSON text. *)
Class TimeText := { time_json : Time → string }.

Section Service.
Context `{UlidLib} `{WireContract} `{TimeText}.
Context (D : Deps).

Definition now : prog Time := ext Now.

Definition appendAudit (pid : option PhaseID) (eventType : string) : prog unit :=
  do! db (AuditAppend pid eventType) in Ret tt.

Definition publishEvent (pid : PhaseID) (eventType : string) (pl : payload) : prog unit :=
  do! db (EventAppend pid eventType pl) in Ret tt.

(** ** Failure path *)

Definition blockedEnvelope (c : Change) (pt : PhaseType) (reason : string) : Envelope :=
  mkEnvelope SchemaVersionV1 (pt_string pt) (ch_name c) (ch_project c) StatusBlocked f64_0 reason
    [] [] [] None.

Definition extractFailureReasonFromSession (pid : PhaseID) (fallback : string)
    : prog (string * string) :=
  let! r := db (SessionFindByPhaseID pid) in
  Ret (failure_reason (match r with Ok ss => Some ss | Err _ => None end) fallback).

(** [_ = p.Start(now)] when the phase is not running. *)
Definition ensureRunning (p : Phase) : prog Phase :=
  if bool_decide (p_status p ≠ PhaseStatusRunning) then
    let! t := now in
    Ret (match Phase_Start t p with Ok p' => p' | Err _ => p end)
  else Ret p.

Definition failPhaseWithReason (p : Phase) (ruleID reason : string) : prog unit :=
  let! rc := db (ChangeFindByID (p_changeID p)) in
  match rc with
  | Err _ => Ret tt
  | Ok c =>
      let e := blockedEnvelope c (p_type p) reason in
      let! p1 := ensureRunning p in
      let! t := now in
      do! (match Phase_Complete (Some e) t p1 with
           | Ok p2 => do! db (PhaseSave p2) in Ret tt
           | Err _ => Ret tt
           end) in
      do! appendAudit (Some (p_id p)) EventPhaseFailed in
      let! fr := (if str_empty ruleID then extractFailureReasonFromSession (p_id p) reason
                  else Ret (ruleID, reason)) in
      publishEvent (p_id p) EventPhaseFailed (PFailed (pt_string (p_type p)) reason fr.1 fr.2)
  end.

Definition failPhase (p : Phase) (reason : string) : prog unit :=
  failPhaseWithReason p EmptyString reason.

(** ** Prior phases *)

Fixpoint load_prior (cid : ChangeID) (pts : list PhaseType) (out : PriorPhases)
    : prog (result store_error PriorPhases) :=
  match pts with
  | [] => Ret (Ok out)
  | pt :: pts' =>
      let! r := db (PhaseFindByChangeAndType cid pt) in
      match r with
      | Ok p => load_prior cid pts' (<[pt_string pt := mkPredicate (p_status p) (p_confidence p)]> out)
      | Err ErrNotFound => load_prior cid pts' out
      | Err e => Ret (Err e)
      end
  end.

Definition loadPriorPhases (cid : ChangeID) : prog (result store_error PriorPhases) :=
  load_prior cid AllPhaseTypes ∅.

(** ** Advancing the change *)

Definition archived_body (c : Change) (at_ : Time) : string :=
  let str s := String.string_of_list_ascii (quote s) in
  concat_strings
    [ "{"; str "change_id"%string; ":"; str (ID_String (ch_id c)); ",";
      str "change_name"%string; ":"; str (ch_name c); ",";
      str "phase_type"%string; ":"; str "archive"%string; ",";
      str "archived_at"%string; ":"; time_json at_; "}" ]%string.

(** The completion write: in one transaction with the outbox row when an
    enqueuer is wired.  Answers whether it succeeded. *)
Definition saveCompleted (c : Change) (archivedAt : Time) : prog bool :=
  if d_OutboxEnqueuer D then
    let! s := ext NewID in
    match ParseID OutboxK s with
    | Err _ => Ret false
    | Ok evID =>
        let! e := db (OutboxSaveCompleted c
                        (Event_New evID Outbox.EventPhaseArchived (archived_body c archivedAt) archivedAt)) in
        Ret (bool_decide (e = None))
    end
  else
    let! e := db (ChangeSave c) in Ret (bool_decide (e = None)).

Definition advanceChange (c : Change) (completed : PhaseType) : prog unit :=
  let! t := now in
  let advanced := Change_AdvancePhase completed t c in
  if bool_decide (completed ≠ PhaseArchive) then
    match advanced with
    | Ok c' => do! db (ChangeSave c') in Ret tt
    | Err _ => Ret tt
    end
  else
    match advanced with
    | Err _ => Ret tt
    | Ok c1 =>
        let! t2 := now in
        match Change_MarkCompleted t2 c1 with
        | Err _ => Ret tt
        | Ok c2 =>
            let! archivedAt := now in
            let! saved := saveCompleted c2 archivedAt in
            if saved then
              let! r := db (PhaseFindByChangeAndType (ch_id c2) PhaseArchive) in
              let archivePhaseID := match r with Ok p => p_id p | Err _ => mkID EmptyString end in
              publishEvent archivePhaseID "phase.archived" (PArchived (ch_id c2) (ch_name c2))
            else Ret tt
        end
    end.

(** ** Advisory critic *)

Definition reviewConcerns (c : Change) (p : Phase) (env : Envelope)
    (overrides : list (string * json)) : prog (list Concern) :=
  if negb (d_Critic D) || negb (parseScopeCriticEnabled overrides) then Ret []
  else
    let! r := ext (CriticReview (ch_id c) (p_type p) env) in
    Ret (match r with Ok cs => cs | Err _ => [] end).

(** Concerns upgrade DONE to DONE_WITH_CONCERNS and attach to the phase. *)
Definition apply_concerns (concerns : list Concern) (p : Phase) (env : Envelope) : Phase * Envelope :=
  if negb (bool_decide (concerns = [])) && bool_decide (e_Status env = StatusDone)
  then (Phase_SetConcerns concerns p, e_with_Status StatusDoneWithConcerns env)
  else (p, env).

Definition completed_concerns (p : Phase) : list Concern :=
  if bool_decide (eventTypeForStatus (p_status p) = EventPhaseCompletedWithConcerns)
  then p_concerns p else [].

(** ** Artifacts (persist_artifacts.go) *)

Definition persistArtifactsToMemory (p : Phase) (env : Envelope) : prog unit :=
  each (λ ref,
    if str_empty (a_TopicKey ref) then Ret tt
    else
      let! ok := ext (MemoryIngest (p_id p) (a_TopicKey ref)
                        ["sdd"%string; pt_string (p_type p); a_Type ref]) in
      if ok : bool then Ret tt
      else publishEvent (p_id p) "memory.artifact_persist_failed"
             (PArtifactFailed (a_TopicKey ref) (a_Type ref))) (e_ArtifactsSaved env).

(** ** Skill usage *)

(** The insertion loop: the identifiers whose INSERT reported no error. *)
Fixpoint recordSkillUsage (c : Change) (pt : PhaseType) (at_ : Time) (skills : list MatchedSkill)
    : prog (list SkillUsageID) :=
  match skills with
  | [] => Ret []
  | sk :: skills' =>
      let! s := ext NewID in
      match ParseID SkillUsageK s with
      | Err _ => recordSkillUsage c pt at_ skills'
      | Ok uid =>
          let! e := db (UsageInsert (SkillUsage_New uid (ch_id c) (pt_string pt) (ms_id sk)
                                       (ms_version sk) at_)) in
          let! rest := recordSkillUsage c pt at_ skills' in
          Ret (match e with None => uid :: rest | Some _ => rest end)
      end
  end.

Definition updateSkillUsageOutcomes (uids : list SkillUsageID) (s : EnvStatus) : prog unit :=
  if negb (d_SkillUsageRepo D) then Ret tt
  else each (λ uid, do! db (UsageUpdateOutcome uid (skillUsageOutcomeFor s)) in Ret tt) uids.

(** ** Apply and init *)

Definition runApplyPhase (c : Change) (p : Phase) (i : RunPhaseInput) : prog unit :=
  let! r := ext (ApplyExecute c p i) in
  match r.1 with
  | None => failPhase p (if r.2 then "apply executor" else "apply executor returned nil envelope")
  | Some env0 =>
      let! concerns := reviewConcerns c p env0 (in_ContextOverrides i) in
      let '(p0, env) := apply_concerns concerns p env0 in
      let! t := now in
      match Phase_Complete (Some env) t p0 with
      | Err _ => failPhase p0 "phase complete"
      | Ok p1 =>
          let! e := db (PhaseSave p1) in
          match e with
          | Some _ => failPhase p1 "save phase"
          | None =>
              do! (if AdvanceAllowed (p_status p1) then advanceChange c (p_type p1) else Ret tt) in
              let eventType := eventTypeForStatus (p_status p1) in
              do! appendAudit (Some (p_id p1)) eventType in
              if bool_decide (e_Status env = StatusBlocked) then
                publishEvent (p_id p1) eventType (buildApplyFailedPayload (p_type p1) env)
              else
                publishEvent (p_id p1) eventType
                  (PCompletedFromApply (env_status_string (e_Status env)) (e_Confidence env)
                     (completed_concerns p1))
          end
      end
  end.

(** [Validate(jsonMarshal(env))]: the marshalled envelope decodes to [env]
    itself (see [Envelope_marshal_decode]). *)
Definition runInitPhase (c : Change) (p : Phase) : prog unit :=
  let! r := ext (InitRun c) in
  match r with
  | Err _ => failPhase p "init service"
  | Ok None => failPhase p "init service returned nil envelope"
  | Ok (Some env0) =>
      match Validator_Validate (Envelope_marshal env0) (p_type p) with
      | Err _ => failPhase p "init: envelope validation"
      | Ok env =>
          let! t := now in
          match Phase_Complete (Some env) t p with
          | Err _ => failPhase p "init: phase complete"
          | Ok p1 =>
              let! e := db (PhaseSave p1) in
              match e with
              | Some _ => failPhase p1 "init: save phase"
              | None =>
                  do! (if AdvanceAllowed (p_status p1) then advanceChange c (p_type p1) else Ret tt) in
                  let eventType := eventTypeForStatus (p_status p1) in
                  do! appendAudit (Some (p_id p1)) eventType in
                  do! publishEvent (p_id p1) eventType
                        (PCompleted (pt_string (p_type p1)) (env_status_string (e_Status env))
                           (e_Confidence env) []) in
                  if d_Bootstrap D then ext ScheduleBootstrap else Ret tt
              end
          end
      end
  end.

(** ** The single-agent flow *)

Definition auditDiscarded (pid : PhaseID) (e : bool) : prog unit :=
  if e then appendAudit (Some pid) "phase.apply.error.discarded" else Ret tt.

(** RecordOutcome and Save of the session; errors are audited and dropped. *)
Definition closeSession (pid : PhaseID) (sess : Session) (env : option Envelope) (exit : Z)
    : prog unit :=
  let! t := now in
  let recorded := Session_RecordOutcome env exit t sess in
  let sess' := match recorded with Ok s => s | Err _ => sess end in
  do! auditDiscarded pid (negb (is_Ok recorded)) in
  let! e := db (SessionSave sess') in
  auditDiscarded pid (bool_decide (e ≠ None)).

Definition fallbackToMemory (c : Change) (p : Phase) : prog rawjson :=
  let! r := ext (MemoryGet (concat_strings ["sdd/"; ch_name c; "/"; pt_string (p_type p)])) in
  Ret (match r with Some content => content | None => NotJSON EmptyString end).

(** Steps 13 to 16: complete, persist, then everything that may only happen
    once the envelope is durable. *)
Definition finishPhase (c : Change) (p : Phase) (env : Envelope) (uids : list SkillUsageID)
    : prog unit :=
  let! t := now in
  match Phase_Complete (Some env) t p with
  | Err _ => failPhase p "phase complete"
  | Ok p1 =>
      let! e := db (PhaseSave p1) in
      match e with
      | Some _ => failPhase p1 "save phase"
      | None =>
          do! updateSkillUsageOutcomes uids (e_Status env) in
          do! persistArtifactsToMemory p1 env in
          do! (if AdvanceAllowed (p_status p1) then advanceChange c (p_type p1) else Ret tt) in
          let eventType := eventTypeForStatus (p_status p1) in
          do! appendAudit (Some (p_id p1)) eventType in
          publishEvent (p_id p1) eventType
            (PCompleted (pt_string (p_type p1)) (env_status_string (e_Status env))
               (e_Confidence env) (completed_concerns p1))
      end
  end.

(** Steps 11 and 12: read, validate and review the envelope. *)
Definition receiveEnvelope (c : Change) (p : Phase) (i : RunPhaseInput) (sess : Session)
    (res : DispatchResult) (uids : list SkillUsageID) : prog unit :=
  let! raw := (match dr_EnvelopeRaw res with
               | Some r => Ret r
               | None => fallbackToMemory c p
               end) in
  match Validator_Validate raw (p_type p) with
  | Err _ =>
      do! closeSession (p_id p) sess None (dr_ExitCode res) in
      failPhase p "envelope validation"
  | Ok env0 =>
      let mismatch := if bool_decide (p_type p = PhaseTasks)
                      then detectTasksSchemaMismatch (e_Data env0) else EmptyString in
      if negb (str_empty mismatch) then
        do! closeSession (p_id p) sess (Some env0) (dr_ExitCode res) in
        failPhaseWithReason p "schema_mismatch" mismatch
      else
        do! closeSession (p_id p) sess (Some env0) (dr_ExitCode res) in
        do! publishEvent (p_id p) "agent.envelope.received"
              (PEnvelopeReceived (env_status_string (e_Status env0)) (e_Confidence env0)) in
        let! concerns := reviewConcerns c p env0 (in_ContextOverrides i) in
        let '(p0, env) := apply_concerns concerns p env0 in
        finishPhase c p0 env uids
  end.

(** Steps 9 and 10: a slot of the spawn governor around the dispatch. *)
Definition dispatchAgent (c : Change) (p : Phase) (i : RunPhaseInput) (sess : Session)
    (prompt : string) (uids : list SkillUsageID) : prog unit :=
  let! ok := ext (SpawnAcquire (p_id p)) in
  if negb ok then failPhase p "spawn governor" else
  let! r := ext (Dispatch (p_id p) prompt (p_type p)) in
  let! released := ext (SpawnRelease (p_id p)) in
  do! auditDiscarded (p_id p) (negb released) in
  match r with
  | Err _ =>
      do! closeSession (p_id p) sess None (-1) in
      failPhase p "dispatch"
  | Ok res => receiveEnvelope c p i sess res uids
  end.

(** Steps 7 and 8: prompt, skill usage and session. *)
Definition prepareAgent (c : Change) (p : Phase) (i : RunPhaseInput) (prior : PriorPhases)
    : prog unit :=
  let! ctx := ext (BuildPriorContext c (p_type p)) in
  let! skills := (if d_Skills D then
                    let! r := ext (SkillsForContext (p_type p) (ch_project c) ctx) in
                    Ret (match r with Ok sk => sk | Err _ => [] end)
                  else Ret []) in
  let! uids := (if d_SkillUsageRepo D && negb (bool_decide (length skills = 0%nat)) then
                  let! t := now in recordSkillUsage c (p_type p) t skills
                else Ret []) in
  let! prompt := ext (PromptBuild c (p_type p) ctx skills (in_TaskDescription i)
                        (parseScopeTestsRequired (in_ContextOverrides i))
                        (phasesPredicateToStatusMap prior)) in
  match prompt with
  | Err _ => failPhase p "prompt build"
  | Ok prompt =>
      let! s := ext NewID in
      match ParseID SessionK s with
      | Err _ => failPhase p "generate session id"
      | Ok sid =>
          let! t := now in
          match Session_New sid (ch_id c) (p_id p) (roleFor (p_type p)) (d_Provider D)
                  (hashPrompt prompt) "opencode run" t with
          | Err _ => failPhase p "new session"
          | Ok sess0 =>
              match Session_MarkRunning sess0 with
              | Err _ => failPhase p "mark session running"
              | Ok sess =>
                  let! e := db (SessionSave sess) in
                  match e with
                  | Some _ => failPhase p "save session"
                  | None =>
                      do! publishEvent (p_id p) EventAgentDispatched
                            (PDispatched sid (roleFor (p_type p)) (d_Provider D)) in
                      dispatchAgent c p i sess prompt uids
                  end
              end
          end
      end
  end.

(** Step 6: Iron Law pre-flight. *)
Definition preflight (c : Change) (p : Phase) (i : RunPhaseInput) : prog unit :=
  let! r := loadPriorPhases (ch_id c) in
  match r with
  | Err _ => failPhase p "load prior phases"
  | Ok prior =>
      match IronLaw_Check (mkCheckContext (actionForPhase (p_type p)) (p_type p) prior true
                             (p_attempts p - 1)) with
      | [] => prepareAgent c p i prior
      | _ => failPhase p "iron law violations"
      end
  end.

Definition with_prior_status (m : gmap string string) (i : RunPhaseInput) : RunPhaseInput :=
  mkRunInput (in_ChangeID i) (in_PhaseType i) (in_TaskDescription i) (in_ContextOverrides i)
    (in_RetryBudget i) m.

Definition runAsync (c : Change) (p : Phase) (i : RunPhaseInput) : prog unit :=
  if bool_decide (p_type p = PhaseInit) && d_Init D then runInitPhase c p else
  let! r := ext (EvaluatePhase (ch_id c) (p_id p) (p_type p) (in_TaskDescription i)) in
  match r with
  | Err _ => failPhase p "governance error"
  | Ok decision =>
      do! publishEvent (p_id p) "governance.decision" (PGovernance (gov_string decision)) in
      match decision with
      | DecisionDeny => failPhase p "governance denied"
      | DecisionRequireApproval =>
          do! appendAudit (Some (p_id p)) EventApprovalRequired in
          publishEvent (p_id p) EventApprovalRequired PApprovalRequired
      | _ =>
          if bool_decide (p_type p = PhaseApply) && d_ApplyExecutor D then
            let! prior := loadPriorPhases (ch_id c) in
            runApplyPhase c p (match prior with
                               | Ok m => with_prior_status (phasesPredicateToStatusMap m) i
                               | Err _ => i
                               end)
          else preflight c p i
      end
  end.

Definition background (j : job) : prog unit := runAsync (j_change j) (j_phase j) (j_input j).

(** ** Run *)

Definition Run (i : RunPhaseInput) : prog (result svc_error RunPhaseOutput) :=
  let! rc := db (ChangeFindByID (in_ChangeID i)) in
  match rc with
  | Err e => Ret (Err (SvcStore e))
  | Ok c =>
  if negb (isNextValidTransition (ch_currentPhase c) (in_PhaseType i))
  then Ret (Err SvcInvalidTransition) else
  let! el := db (PhaseLockByChange (in_ChangeID i)) in
  match el with
  | Some e => Ret (Err (SvcStore e))
  | None =>
  let! rr := db (PhaseFindRunningByChange (in_ChangeID i)) in
  match rr with
  | Ok _ => Ret (Err SvcPhaseRunning)
  | Err ErrStore => Ret (Err (SvcStore ErrStore))
  | Err ErrNotFound =>
  let! s := ext NewID in
  match ParseID PhaseK s with
  | Err _ => Ret (Err SvcBadID)
  | Ok pid =>
  let budget := if (in_RetryBudget i <=? 0)%Z then 3%Z else in_RetryBudget i in
  let! rp := db (PhaseFindByChangeAndType (in_ChangeID i) (in_PhaseType i)) in
  let priorAttempts :=
    match rp with
    | Ok prior => if ps_IsTerminal (p_status prior)
                     || bool_decide (p_status prior = PhaseStatusNeedsContext)
                  then p_attempts prior else 0%Z
    | Err _ => 0%Z
    end in
  let p0 := Phase_Hydrate pid (in_ChangeID i) (in_PhaseType i) PhaseStatusPending None f64_0
              budget priorAttempts None None in
  let! t := now in
  match Phase_Start t p0 with
  | Err e => Ret (Err (SvcPhase e))
  | Ok p =>
  let! es := db (PhaseSave p) in
  match es with
  | Some e => Ret (Err (SvcStore e))
  | None =>
  do! appendAudit (Some pid) "phase.started" in
  do! publishEvent (p_id p) EventPhaseStarted
        (PStarted (pt_string (in_PhaseType i)) (in_ChangeID i)) in
  do! ext (Schedule (mkJob c p i)) in
  Ret (Ok (mkRunOutput pid (p_status p)))
  end end end end end end.

(** ** Resume *)

(** Save after a transition back to running. *)
Definition saveRestarted (r : result phase_error Phase) : prog (result svc_error Phase) :=
  match r with
  | Err e => Ret (Err (SvcPhase e))
  | Ok p =>
      let! e := db (PhaseSave p) in
      Ret (match e with Some e => Err (SvcStore e) | None => Ok p end)
  end.

Definition Resume (id : PhaseID) : prog (result svc_error RunPhaseOutput) :=
  let! rp := db (PhaseFindByID id) in
  match rp with
  | Err e => Ret (Err (SvcStore e))
  | Ok p =>
  if ps_IsTerminal (p_status p)
     && (bool_decide (p_status p ≠ PhaseStatusBlocked) || bool_decide (p_type p ≠ PhaseApply))
  then Ret (Err SvcAlreadyTerminal) else
  let! rc := db (ChangeFindByID (p_changeID p)) in
  match rc with
  | Err e => Ret (Err (SvcStore e))
  | Ok c =>
  let! r1 := (if bool_decide (p_status p = PhaseStatusInterrupted)
              then let! t := now in saveRestarted (Phase_Start t p)
              else Ret (Ok p)) in
  match r1 with
  | Err e => Ret (Err e)
  | Ok p1 =>
  let! r2 := (if bool_decide (p_status p1 = PhaseStatusBlocked) && bool_decide (p_type p1 = PhaseApply)
              then let! t := now in saveRestarted (Phase_Restart t p1)
              else Ret (Ok p1)) in
  match r2 with
  | Err e => Ret (Err e)
  | Ok p2 =>
  do! ext (Schedule (mkJob c p2 (mkRunInput (ch_id c) (p_type p2) EmptyString [] (p_retryBudget p2) ∅))) in
  Ret (Ok (mkRunOutput (p_id p2) (p_status p2)))
  end end end end.

(** ** Approval gate *)

Definition checkGateState (id : PhaseID) : prog (option svc_error) :=
  let! g := db (AuditHasEventForPhase id EventApprovalRequired) in
  match g with
  | Err e => Ret (Some (SvcStore e))
  | Ok false => Ret (Some SvcPhaseNotGated)
  | Ok true =>
      let! r := db (AuditHasEventForPhase id EventApprovalResolved) in
      match r with
      | Err e => Ret (Some (SvcStore e))
      | Ok true => Ret (Some SvcGateAlreadyDecided)
      | Ok false => Ret None
      end
  end.

(** The audit row and the event of a decision. *)
Definition resolveGate (id : PhaseID) (decision approver reason : string) : prog unit :=
  do! appendAudit (Some id) EventApprovalResolved in
  publishEvent id EventApprovalResolved (PApprovalResolved decision approver reason).

(** The checks Approve and Reject share: the phase, if it may be decided. *)
Definition gatedPhase (id : PhaseID) (approver : string) : prog (result svc_error Phase) :=
  if str_empty approver then Ret (Err SvcApproverRequired) else
  let! rp := db (PhaseFindByID id) in
  match rp with
  | Err e => Ret (Err (SvcStore e))
  | Ok p =>
      if ps_IsTerminal (p_status p) then Ret (Err SvcAlreadyTerminal) else
      let! g := checkGateState id in
      Ret (match g with Some e => Err e | None => Ok p end)
  end.

Definition Approve (id : PhaseID) (approver reason : string) : prog (option svc_error) :=
  let! r := gatedPhase id approver in
  match r with
  | Err e => Ret (Some e)
  | Ok _ => do! resolveGate id DecisionApproved approver reason in Ret None
  end.

Definition Reject (id : PhaseID) (approver reason : string) : prog (option svc_error) :=
  let! r := gatedPhase id approver in
  match r with
  | Err e => Ret (Some e)
  | Ok p =>
      let! rc := db (ChangeFindByID (p_changeID p)) in
      match rc with
      | Err e => Ret (Some (SvcStore e))
      | Ok c =>
          let e := blockedEnvelope c (p_type p)
                     (concat_strings ["Rejected by "; approver; ": "; reason]%string) in
          let! r1 := (if bool_decide (p_status p ≠ PhaseStatusRunning)
                      then let! t := now in Ret (Phase_Start t p) else Ret (Ok p)) in
          match r1 with
          | Err e => Ret (Some (SvcPhase e))
          | Ok p1 =>
              let! t := now in
              match Phase_Complete (Some e) t p1 with
              | Err e => Ret (Some (SvcPhase e))
              | Ok p2 =>
                  let! es := db (PhaseSave p2) in
                  match es with
                  | Some e => Ret (Some (SvcStore e))
                  | None => do! resolveGate id DecisionRejected approver reason in Ret None
                  end
              end
          end
      end
  end.

(** ** Boot recovery (recovery/service.go) *)

Fixpoint markInterrupted (stuck : list Phase) : prog nat :=
  match stuck with
  | [] => Ret 0%nat
  | p :: stuck' =>
      match Phase_MarkInterrupted p with
      | Err _ => markInterrupted stuck'
      | Ok p' =>
          let! e := db (PhaseSave p') in
          let! n := markInterrupted stuck' in
          Ret (match e with None => S n | Some _ => n end)
      end
  end.

Definition MarkStuckInterrupted : prog (result store_error nat) :=
  let! r := db PhaseFindAllRunning in
  match r with
  | Err e => Ret (Err e)
  | Ok stuck => let! n := markInterrupted stuck in Ret (Ok n)
  end.

(** ** Change service (change/service.go) *)

Inductive change_svc_error :=
  | ChStore (e : store_error) | ChAlreadyExists | ChBadID | ChDomain (e : change_error).

Definition Change_Create (name project store baseRef : string) : prog (result change_svc_error Change) :=
  let! r := db (ChangeFindByProjectName project name) in
  match r with
  | Ok _ => Ret (Err ChAlreadyExists)
  | Err ErrStore => Ret (Err (ChStore ErrStore))
  | Err ErrNotFound =>
      let! s := ext NewID in
      match ParseID ChangeK s with
      | Err _ => Ret (Err ChBadID)
      | Ok id =>
          let! t := now in
          match Change_New id name project store baseRef t with
          | Err e => Ret (Err (ChDomain e))
          | Ok c =>
              let! e := db (ChangeSave c) in
              Ret (match e with Some e => Err (ChStore e) | None => Ok c end)
          end
      end
  end.

Definition Change_AbortReq (id : ChangeID) (reason : string) : prog (option change_svc_error) :=
  let! r := db (ChangeFindByID id) in
  match r with
  | Err e => Ret (Some (ChStore e))
  | Ok c =>
      let! t := now in
      match Change_Abort reason t c with
      | Err e => Ret (Some (ChDomain e))
      | Ok c' =>
          let! e := db (ChangeSave c') in
          Ret (match e with Some e => Some (ChStore e) | None => None end)
      end
  end.

Definition Change_ListReq (project status : string) (limit offset : Z)
    : prog (result store_error (list Change)) :=
  let limit := if (limit <=? 0)%Z then 50%Z else limit in
  let offset := if (offset <? 0)%Z then 0%Z else offset in
  db (ChangeListQ project status limit offset).
End Service.
