(* ===== verification/PhaseSafety.v ===== *)
(** * Safety of the phase service

    The handlers of [PhaseService] only ever write justified history, so the
    Iron Laws hold of every interleaving of requests, background work, boot
    scans, faults and crashes. *)
From S2P Require Import Prelude Ids Json Envelope PhaseDomain ChangeDomain Session Outbox Discipline Store Effects PhaseHelpers Logic PhaseService.

(** The gate decision has an event name of its own. *)
Class WireContractLaws `{WireContract} := {
  resolved_distinct :
    EventApprovalResolved ∉ [EventPhaseCompleted; EventPhaseCompletedWithConcerns; EventPhaseFailed;
      EventPhaseNeedsContext; EventApprovalRequired; "phase.started"; "phase.apply.error.discarded"]%string
}.

Section Safety.
Context `{PgTypes} `{UlidLib} `{WireContract} `{!WireContractLaws} `{TimeText}.
Context (D : Deps).

Abbreviation ow := (d_OutboxEnqueuer D).
Abbreviation Log_ok := (Logic.Log_ok ow).
Abbreviation wp := (Logic.wp ow).
Abbreviation wps m L := (Logic.wp ow m (λ _ _, True) L).

Implicit Types (L : list entry) (p : Phase) (c : Change).

(** What a job knows: its change is backed by the history and its phase
    belongs to that change. *)
Record known c p L : Prop := {
  kn_log : Log_ok L;
  kn_change : change_ok c L;
  kn_same : p_changeID p = ch_id c
}.

(** And after governance and the pre-flight check. *)
Record ready c p L : Prop := {
  rd_known : known c p L;
  rd_governed : governed L (p_id p);
  rd_verified : p_type p = PhaseArchive → verified_in L (ch_id c)
}.

Lemma known_mono c p L L' : L ⊆ L' → Log_ok L' → known c p L → known c p L'.
Proof. intros Hs Hok [_ Hc Hp]. split; [done|by eapply change_ok_mono|done]. Qed.

Lemma ready_mono c p L L' : L ⊆ L' → Log_ok L' → ready c p L → ready c p L'.
Proof.
  intros Hs Hok [Hk Hg Hv]. split; [by eapply known_mono|by eapply governed_mono|].
  intros Ha. eapply logged_phase_mono; [done|by apply Hv].
Qed.

(** Introduce the answer of an effect and carry every fact over. *)
Ltac carry Hs Hok :=
  repeat match goal with
  | Hx : known ?c ?p _ |- _ => apply (known_mono _ _ _ _ Hs Hok) in Hx
  | Hx : ready ?c ?p _ |- _ => apply (ready_mono _ _ _ _ Hs Hok) in Hx
  | Hx : Logic.Log_ok _ ?L |- _ =>
      match type of Hok with Logic.Log_ok _ L => fail 1 | _ => clear Hx end
  end.
Ltac answer r Hl :=
  let L' := fresh "L" in let Hs := fresh "Hs" in let Hok := fresh "Hok" in
  intros r L' Hs Hok Hl; carry Hs Hok; clear Hs.
Ltac eff_db := apply wp_bind_db; [try done|].
Ltac eff_ext := apply wp_bind_ext; [try done|].
Ltac callp lem := eapply wp_call; [eassumption|eapply lem|].

(** ** Audit rows *)

Lemma audit_other pid et L :
  et ∈ [EventPhaseCompleted; EventPhaseCompletedWithConcerns; EventPhaseFailed;
    EventPhaseNeedsContext; EventApprovalRequired; "phase.started"; "phase.apply.error.discarded"]%string →
  audit_ok pid et L.
Proof. intros Hin ->. by destruct resolved_distinct. Qed.

Lemma wp_appendAudit pid et L : audit_ok pid et L → wps (appendAudit pid et) L.
Proof. done. Qed.

Lemma wp_publishEvent pid et pl L : wps (publishEvent pid et pl) L.
Proof. done. Qed.

Lemma eventType_other s : eventTypeForStatus s ∈ [EventPhaseCompleted; EventPhaseCompletedWithConcerns;
  EventPhaseFailed; EventPhaseNeedsContext; EventApprovalRequired; "phase.started"; "phase.apply.error.discarded"]%string.
Proof. destruct s; simpl; set_solver. Qed.

Lemma wp_auditDiscarded pid b L : wps (auditDiscarded pid b) L.
Proof. destruct b; [|done]. apply wp_appendAudit, audit_other. set_solver. Qed.

(** ** Failure path *)

Lemma blocked_ok p L : p_status p = PhaseStatusBlocked → phase_ok p L.
Proof. intros Hs. unfold phase_ok. by rewrite Hs. Qed.

Lemma complete_blocked_ok c pt reason t p p' L :
  Phase_Complete (Some (blockedEnvelope c pt reason)) t p = Ok p' → phase_ok p' L.
Proof.
  intros (e & [= <-] & _ & _ & _ & ->)%Phase_Complete_Ok. by apply blocked_ok.
Qed.

Lemma wp_failPhaseWithReason p rule reason L : Log_ok L → wps (failPhaseWithReason p rule reason) L.
Proof.
  intros Hok. unfold failPhaseWithReason. eff_db. answer rc Hl.
  destruct rc as [c|]; [|done].
  eapply (wp_call _ _ _ (λ _ _, True)); [done| |].
  { unfold ensureRunning. case_bool_decide; [|done]. eff_ext. answer t Ht. done. }
  answer p1 Hp1. eff_ext. answer t Ht.
  eapply (wp_call _ _ _ (λ _ _, True)); [done| |].
  { destruct (Phase_Complete _ t p1) eqn:Hc; [|done]. eff_db; [by eapply complete_blocked_ok|].
    answer e He. done. }
  answer u Hu. callp wp_appendAudit; [apply audit_other; set_solver|].
  answer u' Hu'. eapply (wp_call _ _ _ (λ _ _, True)); [done| |].
  { destruct (str_empty rule); [|done]. eff_db. answer r Hr. done. }
  answer fr Hfr. apply wp_publishEvent.
Qed.

Lemma wp_failPhase p reason L : Log_ok L → wps (failPhase p reason) L.
Proof. apply wp_failPhaseWithReason. Qed.

(** ** Advancing *)

Lemma backed_init L cid : backed L cid PhaseInit.
Proof. exists 0%nat. split; [done|]. intros. lia. Qed.

Lemma backed_advance L cid cur next :
  backed L cid cur → next ∈ NextValid cur → accepted_in L cid next → backed L cid next.
Proof.
  intros (n & Hn & Hb) (m & Hm & Hnext)%NextValid_successor Ha.
  rewrite Hn in Hm. injection Hm as <-. exists (S n). split; [done|]. intros i pt Hi Hpt.
  destruct (decide (i = S n)) as [->|Hne]; [|apply (Hb i); [lia|done]].
  apply phase_index_lookup in Hnext. rewrite Hnext in Hpt. by injection Hpt as <-.
Qed.

Lemma advance_change_ok c c' next t L :
  change_ok c L → Change_AdvancePhase next t c = Ok c' → accepted_in L (ch_id c) next →
  change_ok c' L ∧ ch_status c' = StatusActive ∧ ch_id c' = ch_id c ∧ ch_currentPhase c' = next.
Proof.
  intros [Hb _] (_ & Hn & ->)%Change_AdvancePhase_Ok Ha. split; [|done].
  split; [|done]. by eapply backed_advance.
Qed.

Lemma wp_saveCompleted c t L :
  Log_ok L → change_ok c L → ch_status c = StatusCompleted → wp (saveCompleted D c t) (λ _ _, True) L.
Proof.
  intros Hok Hc Hs. unfold saveCompleted. destruct (d_OutboxEnqueuer D) eqn:Hw.
  - eff_ext. intros s L1 Hs1 Hok1 _. destruct (ParseID _ _); [|done].
    eff_db; [|done]. split_and!; [done|by eapply change_ok_mono|done].
  - by eff_db.
Qed.

Lemma wp_advanceChange c pt L :
  Log_ok L → change_ok c L → accepted_in L (ch_id c) pt → wps (advanceChange D c pt) L.
Proof.
  intros Hok Hc Ha. unfold advanceChange. eff_ext. intros t L1 Hs1 Hok1 _.
  assert (Hc1 : change_ok c L1) by (by eapply change_ok_mono).
  assert (Ha1 : accepted_in L1 (ch_id c) pt) by (by eapply logged_phase_mono).
  destruct (Change_AdvancePhase pt t c) as [c1|] eqn:Hadv; [|by case_bool_decide].
  destruct (advance_change_ok _ _ _ _ _ Hc1 Hadv Ha1) as (Hc' & Hact & Hid & Hcur).
  case_bool_decide as Harch.
  { eff_db; [|done]. split; [done|]. intros Hx. by rewrite Hact in Hx. }
  eff_ext. intros t2 L2 Hs2 Hok2 _.
  destruct (Change_MarkCompleted t2 c1) as [c2|] eqn:Hm; [|done].
  unfold Change_MarkCompleted in Hm. destruct (cs_IsTerminal _); simplify_eq.
  eff_ext. intros at_ L3 Hs3 Hok3 _.
  eapply wp_call; [done|apply wp_saveCompleted; [done| |done]|].
  { apply (change_ok_mono _ L1); [by etrans|]. split; [apply Hc'|done]. }
  answer saved Hsv. destruct saved; [|done]. eff_db. answer r Hr. apply wp_publishEvent.
Qed.

(** ** Completing a phase *)

Lemma complete_ok e t p p1 L :
  Phase_Complete (Some e) t p = Ok p1 →
  (p_type p = PhaseArchive → verified_in L (p_changeID p)) →
  phase_ok p1 L ∧ p_changeID p1 = p_changeID p ∧ p_type p1 = p_type p ∧ p_id p1 = p_id p.
Proof.
  intros (e' & [= <-] & _ & Hph & _ & ->)%Phase_Complete_Ok Hv. split; [|done].
  split; simpl; [|auto]. intros Ha. split; [done|]. by exists e.
Qed.

(** A successful save of a finished phase is an accepted row in the history. *)
Lemma saved_accepted p L :
  Log_ok L → AdvanceAllowed (p_status p) = true →
  logged_phase L (p_changeID p) (p_type p)
    (λ row, p_status row = p_status p ∧ p_envelope row = stored_envelope <$> p_envelope p) →
  accepted_in L (p_changeID p) (p_type p).
Proof.
  intros Hok Ha (row & Hin & Hc & Ht & Hs & He). exists row. split_and!; [done..|].
  apply (Log_ok_elem _ _ _ Hok Hin). by rewrite Hs.
Qed.

Lemma wp_advanceIf c p L :
  known c p L →
  logged_phase L (p_changeID p) (p_type p)
    (λ row, p_status row = p_status p ∧ p_envelope row = stored_envelope <$> p_envelope p) →
  wps (if AdvanceAllowed (p_status p) then advanceChange D c (p_type p) else Ret tt) L.
Proof.
  intros [Hok Hc Hp] Hl. destruct (AdvanceAllowed _) eqn:Ha; [|done].
  apply wp_advanceChange; [done..|]. rewrite <-Hp. by apply saved_accepted.
Qed.

Lemma wp_each {A} (f : A → prog unit) l L :
  (∀ x L, Log_ok L → wps (f x) L) → Log_ok L → wps (each f l) L.
Proof.
  intros Hf. revert L. induction l as [|x l IH]; intros L Hok; simpl; [done|].
  callp Hf; [done|]. answer u Hu. by apply IH.
Qed.

Lemma wp_updateSkillUsageOutcomes uids s L : Log_ok L → wps (updateSkillUsageOutcomes D uids s) L.
Proof.
  intros Hok. unfold updateSkillUsageOutcomes. destruct (d_SkillUsageRepo D); [|done].
  by apply wp_each.
Qed.

Lemma wp_persistArtifacts p e L : Log_ok L → wps (persistArtifactsToMemory p e) L.
Proof.
  intros Hok. apply wp_each; [|done]. intros ref L' Hok'.
  destruct (str_empty _); [done|]. eff_ext. answer ok Hr. destruct ok; [done|]. apply wp_publishEvent.
Qed.

(** Introduce an answer, carrying a logged row too. *)
Ltac answer_row r Hl Hrow :=
  let L' := fresh "L" in let Hs := fresh "Hs" in let Hok := fresh "Hok" in
  intros r L' Hs Hok Hl; carry Hs Hok; apply (logged_phase_mono _ _ _ _ _ Hs) in Hrow; clear Hs.

Lemma known_of c p q L : p_changeID q = p_changeID p → known c p L → known c q L.
Proof. intros Hq [Hok Hc Hp]. split; [done|done|congruence]. Qed.

(** The steps after a completed phase was saved, shared by the three flows. *)
Lemma wp_afterSave c p L (tail : prog unit) :
  known c p L →
  logged_phase L (p_changeID p) (p_type p)
    (λ row, p_status row = p_status p ∧ p_envelope row = stored_envelope <$> p_envelope p) →
  (∀ L, wps tail L) →
  wps (do! (if AdvanceAllowed (p_status p) then advanceChange D c (p_type p) else Ret tt) in
       do! appendAudit (Some (p_id p)) (eventTypeForStatus (p_status p)) in tail) L.
Proof.
  intros Hk Hrow Ht. pose proof (kn_log _ _ _ Hk).
  callp wp_advanceIf; [done|done|]. answer u Hu.
  callp wp_appendAudit; [apply audit_other, eventType_other|]. answer u' Hu'. apply Ht.
Qed.

Lemma wp_finishPhase c p e uids L :
  known c p L → (p_type p = PhaseArchive → verified_in L (ch_id c)) →
  wps (finishPhase D c p e uids) L.
Proof.
  intros Hk Hv. unfold finishPhase. eff_ext. intros t L1 Hs1 Hok1 _.
  assert (Hv1 : p_type p = PhaseArchive → verified_in L1 (p_changeID p)).
  { intros Ha. rewrite (kn_same _ _ _ Hk). eapply logged_phase_mono; [done|by apply Hv]. }
  carry Hs1 Hok1. destruct (Phase_Complete _ t p) as [p1|] eqn:Hc; [|by apply wp_failPhase].
  destruct (complete_ok _ _ _ _ _ Hc Hv1) as (Hp1 & Hcid & Hty & Hid).
  apply (known_of _ _ _ _ Hcid) in Hk.
  eff_db. answer er Hrow. destruct er; [by apply wp_failPhase|]. specialize (Hrow eq_refl).
  callp wp_updateSkillUsageOutcomes; [done|]. answer_row u Hu Hrow.
  callp wp_persistArtifacts; [done|]. answer_row u' Hu' Hrow.
  apply wp_afterSave; [done|done|]. intros L'. apply wp_publishEvent.
Qed.

(** ** The single-agent flow *)

Lemma wp_closeSession pid s e exit L : Log_ok L → wps (closeSession pid s e exit) L.
Proof.
  intros Hok. unfold closeSession. eff_ext. answer t Ht.
  callp wp_auditDiscarded. answer u Hu. eff_db. answer er Her. apply wp_auditDiscarded.
Qed.

Lemma wp_reviewConcerns c p e ov L : wp (reviewConcerns D c p e ov) (λ _ _, True) L.
Proof. unfold reviewConcerns. by destruct (_ || _). Qed.

Lemma apply_concerns_same cs p e p' e' :
  apply_concerns cs p e = (p', e') →
  p_changeID p' = p_changeID p ∧ p_type p' = p_type p ∧ p_id p' = p_id p.
Proof. unfold apply_concerns. destruct (_ && _); by intros [= <- <-]. Qed.

Lemma wp_receiveEnvelope c p i sess res uids L :
  ready c p L → wps (receiveEnvelope D c p i sess res uids) L.
Proof.
  intros Hr. unfold receiveEnvelope.
  eapply (wp_call _ _ _ (λ _ _, True)); [apply Hr| |].
  { by destruct (dr_EnvelopeRaw res). }
  answer bytes Hraw. destruct (Validator_Validate bytes (p_type p)) as [e0|].
  2: { callp wp_closeSession; [done|]. answer u Hu. by apply wp_failPhase. }
  destruct (negb _).
  { callp wp_closeSession; [done|]. answer u Hu. by apply wp_failPhaseWithReason. }
  callp wp_closeSession; [done|]. answer u Hu.
  callp wp_publishEvent. answer u' Hu'.
  callp wp_reviewConcerns. answer cs Hcs.
  destruct (apply_concerns cs p e0) as [p0 e] eqn:Hac.
  destruct (apply_concerns_same _ _ _ _ _ Hac) as (Hc & Ht & Hi).
  destruct Hr as [Hk Hg Hv]. apply wp_finishPhase; [by eapply known_of|by rewrite Ht].
Qed.

Lemma wp_dispatchAgent c p i sess prompt uids L :
  ready c p L → wps (dispatchAgent D c p i sess prompt uids) L.
Proof.
  intros Hr. unfold dispatchAgent. eff_ext. answer ok Ho. destruct ok; [|by apply wp_failPhase].
  simpl negb. cbv iota. eff_ext; [apply Hr|]. answer r Hres. eff_ext. answer rel Hrel.
  callp wp_auditDiscarded. answer u Hu. destruct r as [res|].
  - by apply wp_receiveEnvelope.
  - callp wp_closeSession; [done|]. answer u' Hu'. by apply wp_failPhase.
Qed.

Lemma wp_recordSkillUsage c pt t sks L : wp (recordSkillUsage c pt t sks) (λ _ _, True) L.
Proof.
  revert L. induction sks as [|sk sks IH]; intros L; simpl; [done|].
  split; [done|]. intros s L1 Hs1 Hok1 _. destruct (ParseID _ _); [|apply IH].
  split; [done|]. intros e L2 Hs2 Hok2 _. apply wp_bind. eapply wp_conseq; [apply IH|done].
Qed.

Lemma wp_prepareAgent c p i prior L : ready c p L → wps (prepareAgent D c p i prior) L.
Proof.
  intros Hr. unfold prepareAgent. eff_ext. answer ctx Hctx.
  eapply (wp_call _ _ _ (λ _ _, True)); [done| |].
  { by destruct (d_Skills D). }
  answer skills Hsk. eapply (wp_call _ _ _ (λ _ _, True)); [done| |].
  { destruct (_ && _); [|done]. eff_ext. answer t Ht. apply wp_recordSkillUsage. }
  answer uids Huids. eff_ext. answer prompt Hpr. destruct prompt as [prompt|]; [|by apply wp_failPhase].
  eff_ext. answer s Hsid. destruct (ParseID _ _) as [sid|]; [|by apply wp_failPhase].
  eff_ext. answer t Ht. destruct (Session_New _ _ _ _ _ _ _ _) as [s0|]; [|by apply wp_failPhase].
  destruct (Session_MarkRunning s0) as [sess|]; [|by apply wp_failPhase].
  eff_db. answer e He. destruct e; [by apply wp_failPhase|].
  callp wp_publishEvent. answer u Hu. by apply wp_dispatchAgent.
Qed.

(** ** Pre-flight *)

(** The predicates loaded are those of rows in the history. *)
Definition prior_logged (cid : ChangeID) (prior : PriorPhases) L : Prop :=
  ∀ pt pp, pt ∈ AllPhaseTypes → prior !! pt_string pt = Some pp →
    logged_phase L cid pt (λ p, p_status p = pp_Status pp ∧ p_confidence p = pp_Confidence pp).

Lemma prior_logged_mono cid prior L L' : L ⊆ L' → prior_logged cid prior L → prior_logged cid prior L'.
Proof. intros Hs Hp pt pp Hpt Hl. eapply logged_phase_mono; [done|by apply Hp]. Qed.

Lemma pt_string_inj pt pt' :
  pt ∈ AllPhaseTypes → pt' ∈ AllPhaseTypes → pt_string pt = pt_string pt' → pt = pt'.
Proof.
  assert (Hv : ∀ q, q ∈ AllPhaseTypes → PhaseType_IsValid q = true).
  { intros q Hq. apply existsb_exists. exists q. split; [by apply list_elem_of_In|].
    by apply bool_decide_eq_true. }
  intros Hp Hp' Heq. by rewrite <-(pt_of_string pt), <-(pt_of_string pt'), Heq by auto.
Qed.

Lemma wp_load_prior cid pts out L :
  pts ⊆ AllPhaseTypes → prior_logged cid out L →
  wp (load_prior cid pts out) (λ r L', ∀ prior, r = Ok prior → prior_logged cid prior L') L.
Proof.
  revert out L. induction pts as [|pt pts IH]; intros out L Hsub Hp; simpl.
  { by intros prior [= <-]. }
  split; [done|]. intros r L1 Hs1 Hok1 Hl. simpl in Hl.
  assert (Hp1 : prior_logged cid out L1) by (by eapply prior_logged_mono).
  assert (Hsub' : pts ⊆ AllPhaseTypes) by set_solver.
  destruct r as [q|[]]; [|by apply IH|by intros ? ?]. apply IH; [done|].
  destruct (Hl q eq_refl) as (Hin & Hc & Ht). intros pt' pp Hpt'.
  destruct (decide (pt_string pt = pt_string pt')) as [Heq|Hne].
  - apply pt_string_inj in Heq as <-; [|set_solver|done].
    rewrite lookup_insert_eq. intros [= <-]. by exists q.
  - rewrite lookup_insert_ne by done. by apply Hp1.
Qed.

Lemma wp_loadPriorPhases cid L :
  wp (loadPriorPhases cid) (λ r L', ∀ prior, r = Ok prior → prior_logged cid prior L') L.
Proof. apply wp_load_prior; [done|]. intros pt pp _. by rewrite lookup_empty. Qed.

Lemma preflight_verified c p prior L n :
  prior_logged (ch_id c) prior L →
  IronLaw_Check (mkCheckContext (actionForPhase (p_type p)) (p_type p) prior true n) = [] →
  p_type p = PhaseArchive → verified_in L (ch_id c).
Proof.
  intros Hp Hc Ha. unfold IronLaw_Check in Hc. rewrite !app_nil, !guard_nil in Hc. simpl in Hc.
  destruct Hc as (_ & Hv & _). rewrite Ha in Hv. specialize (Hv eq_refl).
  apply not_done_at_threshold_false in Hv as (pp & Hl & Hd & Ht).
  destruct (Hp PhaseVerify _ ltac:(set_solver) Hl) as (q & Hin & Hq & Hty & Hs & Hcf). exists q.
  split_and!; [done..|by rewrite Hs|by rewrite Hcf].
Qed.

Lemma wp_preflight c p i L :
  known c p L → governed L (p_id p) → wps (preflight D c p i) L.
Proof.
  intros Hk Hg. pose proof (kn_log _ _ _ Hk). unfold preflight. callp wp_loadPriorPhases.
  intros r L1 Hs1 Hok1 Hr. carry Hs1 Hok1. apply (governed_mono _ _ _ Hs1) in Hg.
  destruct r as [prior|]; [|by apply wp_failPhase].
  destruct (IronLaw_Check _) eqn:Hc; [|by apply wp_failPhase].
  apply wp_prepareAgent. split; [done|done|]. intros Ha. eapply preflight_verified; [by apply Hr|done|done].
Qed.

(** ** Apply and init *)

Lemma wp_runApplyPhase c p i L :
  known c p L → governed L (p_id p) → p_type p = PhaseApply → wps (runApplyPhase D c p i) L.
Proof.
  intros Hk Hg Hty. unfold runApplyPhase. eff_ext. answer r Hr. destruct r as [[e0|] err];
    [|by apply wp_failPhase].
  simpl fst. cbv iota. callp wp_reviewConcerns. answer cs Hcs.
  destruct (apply_concerns cs p e0) as [p0 e] eqn:Hac.
  destruct (apply_concerns_same _ _ _ _ _ Hac) as (Hcid & Ht & Hi).
  apply (known_of _ _ _ _ Hcid) in Hk. eff_ext. answer t Htime.
  destruct (Phase_Complete _ t p0) as [p1|] eqn:Hc; [|by apply wp_failPhase].
  destruct (complete_ok _ _ _ _ L2 Hc) as (Hp1 & Hcid1 & Hty1 & Hid1).
  { rewrite Ht, Hty. done. }
  apply (known_of _ _ _ _ Hcid1) in Hk. eff_db. answer er Hrow.
  destruct er; [by apply wp_failPhase|]. specialize (Hrow eq_refl).
  apply wp_afterSave; [done|done|]. intros L'. case_bool_decide; apply wp_publishEvent.
Qed.

Lemma wp_runInitPhase c p L :
  known c p L → p_type p = PhaseInit → wps (runInitPhase D c p) L.
Proof.
  intros Hk Hty. unfold runInitPhase. eff_ext. answer r Hr.
  destruct r as [[e0|]|]; [|by apply wp_failPhase..].
  destruct (Validator_Validate _ _) as [e|]; [|by apply wp_failPhase].
  eff_ext. answer t Ht. destruct (Phase_Complete _ t p) as [p1|] eqn:Hc; [|by apply wp_failPhase].
  destruct (complete_ok _ _ _ _ L1 Hc) as (Hp1 & Hcid1 & Hty1 & Hid1).
  { by rewrite Hty. }
  apply (known_of _ _ _ _ Hcid1) in Hk. eff_db. answer er Hrow.
  destruct er; [by apply wp_failPhase|]. specialize (Hrow eq_refl).
  apply wp_afterSave; [done|done|]. intros L'. apply wp_bind_db; [done|]. intros. by destruct (d_Bootstrap D).
Qed.

Lemma wp_runAsync c p i L : known c p L → wps (runAsync D c p i) L.
Proof.
  intros Hk. unfold runAsync. destruct (bool_decide (p_type p = PhaseInit) && _) eqn:Hi.
  { bool_facts. by apply wp_runInitPhase. }
  eff_ext. answer r Hr. destruct r as [dec|]; [|by apply wp_failPhase].
  specialize (Hr dec eq_refl).
  eapply wp_call; [done|apply wp_publishEvent|]. intros u L1 Hs1 Hok1 _. carry Hs1 Hok1.
  apply Hs1 in Hr.
  assert (Hgo : permits dec →
    wps (if bool_decide (p_type p = PhaseApply) && d_ApplyExecutor D then
           let! prior := loadPriorPhases (ch_id c) in
           runApplyPhase D c p (match prior with
              | Ok m => with_prior_status (phasesPredicateToStatusMap m) i | Err _ => i end)
         else preflight D c p i) L1).
  { intros Hperm. assert (Hg : governed L1 (p_id p)) by (by exists dec).
    destruct (bool_decide (p_type p = PhaseApply) && d_ApplyExecutor D) eqn:Ha;
      [|by apply wp_preflight]. bool_facts.
    callp wp_loadPriorPhases. intros rp L2 Hs2 Hok2 _. carry Hs2 Hok2.
    apply wp_runApplyPhase; [done|by eapply governed_mono|done]. }
  destruct dec; try (apply Hgo; done).
  - clear Hgo. callp wp_appendAudit; [apply audit_other; set_solver|]. answer u' Hu'.
    apply wp_publishEvent.
  - by apply wp_failPhase.
Qed.

Lemma wp_background j L : job_ok j L → Log_ok L → wps (background D j) L.
Proof. intros [Hc Hp] Hok. by apply wp_runAsync. Qed.

(** ** Requests *)

Lemma found_change_ok c id L :
  Log_ok L → ch_id c = id ∧ InDb (WroteChange c) ∈ L → change_ok c L ∧ ch_id c = id.
Proof. intros Hok [Hi Hin]. split; [|done]. apply (Log_ok_elem _ _ _ Hok Hin). Qed.

Lemma running_ok p L : p_status p = PhaseStatusRunning → phase_ok p L.
Proof. intros Hs. unfold phase_ok. by rewrite Hs. Qed.

Lemma start_running t p p' : Phase_Start t p = Ok p' →
  p_status p' = PhaseStatusRunning ∧ p_changeID p' = p_changeID p.
Proof. by intros (_ & _ & ->)%Phase_Start_Ok. Qed.

Lemma restart_running t p p' : Phase_Restart t p = Ok p' →
  p_status p' = PhaseStatusRunning ∧ p_changeID p' = p_changeID p.
Proof. by intros (_ & _ & ->)%Phase_Restart_Ok. Qed.

Lemma wp_Run i L : Log_ok L → wp (Run i) (λ _ _, True) L.
Proof.
  intros Hok. unfold Run. eff_db. answer rc Hc. destruct rc as [c|]; [|done].
  destruct (found_change_ok _ _ _ Hok0 (Hc c eq_refl)) as [Hco Hid].
  set (p0 := mkPhase (mkID "") (ch_id c) PhaseInit PhaseStatusRunning None f64_0 0 0 None None []).
  assert (Hk : known c p0 L0) by done.
  destruct (negb _); [done|]. eff_db. answer el Hel. destruct el; [done|].
  eff_db. answer rr Hrr. destruct rr as [|[]]; [done| |done].
  eff_ext. answer s Hs. destruct (ParseID _ s) as [pid|]; [|done].
  eff_db. answer rp Hrp. eff_ext. answer t Ht.
  destruct (Phase_Start t _) as [p|] eqn:Hst; [|done].
  destruct (start_running _ _ _ Hst) as [Hrun Hcid]. simpl in Hcid.
  eff_db; [by apply running_ok|]. answer es Hes. destruct es; [done|].
  callp wp_appendAudit; [apply audit_other; set_solver|]. answer u Hu.
  callp wp_publishEvent. answer u' Hu'.
  eff_ext; [|done]. split; [apply Hk|]. simpl. by rewrite Hcid.
Qed.

Lemma wp_saveRestarted c r q L :
  known c q L → (∀ p, r = Ok p → p_status p = PhaseStatusRunning ∧ p_changeID p = p_changeID q) →
  wp (saveRestarted r) (λ r' L', ∀ p, r' = Ok p → p_changeID p = p_changeID q) L.
Proof.
  intros Hk Hr. unfold saveRestarted. destruct r as [p|]; [|done].
  destruct (Hr p eq_refl) as [Hrun Hc]. eff_db; [by apply running_ok|].
  intros e L1 _ _ _. destruct e; [done|]. by intros ? [= <-].
Qed.

Lemma wp_Resume id L : Log_ok L → wp (Resume id) (λ _ _, True) L.
Proof.
  intros Hok. unfold Resume. eff_db. answer rp Hp. destruct rp as [p|]; [|done].
  destruct (_ && _); [done|]. eff_db. intros rc L1 Hs1 Hok1 Hc. destruct rc as [c|]; [|done].
  destruct (found_change_ok _ _ _ Hok1 (Hc c eq_refl)) as [Hco Hid].
  assert (Hk : known c p L1) by done.
  eapply (wp_call _ _ _ (λ r L', ∀ q, r = Ok q → p_changeID q = p_changeID p)); [done| |].
  { case_bool_decide; [|by intros ? [= <-]]. eff_ext. answer t Ht.
    eapply wp_saveRestarted; [done|]. by intros q ?%start_running. }
  intros r1 L2 Hs2 Hok2 Hq. carry Hs2 Hok2. destruct r1 as [p1|]; [|done].
  specialize (Hq p1 eq_refl). apply (known_of _ _ _ _ Hq) in Hk.
  eapply (wp_call _ _ _ (λ r L', ∀ q, r = Ok q → p_changeID q = p_changeID p1)); [done| |].
  { destruct (_ && _); [|by intros ? [= <-]]. eff_ext. answer t Ht.
    eapply wp_saveRestarted; [done|]. by intros q ?%restart_running. }
  intros r2 L3 Hs3 Hok3 Hq2. carry Hs3 Hok3. destruct r2 as [p2|]; [|done].
  specialize (Hq2 p2 eq_refl). apply (known_of _ _ _ _ Hq2) in Hk.
  eff_ext; [|done]. split; [apply Hk|]. apply (kn_same _ _ _ Hk).
Qed.

(** A phase that passes the gate checks was gated. *)
Lemma wp_gatedPhase id approver L :
  Log_ok L → wp (gatedPhase id approver) (λ r L', ∀ p, r = Ok p → gated L' id) L.
Proof.
  intros Hok. unfold gatedPhase. destruct (str_empty _); [done|]. eff_db. answer rp Hp.
  destruct rp as [p|]; [|done]. destruct (ps_IsTerminal _); [done|].
  unfold checkGateState. apply wp_bind. eff_db. intros g L1 Hs1 Hok1 Hg.
  destruct g as [[]|]; [|done..]. specialize (Hg eq_refl). eff_db. intros g2 L2 Hs2 Hok2 Hg2.
  destruct g2 as [[]|]; [done| |done]. simpl. intros q _. by apply Hs2.
Qed.

Lemma wp_resolveGate id dec approver reason L :
  gated L id → wps (resolveGate id dec approver reason) L.
Proof.
  intros Hg. unfold resolveGate. apply wp_bind. apply wp_bind_db; [|done].
  intros _. by exists id.
Qed.

Lemma wp_Approve id approver reason L : Log_ok L → wp (Approve id approver reason) (λ _ _, True) L.
Proof.
  intros Hok. unfold Approve. callp wp_gatedPhase; [done|]. intros r L1 Hs1 Hok1 Hg.
  destruct r as [p|]; [|done]. callp wp_resolveGate; [by eapply Hg|]. done.
Qed.

Lemma wp_Reject id approver reason L : Log_ok L → wp (Reject id approver reason) (λ _ _, True) L.
Proof.
  intros Hok. unfold Reject. callp wp_gatedPhase; [done|]. intros r L1 Hs1 Hok1 Hg.
  destruct r as [p|]; [|done]. specialize (Hg p eq_refl).
  eff_db. intros rc L2 Hs2 Hok2 _. apply Hs2 in Hg. destruct rc as [c|]; [|done].
  eapply (wp_call _ _ _ (λ _ _, True)); [done|by case_bool_decide|].
  intros r1 L3 Hs3 Hok3 _. apply Hs3 in Hg. destruct r1 as [p1|]; [|done].
  eff_ext. intros t L4 Hs4 Hok4 _. apply Hs4 in Hg.
  destruct (Phase_Complete _ t p1) as [p2|] eqn:Hc; [|done].
  eff_db; [by eapply complete_blocked_ok|]. intros es L5 Hs5 Hok5 _. apply Hs5 in Hg.
  destruct es; [done|]. callp wp_resolveGate; [done|]. done.
Qed.

Lemma wp_markInterrupted ps L : Log_ok L → wp (markInterrupted ps) (λ _ _, True) L.
Proof.
  revert L. induction ps as [|p ps IH]; intros L Hok; simpl; [done|].
  destruct (Phase_MarkInterrupted p) as [p'|] eqn:Hm; [|by apply IH].
  apply Phase_MarkInterrupted_Ok in Hm as [_ ->].
  split; [by unfold phase_ok; simpl|]. intros e L1 Hs1 Hok1 _.
  apply wp_bind. eapply wp_conseq; [by apply IH|done].
Qed.

Lemma wp_MarkStuckInterrupted L : Log_ok L → wp MarkStuckInterrupted (λ _ _, True) L.
Proof.
  intros Hok. unfold MarkStuckInterrupted. eff_db. answer r Hr. destruct r as [ps|]; [|done].
  callp wp_markInterrupted; [done|]. done.
Qed.

Lemma wp_Create name project store ref L :
  Log_ok L → wp (Change_Create name project store ref) (λ _ _, True) L.
Proof.
  intros Hok. unfold Change_Create. eff_db. answer r Hr. destruct r as [|[]]; [done| |done].
  eff_ext. answer s Hs. destruct (ParseID _ s) as [id|]; [|done]. eff_ext. answer t Ht.
  destruct (Change_New _ _ _ _ _ _) as [c|] eqn:Hc; [|done].
  apply Change_New_Ok in Hc as (_ & _ & _ & ->).
  eff_db; [|done]. split; [split; [apply backed_init|done]|]. done.
Qed.

Lemma wp_AbortReq id reason L : Log_ok L → wp (Change_AbortReq id reason) (λ _ _, True) L.
Proof.
  intros Hok. unfold Change_AbortReq. eff_db. answer r Hr. destruct r as [c|]; [|done].
  destruct (found_change_ok _ _ _ Hok0 (Hr c eq_refl)) as [Hco Hid].
  eff_ext. intros t L1 Hs1 Hok1 _. destruct (Change_Abort reason t c) as [c'|] eqn:Ha; [|done].
  unfold Change_Abort in Ha. destruct (cs_IsTerminal _); simplify_eq.
  eff_db; [|done]. split; [|done]. split; [|done]. by eapply backed_mono; [|apply Hco].
Qed.
End Safety.
