(* ===== verification/PhaseSystem.v ===== *)
(** * The orchestrator as a concurrent system

    Clients create, abort, run, resume, approve and reject; the boot sequence
    scans for stranded phases; scheduled work runs in the background; database
    statements fail before or after taking effect; processes crash.  The
    theorems of this file hold of every reachable state of that system. *)
From S2P Require Import Prelude Ids Json Envelope PhaseDomain ChangeDomain Session Outbox Discipline Store Effects PhaseHelpers Logic PhaseService PhaseSafety.
From stdpp Require Import relations.

Section System.
Context `{PgTypes} `{UlidLib} `{WireContract} `{TimeText}.
Context (D : Deps).

Definition ignore {A} (m : prog A) : prog unit := do! m in Ret tt.

(** Everything that can be started from outside. *)
Inductive request : prog unit → Prop :=
  | rq_create name project store ref : request (ignore (Change_Create name project store ref))
  | rq_abort id reason : request (ignore (Change_AbortReq id reason))
  | rq_list project status limit offset : request (ignore (Change_ListReq project status limit offset))
  | rq_run i : request (ignore (Run i))
  | rq_resume id : request (ignore (Resume id))
  | rq_approve id approver reason : request (ignore (Approve id approver reason))
  | rq_reject id approver reason : request (ignore (Reject id approver reason))
  | rq_recover : request (ignore MarkStuckInterrupted).

Definition step : sys → sys → Prop := sys_step request (background D).
Definition reached (s : sys) : Prop := reachable sys_init step s.

Lemma request_good `{!WireContractLaws} m L :
  request m → Logic.Log_ok (d_OutboxEnqueuer D) L → wps (d_OutboxEnqueuer D) m L.
Proof.
  intros Hr Hok.
  assert (Hig : ∀ A (q : prog A), Logic.wp (d_OutboxEnqueuer D) q (λ _ _, True) L →
    wps (d_OutboxEnqueuer D) (ignore q) L).
  { intros A q Hq. unfold ignore, wps. apply wp_bind. by eapply wp_conseq. }
  destruct Hr; apply Hig.
  - by apply wp_Create.
  - by apply wp_AbortReq.
  - done.
  - by apply wp_Run.
  - by apply wp_Resume.
  - by apply wp_Approve.
  - by apply wp_Reject.
  - by apply wp_MarkStuckInterrupted.
Qed.

Lemma reached_ok `{!WireContractLaws} s : reached s → sys_ok (d_OutboxEnqueuer D) s.
Proof.
  apply sys_sound; [by intros; apply request_good|]. intros. by apply wp_background.
Qed.

Lemma Log_ok_split ow L1 e L2 : Logic.Log_ok ow (L1 ++ e :: L2) → justified ow e L2.
Proof. induction L1 as [|e' L1 IH]; simpl; [by intros [? _]|]. intros [_ Hl]. auto. Qed.

(** ** Runs of the executable semantics are runs of the system *)

Lemma exec_reaches E (m : prog unit) d L n ts1 ts2 :
  rtc step (mkSys d L (ts1 ++ m :: ts2))
    (mkSys (w_db (exec E m (mkWorld d L n)).2) (w_log (exec E m (mkWorld d L n)).2)
       (ts1 ++ Ret tt :: ts2)).
Proof.
  revert d L n. induction m as [[]|R e k IH]; intros d L n; simpl; [done|].
  destruct (perform E e (mkWorld d L n)) as [r w'] eqn:Hp.
  destruct w' as [d' L' n'].
  eapply rtc_l; [|apply (IH r d' L' n')]. apply sys_effect.
  destruct e as [R o|R o]; simpl in Hp.
  - destruct (db_exec o _ d) as [[r' es] d1] eqn:Hd. simplify_eq. by eapply performs_db.
  - simplify_eq. by apply performs_ext.
Qed.

Lemma reached_rtc s s' : reached s → rtc step s s' → reached s'.
Proof. intros Hr Hs. induction Hs; [done|]. apply IHHs. by eapply reach_step. Qed.

(** A script: requests, and the background work of the newest scheduled job. *)
Inductive command :=
  | CmdRequest (m : prog unit) (Hm : request m)
  | CmdBackground.

Definition newest_job (L : list entry) : option job :=
  list.head (omap (λ e, match e with Scheduled j => Some j | _ => None end) L).

Definition run_command (E : env) (c : command) (w : world) : world :=
  match c with
  | CmdRequest m _ => (exec E m w).2
  | CmdBackground =>
      match newest_job (w_log w) with
      | Some j => (exec E (background D j) w).2
      | None => w
      end
  end.

Definition run_script (E : env) (cs : list command) (w : world) : world :=
  foldl (λ w c, run_command E c w) w cs.

Lemma newest_job_elem L j : newest_job L = Some j → Scheduled j ∈ L.
Proof.
  unfold newest_job. induction L as [|e L IH]; simpl; [done|].
  destruct e; simpl; try (intros Hn; apply list_elem_of_further; by apply IH).
  intros [= ->]. apply list_elem_of_here.
Qed.

Lemma run_script_reached E cs w ts :
  reached (mkSys (w_db w) (w_log w) ts) →
  ∃ ts', reached (mkSys (w_db (run_script E cs w)) (w_log (run_script E cs w)) ts').
Proof.
  revert w ts. induction cs as [|c cs IH]; intros w ts Hr; simpl; [eauto|].
  destruct c as [m Hm|]; simpl.
  - eapply (IH _ (ts ++ [Ret tt])), reached_rtc.
    + eapply reach_step; [exact Hr|]. by apply (sys_request request (background D) _ _ _ m).
    + destruct w as [d L n]. apply exec_reaches.
  - destruct (newest_job (w_log w)) as [j|] eqn:Hj; [|by eapply IH].
    eapply (IH _ (ts ++ [Ret tt])), reached_rtc.
    + eapply reach_step; [exact Hr|].
      by apply (sys_spawn request (background D) _ _ _ j), newest_job_elem.
    + destruct w as [d L n]. apply exec_reaches.
Qed.
End System.

(** ** The Iron Laws *)

Section Laws.
Context `{PgTypes} `{UlidLib} `{WireContract} `{!WireContractLaws} `{TimeText}.
Context (D : Deps).

(** C1: (Iron Law 1, persist before transition) whenever a change row is
    written with its pointer at some phase, then for that phase and for every
    phase before it back to explore, a phase row with an accepting status and
    the matching envelope had already been written, for the same change, at
    an earlier point of the history. *)
Theorem transition_only_after_persist s newer older c n i pt :
  reached D s →
  sys_log s = newer ++ InDb (WroteChange c) :: older →
  phase_index (ch_currentPhase c) = Some n → (1 <= i <= n)%nat → AllPhaseTypes !! i = Some pt →
  ∃ p, InDb (WrotePhase p) ∈ older ∧ p_changeID p = ch_id c ∧ p_type p = pt ∧ accepted_row p.
Proof.
  intros Hr Hl Hn Hi Hpt. pose proof (so_log _ _ (reached_ok D s Hr)) as Hok.
  rewrite Hl in Hok. apply Log_ok_split in Hok as [[(m & Hm & Hb) _] _]. simplify_eq.
  by apply (Hb i).
Qed.

(** C2: (Iron Law 3) a change that is completed has its pointer at archive, and
    its verify phase was persisted as DONE with a confidence of at least 0.9,
    whatever ran concurrently and whatever failed. *)
Theorem completed_change_was_verified s id c :
  reached D s → t_changes (sys_db s) !! id = Some c → ch_status c = StatusCompleted →
  ch_currentPhase c = PhaseArchive ∧
  ∃ v, InDb (WrotePhase v) ∈ sys_log s ∧ p_changeID v = id ∧ p_type v = PhaseVerify ∧
       p_status v = PhaseStatusDone ∧ (f64_0_9 <= p_confidence v)%Q.
Proof.
  intros Hr Hc Hs. destruct (reached_ok D s Hr) as [Hok Hdb _].
  destruct (dl_changes _ _ Hdb _ _ Hc) as [<- Hin].
  pose proof (Log_ok_elem _ _ _ Hok Hin) as [[(n & Hn & Hb) Ha] _].
  specialize (Ha Hs). split; [done|]. rewrite Ha in Hn.
  assert (n = 8%nat) as -> by (vm_compute in Hn; congruence).
  destruct (Hb 8%nat PhaseArchive) as (a & Hina & Hca & Hta & Hacc); [lia|done|].
  pose proof (Log_ok_elem _ _ _ Hok Hina) as [_ Hv].
  destruct (Hv (proj1 Hacc) Hta) as (v & Hinv & Hcv & Htv & Hsv & Hth).
  exists v. split_and!; [done|congruence|done|done|exact Hth].
Qed.

(** C3: (transactional outbox) with the enqueuer wired, a change row never
    becomes completed without the pending phase.archived event of that change
    having been written in the same transaction. *)
Theorem completed_change_was_enqueued s id c :
  d_OutboxEnqueuer D = true →
  reached D s → t_changes (sys_db s) !! id = Some c → ch_status c = StatusCompleted →
  ∃ c' ev, InDb (WroteOutbox c' ev) ∈ sys_log s ∧ ch_id c' = id ∧
           ch_status c' = StatusCompleted ∧ ev_status ev = OutboxPending.
Proof.
  intros Hw Hr Hc Hs. destruct (reached_ok D s Hr) as [Hok Hdb _].
  destruct (dl_changes _ _ Hdb _ _ Hc) as [<- Hin].
  pose proof (Log_ok_elem _ _ _ Hok Hin) as [_ He].
  destruct (He Hs Hw) as (c' & ev & Hid & Hino).
  pose proof (Log_ok_elem _ _ _ Hok Hino) as (Hs' & _ & Hev). by exists c', ev.
Qed.

(** C4: (Iron Law 4) no agent is dispatched and no apply execution is started
    for a phase unless governance had answered for that phase with a decision
    other than deny or require-approval. *)
Theorem dispatch_only_after_governance s newer older pid :
  reached D s →
  (sys_log s = newer ++ Dispatched pid :: older ∨
   ∃ cid, sys_log s = newer ++ Executed cid pid :: older) →
  ∃ d, Governed pid d ∈ older ∧ d ≠ DecisionDeny ∧ d ≠ DecisionRequireApproval.
Proof.
  intros Hr Hl. pose proof (so_log _ _ (reached_ok D s Hr)) as Hok.
  destruct Hl as [Hl|[cid Hl]]; rewrite Hl in Hok; by apply Log_ok_split in Hok.
Qed.

(** (approval gate) a gate decision is only ever recorded for a phase for
    which an approval had been required before. *)
Theorem decision_only_on_gated_phase s newer older pid :
  reached D s →
  sys_log s = newer ++ InDb (WroteAudit pid EventApprovalResolved) :: older →
  ∃ id, pid = Some id ∧ InDb (WroteAudit (Some id) EventApprovalRequired) ∈ older.
Proof.
  intros Hr Hl. pose proof (so_log _ _ (reached_ok D s Hr)) as Hok.
  rewrite Hl in Hok. apply Log_ok_split in Hok. by apply Hok.
Qed.
End Laws.
