(* ===== verification/PhaseRuns.v ===== *)
(** * Runs of the phase service

    What one handler does from start to finish, by executing it: the
    background work always settles its phase, it holds a spawn slot exactly
    around the dispatch, [Run] implements its decision table, the boot scan
    leaves no phase running, and a gate is decided once. *)
From S2P Require Import Prelude Ids Json Envelope PhaseDomain ChangeDomain Session Outbox Discipline Store Effects PhaseHelpers Logic PhaseService.
From stdpp Require Import sorting.

(** ** Kinds of effects *)

(** No phase row is written. *)
Definition quiet R (e : eff R) : Prop :=
  match e with Db (PhaseSave _) => False | _ => True end.

(** Neither a spawn slot nor a dispatch. *)
Definition slotless R (e : eff R) : Prop :=
  match e with Ext (SpawnAcquire _) | Ext (SpawnRelease _) | Ext (Dispatch _ _ _) => False | _ => True end.

Definition plain R (e : eff R) : Prop := quiet R e ∧ slotless R e.

Section Effects.
Context `{UlidLib} `{WireContract} `{TimeText}.
Context (D : Deps).

Lemma plain_now : effects_in plain now.
Proof. by repeat split. Qed.
#[local] Hint Resolve plain_now : effects.

Lemma plain_appendAudit pid et : effects_in plain (appendAudit pid et).
Proof. by repeat split. Qed.
#[local] Hint Resolve plain_appendAudit : effects.

Lemma plain_publishEvent pid et pl : effects_in plain (publishEvent pid et pl).
Proof. by repeat split. Qed.
#[local] Hint Resolve plain_publishEvent : effects.

Lemma plain_auditDiscarded pid e : effects_in plain (auditDiscarded pid e).
Proof. unfold auditDiscarded. effects. Qed.
#[local] Hint Resolve plain_auditDiscarded : effects.

Lemma plain_closeSession pid s e x : effects_in plain (closeSession pid s e x).
Proof. unfold closeSession. effects. Qed.
#[local] Hint Resolve plain_closeSession : effects.

Lemma plain_ensureRunning p : effects_in plain (ensureRunning p).
Proof. unfold ensureRunning. effects. Qed.
#[local] Hint Resolve plain_ensureRunning : effects.

Lemma plain_extractFailure pid s : effects_in plain (extractFailureReasonFromSession pid s).
Proof. by repeat split. Qed.
#[local] Hint Resolve plain_extractFailure : effects.

Lemma plain_load_prior cid pts out : effects_in plain (load_prior cid pts out).
Proof. revert out. induction pts; intros out; cbn [load_prior]; effects; auto. Qed.

Lemma plain_loadPriorPhases cid : effects_in plain (loadPriorPhases cid).
Proof. apply plain_load_prior. Qed.
#[local] Hint Resolve plain_loadPriorPhases : effects.

Lemma plain_saveCompleted c t : effects_in plain (saveCompleted D c t).
Proof. unfold saveCompleted. effects. Qed.
#[local] Hint Resolve plain_saveCompleted : effects.

Lemma plain_advanceChange c pt : effects_in plain (advanceChange D c pt).
Proof. unfold advanceChange. effects. Qed.
#[local] Hint Resolve plain_advanceChange : effects.

Lemma plain_reviewConcerns c p e o : effects_in plain (reviewConcerns D c p e o).
Proof. unfold reviewConcerns. effects. Qed.
#[local] Hint Resolve plain_reviewConcerns : effects.

Lemma plain_persistArtifacts p e : effects_in plain (persistArtifactsToMemory p e).
Proof. unfold persistArtifactsToMemory. effects. Qed.
#[local] Hint Resolve plain_persistArtifacts : effects.

Lemma plain_recordSkillUsage c pt t l : effects_in plain (recordSkillUsage c pt t l).
Proof. induction l; cbn [recordSkillUsage]; effects; done. Qed.
#[local] Hint Resolve plain_recordSkillUsage : effects.

Lemma plain_updateOutcomes l s : effects_in plain (updateSkillUsageOutcomes D l s).
Proof. unfold updateSkillUsageOutcomes. effects. Qed.
#[local] Hint Resolve plain_updateOutcomes : effects.

Lemma plain_fallback c p : effects_in plain (fallbackToMemory c p).
Proof. unfold fallbackToMemory. effects. Qed.
#[local] Hint Resolve plain_fallback : effects.
End Effects.

#[export] Hint Resolve plain_now plain_appendAudit plain_publishEvent plain_auditDiscarded
  plain_closeSession plain_ensureRunning plain_extractFailure plain_loadPriorPhases
  plain_saveCompleted plain_advanceChange plain_reviewConcerns plain_persistArtifacts
  plain_recordSkillUsage plain_updateOutcomes plain_fallback : effects.

(** ** Executing a program *)

Section Exec.
Context `{PgTypes}.

(** [Q] holds of the answer and the world when [m] has run. *)
Definition runs (E : env) {A} (m : prog A) (Q : A → world → Prop) (w : world) : Prop :=
  Q (exec E m w).1 (exec E m w).2.

Lemma runs_bind E {A B} (m : prog A) (f : A → prog B) Q w :
  runs E m (λ a, runs E (f a) Q) w → runs E (prog_bind m f) Q w.
Proof. unfold runs. rewrite exec_bind. by destruct (exec E m w). Qed.

Lemma runs_mono E {A} (m : prog A) (Q Q' : A → world → Prop) w :
  runs E m Q w → (∀ a w', Q a w' → Q' a w') → runs E m Q' w.
Proof. unfold runs. auto. Qed.

(** An invariant of every effect a program may perform holds when it is done. *)
Lemma runs_inv (S : ∀ R, eff R → Prop) (P : world → Prop) E {A} (m : prog A) w :
  (∀ R (e : eff R) w, S R e → P w → P (perform E e w).2) →
  effects_in S m → P w → runs E m (λ _, P) w.
Proof.
  intros HP. revert w. unfold runs. induction m as [a|R e k IH]; intros w; simpl; [done|].
  intros [He Hk] Hw. specialize (HP R e w He Hw).
  destruct (perform E e w) as [r w']. simpl in HP. by apply IH.
Qed.

Definition present (cid : ChangeID) (d : DB) : Prop := is_Some (t_changes d !! cid).

(** No statement deletes a change. *)
Lemma db_exec_present {R} (o : dbop R) f d cid : present cid d → present cid (db_exec o f d).2.
Proof.
  intros Hd.
  assert (Hu : ∀ c c' d', change_upsert c d = Ok (c', d') → present cid d').
  { intros c c' d'. unfold change_upsert, present in *.
    repeat case_match; intros [= <- <-]; simpl; apply lookup_insert_is_Some'; auto. }
  assert (He : ∀ x, write_effect o d = Ok x → present cid x.2).
  { intros [es d'] Hw. destruct o; simpl in *; simplify_eq/=; try done.
    - destruct (change_upsert c d) as [[c' d1]|] eqn:Hc; simplify_eq. by eapply Hu.
    - unfold phase_upsert in *. by split_all.
    - unfold session_upsert in *. by split_all.
    - unfold completed_with_outbox in *.
      destruct (change_upsert c d) as [[c' d1]|] eqn:Hc; [|done]. apply Hu in Hc.
      destruct (t_outbox d1 !! ev_id ev); simplify_eq; done.
    - unfold usage_insert in *. by split_all. }
  unfold db_exec. destruct f; simpl; try done; destruct (write_effect o d) eqn:Hw; simpl; auto;
    by apply (He _ eq_refl).
Qed.

Lemma db_exec_quiet {R} (o : dbop R) f d :
  quiet R (Db o) → t_phases (db_exec o f d).2 = t_phases d.
Proof.
  intros Hq.
  assert (Hu : ∀ c x, change_upsert c d = Ok x → t_phases x.2 = t_phases d).
  { intros c [c' d']. unfold change_upsert. repeat case_match; by intros [= <- <-]. }
  assert (He : ∀ x, write_effect o d = Ok x → t_phases x.2 = t_phases d).
  { intros [es d'] Hw. destruct o; simpl in *; simplify_eq/=; try done.
    - destruct (change_upsert c d) as [[c' d1]|] eqn:Hc; simplify_eq. by apply Hu in Hc.
    - unfold session_upsert in *. by split_all.
    - unfold completed_with_outbox in *.
      destruct (change_upsert c d) as [[c' d1]|] eqn:Hc; [|done]. apply Hu in Hc.
      destruct (t_outbox d1 !! ev_id ev); simplify_eq; done.
    - unfold usage_insert in *. by split_all. }
  unfold db_exec. destruct f; simpl; try done; destruct (write_effect o d) eqn:Hw; simpl; auto;
    by apply (He _ eq_refl).
Qed.

(** ** The keys of the phases table *)

(** The primary key and UNIQUE (change_id, phase_type, attempts). *)
Record keys_ok (T : gmap PhaseID Phase) : Prop := {
  key_id : ∀ id r, T !! id = Some r → p_id r = id;
  key_attempt : ∀ id id' r r', T !! id = Some r → T !! id' = Some r' →
                  same_attempt r r' = true → id = id'
}.

Lemma same_attempt_iff p r :
  same_attempt p r = true ↔
  p_changeID r = p_changeID p ∧ p_type r = p_type p ∧ p_attempts r = p_attempts p.
Proof.
  unfold same_attempt. rewrite !andb_true_iff, !bool_decide_eq_true, Z.eqb_eq. tauto.
Qed.

Lemma find_attempt_Some p d id r :
  find_attempt p d = Some (id, r) → t_phases d !! id = Some r ∧ same_attempt p r = true.
Proof.
  intros [Hin Hs]%find_some. apply list_elem_of_In, elem_of_map_to_list in Hin. done.
Qed.

Lemma find_attempt_None p d id r :
  find_attempt p d = None → t_phases d !! id = Some r → same_attempt p r = false.
Proof.
  intros Hf Hr. apply (find_none _ _ Hf (id, r)), list_elem_of_In, elem_of_map_to_list, Hr.
Qed.

Lemma find_attempt_keys p d id r :
  keys_ok (t_phases d) → t_phases d !! id = Some r → same_attempt p r = true →
  find_attempt p d = Some (id, r).
Proof.
  intros Hk Hr Hs. destruct (find_attempt p d) as [[id' r']|] eqn:Hf.
  - apply find_attempt_Some in Hf as [Hr' Hs'].
    assert (id = id') as <-; [|congruence].
    eapply (key_attempt _ Hk); [done|done|]. rewrite same_attempt_iff in *. intuition congruence.
  - rewrite (find_attempt_None _ _ _ _ Hf Hr) in Hs. done.
Qed.

(** Saving keeps the keys. *)
Lemma phase_upsert_keys p d row d' :
  keys_ok (t_phases d) → phase_upsert p d = Ok (row, d') → keys_ok (t_phases d').
Proof.
  intros Hk. unfold phase_upsert. destruct (find_attempt p d) as [[id r]|] eqn:Hf.
  - apply find_attempt_Some in Hf as [Hr Hs]. intros [= <- <-].
    pose proof (key_id _ Hk _ _ Hr) as Hid. split; simpl.
    + intros id' r' [[<- <-]|[_ Hr']]%lookup_insert_Some; [done|]. by apply (key_id _ Hk).
    + intros i j ri rj Hi Hj Hij.
      assert (Hold : ∀ k rk, <[id:=mkPhase (p_id r) (p_changeID r) (p_type r) (p_status p) (stored_envelope <$> p_envelope p)
                (numeric_3_2 (p_confidence p)) (p_retryBudget p) (p_attempts r) (p_startedAt p)
                (p_completedAt p) (p_concerns p)]> (t_phases d) !! k = Some rk →
              ∃ rk', t_phases d !! k = Some rk' ∧ p_changeID rk' = p_changeID rk ∧
                     p_type rk' = p_type rk ∧ p_attempts rk' = p_attempts rk).
      { intros k rk [[<- <-]|[_ Hrk]]%lookup_insert_Some; eauto. }
      apply Hold in Hi as (ri' & Hi & ? & ? & ?). apply Hold in Hj as (rj' & Hj & ? & ? & ?).
      eapply (key_attempt _ Hk); [exact Hi|exact Hj|]. rewrite same_attempt_iff in *. intuition congruence.
  - destruct (t_phases d !! p_id p) eqn:Hn; [done|]. destruct (t_changes d !! p_changeID p); [|done].
    intros [= <- <-]. split; simpl.
    + intros id' r' [[<- <-]|[_ Hr']]%lookup_insert_Some; [done|]. by apply (key_id _ Hk).
    + intros i j ri rj [[<- <-]|[Hi Hri]]%lookup_insert_Some [[<- <-]|[Hj Hrj]]%lookup_insert_Some Hij;
        [done| | |by eapply (key_attempt _ Hk)].
      * pose proof (find_attempt_None _ _ _ _ Hf Hrj) as Hf'. unfold same_attempt in *. simpl in *. congruence.
      * pose proof (find_attempt_None _ _ _ _ Hf Hri) as Hf'. apply not_true_iff_false in Hf' as [].
        rewrite same_attempt_iff in *. simpl in *. intuition congruence.
Qed.

Lemma db_exec_keys {R} (o : dbop R) f d :
  keys_ok (t_phases d) → keys_ok (t_phases (db_exec o f d).2).
Proof.
  intros Hk. destruct o; try (rewrite db_exec_quiet; [done|exact I]).
  unfold db_exec. simpl. destruct f; simpl; try done;
    (destruct (phase_upsert p d) as [[row d']|] eqn:Hu; simpl; [by eapply phase_upsert_keys|done]).
Qed.
End Exec.

(** ** The background work settles its phase *)

Section Settle.
Context `{PgTypes} `{UlidLib} `{WireContract} `{TimeText}.
Context (D : Deps) (E : env).

(** The database answers. *)
Definition healthy_env : Prop := ∀ n, env_fault E n = NoFault.

(** Governance never asks for an approval. *)
Definition governance_decides : Prop := ∀ cid pid pt task n,
  env_ext E _ (EvaluatePhase cid pid pt task) n ≠ Ok DecisionRequireApproval.

(** The apply executor answers with a status of the envelope contract. *)
Definition executor_conforms : Prop := ∀ c p i n e b,
  env_ext E _ (ApplyExecute c p i) n = (Some e, b) → env_status_IsValid (e_Status e) = true.

(** The row of [p], with the attempt [p] is at, and its change. *)
Definition row_present (p : Phase) (w : world) : Prop :=
  keys_ok (t_phases (w_db w)) ∧
  (∃ r, t_phases (w_db w) !! p_id p = Some r ∧ same_attempt p r = true) ∧
  present (p_changeID p) (w_db w).

(** The row of [p] is in a status of [S]. *)
Definition left_in (S : PhaseStatus → Prop) (p : Phase) (w : world) : Prop :=
  ∃ r, t_phases (w_db w) !! p_id p = Some r ∧ S (p_status r).

Definition settled : Phase → world → Prop := left_in (λ s, s ≠ PhaseStatusRunning).

Lemma left_in_mono (S S' : PhaseStatus → Prop) p w : (∀ s, S s → S' s) → left_in S p w → left_in S' p w.
Proof. intros HS (r & Hr & Hs). exists r. auto. Qed.

Lemma perform_phases {R} (e : eff R) w :
  quiet R e → t_phases (w_db (perform E e w).2) = t_phases (w_db w).
Proof.
  intros Hq. destruct e as [R o|R o]; simpl; [|done].
  pose proof (db_exec_quiet o (env_fault E (w_tick w)) (w_db w) Hq) as He.
  by destruct (db_exec o _ _) as [[r es] d].
Qed.

Lemma perform_present {R} (e : eff R) w cid :
  present cid (w_db w) → present cid (w_db (perform E e w).2).
Proof.
  intros Hq. destruct e as [R o|R o]; simpl; [|done].
  pose proof (db_exec_present o (env_fault E (w_tick w)) (w_db w) cid Hq) as He.
  by destruct (db_exec o _ _) as [[r es] d].
Qed.

Lemma runs_row p {A} (m : prog A) w :
  effects_in quiet m → row_present p w → runs E m (λ _, row_present p) w.
Proof.
  intros Hm Hw. eapply runs_inv; [|exact Hm|exact Hw].
  intros R e w' Hq (Hk & Hr & Hp). unfold row_present. rewrite perform_phases by done.
  split_and!; [done|done|]. by apply perform_present.
Qed.

Lemma runs_left S p {A} (m : prog A) w :
  effects_in quiet m → left_in S p w → runs E m (λ _, left_in S p) w.
Proof.
  intros Hm Hw. eapply runs_inv; [|exact Hm|exact Hw].
  intros R e w' Hq Hs. unfold left_in. by rewrite perform_phases.
Qed.

(** Sequencing after a program that writes no phase row. *)
Lemma runs_then p {A B} (m : prog A) (f : A → prog B) Q w :
  effects_in plain m → row_present p w →
  (∀ a w', row_present p w' → runs E (f a) Q w') → runs E (prog_bind m f) Q w.
Proof.
  intros Hm Hw Hf. apply runs_bind. eapply runs_mono; [apply (runs_row p); [|done]|by intros; apply Hf].
  eapply effects_mono; [|done]. by intros ? ? [? _].
Qed.

Lemma left_then S p {A B} (m : prog A) (f : A → prog B) w :
  effects_in plain m → (∀ a, effects_in plain (f a)) → left_in S p w →
  runs E (prog_bind m f) (λ _, left_in S p) w.
Proof.
  intros Hm Hf. apply runs_left, effects_bind; [|intros a; specialize (Hf a)];
    (eapply effects_mono; [|done]); by intros ? ? [? _].
Qed.

Definition same_phase_key (p q : Phase) : Prop :=
  p_id q = p_id p ∧ p_changeID q = p_changeID p ∧ p_type q = p_type p ∧ p_attempts q = p_attempts p.

Lemma row_present_key p q w : same_phase_key p q → row_present p w → row_present q w.
Proof.
  intros (Hi & Hc & Ht & Ha) (Hk & Hr & Hp). unfold row_present, same_attempt in *.
  by rewrite Hi, Hc, Ht, Ha.
Qed.

(** Saving the phase, while its row is there, leaves its status in the row. *)
Lemma save_leaves p q w :
  healthy_env → row_present p w → same_phase_key p q →
  runs E (db (PhaseSave q)) (λ e w', e = None ∧ left_in (eq (p_status q)) p w') w.
Proof.
  intros HE Hw Hkey. pose proof (row_present_key _ _ _ Hkey Hw) as (Hk & (r & Hr & Hsame) & _).
  pose proof (find_attempt_keys _ _ _ _ Hk Hr Hsame) as Hf. destruct Hkey as (Hid & _).
  unfold runs. simpl. rewrite HE. simpl. unfold phase_upsert. rewrite Hf. simpl.
  split; [done|]. eexists. split; [rewrite <-Hid; simpl; apply lookup_insert_eq|done].
Qed.

Context (HE : healthy_env) (HG : governance_decides) (HA : executor_conforms).

Ltac then_ a :=
  match goal with Hw : row_present ?p _ |- runs _ (prog_bind _ _) _ _ =>
    apply (runs_then p); [solve [effects; done]|exact Hw|clear Hw; intros a ? Hw] end.

Lemma Complete_blocked c p reason t :
  p_status p = PhaseStatusRunning →
  ∃ q, Phase_Complete (Some (blockedEnvelope c (p_type p) reason)) t p = Ok q ∧
       same_phase_key p q ∧ p_status q = PhaseStatusBlocked.
Proof.
  intros Hr. eexists. split; [apply Phase_Complete_Ok; eexists; repeat (split; [done|]); done|done].
Qed.

Lemma runs_find_change p {B} (f : _ → prog B) Q w :
  row_present p w → (∀ c w', row_present p w' → runs E (f (Ok c)) Q w') →
  runs E (prog_bind (db (ChangeFindByID (p_changeID p))) f) Q w.
Proof.
  intros (Hk & Hrow & [c Hc]) Hf. apply runs_bind. unfold runs at 1. simpl. rewrite HE. simpl.
  unfold change_find. rewrite Hc. apply Hf. split_and!; [done|done|by exists c].
Qed.

Lemma ensureRunning_running p : p_status p = PhaseStatusRunning → ensureRunning p = Ret p.
Proof. intros Hr. unfold ensureRunning. by rewrite bool_decide_eq_false_2 by auto. Qed.

Lemma fail_leaves p rule reason w :
  p_status p = PhaseStatusRunning → row_present p w →
  runs E (failPhaseWithReason p rule reason) (λ _, left_in (eq PhaseStatusBlocked) p) w.
Proof.
  intros Hr Hw. unfold failPhaseWithReason. apply (runs_find_change p); [done|].
  clear dependent w. intros c w Hw. rewrite ensureRunning_running by done. cbn [prog_bind].
  then_ t. destruct (Complete_blocked c p reason t Hr) as (q & Hq & Hkey & Hs). rewrite Hq.
  apply runs_bind, runs_bind. eapply runs_mono; [by apply save_leaves|].
  rewrite Hs. intros e w'' [_ Hset]. apply (runs_left _ p (Ret tt)) in Hset as Hset'; [|done].
  apply (left_then _ p); [effects; done| |done]. intros _. effects; done.
Qed.

Lemma fail_settles p rule reason w :
  p_status p = PhaseStatusRunning → row_present p w →
  runs E (failPhaseWithReason p rule reason) (λ _, settled p) w.
Proof.
  intros Hr Hw. eapply runs_mono; [by apply fail_leaves|]. intros ? w'. apply left_in_mono. by intros ? <-.
Qed.

(** The tail common to every accepted or refused completion. *)
Lemma saved_leaves p q w {A} (f : option store_error → prog A) :
  row_present p w → same_phase_key p q →
  effects_in plain (f None) → runs E (prog_bind (db (PhaseSave q)) f) (λ _, left_in (eq (p_status q)) p) w.
Proof.
  intros Hw Hkey Hf. apply runs_bind. eapply runs_mono; [by apply (save_leaves p)|].
  intros e w' [-> Hset]. apply runs_left; [|done].
  eapply effects_mono; [|exact Hf]. by intros ? ? [? _].
Qed.

Lemma saved_settles p q w {A} (f : option store_error → prog A) :
  row_present p w → same_phase_key p q → p_status q ≠ PhaseStatusRunning →
  effects_in plain (f None) → runs E (prog_bind (db (PhaseSave q)) f) (λ _, settled p) w.
Proof.
  intros Hw Hkey Hs Hf. eapply runs_mono; [by apply saved_leaves|]. intros ? w'. apply left_in_mono. by intros ? <-.
Qed.

Lemma Complete_settles p env t q :
  env_status_IsValid (e_Status env) = true → Phase_Complete (Some env) t p = Ok q →
  same_phase_key p q ∧ p_status q ≠ PhaseStatusRunning.
Proof.
  intros Hv (e & [= <-] & _ & _ & _ & ->)%Phase_Complete_Ok. by destruct (e_Status env).
Qed.

Lemma finish_settles c p env uids w :
  p_status p = PhaseStatusRunning → env_status_IsValid (e_Status env) = true → row_present p w →
  runs E (finishPhase D c p env uids) (λ _, settled p) w.
Proof.
  intros Hr Hv Hw. unfold finishPhase. then_ t.
  destruct (Phase_Complete (Some env) t p) as [q|] eqn:Hq; [|by apply fail_settles].
  destruct (Complete_settles _ _ _ _ Hv Hq) as [Hkey Hs].
  apply saved_settles; [done|done|done|]. effects; done.
Qed.

Lemma apply_concerns_key cs p env :
  same_phase_key p (apply_concerns cs p env).1 ∧
  p_status (apply_concerns cs p env).1 = p_status p ∧
  (env_status_IsValid (e_Status env) = true →
   env_status_IsValid (e_Status (apply_concerns cs p env).2) = true).
Proof. unfold apply_concerns. by case_match. Qed.

Lemma left_key S p q w : same_phase_key p q → left_in S q w → left_in S p w.
Proof. intros (Hid & _) Hs. unfold left_in in *. by rewrite <-Hid. Qed.

Lemma settled_key p q w : same_phase_key p q → settled q w → settled p w.
Proof. apply left_key. Qed.

Lemma review_finish_settles c p env uids cs w :
  p_status p = PhaseStatusRunning → env_status_IsValid (e_Status env) = true → row_present p w →
  runs E (let '(p0, e) := apply_concerns cs p env in finishPhase D c p0 e uids) (λ _, settled p) w.
Proof.
  intros Hr Hv Hw. destruct (apply_concerns_key cs p env) as (Hkey & Hst & Hval).
  destruct (apply_concerns cs p env) as [p0 e]. simpl in *.
  eapply runs_mono; [apply finish_settles; [congruence|auto|by eapply row_present_key]|].
  intros ? w' Hs. by eapply settled_key.
Qed.

Lemma receive_settles c p i sess res uids w :
  p_status p = PhaseStatusRunning → row_present p w →
  runs E (receiveEnvelope D c p i sess res uids) (λ _, settled p) w.
Proof.
  intros Hr Hw. unfold receiveEnvelope. then_ content.
  destruct (Validator_Validate content (p_type p)) as [e0|] eqn:Hv; [|then_ u; by apply fail_settles].
  apply Validator_Validate_Ok in Hv as (_ & _ & _ & _ & _ & (_ & _ & Hvalid & _) & _).
  match goal with |- runs _ (if ?b then _ else _) _ _ => destruct b end.
  - then_ u. by apply fail_settles.
  - then_ u. then_ u'. then_ cs. by apply review_finish_settles.
Qed.

Lemma runs_ext_row p {R B} (o : extop R) (f : R → prog B) Q w :
  row_present p w →
  (∀ n w', row_present p w' → runs E (f (env_ext E _ o n)) Q w') → runs E (prog_bind (ext o) f) Q w.
Proof. intros Hw Hf. apply runs_bind. unfold runs at 1. simpl. by apply Hf. Qed.

Lemma dispatch_settles c p i sess prompt uids w :
  p_status p = PhaseStatusRunning → row_present p w →
  runs E (dispatchAgent D c p i sess prompt uids) (λ _, settled p) w.
Proof.
  intros Hr Hw. unfold dispatchAgent. apply (runs_ext_row p); [done|]. clear dependent w. intros n w Hw.
  destruct (env_ext E _ (SpawnAcquire _) n); simpl negb; cbv iota; [|by apply fail_settles].
  apply (runs_ext_row p); [done|]. clear dependent w. intros n1 w Hw.
  apply (runs_ext_row p); [done|]. clear dependent w. intros n2 w Hw. then_ u.
  destruct (env_ext E _ (Dispatch _ _ _) n1) as [res|]; [by apply receive_settles|].
  then_ u'. by apply fail_settles.
Qed.

Lemma prepare_settles c p i prior w :
  p_status p = PhaseStatusRunning → row_present p w →
  runs E (prepareAgent D c p i prior) (λ _, settled p) w.
Proof.
  intros Hr Hw. unfold prepareAgent. then_ ctx. then_ skills. then_ uids. then_ prompt.
  destruct prompt as [prompt|]; [|by apply fail_settles]. then_ s.
  destruct (ParseID SessionK s) as [sid|]; [|by apply fail_settles]. then_ t.
  destruct (Session_New _ _ _ _ _ _ _ _) as [sess0|]; [|by apply fail_settles].
  destruct (Session_MarkRunning sess0) as [sess|]; [|by apply fail_settles]. then_ e.
  destruct e; [by apply fail_settles|]. then_ u. by apply dispatch_settles.
Qed.

Lemma apply_settles c p i w :
  p_status p = PhaseStatusRunning → row_present p w →
  runs E (runApplyPhase D c p i) (λ _, settled p) w.
Proof.
  intros Hr Hw. unfold runApplyPhase. apply (runs_ext_row p); [done|]. clear dependent w. intros n w Hw.
  destruct (env_ext E _ (ApplyExecute c p i) n) as [[env0|] b] eqn:Hx; [|by apply fail_settles].
  pose proof (HA _ _ _ _ _ _ Hx) as Hv. cbn [fst snd]. then_ cs.
  destruct (apply_concerns_key cs p env0) as (Hkey & Hst & Hval).
  destruct (apply_concerns cs p env0) as [p0 env]. cbn [fst snd] in *.
  pose proof (row_present_key _ _ _ Hkey Hw) as Hw0. clear Hw.
  eapply runs_mono; [|intros ? ?; by apply settled_key].
  then_ t. destruct (Phase_Complete (Some env) t p0) as [q|] eqn:Hq; [|apply fail_settles; [congruence|done]].
  destruct (Complete_settles _ _ _ _ (Hval Hv) Hq) as [Hkq Hs].
  apply saved_settles; [done|done|done|]. effects; done.
Qed.

Lemma init_settles c p w :
  p_status p = PhaseStatusRunning → row_present p w →
  runs E (runInitPhase D c p) (λ _, settled p) w.
Proof.
  intros Hr Hw. unfold runInitPhase. apply (runs_ext_row p); [done|]. clear dependent w. intros n w Hw.
  destruct (env_ext E _ (InitRun c) n) as [[env0|]|]; [|by apply fail_settles|by apply fail_settles].
  destruct (Validator_Validate _ _) as [env|] eqn:Hv; [|by apply fail_settles].
  apply Validator_Validate_Ok in Hv as (_ & _ & _ & _ & _ & (_ & _ & Hvalid & _) & _).
  then_ t. destruct (Phase_Complete (Some env) t p) as [q|] eqn:Hq; [|by apply fail_settles].
  destruct (Complete_settles _ _ _ _ Hvalid Hq) as [Hkq Hs].
  apply saved_settles; [done|done|done|]. effects; done.
Qed.

Lemma runAsync_settles c p i w :
  p_status p = PhaseStatusRunning → row_present p w →
  runs E (runAsync D c p i) (λ _, settled p) w.
Proof.
  intros Hr Hw. unfold runAsync. destruct (_ && d_Init D); [by apply init_settles|].
  apply (runs_ext_row p); [done|]. clear dependent w. intros n w Hw.
  pose proof (HG (ch_id c) (p_id p) (p_type p) (in_TaskDescription i) n) as Hgov.
  destruct (env_ext E _ (EvaluatePhase _ _ _ _) n) as [d|]; [|by apply fail_settles].
  then_ u.
  assert (Hgo : runs E (if bool_decide (p_type p = PhaseApply) && d_ApplyExecutor D then
      let! prior := loadPriorPhases (ch_id c) in
      runApplyPhase D c p (match prior with
                           | Ok m => with_prior_status (phasesPredicateToStatusMap m) i
                           | Err _ => i
                           end)
    else preflight D c p i) (λ _, settled p) w').
  { destruct (_ && d_ApplyExecutor D); [then_ prior; by apply apply_settles|].
    unfold preflight. then_ r. destruct r as [prior|]; [|by apply fail_settles].
    destruct (IronLaw_Check _); [by apply prepare_settles|by apply fail_settles]. }
  destruct d; [exact Hgo|exact Hgo|done|by apply fail_settles|exact Hgo].
Qed.
End Settle.

(** C5: (no phase is left behind) with a database that answers, a governance
    service that allows or denies and an apply executor that answers in the
    envelope contract, the background work of a running phase always leaves
    the row of that attempt settled: whatever the agent, the memory service,
    the critic, the spawn governor or the skill matcher answer, errors and
    malformed envelopes included, the phase is no longer running when the work
    is done. *)
Theorem background_settles_the_phase `{PgTypes} `{UlidLib} `{WireContract} `{TimeText} D E j w :
  healthy_env E → governance_decides E → executor_conforms E →
  p_status (j_phase j) = PhaseStatusRunning → row_present (j_phase j) w →
  settled (j_phase j) (exec E (background D j) w).2.
Proof. intros HE HG HA Hr Hw. by apply (runAsync_settles D E HE HG HA). Qed.

(** ** Spawn slots *)

(** The slot history: acquisitions, releases and dispatches, newest first. *)
Definition slot_entry (e : entry) : bool :=
  match e with Acquired _ | Released _ | Dispatched _ => true | _ => false end.

Definition slot_history (L : list entry) : list entry := List.filter slot_entry L.

Section Slots.
Context `{PgTypes} `{UlidLib} `{WireContract} `{TimeText}.
Context (D : Deps) (E : env).

Lemma perform_slots {R} (e : eff R) w :
  slotless R e → slot_history (w_log (perform E e w).2) = slot_history (w_log w).
Proof.
  intros Hs. destruct e as [R o|R o]; simpl.
  - destruct (db_exec o _ _) as [[r es] d]. simpl. unfold slot_history.
    rewrite List.filter_app. by induction es.
  - destruct o; try done; simpl; by case_match.
Qed.

Lemma runs_slotless {A} (m : prog A) w :
  effects_in slotless m → slot_history (w_log (exec E m w).2) = slot_history (w_log w).
Proof.
  intros Hm. refine (runs_inv slotless (λ w', slot_history (w_log w') = slot_history (w_log w)) E m w _ Hm eq_refl).
  intros R e w' Hs Hw. by rewrite perform_slots.
Qed.

Lemma plain_slotless {A} (m : prog A) : effects_in plain m → effects_in slotless m.
Proof. apply effects_mono. by intros ? ? [_ ?]. Qed.
#[local] Hint Resolve plain_slotless : effects.

Lemma slotless_fail p rule reason : effects_in slotless (failPhaseWithReason p rule reason).
Proof. unfold failPhaseWithReason. effects; done. Qed.
#[local] Hint Resolve slotless_fail : effects.

Lemma slotless_failPhase p reason : effects_in slotless (failPhase p reason).
Proof. apply slotless_fail. Qed.
#[local] Hint Resolve slotless_failPhase : effects.

Lemma slotless_finish c p e u : effects_in slotless (finishPhase D c p e u).
Proof. unfold finishPhase. effects; done. Qed.
#[local] Hint Resolve slotless_finish : effects.

Lemma slotless_receive c p i s r u : effects_in slotless (receiveEnvelope D c p i s r u).
Proof. unfold receiveEnvelope. effects; done. Qed.

Lemma slotless_apply c p i : effects_in slotless (runApplyPhase D c p i).
Proof. unfold runApplyPhase. effects; done. Qed.

Lemma slotless_init c p : effects_in slotless (runInitPhase D c p).
Proof. unfold runInitPhase. effects; done. Qed.

#[local] Hint Resolve slotless_receive slotless_apply slotless_init : effects.

(** No slot was used since [h], or one was taken, used and given back. *)
Definition slot_used (pid : PhaseID) (h : list entry) (w : world) : Prop :=
  slot_history (w_log w) = h ∨
  slot_history (w_log w) = Released pid :: Dispatched pid :: Acquired pid :: h.

Lemma slots_then pid h {A B} (m : prog A) (f : A → prog B) w :
  effects_in slotless m → slot_history (w_log w) = h →
  (∀ a w', slot_history (w_log w') = h → runs E (f a) (λ _, slot_used pid h) w') →
  runs E (prog_bind m f) (λ _, slot_used pid h) w.
Proof.
  intros Hm Hw Hf. apply runs_bind. apply Hf. by rewrite runs_slotless.
Qed.

Lemma slotless_used pid h {A} (m : prog A) w :
  effects_in slotless m → slot_history (w_log w) = h → runs E m (λ _, slot_used pid h) w.
Proof. intros Hm Hw. left. by rewrite runs_slotless. Qed.

Ltac slots_ a :=
  match goal with Hw : slot_history _ = _ |- _ =>
    apply slots_then; [solve [effects; done]|exact Hw|clear Hw; intros a ? Hw] end.
Ltac no_slots := apply slotless_used; [solve [effects; done]|done].

Lemma runs_ext {R B} (o : extop R) (f : R → prog B) Q w :
  runs E (f (env_ext E _ o (w_tick w))) Q
    (mkWorld (w_db w) (ext_entries o (env_ext E _ o (w_tick w)) ++ w_log w) (S (w_tick w))) →
  runs E (prog_bind (ext o) f) Q w.
Proof. intros Hf. by apply runs_bind. Qed.

Lemma dispatch_slots c p i sess prompt uids h w :
  slot_history (w_log w) = h →
  runs E (dispatchAgent D c p i sess prompt uids) (λ _, slot_used (p_id p) h) w.
Proof.
  intros Hw. unfold dispatchAgent. apply runs_ext.
  destruct (env_ext E _ (SpawnAcquire _) _); cbn [negb]; [|by no_slots].
  apply runs_ext, runs_ext. right. rewrite runs_slotless by (effects; done). simpl. by rewrite Hw.
Qed.

Lemma prepare_slots c p i prior h w :
  slot_history (w_log w) = h →
  runs E (prepareAgent D c p i prior) (λ _, slot_used (p_id p) h) w.
Proof.
  intros Hw. unfold prepareAgent. slots_ ctx. slots_ skills. slots_ uids. slots_ prompt.
  destruct prompt as [prompt|]; [|no_slots]. slots_ s.
  destruct (ParseID SessionK s) as [sid|]; [|no_slots]. slots_ t.
  destruct (Session_New _ _ _ _ _ _ _ _) as [sess0|]; [|no_slots].
  destruct (Session_MarkRunning sess0) as [sess|]; [|no_slots]. slots_ e.
  destruct e; [no_slots|]. slots_ u. by apply dispatch_slots.
Qed.

Lemma runAsync_slots c p i h w :
  slot_history (w_log w) = h → runs E (runAsync D c p i) (λ _, slot_used (p_id p) h) w.
Proof.
  intros Hw. unfold runAsync. destruct (_ && d_Init D); [no_slots|]. slots_ r.
  destruct r as [d|]; [|no_slots]. slots_ u.
  assert (Hgo : ∀ w, slot_history (w_log w) = h → runs E (if bool_decide (p_type p = PhaseApply) && d_ApplyExecutor D then
      let! prior := loadPriorPhases (ch_id c) in
      runApplyPhase D c p (match prior with
                           | Ok m => with_prior_status (phasesPredicateToStatusMap m) i
                           | Err _ => i
                           end)
    else preflight D c p i) (λ _, slot_used (p_id p) h) w).
  { clear. intros w Hw. destruct (_ && d_ApplyExecutor D); [no_slots|].
    unfold preflight. slots_ prior. destruct prior as [prior|]; [|no_slots].
    destruct (IronLaw_Check _); [by apply prepare_slots|no_slots]. }
  destruct d; [by apply Hgo|by apply Hgo|no_slots|no_slots|by apply Hgo].
Qed.

(** (slots are balanced) one execution of the background work, with any
    answers and any database faults, either touches no spawn slot and
    dispatches no agent, or takes one slot, dispatches one agent while it
    holds the slot, and gives it back: no path leaks a slot and no agent runs
    outside one. *)
Theorem background_balances_slots j w :
  slot_used (p_id (j_phase j)) (slot_history (w_log w)) (exec E (background D j) w).2.
Proof. by apply (runAsync_slots (j_change j) (j_phase j) (j_input j)). Qed.
End Slots.

(** ** Starting a phase *)

Section Start.
Context `{PgTypes} `{UlidLib} `{WireContract} `{TimeText}.
Context (D : Deps) (E : env).

(** The job scheduled last. *)
Definition newest (w : world) : option job :=
  list.head (omap (λ e, match e with Scheduled j => Some j | _ => None end) (w_log w)).

Definition ticked (w : world) : world := mkWorld (w_db w) (w_log w) (S (w_tick w)).

(** A statement whose effect, if any, is not on the tables. *)
Lemma runs_read {R B} (o : dbop R) (f : R → prog B) Q w :
  healthy_env E → write_effect o (w_db w) = Ok ([], w_db w) →
  runs E (f (answer o (w_db w))) Q (ticked w) → runs E (prog_bind (db o) f) Q w.
Proof.
  intros HE Hw Hf. apply runs_bind. unfold runs at 1. simpl. rewrite HE. simpl. by rewrite Hw.
Qed.

Lemma best_max {A} (m : A → Z) l x :
  best (λ x y, (m y <? m x)%Z) l = Some x → ∀ y, y ∈ l → (m y <= m x)%Z.
Proof.
  revert x. induction l as [|z l IH]; intros x; simpl; [done|].
  destruct (best _ l) as [b|] eqn:Hb.
  - specialize (IH b eq_refl). destruct (Z.ltb_spec (m z) (m b)); intros [= <-] y [->|Hy]%elem_of_cons;
      try lia; apply IH in Hy; lia.
  - intros [= <-] y [->|Hy]%elem_of_cons; [lia|]. destruct l; [by apply not_elem_of_nil in Hy|].
    simpl in Hb. by repeat case_match.
Qed.

Lemma elem_of_rows keep d id r : t_phases d !! id = Some r → keep r = true → r ∈ rows_of keep d.
Proof.
  intros Hr Hk. unfold rows_of. apply list_elem_of_filter. split; [done|].
  apply list_elem_of_fmap. exists (id, r). split; [done|]. by apply elem_of_map_to_list.
Qed.

Lemma best_None {A} (f : A → A → bool) l : best f l = None → l = [].
Proof. destruct l; simpl; [done|]. by repeat case_match. Qed.

(** What the two queries of [Run] say about the table. *)
Lemma phase_running_NotFound cid d :
  phase_running cid d = Err ErrNotFound →
  ∀ id r, t_phases d !! id = Some r → p_changeID r = cid → is_live (p_status r) = false.
Proof.
  unfold phase_running. destruct (best _ _) eqn:Hb; [done|]. intros _ id r Hr <-.
  apply best_None in Hb. apply not_true_iff_false. intros Hl.
  assert (Hin : r ∈ rows_of (λ p, bool_decide (p_changeID p = p_changeID r) && is_live (p_status p)) d).
  { eapply elem_of_rows; [done|]. rewrite Hl, bool_decide_eq_true_2; done. }
  rewrite Hb in Hin. by apply not_elem_of_nil in Hin.
Qed.

Lemma phase_latest_max cid pt d p :
  phase_latest cid pt d = Ok p →
  ∀ id r, t_phases d !! id = Some r → p_changeID r = cid → p_type r = pt → (p_attempts r <= p_attempts p)%Z.
Proof.
  unfold phase_latest. destruct (best _ _) as [q|] eqn:Hb; [|done]. intros [= ->] id r Hr <- <-.
  eapply (best_max p_attempts); [exact Hb|]. eapply elem_of_rows; [done|].
  by rewrite !bool_decide_eq_true_2.
Qed.

Lemma phase_latest_NotFound cid pt d :
  phase_latest cid pt d = Err ErrNotFound →
  ∀ id r, t_phases d !! id = Some r → p_changeID r = cid → p_type r ≠ pt.
Proof.
  unfold phase_latest. destruct (best _ _) eqn:Hb; [done|]. intros _ id r Hr <- <-.
  apply best_None in Hb.
  assert (Hin : r ∈ rows_of (λ p, bool_decide (p_changeID p = p_changeID r)
                                  && bool_decide (p_type p = p_type r)) d).
  { eapply elem_of_rows; [done|]. by rewrite !bool_decide_eq_true_2. }
  rewrite Hb in Hin. by apply not_elem_of_nil in Hin.
Qed.

(** [if in.RetryBudget <= 0 { budget = 3 }] *)
Definition run_budget (i : RunPhaseInput) : Z := if (in_RetryBudget i <=? 0)%Z then 3%Z else in_RetryBudget i.

(** The attempt [Run] opens. *)
Definition opened (i : RunPhaseInput) (pid : PhaseID) (attempts : Z) (t : Time) : Phase :=
  mkPhase pid (in_ChangeID i) (in_PhaseType i) PhaseStatusRunning None f64_0 (run_budget i)
    attempts (Some t) None [].

(** What a successful [Run] did: it opened the next attempt of a phase the
    change may run, as the only live phase of the change, and scheduled it. *)
Record run_started (i : RunPhaseInput) (out : RunPhaseOutput) (w w' : world) : Prop := {
  rs_opened : ∃ c n t, t_changes (w_db w) !! in_ChangeID i = Some c ∧
    isNextValidTransition (ch_currentPhase c) (in_PhaseType i) = true ∧
    t_phases (w_db w') = <[out_PhaseID out := phase_row (opened i (out_PhaseID out) n t)]> (t_phases (w_db w)) ∧
    newest w' = Some (mkJob c (opened i (out_PhaseID out) n t) i) ∧
    row_present (opened i (out_PhaseID out) n t) w' ∧
    (1 <= n <= run_budget i)%Z ∧
    ∀ id r, t_phases (w_db w) !! id = Some r → p_changeID r = in_ChangeID i →
            p_type r = in_PhaseType i → (p_attempts r < n)%Z;
  rs_fresh : t_phases (w_db w) !! out_PhaseID out = None;
  rs_alone : ∀ id r, t_phases (w_db w) !! id = Some r → p_changeID r = in_ChangeID i →
               is_live (p_status r) = false;
  rs_status : out_Status out = PhaseStatusRunning
}.

Definition run_outcome (i : RunPhaseInput) (w : world) (r : result svc_error RunPhaseOutput)
    (w' : world) : Prop :=
  match r with
  | Ok out => run_started i out w w'
  | Err _ => w_db w' = w_db w ∧ w_log w' = w_log w
  end.

(** Attempts are positive and a stored phase has been started. *)
Definition rows_started (T : gmap PhaseID Phase) : Prop :=
  ∀ id r, T !! id = Some r → p_status r ≠ PhaseStatusPending ∧ (1 <= p_attempts r)%Z.

Lemma refused i w (r : svc_error) (w' : world) :
  w_db w' = w_db w → w_log w' = w_log w → runs E (Ret (Err r)) (run_outcome i w) w'.
Proof. done. Qed.

Lemma NoDup_fresh_key p d :
  find_attempt p d = None → t_phases d !! p_id p = None →
  keys_ok (t_phases d) → keys_ok (<[p_id p := phase_row p]> (t_phases d)).
Proof.
  intros Hf Hn Hk. split.
  - intros id r [[<- <-]|[_ Hr]]%lookup_insert_Some; [done|]. by apply (key_id _ Hk).
  - intros i j ri rj [[<- <-]|[Hi Hri]]%lookup_insert_Some [[<- <-]|[Hj Hrj]]%lookup_insert_Some Hij;
      [done| | |by eapply (key_attempt _ Hk)].
    + pose proof (find_attempt_None _ _ _ _ Hf Hrj) as Hx. unfold same_attempt in *. simpl in *. congruence.
    + pose proof (find_attempt_None _ _ _ _ Hf Hri) as Hx. apply not_true_iff_false in Hx as [].
      rewrite same_attempt_iff in *. simpl in *. intuition congruence.
Qed.

(** The insertion of the opened attempt and what follows it. *)
Lemma open_attempt i c pid n t w0 w :
  healthy_env E → keys_ok (t_phases (w_db w0)) →
  w_db w = w_db w0 → w_log w = w_log w0 →
  t_changes (w_db w0) !! in_ChangeID i = Some c →
  isNextValidTransition (ch_currentPhase c) (in_PhaseType i) = true →
  (1 <= n <= run_budget i)%Z →
  (∀ id r, t_phases (w_db w0) !! id = Some r → p_changeID r = in_ChangeID i →
     p_type r = in_PhaseType i → (p_attempts r < n)%Z) →
  (∀ id r, t_phases (w_db w0) !! id = Some r → p_changeID r = in_ChangeID i → is_live (p_status r) = false) →
  runs E (let! es := db (PhaseSave (opened i pid n t)) in
    match es with
    | Some e => Ret (Err (SvcStore e))
    | None =>
      do! appendAudit (Some pid) "phase.started" in
      do! publishEvent (p_id (opened i pid n t)) EventPhaseStarted
            (PStarted (pt_string (in_PhaseType i)) (in_ChangeID i)) in
      do! ext (Schedule (mkJob c (opened i pid n t) i)) in
      Ret (Ok (mkRunOutput pid (p_status (opened i pid n t))))
    end) (run_outcome i w0) w.
Proof.
  intros HE Hk Hd Hl Hc Hnext Hn Hmax Halone.
  assert (Hf : find_attempt (opened i pid n t) (w_db w0) = None).
  { destruct (find_attempt _ _) as [[id r]|] eqn:Hf; [|done].
    apply find_attempt_Some in Hf as [Hr (Hcid & Hty & Hat)%same_attempt_iff]. simpl in *.
    specialize (Hmax _ _ Hr Hcid Hty). lia. }
  unfold runs. simpl. rewrite !HE. simpl. rewrite Hd. unfold phase_upsert. rewrite Hf. simpl.
  destruct (t_phases (w_db w0) !! pid) eqn:Hp; simpl; [by rewrite Hl|].
  rewrite Hc. simpl. rewrite !HE. simpl. rewrite !HE. simpl.
  pose proof (NoDup_fresh_key _ _ Hf Hp Hk) as Hk'.
  split; simpl; [|done|done|done].
  exists c, n, t. split_and!; try done; try lia.
  - split_and!; [done| |by exists c].
    eexists. split; [apply lookup_insert_eq|]. by rewrite same_attempt_iff.
Qed.

(** With no live and no pending phase, the latest attempt is finished and its
    number is the highest. *)
Lemma prior_attempts cid pt d :
  rows_started (t_phases d) →
  (∀ id r, t_phases d !! id = Some r → p_changeID r = cid → is_live (p_status r) = false) →
  let prior := match phase_latest cid pt d with
    | Ok p => if ps_IsTerminal (p_status p) || bool_decide (p_status p = PhaseStatusNeedsContext)
              then p_attempts p else 0%Z
    | Err _ => 0%Z
    end in
  (0 <= prior)%Z ∧ ∀ id r, t_phases d !! id = Some r →
    p_changeID r = cid → p_type r = pt → (p_attempts r < prior + 1)%Z.
Proof.
  intros Hst Halone prior. subst prior. destruct (phase_latest cid pt d) as [p|e] eqn:Hl.
  - pose proof (phase_latest_max _ _ _ _ Hl) as Hmax.
    apply phase_latest_Ok in Hl as (Hc & Ht & id & Hp).
    specialize (Halone _ _ Hp Hc). destruct (Hst _ _ Hp) as [Hpend Hpos].
    replace (ps_IsTerminal (p_status p) || _) with true by (destruct (p_status p); done).
    split; [lia|]. intros id' r Hr Hcr Htr. specialize (Hmax _ _ Hr Hcr Htr). lia.
  - split; [done|]. intros id r Hr Hcr Htr. destruct e.
    + by destruct (phase_latest_NotFound _ _ _ Hl _ _ Hr Hcr).
    + unfold phase_latest in Hl. by destruct (best _ _).
Qed.

Lemma Run_runs i w :
  healthy_env E → keys_ok (t_phases (w_db w)) → rows_started (t_phases (w_db w)) →
  runs E (Run i) (run_outcome i w) w.
Proof.
  intros HE Hk Hst. unfold Run.
  apply runs_read; [done|done|]. simpl answer. unfold change_find.
  destruct (t_changes (w_db w) !! in_ChangeID i) as [c|] eqn:Hc; [|by apply refused].
  destruct (isNextValidTransition _ _) eqn:Hnext; simpl negb; cbv iota; [|by apply refused].
  apply runs_read; [done|done|]. simpl answer. cbv iota.
  apply runs_read; [done|done|]. simpl answer.
  destruct (phase_running _ _) as [p|[]] eqn:Hrun; [by apply refused| |by apply refused].
  pose proof (phase_running_NotFound _ _ Hrun) as Halone.
  apply runs_ext. simpl w_log. simpl w_db.
  destruct (ParseID PhaseK _) as [pid|]; [|by apply refused].
  apply runs_read; [done|done|]. simpl answer. apply runs_ext.
  match goal with |- context [Phase_Start ?t ?p0] => destruct (Phase_Start t p0) as [p|] eqn:Hstart end;
    [|by apply refused].
  apply Phase_Start_Ok in Hstart as (_ & Hbud & ->).
  cbn [Phase_Hydrate p_attempts p_retryBudget p_id p_changeID p_type p_envelope p_confidence
       p_completedAt p_concerns w_db ticked] in Hbud |- *.
  match goal with |- context [(?m + 1)%Z] => set (prior := m) in * end.
  assert (Hprior : (0 <= prior)%Z ∧ ∀ id r, t_phases (w_db w) !! id = Some r →
    p_changeID r = in_ChangeID i → p_type r = in_PhaseType i → (p_attempts r < prior + 1)%Z).
  { apply prior_attempts; done. }
  destruct Hprior as [Hp0 Hmax].
  apply (open_attempt i c pid (prior + 1)); try done. unfold run_budget. lia.
Qed.

(** C6: (starting a phase) when every statement of the database succeeds, its
    rows are stored under their own identifiers, one per attempt, and were all
    started, [Run] either refuses and leaves no trace at all, or opens exactly one
    new attempt: under a fresh id, running, numbered above every earlier attempt
    of that phase and within the retry budget, for a change that may run this
    phase and had no live phase, and that attempt is what is scheduled.  No
    existing row is touched.  (When the read of the earlier attempts fails, the
    run goes on as attempt 1 and overwrites that row:
    [SampleRun.failed_read_overwrites_attempt].) *)
Theorem Run_opens_one_attempt i w :
  healthy_env E → keys_ok (t_phases (w_db w)) → rows_started (t_phases (w_db w)) →
  run_outcome i w (exec E (Run i) w).1 (exec E (Run i) w).2.
Proof. apply Run_runs. Qed.
End Start.

(** ** The boot scan and what follows it *)

Section Recovery.
Context `{PgTypes} `{UlidLib} `{WireContract} `{TimeText}.
Context (D : Deps) (E : env).

(** The row after the scan, as it is stored again. *)
Definition interrupted (r : Phase) : Phase :=
  mkPhase (p_id r) (p_changeID r) (p_type r) PhaseStatusInterrupted (stored_envelope <$> p_envelope r)
    (numeric_3_2 (p_confidence r)) (p_retryBudget r) (p_attempts r) (p_startedAt r)
    (p_completedAt r) (p_concerns r).

Definition scanned (T : gmap PhaseID Phase) : gmap PhaseID Phase :=
  (λ r, if bool_decide (p_status r = PhaseStatusRunning) then interrupted r else r) <$> T.

Definition marked (r : Phase) : Phase :=
  mkPhase (p_id r) (p_changeID r) (p_type r) PhaseStatusInterrupted (p_envelope r)
    (p_confidence r) (p_retryBudget r) (p_attempts r) (p_startedAt r) (p_completedAt r) (p_concerns r).

Lemma upsert_marked r d :
  keys_ok (t_phases d) → t_phases d !! p_id r = Some r →
  phase_upsert (marked r) d = Ok (interrupted r, with_phases (insert (p_id r) (interrupted r)) d).
Proof.
  intros Hk Hr. unfold phase_upsert.
  by rewrite (find_attempt_keys _ _ _ _ Hk Hr) by (apply same_attempt_iff; done).
Qed.

Lemma save_marked r w :
  healthy_env E → keys_ok (t_phases (w_db w)) → t_phases (w_db w) !! p_id r = Some r →
  ∃ w', exec E (db (PhaseSave (marked r))) w = (None, w') ∧
    t_phases (w_db w') = <[p_id r := interrupted r]> (t_phases (w_db w)) ∧
    keys_ok (t_phases (w_db w')).
Proof.
  intros HE Hk Hr. pose proof (upsert_marked _ _ Hk Hr) as Hu. eexists.
  simpl. rewrite HE. simpl. rewrite Hu. split; [reflexivity|]. split; [done|].
  by eapply phase_upsert_keys.
Qed.

(** One pass over distinct running rows. *)
Lemma markInterrupted_runs stuck w :
  healthy_env E → keys_ok (t_phases (w_db w)) → NoDup (p_id <$> stuck) →
  (∀ r, r ∈ stuck → t_phases (w_db w) !! p_id r = Some r ∧ p_status r = PhaseStatusRunning) →
  ∃ w', exec E (markInterrupted stuck) w = (length stuck, w') ∧
    ∀ id, t_phases (w_db w') !! id =
      (λ r, if bool_decide (id ∈ p_id <$> stuck) then interrupted r else r) <$> t_phases (w_db w) !! id.
Proof.
  intros HE. revert w. induction stuck as [|r stuck IH]; intros w Hk Hnd Hin.
  { exists w. split; [done|]. intros id. by destruct (t_phases (w_db w) !! id). }
  apply NoDup_cons in Hnd as [Hni Hnd].
  destruct (Hin r) as [Hr Hs]; [set_solver|].
  assert (Hm : Phase_MarkInterrupted r = Ok (marked r)).
  { apply Phase_MarkInterrupted_Ok. by rewrite Hs. }
  destruct (save_marked r w HE Hk Hr) as (w1 & Hw1 & HT & Hk1).
  destruct (IH w1) as (w' & Hw' & Hall); [done|done| |].
  { intros q Hq. destruct (Hin q) as [Hq1 Hq2]; [set_solver|]. split; [|done].
    rewrite HT, lookup_insert_ne; [done|]. intros Heq. apply Hni. rewrite Heq. by apply list_elem_of_fmap_2. }
  exists w'. split.
  - cbn [markInterrupted]. rewrite Hm, exec_bind, Hw1. cbv iota. by rewrite exec_bind, Hw'.
  - intros id. rewrite Hall, HT. destruct (decide (id = p_id r)) as [->|Hne].
    + rewrite lookup_insert_eq, Hr. simpl.
      rewrite bool_decide_eq_false_2, bool_decide_eq_true_2 by set_solver. done.
    + rewrite lookup_insert_ne by done. destruct (t_phases (w_db w) !! id); [|done]. simpl.
      case_bool_decide; case_bool_decide; set_solver.
Qed.

Lemma running_ids_nodup d : keys_ok (t_phases d) → NoDup (p_id <$> phase_all_running d).
Proof.
  intros Hk. unfold phase_all_running. rewrite merge_sort_Permutation. unfold rows_of.
  assert (Hids : p_id <$> (map_to_list (t_phases d)).*2 = (map_to_list (t_phases d)).*1).
  { rewrite <-list_fmap_compose. apply list_fmap_ext. intros n [id r] Hl. simpl.
    apply list_elem_of_lookup_2, elem_of_map_to_list in Hl. by apply (key_id _ Hk). }
  pose proof (NoDup_fst_map_to_list (t_phases d)) as Hnd. eapply sublist_NoDup; [exact Hnd|].
  rewrite <-Hids. apply fmap_sublist, sublist_filter.
Qed.

Lemma elem_of_running d id r :
  keys_ok (t_phases d) → t_phases d !! id = Some r →
  id ∈ p_id <$> phase_all_running d ↔ p_status r = PhaseStatusRunning.
Proof.
  intros Hk Hr. rewrite list_elem_of_fmap. split.
  - intros (q & -> & [Hs (id' & Hq)]%phase_all_running_elem).
    rewrite (key_id _ Hk _ _ Hq) in Hr. congruence.
  - intros Hs. exists r. split; [by rewrite (key_id _ Hk _ _ Hr)|].
    unfold phase_all_running. rewrite merge_sort_Permutation.
    eapply elem_of_rows; [done|]. by apply bool_decide_eq_true_2.
Qed.

(** (crash recovery) on a healthy database the boot scan reports how many
    phases were running, marks exactly those interrupted, keeping everything
    else of their rows, and touches no other row. *)
Theorem recovery_interrupts_all_running w :
  healthy_env E → keys_ok (t_phases (w_db w)) →
  (exec E MarkStuckInterrupted w).1 = Ok (length (phase_all_running (w_db w))) ∧
  t_phases (w_db (exec E MarkStuckInterrupted w).2) = scanned (t_phases (w_db w)).
Proof.
  intros HE Hk. unfold MarkStuckInterrupted.
  destruct (markInterrupted_runs (phase_all_running (w_db w)) (ticked w)) as (w' & Hw' & Hall);
    [done|done|by apply running_ids_nodup| |].
  { intros r [Hs (id & Hr)]%phase_all_running_elem. split; [|done]. simpl.
    by rewrite (key_id _ Hk _ _ Hr). }
  rewrite exec_bind. simpl. rewrite HE. simpl. rewrite exec_bind.
  unfold ticked in Hw'. rewrite Hw'. simpl. split; [done|].
  apply map_eq. intros id. rewrite Hall. unfold scanned. rewrite lookup_fmap. simpl.
  destruct (t_phases (w_db w) !! id) as [r|] eqn:Hr; [|done]. simpl. f_equal.
  rewrite (bool_decide_ext _ _ (elem_of_running _ _ _ Hk Hr)). done.
Qed.
End Recovery.

(** ** Resuming *)

Section Stuck.
Context `{PgTypes} `{UlidLib} `{WireContract} `{TimeText}.
Context (E : env).

(** The answer is an error and nothing was written or scheduled. *)
Definition refuses {A} (m : prog (result svc_error A)) (w : world) : Prop :=
  (∃ e, (exec E m w).1 = Err e) ∧ w_db (exec E m w).2 = w_db w ∧ w_log (exec E m w).2 = w_log w.

Definition latest_attempt (r : Phase) (T : gmap PhaseID Phase) : Prop :=
  ∀ id q, T !! id = Some q → p_changeID q = p_changeID r → p_type q = p_type r →
          (p_attempts q <= p_attempts r)%Z.

(** The statuses from which [Resume] has to restart the phase. *)
Definition needs_restart (r : Phase) : Prop :=
  p_status r = PhaseStatusInterrupted ∨ (p_status r = PhaseStatusBlocked ∧ p_type r = PhaseApply).

(** A restarted phase carries the next attempt number under the old id, which
    the statement of [PhaseRepo.Save] does not accept. *)
Lemma upsert_restarted p r d :
  latest_attempt r (t_phases d) → t_phases d !! p_id r = Some r →
  p_id p = p_id r → p_changeID p = p_changeID r → p_type p = p_type r →
  p_attempts p = (p_attempts r + 1)%Z → phase_upsert p d = Err ErrStore.
Proof.
  intros Hl Hr Hi Hc Ht Ha. unfold phase_upsert.
  destruct (find_attempt p d) as [[id q]|] eqn:Hf.
  - apply find_attempt_Some in Hf as [Hq (Hc' & Ht' & Ha')%same_attempt_iff].
    specialize (Hl _ _ Hq). rewrite Hc' in Hl. specialize (Hl Hc). rewrite Ht' in Hl.
    specialize (Hl Ht). lia.
  - by rewrite Hi, Hr.
Qed.

Definition refused_from (w : world) {A} (a : result svc_error A) (w' : world) : Prop :=
  (∃ e, a = Err e) ∧ w_db w' = w_db w ∧ w_log w' = w_log w.

Lemma saveRestarted_refuses (res : result phase_error Phase) r {B}
    (k : result svc_error Phase → prog (result svc_error B)) w w1 :
  healthy_env E → latest_attempt r (t_phases (w_db w)) → t_phases (w_db w) !! p_id r = Some r →
  (∀ p, res = Ok p → p_id p = p_id r ∧ p_changeID p = p_changeID r ∧ p_type p = p_type r ∧
        p_attempts p = (p_attempts r + 1)%Z) →
  w_db w1 = w_db w → w_log w1 = w_log w → (∀ e, k (Err e) = Ret (Err e)) →
  runs E (saveRestarted res) (λ a, runs E (k a) (refused_from w)) w1.
Proof.
  intros HE Hl Hr Hres Hd Hlog Hk. unfold saveRestarted. destruct res as [p|e].
  - destruct (Hres p eq_refl) as (Hi & Hc & Ht & Ha).
    pose proof (upsert_restarted p r (w_db w) Hl Hr Hi Hc Ht Ha) as Hu.
    unfold runs at 1. simpl. rewrite HE. simpl. rewrite Hd, Hu. simpl.
    rewrite Hk. split; [by eexists|done].
  - unfold runs at 1. simpl. rewrite Hk. split; [by eexists|done].
Qed.

Lemma Resume_runs id r w :
  healthy_env E → keys_ok (t_phases (w_db w)) → t_phases (w_db w) !! id = Some r →
  needs_restart r → latest_attempt r (t_phases (w_db w)) →
  runs E (Resume id) (refused_from w) w.
Proof.
  intros HE Hk Hr Hn Hl. pose proof (key_id _ Hk _ _ Hr) as <-.
  unfold Resume. apply runs_read; [done|done|]. simpl answer. unfold phase_find. rewrite Hr.
  destruct (_ && _) eqn:Hterm; [split; [by eexists|done]|].
  apply runs_read; [done|done|]. simpl answer. unfold change_find.
  destruct (t_changes _ !! p_changeID r) as [c|]; [|split; [by eexists|done]].
  destruct Hn as [Hs|[Hs Ht]]; rewrite Hs.
  - rewrite bool_decide_eq_true_2 by done. apply runs_bind, runs_ext.
    apply (saveRestarted_refuses _ r); try done.
    intros p (_ & _ & ->)%Phase_Start_Ok. done.
  - rewrite bool_decide_eq_false_2 by done. cbn [prog_bind].
    rewrite Hs, Ht, !bool_decide_eq_true_2 by done. cbn [andb].
    apply runs_bind, runs_ext.
    apply (saveRestarted_refuses _ r); try done.
    intros p (_ & _ & ->)%Phase_Restart_Ok. done.
Qed.

(** C7: (what resuming really does) on a healthy database [Resume] of an
    interrupted phase, or of a blocked apply phase, that is at its latest
    attempt always fails and leaves no trace: the restarted phase keeps its id
    but carries the next attempt number, which violates the primary key in
    [PhaseRepo.Save].  And as long as an interrupted row is there, [Run]
    refuses every phase of that change, so a change whose phase was stranded
    by a crash and marked by the boot scan cannot be continued. *)
Theorem interrupted_phase_is_stuck id r w :
  healthy_env E → keys_ok (t_phases (w_db w)) → t_phases (w_db w) !! id = Some r →
  latest_attempt r (t_phases (w_db w)) → needs_restart r →
  refused_from w (exec E (Resume id) w).1 (exec E (Resume id) w).2 ∧
  (p_status r = PhaseStatusInterrupted →
   ∀ i, in_ChangeID i = p_changeID r → refused_from w (exec E (Run i) w).1 (exec E (Run i) w).2).
Proof.
  intros HE Hk Hr Hl Hn. split; [by apply (Resume_runs id r)|].
  intros Hs i Hi. change (runs E (Run i) (refused_from w) w).
  unfold Run. apply runs_read; [done|done|]. simpl answer. unfold change_find.
  destruct (t_changes _ !! _) as [c|]; [|split; [by eexists|done]].
  destruct (isNextValidTransition _ _); cbn [negb]; [|split; [by eexists|done]].
  apply runs_read; [done|done|]. simpl answer. cbv iota.
  apply runs_read; [done|done|]. simpl answer.
  destruct (phase_running _ _) as [p|[]] eqn:Hrun; try (split; [by eexists|done]).
  pose proof (phase_running_NotFound _ _ Hrun _ _ Hr (eq_sym Hi)) as Hlive.
  by rewrite Hs in Hlive.
Qed.
End Stuck.

(** ** The approval gate *)

Section Gate.
Context `{PgTypes} `{UlidLib} `{WireContract} `{TimeText}.
Context (E : env).

(** [m] answers [e] and leaves no trace. *)
Definition declines (e : svc_error) (m : prog (option svc_error)) (w : world) : Prop :=
  runs E m (λ a w', a = Some e ∧ w_db w' = w_db w ∧ w_log w' = w_log w) w.

Lemma gate_refusal id approver w e :
  healthy_env E → approver ≠ EmptyString →
  (∀ r, t_phases (w_db w) !! id = Some r → if ps_IsTerminal (p_status r) then e = SvcAlreadyTerminal
     else e = SvcGateAlreadyDecided ∧ audit_has id EventApprovalRequired (w_db w) = true ∧
          audit_has id EventApprovalResolved (w_db w) = true) →
  is_Some (t_phases (w_db w) !! id) →
  runs E (gatedPhase id approver) (λ a w', a = Err e ∧ w_db w' = w_db w ∧ w_log w' = w_log w) w.
Proof.
  intros HE Ha Hrow [r Hr]. specialize (Hrow r Hr). unfold gatedPhase.
  destruct (str_empty approver) eqn:Hs; [by apply bool_decide_eq_true in Hs|].
  apply runs_read; [done|done|]. simpl answer. unfold phase_find. rewrite Hr.
  destruct (ps_IsTerminal _); [by subst|]. destruct Hrow as (-> & Hreq & Hres).
  apply runs_bind. unfold checkGateState. apply runs_read; [done|done|]. simpl answer. rewrite Hreq.
  apply runs_read; [done|done|]. simpl answer. by rewrite Hres.
Qed.

Lemma declined id approver reason e w :
  runs E (gatedPhase id approver) (λ a w', a = Err e ∧ w_db w' = w_db w ∧ w_log w' = w_log w) w →
  declines e (Approve id approver reason) w ∧ declines e (Reject id approver reason) w.
Proof.
  intros Hg. split; apply runs_bind; (eapply runs_mono; [exact Hg|]); by intros a w' (-> & Hd & Hl).
Qed.

(** A gate that let a decision through was open on a phase still in progress. *)
Lemma gatedPhase_Ok id approver w p :
  healthy_env E → (exec E (gatedPhase id approver) w).1 = Ok p →
  t_phases (w_db w) !! id = Some p ∧ ps_IsTerminal (p_status p) = false ∧
  audit_has id EventApprovalRequired (w_db w) = true ∧
  w_db (exec E (gatedPhase id approver) w).2 = w_db w.
Proof.
  intros HE. change (runs E (gatedPhase id approver) (λ a w', a = Ok p → 
    t_phases (w_db w) !! id = Some p ∧ ps_IsTerminal (p_status p) = false ∧
    audit_has id EventApprovalRequired (w_db w) = true ∧ w_db w' = w_db w) w).
  unfold gatedPhase. destruct (str_empty approver); [done|].
  apply runs_read; [done|done|]. simpl answer. unfold phase_find.
  destruct (t_phases (w_db w) !! id) as [r|]; [|done].
  destruct (ps_IsTerminal (p_status r)) eqn:Ht; [done|].
  apply runs_bind. unfold checkGateState. apply runs_read; [done|done|]. simpl answer.
  destruct (audit_has id EventApprovalRequired _); [|done].
  apply runs_read; [done|done|]. simpl answer.
  by destruct (audit_has id EventApprovalResolved _); intros [= ->].
Qed.

Lemma audit_has_cons id et a d :
  audit_has id et d = true → audit_has id et (with_audit (cons a) d) = true.
Proof. unfold audit_has. simpl. intros ->. by rewrite orb_true_r. Qed.

Lemma audit_has_here id et d : audit_has id et (with_audit (cons (mkAudit (Some id) et)) d) = true.
Proof. unfold audit_has. simpl. by rewrite !bool_decide_eq_true_2. Qed.

(** Recording a decision closes the gate. *)
Lemma resolveGate_closes id decision approver reason w :
  healthy_env E →
  let w' := (exec E (resolveGate id decision approver reason) w).2 in
  t_phases (w_db w') = t_phases (w_db w) ∧ audit_has id EventApprovalResolved (w_db w') = true ∧
  (audit_has id EventApprovalRequired (w_db w) = true →
   audit_has id EventApprovalRequired (w_db w') = true).
Proof.
  intros HE. simpl. rewrite HE. simpl. rewrite HE. simpl.
  split_and!; [done|apply audit_has_here|apply audit_has_cons].
Qed.

(** (a gate is decided once) on a healthy database, once an approval has
    gone through, every later approval or rejection of that phase, by whoever,
    is declined as already decided and leaves no trace. *)
Theorem gate_decided_once id a1 r1 a2 r2 w :
  healthy_env E → (exec E (Approve id a1 r1) w).1 = None → a2 ≠ EmptyString →
  declines SvcGateAlreadyDecided (Approve id a2 r2) (exec E (Approve id a1 r1) w).2 ∧
  declines SvcGateAlreadyDecided (Reject id a2 r2) (exec E (Approve id a1 r1) w).2.
Proof.
  intros HE Hok Ha. apply declined.
  revert Hok. unfold Approve. rewrite exec_bind.
  destruct (exec E (gatedPhase id a1) w) as [[p|e] w1] eqn:Hg; [|done]. intros _.
  destruct (gatedPhase_Ok id a1 w p HE) as (Hp & Ht & Hreq & Hd); [by rewrite Hg|].
  rewrite Hg in Hd. simpl in Hd. rewrite exec_bind.
  pose proof (resolveGate_closes id DecisionApproved a1 r1 w1 HE) as (HT & Hres & Hkeep).
  destruct (exec E (resolveGate _ _ _ _) w1) as [u w2]. simpl in *. rewrite Hd in *.
  apply gate_refusal; [done|done| |by rewrite HT, Hp].
  intros r. rewrite HT, Hp. intros [= <-]. rewrite Ht. auto.
Qed.
End Gate.
