(* ===== verification/Rows.v ===== *)
(** * The columns of the repositories

    [internal/adapters/outbound/pg] (change_repo.go, phase_repo.go, session_repo.go):
    what the statements write into columns, and the scan functions that make
    aggregates of them.  [Store] speaks of tables of aggregates; here they are proved
    to be what the columns give back, JSONB included.  A status column is only written
    from, and converted to, the Go type of the status. *)
From S2P Require Import Prelude Ids Json Envelope PhaseDomain ChangeDomain Session Store PhaseRuns.
From stdpp Require Import list gmap.

(** ** Objects in another order

    Decoding does not depend on the order of the members, when each names a field of
    its own and the setters of different fields commute. *)
Section Order.
Context {S : Type}.
Abbreviation fields := (list (string * (S → json → option S))).

Definition commute (f g : S → json → option S) : Prop :=
  ∀ s v w, (s' ← f s v; g s' w) = (s' ← g s w; f s' v).
Definition commuting (fs : fields) : Prop :=
  ∀ k f k' g, (k, f) ∈ fs → (k', g) ∈ fs → k ≠ k' → commute f g.
Definition own_field (fs : fields) (k : string) : Prop := ∃ f, find_field fs k = Some f ∧ (k, f) ∈ fs.

Lemma decode_members_perm fs l l' :
  commuting fs → Forall (own_field fs) l.*1 → NoDup l.*1 → l ≡ₚ l' →
  ∀ s, decode_members fs s l = decode_members fs s l'.
Proof.
  intros Hc Hown Hnd Hp. induction Hp as [|[k v] l l' Hp IH|[k v] [k' v'] l|l1 l2 l3 H12 IH1 H23 IH2]; intros s; [done| | |].
  - cbn in Hown, Hnd. rewrite Forall_cons in Hown. rewrite NoDup_cons in Hnd. destruct Hown as [_ Ho], Hnd as [_ Hn].
    cbn. destruct (find_field fs k) as [f|]; [|by apply IH]. destruct (f s v); [|done]. by apply IH.
  - cbn in Hown, Hnd. rewrite !Forall_cons in Hown. rewrite NoDup_cons in Hnd.
    destruct Hown as ((f & Hf & Hif) & (g & Hg & Hig) & _), Hnd as [Hn _]. cbn. rewrite Hf, Hg.
    assert (Hk : k ≠ k') by (intros ->; apply Hn, list_elem_of_here).
    specialize (Hc _ _ _ _ Hig Hif Hk s v v'). destruct (f s v'), (g s v); cbn in *;
      first [done|by rewrite Hc|by rewrite <-Hc].
  - rewrite IH1 by done. apply IH2; by rewrite <-H12.
Qed.
End Order.

(** The members of a concrete list, one by one. *)
Ltac each_member H :=
  repeat first [by apply not_elem_of_nil in H|apply elem_of_cons in H as [H|H]; [injection H as -> ->|]].
Ltac commuting_fields :=
  intros k f k' g Hf Hg Hk s v w; each_member Hf; each_member Hg; try done;
  unfold set_string, set_list; repeat case_match; try done;
  repeat match goal with
  | |- context [mapM ?f ?l] => destruct (mapM f l)
  | |- context [unmarshalNextRecommended ?j] => destruct (unmarshalNextRecommended j)
  end; done.

Lemma artifact_commutes : commuting artifact_fields.
Proof. commuting_fields. Qed.
Lemma risk_commutes : commuting risk_fields.
Proof. commuting_fields. Qed.
Lemma envelope_commutes : commuting envelope_fields.
Proof. commuting_fields. Qed.

(** ** Documents in a JSONB column *)

Section Jsonb.
Context `{PgTypesLaws}.

(** What is decoded from an object is decoded from what a column gives back of it. *)
Lemma jsonb_struct {S} fs (s : S) t (l : list (string * json)) :
  commuting fs → Forall (own_field fs) l.*1 → NoDup l.*1 →
  decode_struct fs s (jsonb (Node t (JObj l))) = decode_members fs s (prod_map id jsonb <$> l).
Proof.
  intros Hc Hown Hnd. pose proof (jsonb_value (Node t (JObj l)) Hnd) as (l' & Hv & Hp). unfold decode_struct. rewrite Hv.
  assert (Hkeys : (prod_map id jsonb <$> l).*1 = l.*1) by (rewrite <-list_fmap_compose; by apply list_fmap_ext; intros ? [] ?).
  symmetry. apply decode_members_perm; [done|by rewrite Hkeys..|done].
Qed.
Lemma jsonb_string s : jvalue (jsonb (str_node s)) = JStr s.
Proof. exact (jsonb_value (str_node s)). Qed.
Lemma jsonb_array t l : jvalue (jsonb (Node t (JArr l))) = JArr (jsonb <$> l).
Proof. exact (jsonb_value (Node t (JArr l))). Qed.
Lemma set_string_jsonb {S} (put : string → S → S) s t : set_string put s (jsonb (str_node t)) = Some (put t s).
Proof. unfold set_string. by rewrite jsonb_string. Qed.

(** The members of a written object name different fields. *)
Ltac own_fields := cbn [fmap list_fmap fst];
  repeat constructor; (eexists; split; [reflexivity|]); repeat first [apply list_elem_of_here|apply list_elem_of_further].
Ltac other_names := apply (bool_decide_unpack _); vm_compute; exact I.

(** Enter the members of a written object as the column gives them back. *)
Ltac enter_object comm := rewrite jsonb_struct; [|apply comm|own_fields|other_names]; cbn [fmap list_fmap prod_map id fst snd].
Ltac string_member := eapply decode_members_cons; [reflexivity|apply set_string_jsonb|].

Lemma artifact_jsonb a : decode_artifact (jsonb (artifact_node a)) = Some a.
Proof. unfold decode_artifact, artifact_node. enter_object artifact_commutes. do 2 string_member. by destruct a. Qed.
Lemma risk_jsonb r : decode_risk (jsonb (risk_node r)) = Some r.
Proof. unfold decode_risk, risk_node. enter_object risk_commutes. do 2 string_member. by destruct r. Qed.

Lemma set_list_jsonb {S A} (dec : json → option A) (enc : A → json) (put : list A → S → S) (s : S) t l :
  (∀ a, dec (jsonb (enc a)) = Some a) → set_list dec put s (jsonb (Node t (JArr (enc <$> l)))) = Some (put l s).
Proof. intros Hd. unfold set_list. rewrite jsonb_array, <-list_fmap_compose. by rewrite (mapM_nodes dec (jsonb ∘ enc)). Qed.

Lemma project_jsonb s : projectNextRecommendation (jsonb (str_node s)) = TrimSpace s.
Proof.
  unfold projectNextRecommendation. unfold as_string. rewrite jsonb_string.
  destruct (str_empty _) eqn:He; [|done]. by rewrite (jsonb_text (str_node s)) in He.
Qed.
Lemma next_jsonb {S} (put : list string → S) t l :
  (xs ← unmarshalNextRecommended (jsonb (Node t (JArr (str_node <$> l)))); Some (put xs))
  = Some (put (filter (λ s, s ≠ EmptyString) (TrimSpace <$> l))).
Proof.
  unfold unmarshalNextRecommended. rewrite jsonb_array, <-!list_fmap_compose. cbn [mbind option_bind]. do 3 f_equal.
  apply list_fmap_ext. intros _ s _. apply project_jsonb.
Qed.

(** An envelope comes back from a JSONB column as [stored_envelope]. *)
Lemma envelope_jsonb e : ∃ j, Envelope_marshal e = JSON j ∧ decode_envelope (JSON (jsonb j)) = Some (stored_envelope e).
Proof.
  eexists. split; [reflexivity|]. unfold decode_envelope. enter_object @envelope_commutes.
  do 5 (string_member; env_fields).
  eapply decode_members_cons; [reflexivity| |].
  { cbn. by rewrite (jsonb_value (Node "0" (JNum (e_Confidence e)))). }
  env_fields. string_member; env_fields.
  eapply decode_members_cons; [reflexivity|apply set_list_jsonb, artifact_jsonb|]. env_fields.
  eapply decode_members_cons; [reflexivity|apply next_jsonb|]. env_fields.
  eapply decode_members_cons; [reflexivity|apply set_list_jsonb, risk_jsonb|]. env_fields.
  eapply decode_members_cons; [reflexivity|reflexivity|]. env_fields. reflexivity.
Qed.

(** *** The concerns of a phase (phase_repo.go) *)

(** concernRow *)
Definition concern_node (c : Concern) : json :=
  Node "{}" (JObj [("severity", str_node (c_Severity c)); ("category", str_node (c_Category c));
                   ("message", str_node (c_Message c)); ("evidence", str_node (c_Evidence c))]%string).
Definition concern_fields : list (string * (Concern → json → option Concern)) :=
  [ ("severity"%string, set_string (λ t c, mkConcern t (c_Category c) (c_Message c) (c_Evidence c)));
    ("category"%string, set_string (λ t c, mkConcern (c_Severity c) t (c_Message c) (c_Evidence c)));
    ("message"%string, set_string (λ t c, mkConcern (c_Severity c) (c_Category c) t (c_Evidence c)));
    ("evidence"%string, set_string (λ t c, mkConcern (c_Severity c) (c_Category c) (c_Message c) t)) ].
Definition decode_concernRow : json → option Concern := decode_struct concern_fields (mkConcern "" "" "" "").

Definition marshalConcerns (cs : list Concern) : option json :=
  match cs with [] => None | _ => Some (Node "[]" (JArr (concern_node <$> cs))) end.
Definition unmarshalConcerns (b : option json) : result store_error (list Concern) :=
  match b with
  | None => Ok []
  | Some j => match set_list decode_concernRow (λ cs _, cs) [] j with Some cs => Ok cs | None => Err ErrStore end
  end.

Lemma concern_commutes : commuting concern_fields.
Proof. commuting_fields. Qed.
Lemma concern_jsonb c : decode_concernRow (jsonb (concern_node c)) = Some c.
Proof. unfold decode_concernRow, concern_node. enter_object concern_commutes. do 4 string_member. by destruct c. Qed.
Lemma concerns_jsonb cs : unmarshalConcerns (jsonb <$> marshalConcerns cs) = Ok cs.
Proof.
  destruct cs as [|c cs]; [done|]. cbn [marshalConcerns option_map fmap option_fmap]. unfold unmarshalConcerns.
  by rewrite (set_list_jsonb decode_concernRow concern_node) by apply concern_jsonb.
Qed.
End Jsonb.

(** ** Columns *)

Section Columns.
Context `{PgTypes} `{UlidLib}.

(** json.Marshal of an envelope that is not nil, as the column gives it back. *)
Definition marshal_envelope (e : option Envelope) : option json :=
  match e with
  | None => None
  | Some e => match Envelope_marshal e with JSON j => Some (jsonb j) | NotJSON _ => None end
  end.
Definition unmarshal_envelope (b : option json) : result store_error (option Envelope) :=
  match b with
  | None => Ok None
  | Some j => match decode_envelope (JSON j) with Some e => Ok (Some e) | None => Err ErrStore end
  end.
Definition parse {A} (r : result ids_error A) : result store_error A := result_map_err (λ _, ErrStore) r.

Record phase_columns := mkPhaseCols {
  pc_id : string; pc_change_id : string; pc_phase_type : string; pc_status : PhaseStatus; pc_envelope : option json;
  pc_confidence : float64; pc_retry_budget : Z; pc_attempts : Z; pc_started_at : option Time;
  pc_completed_at : option Time; pc_concerns : option json
}.
(** The arguments of the INSERT of [PhaseRepo.Save], and what is set on a conflict. *)
Definition phase_values (p : Phase) : phase_columns :=
  mkPhaseCols (ID_String (p_id p)) (ID_String (p_changeID p)) (pt_string (p_type p)) (p_status p)
    (marshal_envelope (p_envelope p)) (numeric_3_2 (p_confidence p)) (p_retryBudget p) (p_attempts p)
    (p_startedAt p) (p_completedAt p) (jsonb <$> marshalConcerns (p_concerns p)).
Definition phase_excluded (v r : phase_columns) : phase_columns :=
  mkPhaseCols (pc_id r) (pc_change_id r) (pc_phase_type r) (pc_status v) (pc_envelope v) (pc_confidence v)
    (pc_retry_budget v) (pc_attempts r) (pc_started_at v) (pc_completed_at v) (pc_concerns v).
Definition scanPhase (r : phase_columns) : result store_error Phase :=
  let? pid := parse (ParseID PhaseK (pc_id r)) in
  let? cid := parse (ParseID ChangeK (pc_change_id r)) in
  let? env := unmarshal_envelope (pc_envelope r) in
  let p := Phase_Hydrate pid cid (pt_of (pc_phase_type r)) (pc_status r) env (pc_confidence r) (pc_retry_budget r)
             (pc_attempts r) (pc_started_at r) (pc_completed_at r) in
  let? concerns := unmarshalConcerns (pc_concerns r) in
  Ok (match concerns with [] => p | _ => Phase_SetConcerns concerns p end).

Record session_columns := mkSessionCols {
  sc_id : string; sc_change_id : string; sc_phase_id : string; sc_agent_role : string; sc_provider : string;
  sc_worktree_id : option string; sc_prompt_sha256 : string; sc_command : string; sc_status : SessionStatus;
  sc_exit_code : option Z; sc_envelope : option json; sc_started_at : Time; sc_ended_at : option Time
}.
Definition session_values (s : Session) : session_columns :=
  mkSessionCols (ID_String (s_id s)) (ID_String (s_changeID s)) (ID_String (s_phaseID s)) (s_role s) (s_provider s)
    (ID_String <$> s_worktreeID s) (s_promptSHA256 s) (s_command s) (s_status s) (s_exitCode s)
    (marshal_envelope (s_envelope s)) (s_startedAt s) (s_endedAt s).
Definition session_excluded (v r : session_columns) : session_columns :=
  mkSessionCols (sc_id r) (sc_change_id r) (sc_phase_id r) (sc_agent_role r) (sc_provider r) (sc_worktree_id v)
    (sc_prompt_sha256 r) (sc_command r) (sc_status v) (sc_exit_code v) (sc_envelope v) (sc_started_at r) (sc_ended_at v).
Definition parse_worktree (w : option string) : result store_error (option WorktreeID) :=
  match w with None => Ok None | Some w => let? wid := parse (ParseID WorktreeK w) in Ok (Some wid) end.
Definition scanSession (r : session_columns) : result store_error Session :=
  let? sid := parse (ParseID SessionK (sc_id r)) in
  let? cid := parse (ParseID ChangeK (sc_change_id r)) in
  let? pid := parse (ParseID PhaseK (sc_phase_id r)) in
  let? wid := parse_worktree (sc_worktree_id r) in
  let? env := unmarshal_envelope (sc_envelope r) in
  Ok (Session_Hydrate sid cid pid (sc_agent_role r) (sc_provider r) wid (sc_prompt_sha256 r) (sc_command r)
        (sc_status r) (sc_exit_code r) env (sc_started_at r) (sc_ended_at r)).

Record change_columns := mkChangeCols {
  cc_id : string; cc_name : string; cc_project : string; cc_status : ChangeStatus; cc_current_phase : string;
  cc_artifact_store : string; cc_base_ref : string; cc_created_at : Time; cc_updated_at : Time
}.
Definition change_values (c : Change) : change_columns :=
  mkChangeCols (ID_String (ch_id c)) (ch_name c) (ch_project c) (ch_status c) (pt_string (ch_currentPhase c))
    (ch_artifactStore c) (ch_baseRef c) (ch_createdAt c) (ch_updatedAt c).
Definition change_excluded (v r : change_columns) : change_columns :=
  mkChangeCols (cc_id r) (cc_name r) (cc_project r) (cc_status v) (cc_current_phase v) (cc_artifact_store r)
    (cc_base_ref r) (cc_created_at r) (cc_updated_at v).
Definition scanChange (r : change_columns) : result store_error Change :=
  let? id := parse (ParseID ChangeK (cc_id r)) in
  Ok (Change_Hydrate id (cc_name r) (cc_project r) (cc_status r) (pt_of (cc_current_phase r)) (cc_artifact_store r)
        (cc_base_ref r) (cc_created_at r) (cc_updated_at r)).
End Columns.

(** ** Tables of columns *)

Section Tables.
Context `{PgTypes} `{UlidLib}.

Record columns_db := mkColumnsDb {
  cd_changes : gmap ChangeID change_columns; cd_phases : gmap PhaseID phase_columns; cd_sessions : gmap SessionID session_columns
}.

(** UNIQUE (project, name) *)
Definition same_slot (v r : change_columns) : bool :=
  bool_decide (cc_project r = cc_project v) && bool_decide (cc_name r = cc_name v).
Definition ChangeRepo_Save (c : Change) (d : columns_db) : result store_error columns_db :=
  let v := change_values c in
  let put r := Ok (mkColumnsDb (<[ch_id c := r]> (cd_changes d)) (cd_phases d) (cd_sessions d)) in
  match cd_changes d !! ch_id c with
  | Some r => put (change_excluded v r)
  | None => if existsb (λ kv, same_slot v kv.2) (map_to_list (cd_changes d)) then Err ErrStore else put v
  end.

(** UNIQUE (change_id, phase_type, attempts) *)
Definition same_try (v r : phase_columns) : bool :=
  bool_decide (pc_change_id r = pc_change_id v) && bool_decide (pc_phase_type r = pc_phase_type v)
  && (pc_attempts r =? pc_attempts v)%Z.
Definition PhaseRepo_Save (p : Phase) (d : columns_db) : result store_error columns_db :=
  let v := phase_values p in
  let put id r := Ok (mkColumnsDb (cd_changes d) (<[id := r]> (cd_phases d)) (cd_sessions d)) in
  match find (λ kv, same_try v kv.2) (map_to_list (cd_phases d)) with
  | Some (id, r) => put id (phase_excluded v r)
  | None =>
      match cd_phases d !! p_id p, cd_changes d !! p_changeID p with
      | None, Some _ => put (p_id p) v
      | _, _ => Err ErrStore
      end
  end.

Definition SessionRepo_Save (s : Session) (d : columns_db) : result store_error columns_db :=
  let v := session_values s in
  let put r := Ok (mkColumnsDb (cd_changes d) (cd_phases d) (<[s_id s := r]> (cd_sessions d))) in
  match cd_sessions d !! s_id s with
  | Some r => put (session_excluded v r)
  | None =>
      match cd_changes d !! s_changeID s, cd_phases d !! s_phaseID s with
      | Some _, Some _ => put v
      | _, _ => Err ErrStore
      end
  end.

Definition row_found {C A} (scan : C → result store_error A) (r : option C) : result store_error A :=
  match r with Some r => scan r | None => Err ErrNotFound end.
Definition ChangeRepo_FindByID (id : ChangeID) (d : columns_db) : result store_error Change := row_found scanChange (cd_changes d !! id).
Definition PhaseRepo_FindByID (id : PhaseID) (d : columns_db) : result store_error Phase := row_found scanPhase (cd_phases d !! id).
Definition SessionRepo_FindByID (id : SessionID) (d : columns_db) : result store_error Session := row_found scanSession (cd_sessions d !! id).

(** *** What a table of columns reads as *)

Definition reads {K C A} `{Countable K} (scan : C → result store_error A) (T : gmap K C) (M : gmap K A) : Prop :=
  ∀ k, scan <$> T !! k = Ok <$> M !! k.

Section Reads.
Context {K C A : Type} `{Countable K} (scan : C → result store_error A).
Implicit Types (T : gmap K C) (M : gmap K A).
Lemma reads_Some T M k c : reads scan T M → T !! k = Some c → ∃ a, M !! k = Some a ∧ scan c = Ok a.
Proof. intros Hr Hc. specialize (Hr k). rewrite Hc in Hr. destruct (M !! k); naive_solver. Qed.
Lemma reads_back T M k a : reads scan T M → M !! k = Some a → ∃ c, T !! k = Some c ∧ scan c = Ok a.
Proof. intros Hr Hc. specialize (Hr k). rewrite Hc in Hr. destruct (T !! k); naive_solver. Qed.
Lemma reads_None T M k : reads scan T M → T !! k = None → M !! k = None.
Proof. intros Hr Hc. specialize (Hr k). rewrite Hc in Hr. by destruct (M !! k). Qed.
Lemma reads_insert T M k c a : reads scan T M → scan c = Ok a → reads scan (<[k := c]> T) (<[k := a]> M).
Proof. intros Hr Hs i. destruct (decide (i = k)) as [->|Hne]; [by rewrite !lookup_insert_eq; cbn; rewrite Hs|by rewrite !lookup_insert_ne]. Qed.
Lemma reads_found T M k : reads scan T M → row_found scan (T !! k) = match M !! k with Some a => Ok a | None => Err ErrNotFound end.
Proof. intros Hr. specialize (Hr k). destruct (T !! k), (M !! k); cbn in *; congruence. Qed.
Lemma reads_exists T M (f : C → bool) (g : A → bool) :
  reads scan T M → (∀ c a, scan c = Ok a → f c = g a) →
  existsb (λ kv, f kv.2) (map_to_list T) = existsb (λ kv, g kv.2) (map_to_list M).
Proof.
  intros Hr Hfg. apply eq_true_iff_eq. rewrite !existsb_exists. split; intros ((k & x) & Hin & Hx); cbn in Hx;
    apply list_elem_of_In, elem_of_map_to_list in Hin.
  - destruct (reads_Some _ _ _ _ Hr Hin) as (a & Ha & Hs). exists (k, a). split; [by apply list_elem_of_In, elem_of_map_to_list|]. cbn. by rewrite <-(Hfg _ _ Hs).
  - destruct (reads_back _ _ _ _ Hr Hin) as (c & Hc & Hs). exists (k, c). split; [by apply list_elem_of_In, elem_of_map_to_list|]. cbn. by rewrite (Hfg _ _ Hs).
Qed.
End Reads.

Record read_back (cd : columns_db) (d : DB) : Prop := {
  rb_changes : reads scanChange (cd_changes cd) (t_changes d);
  rb_phases : reads scanPhase (cd_phases cd) (t_phases d);
  rb_sessions : reads scanSession (cd_sessions cd) (t_sessions d)
}.
End Tables.

(** ** The columns give back the rows of [Store] *)

Section Scanning.
Context `{PgTypesLaws} `{UlidLib}.

(** What identifiers and phase types are that came in through their parsers. *)
Definition parses {k} (i : ID k) : Prop := ParseID k (ID_String i) = Ok i.
Lemma parse_id {k} (i : ID k) : parses i → parse (ParseID k (ID_String i)) = Ok i.
Proof. intros Hi. unfold parse. by rewrite Hi. Qed.
Lemma parsed_text {k} s (i : ID k) : parse (ParseID k s) = Ok i → ID_String i = s.
Proof. unfold parse. destruct (ParseID k s) eqn:Hp; [|done]. intros [= ->]. by apply ParseID_Ok in Hp as (_ & ? & _). Qed.

Lemma envelope_column e : unmarshal_envelope (marshal_envelope e) = Ok (stored_envelope <$> e).
Proof. destruct e as [e|]; [|done]. destruct (envelope_jsonb e) as (j & Hj & Hd). unfold marshal_envelope, unmarshal_envelope. by rewrite Hj, Hd. Qed.

Definition phase_readable (p : Phase) : Prop := parses (p_id p) ∧ parses (p_changeID p) ∧ PhaseType_IsValid (p_type p) = true.
Lemma with_concerns cs p : p_concerns p = [] → (match cs with [] => p | _ => Phase_SetConcerns cs p end) = Phase_SetConcerns cs p.
Proof. intros Hc. destruct cs; [|done]. destruct p. cbn in *. by subst. Qed.

Lemma scan_phase_values p : phase_readable p → scanPhase (phase_values p) = Ok (phase_row p).
Proof.
  intros (Hi & Hc & Ht). unfold scanPhase, phase_values. cbn. rewrite !parse_id by done. cbn.
  rewrite envelope_column. cbn. rewrite concerns_jsonb. cbn. rewrite with_concerns by done. by rewrite pt_of_string.
Qed.
(** A row updated on a conflict, of columns that read as [q]. *)
Lemma scan_phase_excluded p r q :
  scanPhase r = Ok q →
  scanPhase (phase_excluded (phase_values p) r) =
    Ok (mkPhase (p_id q) (p_changeID q) (p_type q) (p_status p) (stored_envelope <$> p_envelope p)
          (numeric_3_2 (p_confidence p)) (p_retryBudget p) (p_attempts q) (p_startedAt p) (p_completedAt p) (p_concerns p)).
Proof.
  unfold scanPhase, phase_excluded. cbn. destruct (parse (ParseID PhaseK _)) as [pid|]; [|done]. cbn.
  destruct (parse (ParseID ChangeK _)) as [cid|]; [|done]. cbn. destruct (unmarshal_envelope (pc_envelope r)); [|done]. cbn.
  destruct (unmarshalConcerns (pc_concerns r)) as [cs|]; [|done]. cbn. rewrite with_concerns by done. intros [= <-].
  rewrite envelope_column. cbn. rewrite concerns_jsonb. cbn. by rewrite with_concerns.
Qed.
(** The columns of the key and the aggregate they read as. *)
Lemma scanPhase_key r q :
  scanPhase r = Ok q → pc_change_id r = ID_String (p_changeID q) ∧ p_type q = pt_of (pc_phase_type r) ∧ p_attempts q = pc_attempts r.
Proof.
  unfold scanPhase. destruct (parse (ParseID PhaseK _)) as [pid|]; [|done]. cbn.
  destruct (parse (ParseID ChangeK _)) as [cid|] eqn:Hc; [|done]. cbn. destruct (unmarshal_envelope _); [|done]. cbn.
  destruct (unmarshalConcerns _); [|done]. cbn. rewrite with_concerns by done. intros [= <-]. cbn. by rewrite (parsed_text _ _ Hc).
Qed.
Lemma same_try_attempt p r q : PhaseType_IsValid (p_type p) = true → scanPhase r = Ok q → same_try (phase_values p) r = same_attempt p q.
Proof.
  intros Ht (Hc & Hty & Ha)%scanPhase_key. unfold same_try, same_attempt. cbn. rewrite Hc, Hty, Ha. do 2 f_equal.
  - apply bool_decide_ext. destruct (p_changeID q), (p_changeID p). cbn. split; congruence.
  - apply bool_decide_ext. split; [intros ->; by apply pt_of_string|intros <-; by rewrite pt_string_of].
Qed.

Definition session_readable (s : Session) : Prop :=
  parses (s_id s) ∧ parses (s_changeID s) ∧ parses (s_phaseID s) ∧ ∀ w, s_worktreeID s = Some w → parses w.
Lemma worktree_column w : (∀ i, w = Some i → parses i) → parse_worktree (ID_String <$> w) = Ok w.
Proof. intros Hw. destruct w as [w|]; [|done]. cbn. by rewrite parse_id by auto. Qed.
Lemma scan_session_values s : session_readable s → scanSession (session_values s) = Ok (session_row s).
Proof.
  intros (Hi & Hc & Hp & Hw). unfold scanSession, session_values. cbn. rewrite !parse_id by done. cbn.
  rewrite worktree_column by done. cbn. by rewrite envelope_column.
Qed.
Lemma scan_session_excluded s r q :
  session_readable s → scanSession r = Ok q →
  scanSession (session_excluded (session_values s) r) =
    Ok (mkSession (s_id q) (s_changeID q) (s_phaseID q) (s_role q) (s_provider q) (s_worktreeID s) (s_promptSHA256 q)
          (s_command q) (s_status s) (s_exitCode s) (stored_envelope <$> s_envelope s) (s_startedAt q) (s_endedAt s)).
Proof.
  intros (_ & _ & _ & Hw). unfold scanSession, session_excluded. cbn. destruct (parse (ParseID SessionK _)) as [sid|]; [|done]. cbn.
  destruct (parse (ParseID ChangeK _)) as [cid|]; [|done]. cbn. destruct (parse (ParseID PhaseK _)) as [pid|]; [|done]. cbn.
  destruct (parse_worktree (sc_worktree_id r)); [|done]. cbn. destruct (unmarshal_envelope (sc_envelope r)); [|done]. cbn. intros [= <-].
  rewrite worktree_column by done. cbn. by rewrite envelope_column.
Qed.

Definition change_readable (c : Change) : Prop := parses (ch_id c) ∧ PhaseType_IsValid (ch_currentPhase c) = true.
Lemma scan_change_values c : change_readable c → scanChange (change_values c) = Ok c.
Proof. intros (Hi & Ht). unfold scanChange, change_values. cbn. rewrite parse_id by done. cbn. rewrite pt_of_string by done. by destruct c. Qed.
Lemma scan_change_excluded c r q :
  change_readable c → scanChange r = Ok q →
  scanChange (change_excluded (change_values c) r) =
    Ok (mkChange (ch_id q) (ch_name q) (ch_project q) (ch_status c) (ch_currentPhase c) (ch_artifactStore q) (ch_baseRef q)
          (ch_createdAt q) (ch_updatedAt c)).
Proof.
  intros (_ & Ht). unfold scanChange, change_excluded. cbn. destruct (parse (ParseID ChangeK _)) as [id|]; [|done]. cbn. intros [= <-].
  by rewrite pt_of_string.
Qed.
Lemma scanChange_slot r q : scanChange r = Ok q → cc_project r = ch_project q ∧ cc_name r = ch_name q.
Proof. unfold scanChange. destruct (parse _); [|done]. cbn. by intros [= <-]. Qed.
End Scanning.

(** ** Refinement *)

(** A write of one of the three repositories. *)
Inductive row_write := SaveChange (c : Change) | SavePhase (p : Phase) | SaveSession (s : Session).

Section Refinement.
Context `{PgTypes} `{UlidLib}.

Definition column_write (o : row_write) : columns_db → result store_error columns_db :=
  match o with SaveChange c => ChangeRepo_Save c | SavePhase p => PhaseRepo_Save p | SaveSession s => SessionRepo_Save s end.
Definition table_write (o : row_write) (d : DB) : result store_error DB :=
  match o with
  | SaveChange c => let? (_, d') := change_upsert c d in Ok d'
  | SavePhase p => let? (_, d') := phase_upsert p d in Ok d'
  | SaveSession s => session_upsert s d
  end.
Definition readable (o : row_write) : Prop :=
  match o with SaveChange c => change_readable c | SavePhase p => phase_readable p | SaveSession s => session_readable s end.

(** A refused statement changes nothing. *)
Fixpoint columns_after (os : list row_write) (d : columns_db) : columns_db :=
  match os with [] => d | o :: os => columns_after os (match column_write o d with Ok d' => d' | Err _ => d end) end.
Fixpoint tables_after (os : list row_write) (d : DB) : DB :=
  match os with [] => d | o :: os => tables_after os (match table_write o d with Ok d' => d' | Err _ => d end) end.
Definition no_columns : columns_db := mkColumnsDb ∅ ∅ ∅.

Definition agree (r : result store_error columns_db) (r' : result store_error DB) : Prop :=
  match r, r' with Ok cd, Ok d => read_back cd d | Err e, Err e' => e = e' | _, _ => False end.
End Refinement.

Section Refines.
Context `{PgTypesLaws} `{UlidLib}.

Lemma changes_refine c cd d : read_back cd d → change_readable c → agree (ChangeRepo_Save c cd) (table_write (SaveChange c) d).
Proof.
  intros [Hc Hp Hs] Hr. unfold ChangeRepo_Save, table_write, change_upsert. destruct (cd_changes cd !! ch_id c) as [r|] eqn:Hl.
  - destruct (reads_Some _ _ _ _ _ Hc Hl) as (q & -> & Hq). split; [|done..]. by apply reads_insert, scan_change_excluded.
  - rewrite (reads_None _ _ _ _ Hc Hl).
    rewrite (reads_exists _ _ _ (same_slot (change_values c)) (λ q, bool_decide (ch_project q = ch_project c) && bool_decide (ch_name q = ch_name c)) Hc).
    + destruct (existsb _ _); [done|]. split; [|done..]. by apply reads_insert, scan_change_values.
    + intros r q (Hpr & Hn)%scanChange_slot. unfold same_slot. cbn. by rewrite Hpr, Hn.
Qed.

Lemma attempt_found p cd d :
  read_back cd d → keys_ok (t_phases d) → phase_readable p →
  match find (λ kv, same_try (phase_values p) kv.2) (map_to_list (cd_phases cd)) with
  | Some (id, r) => ∃ q, cd_phases cd !! id = Some r ∧ scanPhase r = Ok q ∧ find_attempt p d = Some (id, q)
  | None => find_attempt p d = None
  end.
Proof.
  intros [Hc Hp Hs] Hk (_ & _ & Ht). destruct (find _ _) as [[id r]|] eqn:Hf.
  - apply find_some in Hf as [Hin Hsame]. apply list_elem_of_In, elem_of_map_to_list in Hin.
    destruct (reads_Some _ _ _ _ _ Hp Hin) as (q & Hq & Hscan). exists q. split_and!; [done|done|].
    apply find_attempt_keys; [done|done|]. by rewrite <-(same_try_attempt p r q).
  - destruct (find_attempt p d) as [[id q]|] eqn:Hfa; [|done]. apply find_attempt_Some in Hfa as [Hq Hsame].
    destruct (reads_back _ _ _ _ _ Hp Hq) as (r & Hin & Hscan).
    apply (find_none _ _) with (x := (id, r)) in Hf; [|by apply list_elem_of_In, elem_of_map_to_list].
    cbn in Hf. by rewrite (same_try_attempt p r q), Hsame in Hf.
Qed.

Lemma phases_refine p cd d :
  read_back cd d → keys_ok (t_phases d) → phase_readable p → agree (PhaseRepo_Save p cd) (table_write (SavePhase p) d).
Proof.
  intros Hrb Hk Hr. pose proof (attempt_found p cd d Hrb Hk Hr) as Hf. destruct Hrb as [Hc Hp Hs].
  unfold PhaseRepo_Save, table_write, phase_upsert. destruct (find _ _) as [[id r]|].
  - destruct Hf as (q & Hin & Hscan & ->). split; [done| |done]. by apply reads_insert, scan_phase_excluded.
  - rewrite Hf. destruct (cd_phases cd !! p_id p) as [r|] eqn:Hl.
    { by destruct (reads_Some _ _ _ _ _ Hp Hl) as (q & -> & _). }
    rewrite (reads_None _ _ _ _ Hp Hl). destruct (cd_changes cd !! p_changeID p) as [r|] eqn:Hcl.
    + destruct (reads_Some _ _ _ _ _ Hc Hcl) as (q & -> & _). split; [done| |done]. by apply reads_insert, scan_phase_values.
    + by rewrite (reads_None _ _ _ _ Hc Hcl).
Qed.

Lemma sessions_refine s cd d : read_back cd d → session_readable s → agree (SessionRepo_Save s cd) (table_write (SaveSession s) d).
Proof.
  intros [Hc Hp Hs] Hr. unfold SessionRepo_Save, table_write, session_upsert. destruct (cd_sessions cd !! s_id s) as [r|] eqn:Hl.
  - destruct (reads_Some _ _ _ _ _ Hs Hl) as (q & -> & Hq). split; [done..|]. by apply reads_insert, scan_session_excluded.
  - rewrite (reads_None _ _ _ _ Hs Hl). destruct (cd_changes cd !! s_changeID s) as [r|] eqn:Hcl.
    + destruct (reads_Some _ _ _ _ _ Hc Hcl) as (q & -> & _). destruct (cd_phases cd !! s_phaseID s) as [r'|] eqn:Hpl.
      * destruct (reads_Some _ _ _ _ _ Hp Hpl) as (q' & -> & _). split; [done..|]. by apply reads_insert, scan_session_values.
      * by rewrite (reads_None _ _ _ _ Hp Hpl).
    + by rewrite (reads_None _ _ _ _ Hc Hcl).
Qed.

Lemma write_refines o cd d : read_back cd d → keys_ok (t_phases d) → readable o → agree (column_write o cd) (table_write o d).
Proof. destruct o; [by intros; apply changes_refine|apply phases_refine|by intros; apply sessions_refine]. Qed.

Lemma table_write_keys o d d' : keys_ok (t_phases d) → table_write o d = Ok d' → keys_ok (t_phases d').
Proof.
  intros Hk. destruct o as [c|p|s]; cbn.
  - unfold change_upsert. repeat case_match; intros; by simplify_eq.
  - destruct (phase_upsert p d) as [[row d1]|] eqn:Hu; [|done]. intros [= <-]. by eapply phase_upsert_keys.
  - unfold session_upsert. repeat case_match; intros; by simplify_eq.
Qed.

Lemma writes_keys os d : keys_ok (t_phases d) → keys_ok (t_phases (tables_after os d)).
Proof.
  revert d. induction os as [|o os IH]; intros d Hk; [done|]. cbn. apply IH.
  destruct (table_write o d) eqn:Hw; [by eapply table_write_keys|done].
Qed.

Lemma writes_refine os cd d :
  read_back cd d → keys_ok (t_phases d) → Forall readable os → read_back (columns_after os cd) (tables_after os d).
Proof.
  revert cd d. induction os as [|o os IH]; intros cd d Hrb Hk Hos; [done|]. apply Forall_cons in Hos as [Ho Hos]. cbn.
  pose proof (write_refines o cd d Hrb Hk Ho) as Ha. unfold agree in Ha.
  destruct (column_write o cd), (table_write o d) eqn:Hw; try done; apply IH; [done|by eapply table_write_keys|done..].
Qed.

(** C20: the columns refine the tables of aggregates.  After any sequence of saves of
    changes, phases and sessions, refused ones included, into an empty database: the
    next save is refused by the columns exactly when the tables refuse it, and every
    row is read back by id as the aggregate the tables hold, envelopes and concerns
    included, whatever text JSONB gives them. *)
Theorem columns_refine_tables os :
  Forall readable os →
  let cd := columns_after os no_columns in let d := tables_after os emptyDB in
  (∀ o, readable o → agree (column_write o cd) (table_write o d)) ∧
  (∀ id, ChangeRepo_FindByID id cd = change_find id d) ∧
  (∀ id, PhaseRepo_FindByID id cd = phase_find id d) ∧
  (∀ id, SessionRepo_FindByID id cd = match t_sessions d !! id with Some s => Ok s | None => Err ErrNotFound end).
Proof.
  intros Hos cd d.
  assert (Hk0 : keys_ok (t_phases emptyDB)) by (split; cbn; intros; done).
  assert (Hrb : read_back cd d) by (apply writes_refine; [split; intros k; done|done|done]).
  pose proof (writes_keys os emptyDB Hk0) as Hk.
  split_and!; [by intros; apply write_refines|intros id; apply reads_found, Hrb..].
Qed.
End Refines.

(** A JSONB column that turns the members of every object around. *)
Fixpoint reversed (j : json) : json :=
  match j with
  | Node t v =>
      Node t match v with
             | JArr l => JArr (reversed <$> l)
             | JObj l => JObj (rev (prod_map id reversed <$> l))
             | JStr s => JStr s | JNum x => JNum x | JBool b => JBool b | JNull => JNull
             end
  end.
#[local] Instance reversing : PgTypes := {| numeric_3_2 x := x; jsonb := reversed |}.
#[local] Instance reversing_laws : PgTypesLaws.
Proof.
  split; [done|done| |by intros []]. intros [t v]. destruct v as [| | | |l|l]; try done.
  intros Hn. exists (rev (prod_map id reversed <$> l)). split; [done|]. symmetry. apply Permutation_rev.
Qed.
#[local] Instance any_ulid : UlidLib := {| ulid_Parse _ := true |}.

Definition sample_change : Change := mkChange (mkID "c") "n" "p" StatusActive PhaseInit "none" "main" 1 1.
Definition sample_envelope : Envelope :=
  mkEnvelope "v1" "explore" "n" "p" StatusDone f64_0_9 "s" [mkArtifactRef "k" "t"] [" go on "]%string [mkRisk "d" "low"] None.
Definition sample_phase : Phase :=
  mkPhase (mkID "ph") (mkID "c") PhaseExplore PhaseStatusDone (Some sample_envelope) f64_0_9 3 1 (Some 2%Z) (Some 3%Z)
    [mkConcern "low" "style" "m" "e"].
Definition sample_session : Session :=
  mkSession (mkID "s") (mkID "c") (mkID "ph") RoleSDDExplore ProviderOpenCode (Some (mkID "w")) "h" "cmd" SessDone (Some 0%Z)
    (Some sample_envelope) 2 (Some 3%Z).
Definition sample_writes : list row_write := [SaveChange sample_change; SavePhase sample_phase; SaveSession sample_session].

Lemma columns_refine_tables_witness :
  Forall readable sample_writes ∧
  PhaseRepo_FindByID (mkID "ph") (columns_after sample_writes no_columns) = Ok (phase_row sample_phase) ∧
  SessionRepo_FindByID (mkID "s") (columns_after sample_writes no_columns) = Ok (session_row sample_session).
Proof.
  assert (Hr : Forall readable sample_writes).
  { repeat constructor. by intros w [= <-]. }
  destruct (columns_refine_tables sample_writes Hr) as (_ & _ & Hp & Hs).
  split; [exact Hr|]. split; [rewrite Hp; vm_compute; reflexivity|rewrite Hs; vm_compute; reflexivity].
Defined.
