(* ===== verification/ApplyCompose.v ===== *)
(** * The phase service with the real apply executor

    The phase service sees the apply executor through the interface
    [executor_conforms].  The executor of [ApplyRun] discharges it, so the
    theorems of [PhaseRuns] hold of the two together. *)
From S2P Require Import Prelude Ids Json Envelope PhaseDomain ChangeDomain ApplyDomain Session Outbox Discipline Store BoardStore Effects Concurrency PhaseHelpers ApplyInputs ApplyEffects ApplyBuild ApplyTeam ApplyRun ApplyLogic ApplyTask ApplyGroup ApplyVerdict Logic PhaseService PhaseRuns.
From stdpp Require Import list.

Section Compose.
Context `{PgTypes} `{UlidLib} `{WireContract} `{TimeText} `{ErrorTexts}.
Context (cfg : RunConfig).

(** The answers of the apply executor in [E] are runs of [Execute], each in an
    environment and a state of its own. *)
Definition executor_runs (E : env) : Prop := ∀ c p i n, ∃ EA w,
  let r := (aexec EA (Execute cfg c p (in_PriorPhasesStatus i)) w).1 in
  env_ext E _ (ApplyExecute c p i) n = (Some r.1, bool_decide (is_Some r.2)).

Lemma executor_runs_conforms E : executor_runs E → executor_conforms E.
Proof.
  intros HE c p i n e b Ha. destruct (HE c p i n) as (EA & w & Hr). cbv zeta in Hr.
  destruct (aexec_behaves EA (Execute cfg c p (in_PriorPhasesStatus i)) w) as (tr & Hb & _).
  destruct (aexec EA (Execute cfg c p (in_PriorPhasesStatus i)) w) as [r w1]. cbn [fst] in *.
  rewrite Hr in Ha. injection Ha as <- _.
  apply Execute_conforms in Hb as (_ & Hs & _). by destruct Hs as [-> | ->].
Qed.

(** The status of the apply phase for an envelope of the executor. *)
Definition apply_verdict (e : Envelope) (s : PhaseStatus) : Prop :=
  if bool_decide (e_Status e = StatusDone)
  then s = PhaseStatusDone ∨ s = PhaseStatusDoneWithConcerns else s = PhaseStatusBlocked.

(** The envelope of a run, with the critic's concerns, completes the phase. *)
Lemma concerns_complete c p priorStatus tr r cs q now :
  behaves (Execute cfg c p priorStatus) tr r →
  p_type q = PhaseApply → p_status q = PhaseStatusRunning →
  ∃ q', Phase_Complete (Some (apply_concerns cs q r.1).2) now (apply_concerns cs q r.1).1 = Ok q' ∧
        same_phase_key q q' ∧ apply_verdict r.1 (p_status q').
Proof.
  intros Hb Ht Hr. apply Execute_conforms in Hb as (Hp & Hs & Hc & _).
  set (p0 := (apply_concerns cs q r.1).1). set (e0 := (apply_concerns cs q r.1).2).
  destruct (apply_concerns_key cs q r.1) as ((Hi & Hci & Hti & Hai) & Hst & _). fold p0 e0 in Hi, Hci, Hti, Hai, Hst.
  assert (He : e_Phase e0 = e_Phase r.1 ∧ (e_Status e0 = StatusDone → e0 = r.1) ∧ apply_verdict r.1 (complete_status (e_Status e0) PhaseStatusRunning)).
  { subst e0. clear p0 Hi Hci Hti Hai Hst. unfold apply_concerns, apply_verdict.
    destruct Hs as [Hx|Hx]; rewrite !Hx; repeat case_bool_decide; simpl; rewrite ?Hx; simpl; split_and!; auto; done. }
  destruct He as (Hph & Hdone & Hv). eexists. split.
  - apply Phase_Complete_Ok. exists e0. split_and!; [done|congruence|by rewrite Hti, Ht, Hph| |reflexivity].
    intros Hd. rewrite Hti, Ht. rewrite (Hdone Hd) in Hd |- *. rewrite Hc by done. unfold ConfidenceThreshold, f64_0_7, f64_0_85, Qle. simpl. lia.
  - split; [done|exact Hv].
Qed.

Lemma apply_leaves D E c p i w :
  healthy_env E → executor_runs E → p_type p = PhaseApply →
  p_status p = PhaseStatusRunning → row_present p w →
  runs E (runApplyPhase D c p i) (λ _ w', ∃ n e b,
    env_ext E _ (ApplyExecute c p i) n = (Some e, b) ∧ left_in (apply_verdict e) p w') w.
Proof.
  intros HE HA Ht Hr Hw. unfold runApplyPhase. apply (runs_ext_row E p); [done|]. clear dependent w. intros n w Hw.
  destruct (HA c p i n) as (EA & wa & Ha). cbv zeta in Ha.
  destruct (aexec_behaves EA (Execute cfg c p (in_PriorPhasesStatus i)) wa) as (tr & Hb & _).
  rewrite Ha. cbn [fst snd]. apply (runs_then E p); [effects; done|done|]. clear dependent w. intros cs w Hw.
  assert (Hfin := λ now, concerns_complete _ _ _ _ _ cs p now Hb Ht Hr).
  destruct (apply_concerns_key cs p (aexec EA (Execute cfg c p (in_PriorPhasesStatus i)) wa).1.1) as (Hkey & _ & _).
  destruct (apply_concerns cs p _) as [p0 env]. cbn [fst snd] in *.
  apply (runs_then E p); [effects; done|done|]. clear dependent w. intros t w Hw.
  destruct (Hfin t) as (q & -> & Hkq & Hv).
  eapply runs_mono; [apply (saved_leaves E HE p); [done|done|effects; done]|].
  intros ? w' Hl. exists n. do 2 eexists. split; [exact Ha|].
  eapply left_in_mono; [|exact Hl]. by intros ? <-.
Qed.

(** How the apply phase ended: governance failed or denied it, and it is
    blocked; or the executor returned an envelope, whose verdict it carries. *)
Definition apply_outcome (E : env) (c : Change) (p : Phase) (task : string) (w : world) : Prop :=
  (left_in (eq PhaseStatusBlocked) p w ∧
   ∃ n, let r := env_ext E _ (EvaluatePhase (ch_id c) (p_id p) (p_type p) task) n in
        is_Ok r = false ∨ r = Ok DecisionDeny) ∨
  (∃ i n e b, env_ext E _ (ApplyExecute c p i) n = (Some e, b) ∧ left_in (apply_verdict e) p w).

Lemma runAsync_apply D E c p i w :
  healthy_env E → governance_decides E → executor_runs E →
  p_type p = PhaseApply → d_ApplyExecutor D = true →
  p_status p = PhaseStatusRunning → row_present p w →
  runs E (runAsync D c p i) (λ _, apply_outcome E c p (in_TaskDescription i)) w.
Proof.
  intros HE HG HA Ht HD Hr Hw. unfold runAsync.
  rewrite Ht, HD, (bool_decide_eq_false_2 (PhaseApply = PhaseInit)), (bool_decide_eq_true_2 (PhaseApply = PhaseApply)) by done.
  cbn [andb]. apply (runs_ext_row E p); [done|]. clear dependent w. intros n w Hw.
  pose proof (HG (ch_id c) (p_id p) PhaseApply (in_TaskDescription i) n) as Hgov.
  assert (Hfail : let r := env_ext E _ (EvaluatePhase (ch_id c) (p_id p) PhaseApply (in_TaskDescription i)) n in
    (is_Ok r = false ∨ r = Ok DecisionDeny) → ∀ reason w, row_present p w →
    runs E (failPhase p reason) (λ _, apply_outcome E c p (in_TaskDescription i)) w).
  { intros r Hd reason w' Hw'. eapply runs_mono; [by apply fail_leaves|].
    intros ? w1 Hl. left. split; [done|]. exists n. by rewrite Ht. }
  cbv zeta in Hfail. destruct (env_ext E _ (EvaluatePhase _ _ _ _) n) as [d|e]; [|by apply Hfail; [left|]].
  apply (runs_then E p); [effects; done|done|]. clear dependent w. intros u w Hw.
  destruct d; try (by apply Hfail; [right|]); try done.
  all: apply (runs_then E p); [effects; done|done|]; clear dependent w; intros prior w Hw;
    (eapply runs_mono; [by apply apply_leaves|]); intros ? w' (n' & e & b & ? & ?); right; by eexists _, n', e, b.
Qed.

(** C13: (an apply phase settles) the phase service together with the apply
    executor: when every statement of the phase service's database succeeds and
    governance does not ask for an approval, whatever the dispatcher, the runtime,
    the memory service, the spawn governor and the board tables do during the run
    of the groups, the background work of a running phase leaves its row settled.
    When the phase is the apply phase and the executor is wired, the row says
    what happened: governance failed or denied, and it is blocked; or the executor
    was called and returned an envelope, and it is done (with or without concerns)
    if that envelope says DONE, and blocked otherwise. *)
Theorem apply_phase_settles D E j w :
  healthy_env E → governance_decides E → executor_runs E →
  p_status (j_phase j) = PhaseStatusRunning → row_present (j_phase j) w →
  let w' := (exec E (background D j) w).2 in
  settled (j_phase j) w' ∧
  (p_type (j_phase j) = PhaseApply → d_ApplyExecutor D = true →
   apply_outcome E (j_change j) (j_phase j) (in_TaskDescription (j_input j)) w').
Proof.
  intros HE HG HA Hr Hw. split.
  - apply (runAsync_settles D E HE HG (executor_runs_conforms E HA)); done.
  - intros Ht HD. by apply (runAsync_apply D E).
Qed.
End Compose.
