(* ===== verification/SampleRun.v ===== *)
(** * A complete run

    A concrete environment in which every collaborator answers, and the change
    that goes through all nine phases in it: the executable semantics at work,
    and the witnesses that the theorems about reachable states speak about
    something. *)
From S2P Require Import Prelude Ids Json Envelope PhaseDomain ChangeDomain Session Outbox Discipline Store Effects PhaseHelpers Logic PhaseService PhaseSafety PhaseSystem PhaseRuns.
From stdpp Require Import pretty.

(** ** Instances *)

(** The double nearest to k/100, for 0 <= k <= 100. *)
Definition double_of_hundredths (k : Z) : float64 :=
  if (k <=? 0)%Z then f64_0 else
  let e := (53 + Z.log2 (99 / k))%Z in
  Qmake ((2 * k * 2 ^ e + 100) / 200) (Z.to_pos (2 ^ e)).

(** Rounding to two decimals, half away from zero. *)
#[export] Instance sample_numeric : PgTypes :=
  {| numeric_3_2 x := double_of_hundredths ((2 * 100 * Qnum x + Z.pos (Qden x)) / (2 * Z.pos (Qden x)));
     jsonb j := j |}.

#[export] Instance sample_contract : WireContract := {|
  EventPhaseStarted := "phase.started";
  EventPhaseCompleted := "phase.completed";
  EventPhaseCompletedWithConcerns := "phase.completed_with_concerns";
  EventPhaseFailed := "phase.failed";
  EventPhaseNeedsContext := "phase.needs_context";
  EventApprovalRequired := "approval.required";
  EventApprovalResolved := "approval.resolved";
  EventAgentDispatched := "agent.dispatched";
  DecisionApproved := "approved";
  DecisionRejected := "rejected"
|}.

#[export] Instance sample_contract_laws : WireContractLaws.
Proof. split. apply (bool_decide_unpack _). vm_compute. exact I. Qed.

#[export] Instance sample_ids : UlidLib := sample_ulid.
#[export] Instance sample_time : TimeText := {| time_json _ := "0" |}.

(** Rounding keeps the thresholds the code compares with. *)
Example sample_numeric_thresholds :
  (λ x, Qeq_bool (numeric_3_2 x) x) <$> [f64_0_5; f64_0_7; f64_0_8; f64_0_9] = [true; true; true; true].
Proof. vm_compute. reflexivity. Qed.

(** ** An environment in which everything answers *)

Definition done_envelope (pt : PhaseType) (conf : float64) : Envelope :=
  mkEnvelope "v1" (pt_string pt) "c" "p" StatusDone conf "ok" [mkArtifactRef "k" "t"] [] [] None.

(** Time and identifiers follow the number of effects; governance answers [g]
    and agents answer DONE with confidence [conf]. *)
Definition sample_answers (g : GovDecision) (conf : float64) (R : Type) (o : extop R) (n : nat) : R :=
  match o in extop R return R with
  | Now => Z.of_nat n
  | NewID => pretty n
  | EvaluatePhase _ _ _ _ => Ok g
  | BuildPriorContext _ _ => EmptyString
  | SkillsForContext _ _ _ => Ok []
  | PromptBuild _ _ _ _ _ _ _ => Ok "prompt"%string
  | SpawnAcquire _ => true
  | SpawnRelease _ => true
  | Dispatch _ _ pt => Ok (mkDispatchResult 0 (Some (Envelope_marshal (done_envelope pt conf))))
  | MemoryGet _ => None
  | MemoryIngest _ _ _ => true
  | CriticReview _ _ _ => Ok []
  | ApplyExecute _ _ _ => (Some (done_envelope PhaseApply conf), false)
  | InitRun _ => Ok (Some (done_envelope PhaseInit conf))
  | Schedule _ => tt
  | ScheduleBootstrap => tt
  end.

Definition sample_env (g : GovDecision) (conf : float64) : env := mkEnv (sample_answers g conf) (λ _, NoFault).

Definition sample_deps : Deps := mkDeps true true true true true false false "opencode".

(** ** Scripts *)

Definition cid1 : ChangeID := mkID "1".

Definition cmd_create : command := CmdRequest _ (rq_create "c" "p" "none" "main").
Definition cmd_run (pt : PhaseType) : command :=
  CmdRequest _ (rq_run (mkRunInput cid1 pt "task" [] 0 ∅)).

Definition world0 : world := mkWorld emptyDB [] 0.

Definition cycle (pts : list PhaseType) : list command :=
  cmd_create :: mjoin ((λ pt, [cmd_run pt; CmdBackground]) <$> pts).

Definition run_all (g : GovDecision) (conf : float64) (cs : list command) : world :=
  run_script sample_deps (sample_env g conf) cs world0.

Definition full_world : world := run_all DecisionAllow f64_0_9 (cycle AllPhaseTypes).
Definition gated_world : world :=
  run_all DecisionRequireApproval f64_0_9 (cycle [PhaseInit; PhaseExplore]).

Lemma world0_reached : reached sample_deps (mkSys (w_db world0) (w_log world0) []).
Proof. by apply reach_init. Qed.

Lemma run_all_reached g conf cs :
  ∃ ts, reached sample_deps (mkSys (w_db (run_all g conf cs)) (w_log (run_all g conf cs)) ts).
Proof. eapply run_script_reached, world0_reached. Qed.

(** The nine phases complete the change and leave one pending outbox row. *)
Example full_run_completes :
  (ch_status <$> t_changes (w_db full_world) !! cid1) = Some StatusCompleted ∧
  (ch_currentPhase <$> t_changes (w_db full_world) !! cid1) = Some PhaseArchive ∧
  size (t_phases (w_db full_world)) = 9%nat ∧ size (t_outbox (w_db full_world)) = 1%nat.
Proof. vm_compute. repeat split. Qed.

(** ** Witnesses of the theorems about reachable states *)

(** The history around its newest entry that satisfies [P]. *)
Fixpoint split_at (P : entry → bool) (L : list entry) : list entry * list entry :=
  match L with
  | [] => ([], [])
  | e :: L' => if P e then ([], L') else let '(l1, l2) := split_at P L' in (e :: l1, l2)
  end.

Definition is_change_at (pt : PhaseType) (e : entry) : bool :=
  match e with InDb (WroteChange c) => bool_decide (ch_currentPhase c = pt) | _ => false end.

Definition change_row (w : world) : Change :=
  default (mkChange cid1 "" "" StatusActive PhaseInit "" "" 0 0) (t_changes (w_db w) !! cid1).

Lemma full_reached : ∃ ts, reached sample_deps (mkSys (w_db full_world) (w_log full_world) ts).
Proof. exact (run_all_reached DecisionAllow f64_0_9 (cycle AllPhaseTypes)). Qed.

Lemma transition_only_after_persist_witness :
  ∃ p, InDb (WrotePhase p) ∈ (split_at (is_change_at PhaseArchive) (w_log full_world)).2 ∧
       p_changeID p = cid1 ∧ p_type p = PhaseDesign ∧ accepted_row p.
Proof.
  destruct full_reached as [ts Hr].
  apply (transition_only_after_persist sample_deps _
    (split_at (is_change_at PhaseArchive) (w_log full_world)).1
    (split_at (is_change_at PhaseArchive) (w_log full_world)).2
    (change_row full_world) 8 4 PhaseDesign Hr).
  - vm_compute. reflexivity.
  - vm_compute. reflexivity.
  - lia.
  - reflexivity.
Defined.

(** The state after the nine phases, with whatever threads remain. *)
Abbreviation full_sys ts := (mkSys (w_db full_world) (w_log full_world) ts).

Lemma completed_change_was_verified_witness :
  ∃ ts v, InDb (WrotePhase v) ∈ sys_log (full_sys ts) ∧ p_changeID v = cid1 ∧
          p_type v = PhaseVerify ∧ p_status v = PhaseStatusDone ∧ (f64_0_9 <= p_confidence v)%Q.
Proof.
  destruct full_reached as [ts Hr].
  destruct (completed_change_was_verified sample_deps _ cid1 (change_row full_world) Hr) as [_ Hv].
  - vm_compute. reflexivity.
  - vm_compute. reflexivity.
  - exists ts. exact Hv.
Defined.

Lemma completed_change_was_enqueued_witness :
  ∃ ts c' ev, InDb (WroteOutbox c' ev) ∈ sys_log (full_sys ts) ∧ ch_id c' = cid1 ∧
              ch_status c' = StatusCompleted ∧ ev_status ev = OutboxPending.
Proof.
  destruct full_reached as [ts Hr]. exists ts.
  apply (completed_change_was_enqueued sample_deps _ cid1 (change_row full_world) eq_refl Hr).
  - vm_compute. reflexivity.
  - vm_compute. reflexivity.
Defined.

Definition is_dispatch (e : entry) : bool := match e with Dispatched _ => true | _ => false end.

Definition dispatched_phase (w : world) : PhaseID :=
  default (mkID "") (list.head (omap (λ e, match e with Dispatched p => Some p | _ => None end) (w_log w))).

Lemma dispatch_only_after_governance_witness :
  ∃ d, Governed (dispatched_phase full_world) d ∈ (split_at is_dispatch (w_log full_world)).2 ∧
       d ≠ DecisionDeny ∧ d ≠ DecisionRequireApproval.
Proof.
  destruct full_reached as [ts Hr].
  apply (dispatch_only_after_governance sample_deps _ (split_at is_dispatch (w_log full_world)).1
    (split_at is_dispatch (w_log full_world)).2 (dispatched_phase full_world) Hr).
  left. vm_compute. reflexivity.
Defined.

(** A phase stopped at the gate, then approved. *)
Definition gated_phase (w : world) : PhaseID :=
  default (mkID "") (p_id <$> list.head (omap (λ e, match e with Scheduled j => Some (j_phase j) | _ => None end) (w_log w))).

Definition approved_script : list command :=
  cycle [PhaseInit; PhaseExplore] ++
  [CmdRequest _ (rq_approve (gated_phase gated_world) "alice" "fine")].

Definition approved_world : world := run_all DecisionRequireApproval f64_0_9 approved_script.

Lemma approved_reached :
  ∃ ts, reached sample_deps (mkSys (w_db approved_world) (w_log approved_world) ts).
Proof. exact (run_all_reached DecisionRequireApproval f64_0_9 approved_script). Qed.

Definition is_resolved (e : entry) : bool :=
  match e with InDb (WroteAudit _ et) => bool_decide (et = "approval.resolved"%string) | _ => false end.

Lemma decision_only_on_gated_phase_witness :
  ∃ id, Some (gated_phase gated_world) = Some id ∧
        InDb (WroteAudit (Some id) EventApprovalRequired) ∈ (split_at is_resolved (w_log approved_world)).2.
Proof.
  destruct approved_reached as [ts Hr].
  apply (decision_only_on_gated_phase sample_deps _ (split_at is_resolved (w_log approved_world)).1
    (split_at is_resolved (w_log approved_world)).2 (Some (gated_phase gated_world)) Hr).
  vm_compute. reflexivity.
Defined.

(** ** Witnesses of the theorems about runs *)

Lemma sample_healthy g conf : healthy_env (sample_env g conf).
Proof. done. Qed.

(** Every script from the empty database keeps the keys of the phases table. *)
Lemma exec_keys E {A} (m : prog A) w :
  keys_ok (t_phases (w_db w)) → keys_ok (t_phases (w_db (exec E m w).2)).
Proof.
  intros Hw. refine (runs_inv (λ _ _, True) (λ w, keys_ok (t_phases (w_db w))) E m w _ _ Hw).
  - intros R e w' _ Hk. destruct e as [R o|R o]; simpl; [|done].
    pose proof (db_exec_keys o (env_fault E (w_tick w')) _ Hk) as He. by destruct (db_exec o _ _) as [[??]?].
  - clear. induction m; simpl; auto.
Qed.

Lemma run_script_keys D E cs w :
  keys_ok (t_phases (w_db w)) → keys_ok (t_phases (w_db (run_script D E cs w))).
Proof.
  revert w. induction cs as [|c cs IH]; intros w Hw; [done|]. apply IH.
  destruct c; simpl; [by apply exec_keys|]. destruct (newest_job _); [by apply exec_keys|done].
Qed.

Lemma run_all_keys g conf cs : keys_ok (t_phases (w_db (run_all g conf cs))).
Proof. apply run_script_keys. split; simpl; intros *; by rewrite lookup_empty. Qed.

(** Explore has just been opened, after a finished init. *)
Definition opened_world : world :=
  run_all DecisionAllow f64_0_9 (cycle [PhaseInit] ++ [cmd_run PhaseExplore]).

Definition opened_job : job :=
  default (mkJob (change_row opened_world) (opened (mkRunInput cid1 PhaseInit "" [] 0 ∅) (mkID "") 1 0)
             (mkRunInput cid1 PhaseInit "" [] 0 ∅)) (newest opened_world).

Lemma sample_governance conf : governance_decides (sample_env DecisionAllow conf).
Proof. by intros ?????. Qed.

Lemma sample_executor g conf : executor_conforms (sample_env g conf).
Proof. by intros c p i n e b [= <- _]. Qed.

Lemma background_settles_the_phase_witness :
  settled (j_phase opened_job) (exec (sample_env DecisionAllow f64_0_9) (background sample_deps opened_job) opened_world).2.
Proof.
  apply (background_settles_the_phase sample_deps (sample_env DecisionAllow f64_0_9) opened_job opened_world).
  - apply sample_healthy.
  - apply sample_governance.
  - apply sample_executor.
  - vm_compute. reflexivity.
  - split; [apply run_all_keys|]. split.
    + eexists. split; vm_compute; reflexivity.
    + eexists. vm_compute. reflexivity.
Defined.

Definition explore_input : RunPhaseInput := mkRunInput cid1 PhaseExplore "task" [] 0 ∅.
Definition init_world : world := run_all DecisionAllow f64_0_9 (cycle [PhaseInit]).

Lemma Run_opens_one_attempt_witness :
  run_outcome explore_input init_world
    (exec (sample_env DecisionAllow f64_0_9) (Run explore_input) init_world).1
    (exec (sample_env DecisionAllow f64_0_9) (Run explore_input) init_world).2 ∧
  is_Ok (exec (sample_env DecisionAllow f64_0_9) (Run explore_input) init_world).1 = true.
Proof.
  split; [|vm_compute; reflexivity].
  apply (Run_opens_one_attempt (sample_env DecisionAllow f64_0_9) explore_input init_world).
  - apply sample_healthy.
  - apply run_all_keys.
  - intros id r. revert id r.
    change (map_Forall (λ _ r, p_status r ≠ PhaseStatusPending ∧ (1 <= p_attempts r)%Z) (t_phases (w_db init_world))).
    apply (bool_decide_unpack _). vm_compute. exact I.
Defined.

(** The read of the earlier attempts is the one statement of [Run] whose failure
    is ignored.  Explore was denied by governance (attempt 1, blocked); it is started
    again, and that read fails: the new run counts as attempt 1 and overwrites the
    row of the old one, whose identifier stays.  The identifier [Run] returns is
    not stored. *)
Definition denied_world : world := run_all DecisionDeny f64_0_9 (cycle [PhaseInit; PhaseExplore]).
Definition failing_read_env : env :=
  mkEnv (sample_answers DecisionAllow f64_0_9)
    (λ n, if bool_decide (n = w_tick denied_world + 4) then FailBefore else NoFault).

Definition explore_rows (w : world) : list Phase :=
  filter (λ p, p_type p = PhaseExplore) (map_to_list (t_phases (w_db w))).*2.

Example failed_read_overwrites_attempt :
  let '(r, w) := exec failing_read_env (Run (mkRunInput cid1 PhaseExplore "task" [] 0 ∅)) denied_world in
  (λ p, (p_status p, p_attempts p)) <$> explore_rows denied_world = [(PhaseStatusBlocked, 1%Z)] ∧
  (λ p, (p_status p, p_attempts p)) <$> explore_rows w = [(PhaseStatusRunning, 1%Z)] ∧
  p_id <$> explore_rows w = p_id <$> explore_rows denied_world ∧
  match r with Ok out => t_phases (w_db w) !! out_PhaseID out = None | Err _ => False end.
Proof. vm_compute. repeat split. Qed.

(** The process dies while explore runs; the boot scan marks it. *)
Definition crashed_world : world :=
  (exec (sample_env DecisionAllow f64_0_9) MarkStuckInterrupted opened_world).2.

Lemma crashed_keys : keys_ok (t_phases (w_db crashed_world)).
Proof. apply exec_keys, run_all_keys. Qed.

Lemma recovery_interrupts_all_running_witness :
  (exec (sample_env DecisionAllow f64_0_9) MarkStuckInterrupted opened_world).1
    = Ok (length (phase_all_running (w_db opened_world))) ∧
  t_phases (w_db (exec (sample_env DecisionAllow f64_0_9) MarkStuckInterrupted opened_world).2)
    = scanned (t_phases (w_db opened_world)) ∧
  length (phase_all_running (w_db opened_world)) = 1%nat.
Proof.
  destruct (recovery_interrupts_all_running (sample_env DecisionAllow f64_0_9) opened_world) as [H1 H2].
  - apply sample_healthy.
  - apply run_all_keys.
  - split; [exact H1|]. split; [exact H2|]. vm_compute. reflexivity.
Defined.

Definition crashed_row : Phase := interrupted (j_phase opened_job).

Lemma interrupted_phase_is_stuck_witness :
  refused_from crashed_world
    (exec (sample_env DecisionAllow f64_0_9) (Resume (p_id crashed_row)) crashed_world).1
    (exec (sample_env DecisionAllow f64_0_9) (Resume (p_id crashed_row)) crashed_world).2 ∧
  refused_from crashed_world
    (exec (sample_env DecisionAllow f64_0_9) (Run explore_input) crashed_world).1
    (exec (sample_env DecisionAllow f64_0_9) (Run explore_input) crashed_world).2.
Proof.
  destruct (interrupted_phase_is_stuck (sample_env DecisionAllow f64_0_9) (p_id crashed_row)
              crashed_row crashed_world) as [Hresume Hrun].
  - apply sample_healthy.
  - apply crashed_keys.
  - vm_compute. reflexivity.
  - unfold latest_attempt.
    change (map_Forall (λ _ q, p_changeID q = p_changeID crashed_row → p_type q = p_type crashed_row →
              (p_attempts q <= p_attempts crashed_row)%Z) (t_phases (w_db crashed_world))).
    apply (bool_decide_unpack _). vm_compute. exact I.
  - left. reflexivity.
  - split; [exact Hresume|]. apply Hrun; reflexivity.
Defined.

Lemma gate_decided_once_witness :
  let E := sample_env DecisionRequireApproval f64_0_9 in
  let id := gated_phase gated_world in
  let w' := (exec E (Approve id "alice" "fine") gated_world).2 in
  declines E SvcGateAlreadyDecided (Approve id "bob" "again") w' ∧
  declines E SvcGateAlreadyDecided (Reject id "bob" "again") w'.
Proof.
  intros E id w'.
  apply (gate_decided_once E id "alice" "fine" "bob" "again" gated_world).
  - apply sample_healthy.
  - vm_compute. reflexivity.
  - discriminate.
Defined.
