(* ===== verification/SampleApply.v ===== *)
(** * A complete apply run

    A concrete environment of the apply executor, the tasks list of two groups
    that depend on each other run through it from the empty board tables, and the
    witnesses of the theorems about the executor. *)
From S2P Require Import Prelude Ids Json Envelope PhaseDomain ChangeDomain ApplyDomain ApplyDag Session Outbox Discipline Store BoardStore Effects Concurrency PhaseHelpers ApplyInputs ApplyEffects ApplyBuild ApplyTeam ApplyRun ApplyLogic ApplyTask ApplyGroup ApplyVerdict ApplyBreaker ApplyBoard Logic PhaseService PhaseSafety PhaseSystem PhaseRuns ApplyCompose SampleRun.
From stdpp Require Import list pretty.

(** ** An environment *)

#[export] Instance sample_errors : ErrorTexts := {| error_text _ := "error" |}.

Definition obj_node (l : list (string * json)) : json := Node (marshal_object l) (JObj l).
Definition arr_node (l : list json) : json := Node (cat ["["; comma (jtext <$> l); "]"]) (JArr l).

Definition task_node (description : string) (files : list string) : json :=
  obj_node [("description"%string, str_node description); ("files_pattern"%string, arr_node (str_node <$> files))].

Definition group_node (name : string) (deps : list string) (tasks : list json) : json :=
  obj_node [("name"%string, str_node name); ("depends_on"%string, arr_node (str_node <$> deps));
            ("tasks"%string, arr_node tasks)].

(** A backend of two tasks and a frontend that depends on it. *)
Definition tasks_record : rawjson :=
  JSON (obj_node [("groups"%string,
    arr_node [group_node "backend" [] [task_node "api" ["backend/api.go"%string]; task_node "db" ["db.go"%string]];
              group_node "frontend" ["backend"%string] [task_node "ui" ["ui.ts"%string]]])]).

Definition sample_tasks : tasksList := default [] (decode_tasksList tasks_record).

Definition agent_envelope : Envelope :=
  mkEnvelope "v1" "apply" "c" "p" StatusDone f64_0_9 "ok" [mkArtifactRef "k" "t"] [] [] None.

(** Agents answer [agent], shell commands succeed except [test]. *)
Definition apply_answers (agent : result dispatch_error agent_result) (R : Type) (e : aeff R) (n : nat) : R :=
  match e in aeff R return R with
  | ANow => Z.of_nat n
  | ANewID => pretty n
  | AFindBoard _ => Err ErrStore
  | ASaveBoard _ => None
  | ASaveGroup _ => None
  | ASaveTask _ => None
  | AClaimTask _ _ => Ok true
  | ASaveSession _ => None
  | AMemoryGet topic => if bool_decide (topic = "sdd/c/tasks"%string) then MemRecord tasks_record else MemNotFound
  | AShell command _ _ _ =>
      Ok (if bool_decide (command = "test"%string)
          then mkReceipt false 1 (NotJSON "") "" else mkReceipt true 0 (NotJSON "") "")
  | ADispatch _ _ _ _ => agent
  | AAcquire => SlotAcquired
  | ARelease => true
  | ASkills => []
  | AUsageInsert _ => None
  | APromptBuild _ _ _ _ _ => Ok "prompt"%string
  | APublish _ => tt
  | AAuditDiscarded _ => tt
  | AAuditFinalized _ _ _ _ => tt
  | APick => true
  | ACancelled => false
  | ASleep _ => true
  | AEnter => true
  | AOpen _ => tt
  | AQuotaOutcome _ => false
  | ASuccessOutcome => tt
  | ATripped => false
  | ASnapshot => (0%Z, None)
  | ACoordinate _ => tt
  | ASignal _ _ => tt
  | AReceive _ => RecvResult false
  end.

Definition apply_env (agent : result dispatch_error agent_result) : aenv :=
  mkAEnv (apply_answers agent) (λ _, NoFault) (λ _, false).

Definition agent_done : result dispatch_error agent_result :=
  Ok (mkAgentResult 0 (Some (Envelope_marshal agent_envelope)) "opencode").
Definition agent_exhausted : result dispatch_error agent_result :=
  Err (DispatchQuota (mkQuota "copilot" "m" 60 "429")).

Definition sample_cfg : RunConfig := mkRunConfig "/w" "" "" "empty" "" 2 "opencode" false.
Definition apply_change : Change := mkChange (mkID "c1") "c" "p" StatusActive PhaseApply "none" "main" 0 0.
Definition apply_phase : Phase := mkPhase (mkID "p") (mkID "c1") PhaseApply PhaseStatusRunning None f64_0 0 1 (Some 1%Z) None [].

Definition aworld0 : aworld := mkAWorld empty_board_db (mkBreaker 0 0 false None) false ∅ [] 0.

Definition apply_run (agent : result dispatch_error agent_result) :=
  aexec (apply_env agent) (Execute sample_cfg apply_change apply_phase ∅) aworld0.

(** Whether the group and the tasks in the tables ended as given. *)
Definition tables_end (gs : GroupStatus) (ts : TaskStatus → bool) (d : board_db) : bool :=
  bool_decide (map_Forall (λ _ g, g_status g = gs) (bd_groups d)) &&
  bool_decide (map_Forall (λ _ t, ts (t_status t) = true) (bd_tasks d)).

(** With an agent that answers DONE both groups complete, all three tasks are
    done, and every slot is given back: two groups and three tasks took one
    each. *)
Example apply_completes :
  let '(r, w) := apply_run agent_done in
  (e_Status r.1, e_ExecutiveSummary r.1, r.2)
    = (StatusDone, "Apply phase: 2 groups, 3/3 tasks done"%string, None) ∧
  tables_end GroupStatusCompleted (λ s, bool_decide (s = TaskStatusDone)) (aw_db w) = true ∧
  tally_of (aw_log w) = mkTally 5 5 3 0 0 0.
Proof. vm_compute. repeat split. Qed.

(** With an exhausted provider quota the breaker trips at the second task, and
    the task of the frontend, claimed in the database, is never dispatched. *)
Example apply_breaker_trips :
  let '(r, w) := apply_run agent_exhausted in
  (e_Status r.1, e_ExecutiveSummary r.1, r.2) = (StatusBlocked, quota_reason, None) ∧
  tables_end GroupStatusFailed (λ s, negb (bool_decide (s = TaskStatusDone))) (aw_db w) = true ∧
  tally_of (aw_log w) = mkTally 4 4 2 0 0 2.
Proof. vm_compute. repeat split. Qed.

(** ** What the theorems do not promise *)

(** The environment above with other answers for the agent, whose task the
    prompt tells, and for Release. *)
Definition other_answers (agent : string → result dispatch_error agent_result) (tasks : memory_answer)
    (released : bool) (R : Type) (e : aeff R) (n : nat) : R :=
  match e in aeff R return R → R with
  | AMemoryGet topic => λ r, if bool_decide (topic = "sdd/c/tasks"%string) then tasks else r
  | APromptBuild _ _ _ task _ => λ _, Ok task
  | ADispatch _ prompt _ _ => λ _, agent prompt
  | ARelease => λ _, released
  | _ => id
  end (apply_answers agent_done R e n).
Definition other_env agent tasks released : aenv :=
  mkAEnv (other_answers agent tasks released) (λ _, NoFault) (λ _, false).

(** A slot is released once; when the governor refuses (the context of the run
    was cancelled, say) it stays taken after the run, which says DONE. *)
Example refused_release_keeps_the_slot :
  let '(r, w) := aexec (other_env (λ _, agent_done) (MemRecord tasks_record) false)
                   (Execute sample_cfg apply_change apply_phase ∅) aworld0 in
  e_Status r.1 = StatusDone ∧ tally_of (aw_log w) = mkTally 5 5 3 0 0 0 ∧
  weigh slot_returned (aw_log w) = 0 ∧ weigh slot_kept (aw_log w) = 5.
Proof. vm_compute. repeat split. Qed.

(** Two groups of one name, the first of which fails: they share an identifier,
    so its outcome is lost under the second's, and the phase is DONE. *)
Definition twin_record : rawjson :=
  JSON (obj_node [("groups"%string,
    arr_node [group_node "twin" [] [task_node "bad" ["bad.go"%string]];
              group_node "twin" [] [task_node "good" ["good.go"%string]]])]).
Definition fails_bad (prompt : string) : result dispatch_error agent_result :=
  if Contains prompt "bad" then Err ErrDispatchFailed else agent_done.

Example duplicate_names_hide_a_failure :
  let '(r, w) := aexec (other_env fails_bad (MemRecord twin_record) true)
                   (Execute sample_cfg apply_change apply_phase ∅) aworld0 in
  e_Status r.1 = StatusDone ∧
  (λ t, (t_description t, t_status t)) <$> (map_to_list (bd_tasks (aw_db w))).*2
    = [("bad"%string, TaskStatusBlocked); ("good"%string, TaskStatusDone)] ∧
  (λ g, (g_name g, g_status g)) <$> (map_to_list (bd_groups (aw_db w))).*2 = [("twin"%string, GroupStatusCompleted)].
Proof. vm_compute. repeat split. Qed.

(** ** Witnesses *)

Definition sample_task : Task := mkTask (mkID "t1") (mkID "g1") "api" ["a.go"] TaskStatusPending None 0 None.
Definition sample_group : Group := default (mkGroup (mkID "") (mkID "") "" [] [] GroupStatusFailed "" "" GroupBuildStatusPending 0) (sample_groups !! 0).

Lemma sample_groups_sound : Forall group_sound sample_groups.
Proof.
  repeat constructor; simpl; try lia; try set_solver.
  all: intros t Ht; repeat (apply elem_of_cons in Ht as [->|Ht]; [discriminate|]); by apply elem_of_nil in Ht.
Qed.

Lemma sample_groups_distinct : NoDup (g_id <$> b_groups sample_board).
Proof. apply (bool_decide_unpack _). vm_compute. exact I. Qed.

Lemma task_run_disciplined_witness :
  always (runImplementWithRetry sample_cfg apply_change apply_phase ∅ sample_group "" sample_task)
    (λ tr r, attempts_done (Z.to_nat MaxAttempts) sample_task (tally_of tr) r ∧ claimed_before sample_task tr ∧
             n_taken (tally_of tr) = (weigh slot_returned tr + weigh slot_kept tr)%nat).
Proof.
  apply (task_run_disciplined sample_cfg apply_change apply_phase ∅ sample_group "" sample_task). discriminate.
Defined.

Lemma apply_run_is_accounted_witness :
  always (runAllGroups sample_cfg apply_change apply_phase ∅ "" sample_board)
    (λ tr r, n_taken (tally_of tr) = (weigh slot_returned tr + weigh slot_kept tr)%nat ∧ (n_primary (tally_of tr) ≤ 9)%nat).
Proof.
  eapply always_mono.
  - apply (apply_run_is_accounted sample_cfg apply_change apply_phase ∅ "" sample_board).
    + exact sample_groups_distinct.
    + exact sample_groups_sound.
  - intros tr r (_ & H1 & H2 & _). split; [exact H1|exact H2].
Defined.


Definition failed_group : Group := g_with_status GroupStatusFailed sample_group.

Lemma unfinished_group_never_reruns_witness :
  always (group_goroutine sample_cfg apply_change apply_phase ∅ "" failed_group)
    (λ tr r, Forall (λ x, match x with Perf e _ => idle_effect _ e end) tr ∧
             r.2 = failed_group ∧ Perf (ASignal (g_id failed_group) true) tt ∈ tr ∧
             ((∃ n, r.1 = Some (mkOutcome true n)) ∨ (r.1 = None ∧ Perf AEnter false ∈ tr))).
Proof.
  apply (unfinished_group_never_reruns sample_cfg apply_change apply_phase ∅ "" failed_group).
  left. reflexivity.
Defined.

(** The board tables and a breaker of threshold two. *)
Definition open_world : aworld := mkAWorld empty_board_db (mkBreaker 0 2 false None) false ∅ [] 0.

Lemma breaker_refines_consecutive_witness :
  aruns (apply_env agent_exhausted) (runAllGroups sample_cfg apply_change apply_phase ∅ "" sample_board)
    (λ r w', ∃ tr, aw_log w' = reverse tr ++ aw_log open_world ∧
       (r.2 = true ↔ consecutive 2 (outcomes tr)) ∧ (aw_cancelled w' = true ↔ consecutive 2 (outcomes tr))) open_world.
Proof.
  apply (breaker_refines_consecutive sample_cfg apply_change apply_phase ∅ (apply_env agent_exhausted) 2 "" sample_board open_world).
  - lia.
  - reflexivity.
  - reflexivity.
Defined.

Lemma buildBoard_follows_tasks_witness :
  aruns (apply_env agent_done) (buildBoard apply_phase sample_tasks) (λ r w',
    match FindBoardByPhaseID (p_id apply_phase) (aw_db aworld0) with
    | Ok b0 => r = Ok b0 ∧ aw_db w' = aw_db aworld0
    | Err _ => ∀ b, r = Ok b →
        board_of_tasks (p_id apply_phase) sample_tasks b ∧ save_board_tree b (aw_db aworld0) = Ok (aw_db w')
    end) aworld0 ∧
  is_Ok (aexec (apply_env agent_done) (buildBoard apply_phase sample_tasks) aworld0).1 = true.
Proof.
  split; [|vm_compute; reflexivity].
  apply (buildBoard_follows_tasks apply_phase (apply_env agent_done)).
  intros n. reflexivity.
Defined.

(** ** The two services together *)

(** The phase service's environment, with the apply executor run for real. *)
Definition joint_answers (R : Type) (o : extop R) (n : nat) : R :=
  match o in extop R return R → R with
  | ApplyExecute c p i => λ _,
      let r := (aexec (apply_env agent_done) (Execute sample_cfg c p (in_PriorPhasesStatus i)) aworld0).1 in
      (Some r.1, bool_decide (is_Some r.2))
  | _ => id
  end (sample_answers DecisionAllow f64_0_9 R o n).
Definition joint_env : env := mkEnv joint_answers (λ _, NoFault).

(** The apply phase of a change has just been opened. *)
Definition apply_world : world :=
  run_all DecisionAllow f64_0_9
    (cycle [PhaseInit; PhaseExplore; PhaseProposal; PhaseSpec; PhaseDesign; PhaseTasks] ++ [cmd_run PhaseApply]).
Definition apply_job : job := default opened_job (newest apply_world).

Lemma apply_phase_settles_witness :
  let w' := (exec joint_env (background sample_deps apply_job) apply_world).2 in
  settled (j_phase apply_job) w' ∧
  apply_outcome joint_env (j_change apply_job) (j_phase apply_job) (in_TaskDescription (j_input apply_job)) w'.
Proof.
  destruct (apply_phase_settles sample_cfg sample_deps joint_env apply_job apply_world) as [Hs Ho].
  - intros n. reflexivity.
  - intros c p a i n. discriminate.
  - intros c p i n. exists (apply_env agent_done), aworld0. reflexivity.
  - vm_compute. reflexivity.
  - split; [apply run_all_keys|]. split.
    + eexists. split; vm_compute; reflexivity.
    + eexists. vm_compute. reflexivity.
  - split; [exact Hs|]. apply Ho; vm_compute; reflexivity.
Defined.
