(* ===== verification/Floats.v ===== *)
(** * Floating point

    The rounding of a double, and [strconv.FormatFloat] with two decimals. *)
From S2P Require Import Prelude.
From stdpp Require Import list pretty.
From Stdlib Require Import Lqa.

(** ** Rounding

    The double nearest to a rational, ties to even; the exponents of the
    arithmetic below stay far from the limits of the format. *)
Definition round_half_even (a b : Z) : Z :=
  let q := (a / b)%Z in
  let r := (a mod b)%Z in
  if (2 * r <? b)%Z then q
  else if (b <? 2 * r)%Z then (q + 1)%Z
  else if Z.even q then q else (q + 1)%Z.

Definition shifted (x k : Z) : Q := if (0 <=? k)%Z then inject_Z (x * 2 ^ k) else Qmake x (Z.to_pos (2 ^ (- k))).

Definition f64_round (q : Q) : float64 :=
  let a := Z.abs (Qnum q) in
  let b := Z.pos (Qden q) in
  if (a =? 0)%Z then f64_0 else
  let e := (Z.log2 a - Z.log2 b - 53)%Z in     (* a / b is below 2 ^ (e + 54) *)
  let m := if (0 <=? e)%Z then round_half_even a (b * 2 ^ e) else round_half_even (a * 2 ^ (- e)) b in
  let m' := if (2 ^ 53 <=? m)%Z then
              (if (0 <=? e + 1)%Z then round_half_even a (b * 2 ^ (e + 1)) else round_half_even (a * 2 ^ (- (e + 1))) b)
            else m in
  let e' := if (2 ^ 53 <=? m)%Z then (e + 1)%Z else e in
  shifted (Z.sgn (Qnum q) * m') e'.

Lemma round_half_even_nonneg a b : (0 <= a → 0 < b → 0 <= round_half_even a b)%Z.
Proof.
  intros Ha Hb. pose proof (Z.div_pos a b Ha Hb). unfold round_half_even.
  repeat (case_match; try lia).
Qed.

Lemma round_half_even_ge a b k : (0 < b → k * b <= a → k <= round_half_even a b)%Z.
Proof.
  intros Hb Hk. assert (k <= a / b)%Z by (apply Z.div_le_lower_bound; lia). unfold round_half_even.
  repeat (case_match; try lia).
Qed.

Lemma shifted_nonpos x k : (x <= 0)%Z → (shifted x k <= 0)%Q.
Proof.
  intros Hx. unfold shifted, inject_Z, Qle. destruct (0 <=? k)%Z; simpl; [|lia].
  pose proof (Z.pow_nonneg 2 k). nia.
Qed.

(** Rounding keeps the sign. *)
Lemma f64_round_nonpos q : (q <= 0)%Q → (f64_round q <= 0)%Q.
Proof.
  intros Hq. assert (Hn : (Qnum q <= 0)%Z) by (unfold Qle in Hq; simpl in Hq; lia).
  unfold f64_round. case_match; [done|]. apply shifted_nonpos.
  set (m' := if (2 ^ 53 <=? _)%Z then _ else _).
  assert (0 <= m')%Z.
  { unfold m'. repeat case_match; apply round_half_even_nonneg; try lia;
      repeat (apply Z.mul_nonneg_nonneg || apply Z.mul_pos_pos || apply Z.abs_nonneg || apply Z.pow_pos_nonneg
              || apply Z.pow_nonneg); lia. }
  destruct (Z.sgn_spec (Qnum q)) as [[? ->]|[[? ->]|[? ->]]]; lia.
Qed.

Lemma shifted_nonneg x k : (0 <= x)%Z → (0 <= shifted x k)%Q.
Proof.
  intros Hx. unfold shifted, inject_Z, Qle. destruct (0 <=? k)%Z; simpl; [|lia].
  pose proof (Z.pow_nonneg 2 k). nia.
Qed.

Lemma f64_round_nonneg q : (0 <= q)%Q → (0 <= f64_round q)%Q.
Proof.
  intros Hq. assert (Hn : (0 <= Qnum q)%Z) by (unfold Qle in Hq; simpl in Hq; lia).
  unfold f64_round. case_match; [done|]. apply shifted_nonneg.
  set (m' := if (2 ^ 53 <=? _)%Z then _ else _).
  assert (0 <= m')%Z.
  { unfold m'. repeat case_match; apply round_half_even_nonneg; try lia;
      repeat (apply Z.mul_nonneg_nonneg || apply Z.mul_pos_pos || apply Z.abs_nonneg || apply Z.pow_pos_nonneg
              || apply Z.pow_nonneg); lia. }
  destruct (Z.sgn_spec (Qnum q)) as [[? ->]|[[? ->]|[? ->]]]; lia.
Qed.

(** A whole number of at least two does not round below two. *)
Lemma f64_round_int_ge n : (2 <= n)%Z → (2 <= f64_round (inject_Z n))%Q.
Proof.
  intros Hn. unfold f64_round, inject_Z. cbn [Qnum Qden]. rewrite Z.abs_eq by lia.
  case_match; [lia|]. change (Z.log2 (Z.pos 1)) with 0%Z. rewrite Z.sub_0_r, Z.sgn_pos, Z.mul_1_l by lia.
  pose proof (Z.log2_spec n ltac:(lia)) as [Hlo _]. pose proof (Z.log2_le_mono 2 n Hn) as Hl.
  change (Z.log2 2) with 1%Z in Hl. set (l := Z.log2 n) in *.
  assert (Hm : (2 ^ 53 <= (if (0 <=? l - 53)%Z then round_half_even n (1 * 2 ^ (l - 53))
                           else round_half_even (n * 2 ^ (- (l - 53))) 1))%Z).
  { case_match; (apply round_half_even_ge; [try lia|]).
    - rewrite Z.mul_1_l, <-Z.pow_add_r by lia. by replace (53 + (l - 53))%Z with l by lia.
    - rewrite Z.mul_1_r. replace 53%Z with (l + - (l - 53))%Z at 1 by lia. rewrite Z.pow_add_r by lia.
      apply Z.mul_le_mono_nonneg_r; [apply Z.pow_nonneg; lia|done]. }
  rewrite (proj2 (Z.leb_le _ _) Hm). clear Hm. unfold shifted. replace (l - 53 + 1)%Z with (l - 52)%Z by lia.
  destruct (0 <=? l - 52)%Z eqn:He.
  - apply Z.leb_le in He. unfold Qle, inject_Z. simpl. rewrite Z.mul_1_r, Z.mul_1_l.
    assert (2 ^ 52 <= round_half_even n (2 ^ (l - 52)))%Z.
    { apply round_half_even_ge; [apply Z.pow_pos_nonneg; lia|]. rewrite <-Z.pow_add_r by lia.
      by replace (52 + (l - 52))%Z with l by lia. }
    pose proof (Z.pow_pos_nonneg 2 (l - 52)). nia.
  - apply Z.leb_gt in He. assert (0 < 2 ^ (- (l - 52)))%Z by (apply Z.pow_pos_nonneg; lia).
    unfold Qle. cbn [Qnum Qden]. rewrite Z2Pos.id, Z.mul_1_r by lia. apply round_half_even_ge; [lia|]. nia.
Qed.

(** ** Two decimals

    [strconv.FormatFloat(q, 'f', 2, 64)] of a finite double: the exact value,
    rounded to even. *)
Definition FormatFloat2 (q : float64) : string :=
  let n := round_half_even (Z.abs (Qnum q) * 100) (Z.pos (Qden q)) in
  let sign := if (Qnum q <? 0)%Z then "-"%string else EmptyString in
  let cents := (n mod 100)%Z in
  let pad := if (cents <? 10)%Z then "0"%string else EmptyString in
  String.append sign (String.append (pretty (n / 100)%Z) (String.append "." (String.append pad (pretty cents)))).

Example format_values :
  FormatFloat2 <$> [(9 # 1); (171 # 20); (1 # 200); (-1 # 8)]%Q = ["9.00"; "8.55"; "0.00"; "-0.12"]%string.
Proof. vm_compute. reflexivity. Qed.
