(* ===== verification/Lines.v ===== *)
(** * Text

    Lines, prefixes, and the RFC 3339 form of a time. *)
From S2P Require Import Prelude Json GoPath.
From stdpp Require Import list pretty.
From Stdlib Require Import Ascii.

Definition text (l : list ascii) : string := String.string_of_list_ascii l.
Definition newline : ascii := ascii_of_N 10.
Definition nl : string := text [newline].
(** A double quote. *)
Definition dq : string := text [ascii_of_N 34].

(** [strings.Contains] *)
Fixpoint contains_list (sub l : list ascii) : bool :=
  match TrimPrefix_list sub l with
  | Some _ => true
  | None => match l with [] => false | _ :: l' => contains_list sub l' end
  end.

(** [bufio.Scanner] by lines: a carriage return at the end of a line is dropped,
    the empty line after a final newline is no token, and a line that does not fit
    the buffer with its newline stops the scan. *)
Definition drop_cr (l : list ascii) : list ascii :=
  match reverse l with
  | a :: r => if bool_decide (a = ascii_of_N 13) then reverse r else l
  | [] => []
  end.
Definition too_long (limit : N) (l : list ascii) : bool := (limit <=? N.of_nat (length l))%N.
Fixpoint scan_tokens (limit : N) (ls : list (list ascii)) : list (list ascii) :=
  match ls with
  | [] => []
  | [last] => if bool_decide (last = []) || too_long limit last then [] else [drop_cr last]
  | l :: ls' => if too_long limit l then [] else drop_cr l :: scan_tokens limit ls'
  end.

Lemma chars_text l : chars (text l) = l.
Proof. apply String.list_ascii_of_string_of_list_ascii. Qed.
Lemma text_chars s : text (chars s) = s.
Proof. apply String.string_of_list_ascii_of_string. Qed.
Lemma chars_app s t : chars (String.append s t) = chars s ++ chars t.
Proof. unfold chars. induction s as [|a s IH]; [done|]. simpl. by rewrite IH. Qed.

(** [strings.Join] on a one-byte separator. *)
Fixpoint join_on (sep : ascii) (ws : list (list ascii)) : list ascii :=
  match ws with
  | [] => []
  | [w] => w
  | w :: ws' => w ++ sep :: join_on sep ws'
  end.

(** [strings.Split(s, "\n")] *)
Definition lines_of (s : string) : list (list ascii) := split_on newline (chars s).

Definition has_prefix (pre : string) (l : list ascii) : bool :=
  match TrimPrefix_list (chars pre) l with Some _ => true | None => false end.
(** [strings.HasPrefix] *)
Definition HasPrefix (s pre : string) : bool := has_prefix pre (chars s).

(** ** Appending *)

Lemma length_chars s : length (chars s) = String.length s.
Proof. unfold chars. induction s as [|a s IH]; [done|]. simpl. by rewrite IH. Qed.

#[export] Instance text_inj : Inj (=) (=) text.
Proof. intros l l' Heq. rewrite <-(chars_text l), <-(chars_text l'). by rewrite Heq. Qed.
#[export] Instance chars_inj : Inj (=) (=) chars.
Proof. intros s t Heq. rewrite <-(text_chars s), <-(text_chars t). by rewrite Heq. Qed.

Lemma append_assoc (s t u : string) : String.append s (String.append t u) = String.append (String.append s t) u.
Proof.
  induction s as [|a s IH]; [done|].
  change (String a (String.append s (String.append t u)) = String a (String.append (String.append s t) u)).
  by rewrite IH.
Qed.

Lemma append_nil s : String.append s EmptyString = s.
Proof.
  induction s as [|a s IH]; [done|]. change (String a (String.append s EmptyString) = String a s). by rewrite IH.
Qed.

Lemma concat_strings_app l1 l2 : concat_strings (l1 ++ l2) = String.append (concat_strings l1) (concat_strings l2).
Proof. induction l1 as [|x l1 IH]; [done|]. cbn [app concat_strings foldr]. unfold concat_strings in IH. by rewrite IH, append_assoc. Qed.

(** ** Splitting and joining *)

Lemma split_on_nonempty sep l : split_on sep l ≠ [].
Proof. destruct l as [|a l]; simpl; [done|]. case_bool_decide; [done|]. by destruct (split_on sep l). Qed.

Lemma join_split sep l : join_on sep (split_on sep l) = l.
Proof.
  induction l as [|a l IH]; [done|]. cbn [split_on]. pose proof (split_on_nonempty sep l) as Hne.
  case_bool_decide; subst; destruct (split_on sep l) as [|w ws]; try done.
  - cbn [join_on app] in *. by rewrite IH.
  - destruct ws; cbn [join_on app] in *; by rewrite IH.
Qed.

Lemma split_on_no_sep sep l : Forall (λ w, sep ∉ w) (split_on sep l).
Proof.
  induction l as [|a l IH]; cbn [split_on]; [repeat constructor; set_solver|].
  case_bool_decide; [constructor; [set_solver|done]|].
  destruct IH as [|w ws Hw Hws]; constructor; [set_solver|constructor|set_solver|done].
Qed.

Lemma split_on_app_sep sep l1 l2 : split_on sep (l1 ++ sep :: l2) = split_on sep l1 ++ split_on sep l2.
Proof.
  induction l1 as [|a l1 IH]; cbn [split_on app].
  - by rewrite bool_decide_eq_true_2.
  - rewrite IH. case_bool_decide; [done|]. pose proof (split_on_nonempty sep l1).
    by destruct (split_on sep l1).
Qed.

Lemma split_on_single sep l : sep ∉ l → split_on sep l = [l].
Proof.
  induction l as [|a l IH]; [done|]. intros Hn. cbn [split_on].
  rewrite bool_decide_eq_false_2, IH by set_solver. done.
Qed.

Lemma split_join_on sep ws : ws ≠ [] → Forall (λ w, sep ∉ w) ws → split_on sep (join_on sep ws) = ws.
Proof.
  intros Hne Hws. induction Hws as [|w ws Hw Hws IH]; [done|]. destruct ws as [|w' ws].
  - by apply split_on_single.
  - cbn [join_on]. rewrite split_on_app_sep, split_on_single by done. cbn [app]. f_equal. by apply IH.
Qed.

(** ** time.RFC3339 in UTC

    The civil date from the days since 1970 (proleptic Gregorian calendar). *)
Definition civil (days : Z) : Z * Z * Z :=
  let z := (days + 719468)%Z in
  let era := (z / 146097)%Z in
  let doe := (z mod 146097)%Z in
  let yoe := ((doe - doe / 1460 + doe / 36524 - doe / 146096) / 365)%Z in
  let doy := (doe - (365 * yoe + yoe / 4 - yoe / 100))%Z in
  let mp := ((5 * doy + 2) / 153)%Z in
  let d := (doy - (153 * mp + 2) / 5 + 1)%Z in
  let m := (if mp <? 10 then mp + 3 else mp - 9)%Z in
  ((yoe + era * 400 + (if m <=? 2 then 1 else 0))%Z, m, d).

Fixpoint pad0 (n : nat) (s : string) : string :=
  match n with O => s | S n' => if (String.length s <? S n')%nat then String.append "0" (pad0 n' s) else s end.

(** Seconds from Go's zero time, the year 1, to 1970. *)
Definition unixToInternal : Z := 62135596800.

Definition RFC3339 (t : Time) : string :=
  let secs := (t / 1000000000 - unixToInternal)%Z in
  let '(y, m, d) := civil (secs / 86400)%Z in
  let s := (secs mod 86400)%Z in
  let two z := pad0 2 (pretty z) in
  foldr String.append EmptyString
    [pad0 4 (pretty y); "-"; two m; "-"; two d; "T"; two (s / 3600)%Z; ":"; two (s / 60 mod 60)%Z; ":";
     two (s mod 60)%Z; "Z"]%string.

Example rfc3339_values :
  (λ s, RFC3339 ((s + unixToInternal) * 1000000000)) <$> [-62135596800; 0; 951782400; 1767225599; 4107542400]%Z =
    ["0001-01-01T00:00:00Z"; "1970-01-01T00:00:00Z"; "2000-02-29T00:00:00Z"; "2025-12-31T23:59:59Z"; "2100-03-01T00:00:00Z"]%string.
Proof. vm_compute. reflexivity. Qed.

(** ** One-line texts *)

Definition one_line (s : string) : Prop := newline ∉ chars s.

Lemma one_line_app s t : one_line (String.append s t) ↔ one_line s ∧ one_line t.
Proof. unfold one_line. rewrite chars_app. set_solver. Qed.

Lemma one_line_nil : one_line EmptyString.
Proof. apply not_elem_of_nil. Qed.

Lemma one_line_cons a s : one_line (String a s) ↔ a ≠ newline ∧ one_line s.
Proof. unfold one_line, chars. cbn [String.list_ascii_of_string]. set_solver. Qed.

Lemma one_line_digits x s : one_line s → one_line (pretty_N_go x s).
Proof.
  revert s. induction (N.lt_wf_0 x) as [x _ IH]; intros s Hs.
  assert (x = 0 ∨ 0 < x)%N as [->|Hx] by lia; [by rewrite pretty_N_go_0|].
  rewrite pretty_N_go_step by done. apply IH; [by apply N.div_lt|]. apply one_line_cons. split; [|done].
  unfold pretty_N_char. by repeat case_match.
Qed.

Lemma one_line_pretty_N (x : N) : one_line (pretty x).
Proof.
  unfold pretty, pretty_N. case_decide; [apply one_line_cons; split; [done|apply one_line_nil]|].
  apply one_line_digits, one_line_nil.
Qed.

Lemma one_line_pretty (x : Z) : one_line (pretty x).
Proof.
  destruct x as [|p|p]; [apply (one_line_pretty_N 0)|apply (one_line_pretty_N (Npos p))|].
  change (one_line (String "-" (pretty (Npos p)))). apply one_line_cons. split; [done|]. apply one_line_pretty_N.
Qed.

Lemma one_line_pad0 n s : one_line s → one_line (pad0 n s).
Proof.
  intros Hs. induction n as [|n IH]; [done|]. cbn [pad0]. case_match; [|done]. apply one_line_cons. by split.
Qed.

Lemma one_line_RFC3339 t : one_line (RFC3339 t).
Proof.
  unfold RFC3339. destruct (civil _) as [[y m] d]. cbn [foldr].
  rewrite !one_line_app; split_and!;
    try (apply one_line_pad0, one_line_pretty); repeat (apply one_line_cons; split; [done|]); apply one_line_nil.
Qed.

Lemma lines_one_line s : one_line s → lines_of s = [chars s].
Proof. apply split_on_single. Qed.

Lemma lines_app_nl s t : lines_of (String.append s (String newline t)) = lines_of s ++ lines_of t.
Proof. unfold lines_of. rewrite chars_app. apply split_on_app_sep. Qed.

(** ** Prefixes *)

Lemma TrimPrefix_list_Some pre l r : TrimPrefix_list pre l = Some r ↔ l = pre ++ r.
Proof.
  revert l. induction pre as [|a pre IH]; intros [|b l]; cbn [TrimPrefix_list app]; try (split; congruence).
  case_bool_decide; subst; [rewrite IH|]; split; congruence.
Qed.

Lemma has_prefix_app pre l l' : has_prefix pre l = true → has_prefix pre (l ++ l') = true.
Proof.
  unfold has_prefix. destruct (TrimPrefix_list (chars pre) l) as [r|] eqn:Hr; [|done]. intros _.
  apply TrimPrefix_list_Some in Hr as ->.
  by rewrite (proj2 (TrimPrefix_list_Some (chars pre) _ (r ++ l'))) by by rewrite app_assoc.
Qed.

(** A property of lines that holds of what they start with holds of the lines
    of any text the text starts with. *)
Lemma split_on_prefix sep (P : list ascii → Prop) l1 l2 :
  (∀ w w', P (w ++ w') → P w) → Forall P (split_on sep (l1 ++ l2)) → Forall P (split_on sep l1).
Proof.
  intros HP. assert (Hex : ∃ ws w more rest, split_on sep l1 = ws ++ [w] ∧ split_on sep (l1 ++ l2) = ws ++ (w ++ more) :: rest).
  { induction l1 as [|a l1 IH]; cbn [app split_on].
    - pose proof (split_on_nonempty sep l2). destruct (split_on sep l2) as [|w ws]; [done|].
      by exists [], [], w, ws.
    - destruct IH as (ws & w & more & rest & -> & ->). case_bool_decide.
      + by exists ([] :: ws), w, more, rest.
      + destruct ws as [|v ws]; [by exists [], (a :: w), more, rest|].
        by exists ((a :: v) :: ws), w, more, rest. }
  destruct Hex as (ws & w & more & rest & -> & ->). rewrite !Forall_app, !Forall_cons. intros (Hws & Hw & _).
  split_and!; [done|by eapply HP|constructor].
Qed.
