(* ===== verification/JsonText.v ===== *)
(** * JSON texts

    What the code uses of [encoding/json] on bytes: the grammar that
    [json.Unmarshal] checks before it decodes, and the compact text that
    [json.Marshal] writes.  A document becomes the tree of the file [Json]; a
    number is the double nearest to its decimal value (one beyond the range of
    the doubles stays the number it denotes, outside of every range the code
    accepts). *)
From S2P Require Import Prelude Utf8 Json Floats Lines.
From stdpp Require Import list.
From Stdlib Require Import Ascii.

(** ** Tokens *)

Definition is_char (n : N) (a : ascii) : bool := (code a =? n)%N.
Definition json_space (a : ascii) : bool := is_char 32 a || is_char 9 a || is_char 10 a || is_char 13 a.
Fixpoint skip_ws (l : list ascii) : list ascii :=
  match l with
  | a :: l' => if json_space a then skip_ws l' else l
  | [] => []
  end.

Definition dec_digit (a : ascii) : bool := byte_in (code a) 48 57.
Definition dec_value (l : list ascii) : Z := foldl (λ z a, 10 * z + (Z.of_N (code a) - 48))%Z 0%Z l.
Fixpoint span_digits (l : list ascii) : list ascii * list ascii :=
  match l with
  | a :: l' => if dec_digit a then let '(ds, r) := span_digits l' in (a :: ds, r) else ([], l)
  | [] => ([], [])
  end.

(** A number literal: sign, integer part, fraction, exponent. *)
Record number := mkNumber { n_neg : bool; n_int : list ascii; n_frac : list ascii; n_exp : option (ascii * option ascii * list ascii) }.
Definition frac_chars (fs : list ascii) : list ascii := match fs with [] => [] | _ => "."%char :: fs end.
Definition exp_chars (o : option (ascii * option ascii * list ascii)) : list ascii :=
  match o with
  | None => []
  | Some (e, sign, ds) => e :: (match sign with Some s => [s] | None => [] end) ++ ds
  end.
Definition number_chars (n : number) : list ascii :=
  (if n_neg n then ["-"%char] else []) ++ n_int n ++ frac_chars (n_frac n) ++ exp_chars (n_exp n).
Definition number_value (n : number) : float64 :=
  let m := ((if n_neg n then -1 else 1) * dec_value (n_int n ++ n_frac n))%Z in
  let e := match n_exp n with
           | None => 0
           | Some (_, sign, ds) => if bool_decide (sign = Some "-"%char) then - dec_value ds else dec_value ds
           end%Z in
  let k := (e - Z.of_nat (length (n_frac n)))%Z in
  f64_round (if (0 <=? k)%Z then inject_Z (m * 10 ^ k) else Qmake m (Z.to_pos (10 ^ (- k)))).

Definition p_int (l : list ascii) : option (list ascii * list ascii) :=
  match l with
  | a :: r => if is_char 48 a then Some ([a], r)
              else match span_digits l with ([], _) => None | (ds, r') => Some (ds, r') end
  | [] => None
  end.
Definition p_frac (l : list ascii) : option (list ascii * list ascii) :=
  match l with
  | a :: r => if is_char 46 a then match span_digits r with ([], _) => None | (ds, r') => Some (ds, r') end else Some ([], l)
  | [] => Some ([], [])
  end.
Definition p_exp (l : list ascii) : option (option (ascii * option ascii * list ascii) * list ascii) :=
  match l with
  | a :: r =>
      if is_char 101 a || is_char 69 a then
        let '(sign, r1) := match r with
                           | s :: r' => if is_char 43 s || is_char 45 s then (Some s, r') else (None, r)
                           | [] => (None, [])
                           end in
        match span_digits r1 with ([], _) => None | (ds, r') => Some (Some (a, sign, ds), r') end
      else Some (None, l)
  | [] => Some (None, [])
  end.
Definition p_number (l : list ascii) : option (number * list ascii) :=
  let '(neg, l0) := match l with
                    | a :: r => if is_char 45 a then (true, r) else (false, l)
                    | [] => (false, [])
                    end in
  '(ints, l1) ← p_int l0; '(fracs, l2) ← p_frac l1; '(exp, l3) ← p_exp l2;
  Some (mkNumber neg ints fracs exp, l3).

(** ** String literals *)

Definition hex_value (a : ascii) : option N :=
  let c := code a in
  if byte_in c 48 57 then Some (c - 48)%N
  else if byte_in c 97 102 then Some (c - 87)%N
  else if byte_in c 65 70 then Some (c - 55)%N else None.
Definition hex4 (l : list ascii) : option (N * list ascii) :=
  match l with
  | a :: b :: c :: d :: r =>
      x ← hex_value a; y ← hex_value b; z ← hex_value c; t ← hex_value d;
      Some (((x * 16 + y) * 16 + z) * 16 + t, r)%N
  | _ => None
  end.

(** What a backslash and this byte stand for. *)
Definition unescape (e : ascii) : option ascii :=
  if is_char 34 e || is_char 92 e || is_char 47 e then Some e
  else if is_char 98 e then Some (ascii_of_N 8) else if is_char 102 e then Some (ascii_of_N 12)
  else if is_char 110 e then Some (ascii_of_N 10) else if is_char 114 e then Some (ascii_of_N 13)
  else if is_char 116 e then Some (ascii_of_N 9) else None.

(** The body of a literal up to its closing quote. *)
Fixpoint scan_body (l : list ascii) : option (list ascii * list ascii) :=
  match l with
  | [] => None
  | a :: l1 =>
      if is_char 34 a then Some ([], l1)
      else if is_char 92 a then
        match l1 with
        | [] => None
        | e :: l2 =>
            if is_char 117 e then
              match l2 with
              | h1 :: h2 :: h3 :: h4 :: l3 =>
                  match hex4 [h1; h2; h3; h4] with
                  | Some _ => '(b, r) ← scan_body l3; Some ([a; e; h1; h2; h3; h4] ++ b, r)
                  | None => None
                  end
              | _ => None
              end
            else match unescape e with
                 | Some _ => '(b, r) ← scan_body l2; Some (a :: e :: b, r)
                 | None => None
                 end
        end
      else if (code a <? 32)%N then None
      else '(b, r) ← scan_body l1; Some (a :: b, r)
  end.

Definition surrogate (r : N) : bool := byte_in r 55296 57343.
Definition high_surrogate (r : N) : bool := byte_in r 55296 56319.
Definition low_surrogate (r : N) : bool := byte_in r 56320 57343.

(** The rune of a unicode escape and what follows it. *)
Definition unquote_u (l : list ascii) : option (list ascii * list ascii) :=
  '(r, l1) ← hex4 l;
  if surrogate r then
    match l1 with
    | a :: u :: l2 =>
        if is_char 92 a && is_char 117 u then
          match hex4 l2 with
          | Some (r', l3) =>
              if high_surrogate r && low_surrogate r'
              then Some (encode_rune (65536 + (r - 55296) * 1024 + (r' - 56320)), l3)
              else Some (replacement, l1)
          | None => Some (replacement, l1)
          end
        else Some (replacement, l1)
    | _ => Some (replacement, l1)
    end
  else Some (encode_rune r, l1).

Fixpoint unquote_body (fuel : nat) (l : list ascii) : list ascii :=
  match fuel, l with
  | S fuel', a :: l1 =>
      if is_char 92 a then
        match l1 with
        | e :: l2 =>
            if is_char 117 e then
              match unquote_u l2 with Some (bs, l3) => bs ++ unquote_body fuel' l3 | None => [] end
            else match unescape e with Some b => b :: unquote_body fuel' l2 | None => [] end
        | [] => []
        end
      else if (code a <? 128)%N then a :: unquote_body fuel' l1
      else match decode_rune l with
           | Some (_, w) => take w l ++ unquote_body fuel' (drop w l)
           | None => replacement ++ unquote_body fuel' l1
           end
  | _, _ => []
  end.
Definition unquote (l : list ascii) : string := text (unquote_body (length l) l).

(** ** The grammar *)

Definition maxNestingDepth : N := 10000.

Definition node (l rest : list ascii) (v : jval json) : json := Node (text (take (length l - length rest) l)) v.
Definition literal (word : string) (v : jval json) (l : list ascii) : option (json * list ascii) :=
  rest ← TrimPrefix_list (chars word) l; Some (node l rest v, rest).

Fixpoint p_value (n : nat) (depth : N) (l : list ascii) {struct n} : option (json * list ascii) :=
  match n with
  | O => None
  | S n' =>
      match l with
      | [] => None
      | a :: l1 =>
          if is_char 123 a then
            if (maxNestingDepth <=? depth)%N then None else
            match skip_ws l1 with
            | b :: r => if is_char 125 b then Some (node l r (JObj []), r)
                        else '(ms, r') ← p_members n' (depth + 1) (b :: r); Some (node l r' (JObj ms), r')
            | [] => None
            end
          else if is_char 91 a then
            if (maxNestingDepth <=? depth)%N then None else
            match skip_ws l1 with
            | b :: r => if is_char 93 b then Some (node l r (JArr []), r)
                        else '(vs, r') ← p_elems n' (depth + 1) (b :: r); Some (node l r' (JArr vs), r')
            | [] => None
            end
          else if is_char 34 a then '(body, r) ← scan_body l1; Some (node l r (JStr (unquote body)), r)
          else if is_char 116 a then literal "true" (JBool true) l
          else if is_char 102 a then literal "false" (JBool false) l
          else if is_char 110 a then literal "null" JNull l
          else '(num, r) ← p_number l; Some (node l r (JNum (number_value num)), r)
      end
  end
with p_members (n : nat) (depth : N) (l : list ascii) {struct n} : option (list (string * json) * list ascii) :=
  match n with
  | O => None
  | S n' =>
      match l with
      | a :: l1 =>
          if is_char 34 a then
            '(body, r) ← scan_body l1;
            match skip_ws r with
            | c :: r1 =>
                if is_char 58 c then
                  '(v, r2) ← p_value n' depth (skip_ws r1);
                  match skip_ws r2 with
                  | d :: r3 =>
                      if is_char 125 d then Some ([(unquote body, v)], r3)
                      else if is_char 44 d then
                        '(ms, r4) ← p_members n' depth (skip_ws r3); Some ((unquote body, v) :: ms, r4)
                      else None
                  | [] => None
                  end
                else None
            | [] => None
            end
          else None
      | [] => None
      end
  end
with p_elems (n : nat) (depth : N) (l : list ascii) {struct n} : option (list json * list ascii) :=
  match n with
  | O => None
  | S n' =>
      '(v, r) ← p_value n' depth l;
      match skip_ws r with
      | d :: r1 =>
          if is_char 93 d then Some ([v], r1)
          else if is_char 44 d then '(vs, r2) ← p_elems n' depth (skip_ws r1); Some (v :: vs, r2)
          else None
      | [] => None
      end
  end.

(** A document: one value between white space; the fuel is enough for any text
    ([json_parse_fuel]). *)
Definition json_parse (s : string) : rawjson :=
  let l := skip_ws (chars s) in
  match p_value (S (2 * length l)) 0 l with
  | Some (j, r) => match skip_ws r with [] => JSON j | _ => NotJSON s end
  | None => NotJSON s
  end.


(** ** What reading consumes *)

Lemma skip_ws_suffix l : skip_ws l `suffix_of` l.
Proof. induction l as [|a l IH]; cbn; [done|]. destruct (json_space a); [by apply suffix_cons_r|done]. Qed.
Lemma suffix_le {A} (l1 l2 : list A) : l1 `suffix_of` l2 → length l1 ≤ length l2.
Proof. intros [k ->]. rewrite length_app. lia. Qed.
Lemma skip_ws_length l : length (skip_ws l) ≤ length l.
Proof. apply suffix_le, skip_ws_suffix. Qed.

Lemma span_digits_app l : let '(ds, r) := span_digits l in l = ds ++ r.
Proof. induction l as [|a l IH]; cbn; [done|]. destruct (dec_digit a); [|done]. destruct (span_digits l). by rewrite IH at 1. Qed.

Lemma scan_body_spec l body r : scan_body l = Some (body, r) → r `suffix_of` l ∧ length r < length l.
Proof.
  remember (length l) as n eqn:Hn. revert l Hn body r. induction (lt_wf n) as [n _ IH]. intros l -> body r Hs.
  assert (Hrec : ∀ l' b, length l' < length l → l' `suffix_of` l → scan_body l' = Some (b, r) → r `suffix_of` l ∧ length r < length l).
  { intros l' b Hlen Hsuf Hb. destruct (IH _ Hlen l' eq_refl b r Hb) as [? ?]. split; [by etransitivity|lia]. }
  destruct l as [|a l1]; [done|]. cbn [scan_body] in Hs.
  destruct (is_char 34 a).
  { simplify_eq. split; [by apply suffix_cons_r|cbn; lia]. }
  destruct (is_char 92 a).
  - destruct l1 as [|e l2]; [done|]. destruct (is_char 117 e).
    + destruct l2 as [|h1 [|h2 [|h3 [|h4 l3]]]]; try done. destruct (hex4 _); [|done].
      apply bind_Some in Hs as ([b x] & Hb & ?). simplify_eq. apply (Hrec l3 b); [cbn; lia| |done]. by do 6 apply suffix_cons_r.
    + destruct (unescape e); [|done]. apply bind_Some in Hs as ([b x] & Hb & ?). simplify_eq.
      apply (Hrec l2 b); [cbn; lia| |done]. by do 2 apply suffix_cons_r.
  - destruct (code a <? 32)%N; [done|]. apply bind_Some in Hs as ([b x] & Hb & ?). simplify_eq.
    apply (Hrec l1 b); [cbn; lia| |done]. by apply suffix_cons_r.
Qed.

Lemma p_number_suffix l num r : p_number l = Some (num, r) → r `suffix_of` l ∧ length r < length l.
Proof.
  assert (Hspan : ∀ l ds r, span_digits l = (ds, r) → r `suffix_of` l) by (intros x ds r' E; pose proof (span_digits_app x) as Hx; rewrite E in Hx; rewrite Hx; by apply suffix_app_r).
  assert (Hint : ∀ l ds r, p_int l = Some (ds, r) → r `suffix_of` l ∧ length r < length l).
  { intros [|a l'] ds r' E; [done|]. cbn [p_int] in E. destruct (is_char 48 a).
    - simplify_eq. split; [by apply suffix_cons_r|cbn; lia].
    - pose proof (span_digits_app (a :: l')) as Hx. destruct (span_digits (a :: l')) as [[|d ds'] r''] eqn:Es; [done|]. simplify_eq.
      rewrite Hx. split; [by apply suffix_app_r|rewrite length_app; cbn; lia]. }
  assert (Hfrac : ∀ l ds r, p_frac l = Some (ds, r) → r `suffix_of` l).
  { intros [|a l'] ds r' E; cbn [p_frac] in E; [by simplify_eq|]. destruct (is_char 46 a); [|by simplify_eq].
    destruct (span_digits l') as [[|d ds'] r''] eqn:Es; [done|]. simplify_eq. apply suffix_cons_r. by eapply Hspan. }
  assert (Hexp : ∀ l e r, p_exp l = Some (e, r) → r `suffix_of` l).
  { intros [|a l'] e r' E; cbn [p_exp] in E; [by simplify_eq|]. destruct (_ || _); [|by simplify_eq]. apply suffix_cons_r.
    destruct l' as [|s l'']; [done|]. destruct (is_char 43 s || is_char 45 s).
    - destruct (span_digits l'') as [[|d ds'] r''] eqn:Es; [done|]. simplify_eq. apply suffix_cons_r. by eapply Hspan.
    - destruct (span_digits (s :: l'')) as [[|d ds'] r''] eqn:Es; [done|]. simplify_eq. by eapply Hspan. }
  unfold p_number. intros Hp.
  assert (∃ l0, l0 `suffix_of` l ∧ ('(ints, l1) ← p_int l0; '(fracs, l2) ← p_frac l1; '(exp, l3) ← p_exp l2; Some l3) = Some r) as (l0 & Hl0 & Hq).
  { destruct l as [|a l']; [exists []|destruct (is_char 45 a); [exists l'|exists (a :: l')]]; (split; [first [done|by apply suffix_cons_r]|]);
      repeat (apply bind_Some in Hp as ([? ?] & -> & Hp); cbn); by simplify_eq. }
  apply bind_Some in Hq as ([ints l1] & H1 & Hq). apply bind_Some in Hq as ([fracs l2] & H2 & Hq). apply bind_Some in Hq as ([e l3] & H3 & Hq).
  simplify_eq. apply Hint in H1 as [? ?]. apply Hfrac in H2. apply Hexp in H3. pose proof (suffix_le _ _ Hl0).
  pose proof (suffix_le _ _ H2). pose proof (suffix_le _ _ H3). split; [|lia]. do 3 (etransitivity; [eassumption|]). done.
Qed.

Lemma node_text l r v : r `suffix_of` l → chars (jtext (node l r v)) ++ r = l.
Proof.
  intros [k ->]. cbn [node jtext]. rewrite chars_text, length_app. replace (length k + length r - length r) with (length k) by lia.
  by rewrite take_app_length.
Qed.

(** What is left after an item is a proper suffix, and a node keeps the text it
    was read from. *)
Definition consumes (l r : list ascii) : Prop := r `suffix_of` l ∧ length r < length l.
Lemma consumes_after_ws l r : consumes (skip_ws l) r → consumes l r.
Proof. intros [? ?]. split; [etransitivity; [done|apply skip_ws_suffix]|]. pose proof (skip_ws_length l). lia. Qed.
Lemma consumes_cons a l r : consumes l r → consumes (a :: l) r.
Proof. intros [? ?]. split; [by apply suffix_cons_r|cbn; lia]. Qed.
Lemma consumes_head a l : consumes (a :: l) l.
Proof. split; [by apply suffix_cons_r|cbn; lia]. Qed.
Lemma consumes_trans l1 l2 l3 : consumes l1 l2 → consumes l2 l3 → consumes l1 l3.
Proof. intros [? ?] [? ?]. split; [by etransitivity|lia]. Qed.
Lemma ws_head l a r : skip_ws l = a :: r → consumes l r.
Proof. intros E. apply consumes_after_ws. rewrite E. apply consumes_head. Qed.

Lemma literal_spec word v l j r : literal word v l = Some (j, r) → word ≠ EmptyString → consumes l r ∧ chars (jtext j) ++ r = l.
Proof.
  unfold literal. intros (rest & Hp & ?)%bind_Some Hw. simplify_eq. apply TrimPrefix_list_Some in Hp as ->.
  assert (Hc : consumes (chars word ++ r) r).
  { split; [by apply suffix_app_r|]. rewrite length_app. destruct word; [done|]. cbn. lia. }
  split; [done|]. apply node_text, Hc.
Qed.

Lemma p_consumes n :
  (∀ d l j r, p_value n d l = Some (j, r) → consumes l r ∧ chars (jtext j) ++ r = l) ∧
  (∀ d l ms r, p_members n d l = Some (ms, r) → consumes l r) ∧
  (∀ d l vs r, p_elems n d l = Some (vs, r) → consumes l r).
Proof.
  induction n as [|n (IHv & IHm & IHe)]; [done|]. split_and!; intros d l.
  - intros j r. destruct l as [|a l1]; [done|]. cbn [p_value]. intros Hp.
    assert (Hnode : ∀ v, consumes (a :: l1) r → j = node (a :: l1) r v → consumes (a :: l1) r ∧ chars (jtext j) ++ r = a :: l1)
      by (intros v Hc ->; split; [done|apply node_text, Hc]).
    destruct (is_char 123 a); [|destruct (is_char 91 a)].
    + destruct (_ <=? _)%N; [done|]. destruct (skip_ws l1) as [|b r0] eqn:Hw; [done|].
      destruct (is_char 125 b); [simplify_eq; by eapply Hnode; [apply consumes_cons, (ws_head _ b)|]|].
      apply bind_Some in Hp as ([ms r'] & Hm & ?). simplify_eq. eapply Hnode; [|done]. apply consumes_cons, consumes_after_ws. rewrite Hw. by eapply IHm.
    + destruct (_ <=? _)%N; [done|]. destruct (skip_ws l1) as [|b r0] eqn:Hw; [done|].
      destruct (is_char 93 b); [simplify_eq; by eapply Hnode; [apply consumes_cons, (ws_head _ b)|]|].
      apply bind_Some in Hp as ([vs r'] & He & ?). simplify_eq. eapply Hnode; [|done]. apply consumes_cons, consumes_after_ws. rewrite Hw. by eapply IHe.
    + destruct (is_char 34 a).
      { apply bind_Some in Hp as ([body r'] & Hs & ?). simplify_eq. eapply Hnode; [|done]. apply consumes_cons. by apply (scan_body_spec _ body). }
      destruct (is_char 116 a); [by eapply literal_spec|]. destruct (is_char 102 a); [by eapply literal_spec|].
      destruct (is_char 110 a); [by eapply literal_spec|]. apply bind_Some in Hp as ([num r'] & Hs & ?). simplify_eq.
      eapply Hnode; [|done]. by apply (p_number_suffix _ num).
  - intros ms r. destruct l as [|a l1]; [done|]. cbn [p_members]. destruct (is_char 34 a); [|done]. intros ([body r0] & Hs & Hp)%bind_Some.
    apply consumes_cons. apply scan_body_spec in Hs. eapply consumes_trans; [exact Hs|].
    destruct (skip_ws r0) as [|c r1] eqn:Hw; [done|]. destruct (is_char 58 c); [|done]. apply bind_Some in Hp as ([v r2] & Hv & Hp).
    eapply consumes_trans; [by eapply ws_head|]. apply IHv in Hv as [Hv _]. apply consumes_after_ws in Hv. eapply consumes_trans; [exact Hv|].
    destruct (skip_ws r2) as [|e r3] eqn:Hw2; [done|]. destruct (is_char 125 e); [simplify_eq; by eapply ws_head|].
    destruct (is_char 44 e); [|done]. apply bind_Some in Hp as ([ms' r4] & Hm & ?). simplify_eq.
    eapply consumes_trans; [by eapply ws_head|]. apply consumes_after_ws. by eapply IHm.
  - intros vs r. cbn [p_elems]. intros ([v r0] & Hv & Hp)%bind_Some. apply IHv in Hv as [Hv _]. eapply consumes_trans; [exact Hv|].
    destruct (skip_ws r0) as [|e r1] eqn:Hw; [done|]. destruct (is_char 93 e); [simplify_eq; by eapply ws_head|].
    destruct (is_char 44 e); [|done]. apply bind_Some in Hp as ([vs' r2] & He & ?). simplify_eq.
    eapply consumes_trans; [by eapply ws_head|]. apply consumes_after_ws. by eapply IHe.
Qed.

Lemma bind_ext {A B} (o1 o2 : option A) (f g : A → option B) : o1 = o2 → (∀ x, o2 = Some x → f x = g x) → o1 ≫= f = o2 ≫= g.
Proof. intros -> Hf. destruct o2; [by apply Hf|done]. Qed.

(** More fuel does not change what is read. *)
Lemma p_stable n :
  (∀ m d l, 2 * length l < n → 2 * length l < m → p_value n d l = p_value m d l) ∧
  (∀ m d l, 2 * length l < n → 2 * length l < m → p_members n d l = p_members m d l) ∧
  (∀ m d l, 2 * length l + 1 < n → 2 * length l + 1 < m → p_elems n d l = p_elems m d l).
Proof.
  induction n as [|n (IHv & IHm & IHe)]; [split_and!; intros; lia|]. split_and!; intros [|m] d l Hn Hm; try lia.
  - destruct l as [|a l1]; [done|]. cbn [p_value]. cbn [length] in *. pose proof (skip_ws_length l1) as Hw.
    destruct (is_char 123 a); [|destruct (is_char 91 a)]; [| |done].
    + destruct (_ <=? _)%N; [done|]. destruct (skip_ws l1) as [|b r0]; [done|]. destruct (is_char 125 b); [done|].
      apply bind_ext; [|done]. cbn [length] in *. apply IHm; cbn [length]; lia.
    + destruct (_ <=? _)%N; [done|]. destruct (skip_ws l1) as [|b r0]; [done|]. destruct (is_char 93 b); [done|].
      apply bind_ext; [|done]. cbn [length] in *. apply IHe; cbn [length]; lia.
  - destruct l as [|a l1]; [done|]. cbn [p_members]. cbn [length] in *. destruct (is_char 34 a); [|done]. apply bind_ext; [done|].
    intros [body r0] [_ Hs]%scan_body_spec. pose proof (skip_ws_length r0) as Hw. destruct (skip_ws r0) as [|c r1]; [done|].
    destruct (is_char 58 c); [|done]. cbn [length] in *. pose proof (skip_ws_length r1). apply bind_ext; [apply IHv; lia|].
    intros [v r2] [[_ Hv] _]%(proj1 (p_consumes m)). pose proof (skip_ws_length r2) as Hw2. destruct (skip_ws r2) as [|e r3]; [done|].
    destruct (is_char 125 e); [done|]. destruct (is_char 44 e); [|done]. cbn [length] in *. pose proof (skip_ws_length r3).
    apply bind_ext; [apply IHm; lia|done].
  - cbn [p_elems]. apply bind_ext; [apply IHv; lia|]. intros [v r0] [[_ Hv] _]%(proj1 (p_consumes m)).
    pose proof (skip_ws_length r0) as Hw. destruct (skip_ws r0) as [|e r1]; [done|]. destruct (is_char 93 e); [done|].
    destruct (is_char 44 e); [|done]. cbn [length] in *. pose proof (skip_ws_length r1). apply bind_ext; [apply IHe; lia|done].
Qed.

Lemma json_parse_fuel n d l : 2 * length l < n → p_value n d l = p_value (S (2 * length l)) d l.
Proof. intros Hn. apply p_stable; lia. Qed.

(** ** Writing

    [json.Marshal] writes without white space.  A string that is no UTF-8 is read
    back with U+FFFD for the bytes that are none. *)
Inductive jdoc :=
  | DNull
  | DBool (b : bool)
  | DNum (n : number)
  | DStr (s : string)
  | DArr (l : list jdoc)
  | DObj (l : list (string * jdoc)).

Definition comma : ascii := ",".
Fixpoint doc_chars (d : jdoc) : list ascii :=
  match d with
  | DNull => chars "null"
  | DBool b => chars (if b then "true" else "false")
  | DNum n => number_chars n
  | DStr s => quote s
  | DArr l => "["%char :: join_on comma (doc_chars <$> l) ++ ["]"%char]
  | DObj l => "{"%char :: join_on comma ((λ kv, quote kv.1 ++ ":"%char :: doc_chars kv.2) <$> l) ++ ["}"%char]
  end.
Definition doc_text (d : jdoc) : string := text (doc_chars d).

Fixpoint valid_body (fuel : nat) (l : list ascii) : list ascii :=
  match fuel, l with
  | S fuel', a :: l' =>
      if (code a <? 128)%N then a :: valid_body fuel' l'
      else match decode_rune l with
           | Some (_, w) => take w l ++ valid_body fuel' (drop w l)
           | None => replacement ++ valid_body fuel' l'
           end
  | _, _ => []
  end.
(** [strings.ToValidUTF8(s, U+FFFD)], byte by byte. *)
Definition to_valid (s : string) : string := text (valid_body (length (chars s)) (chars s)).

Fixpoint doc_node (d : jdoc) : json :=
  Node (doc_text d)
    match d with
    | DNull => JNull
    | DBool b => JBool b
    | DNum n => JNum (number_value n)
    | DStr s => JStr (to_valid s)
    | DArr l => JArr (doc_node <$> l)
    | DObj l => JObj ((λ kv, (to_valid kv.1, doc_node kv.2)) <$> l)
    end.

Definition number_ok (n : number) : Prop :=
  (n_int n = ["0"%char] ∨ (Forall (λ a, dec_digit a = true) (n_int n) ∧ ∃ a ds, n_int n = a :: ds ∧ is_char 48 a = false)) ∧
  Forall (λ a, dec_digit a = true) (n_frac n) ∧
  match n_exp n with
  | None => True
  | Some (e, sign, ds) =>
      (is_char 101 e || is_char 69 e = true) ∧ (match sign with Some s => is_char 43 s || is_char 45 s = true | None => True end) ∧
      ds ≠ [] ∧ Forall (λ a, dec_digit a = true) ds
  end.
Fixpoint doc_ok (d : jdoc) : Prop :=
  match d with
  | DNum n => number_ok n
  | DArr l => foldr and True (doc_ok <$> l)
  | DObj l => foldr and True ((λ kv, doc_ok kv.2) <$> l)
  | _ => True
  end.
Fixpoint doc_depth (d : jdoc) : nat :=
  match d with
  | DArr l => S (max_list (doc_depth <$> l))
  | DObj l => S (max_list ((λ kv, doc_depth kv.2) <$> l))
  | _ => 0
  end.

Lemma jdoc_induction (P : jdoc → Prop) :
  P DNull → (∀ b, P (DBool b)) → (∀ n, P (DNum n)) → (∀ s, P (DStr s)) → (∀ l, Forall P l → P (DArr l)) →
  (∀ l, Forall (λ kv, P kv.2) l → P (DObj l)) → ∀ d, P d.
Proof.
  intros H1 H2 H3 H4 H5 H6. fix IH 1. intros [|b|n|s|l|l]; [done|done|done|done| |].
  - apply H5. induction l as [|d l IHl]; constructor; [apply IH|apply IHl].
  - apply H6. induction l as [|kv l IHl]; constructor; [apply IH|apply IHl].
Qed.

(** *** String literals *)

Ltac each_byte a := destruct a as [[] [] [] [] [] [] [] []].
Lemma scan_quote_char a rest :
  (code a < 128)%N → scan_body (quote_char a ++ rest) = '(b, r) ← scan_body rest; Some (quote_char a ++ b, r).
Proof. each_byte a; try (intros Ha; discriminate Ha); reflexivity. Qed.
Lemma unquote_quote_char a rest fuel :
  (code a < 128)%N → unquote_body (S fuel) (quote_char a ++ rest) = a :: unquote_body fuel rest.
Proof. each_byte a; try (intros Ha; discriminate Ha); reflexivity. Qed.
Lemma quote_char_length a : 1 ≤ length (quote_char a).
Proof. each_byte a; vm_compute; lia. Qed.

Lemma wide_byte a : (128 <= code a)%N → is_char 34 a = false ∧ is_char 92 a = false ∧ (code a <? 32)%N = false ∧ (code a <? 128)%N = false.
Proof.
  intros Ha. unfold is_char. rewrite !N.eqb_neq, !N.ltb_ge. lia.
Qed.
Lemma scan_wide bs rest :
  Forall (λ a, (128 <= code a)%N) bs → scan_body (bs ++ rest) = '(b, r) ← scan_body rest; Some (bs ++ b, r).
Proof.
  induction 1 as [|a bs Ha _ IH]; [cbn [app]; by destruct (scan_body rest) as [[? ?]|]|]. cbn [app scan_body].
  destruct (wide_byte a Ha) as (-> & -> & -> & _). rewrite IH. by destruct (scan_body rest) as [[? ?]|].
Qed.

Lemma quote_body_units fuel l rest :
  scan_body (quote_body fuel l ++ rest) = '(b, r) ← scan_body rest; Some (quote_body fuel l ++ b, r).
Proof.
  revert l. induction fuel as [|fuel IH]; intros [|a l]; try (cbn [quote_body app]; by destruct (scan_body rest) as [[? ?]|]).
  assert (Hstep : ∀ u l', (∀ x, scan_body (u ++ x) = '(b, r) ← scan_body x; Some (u ++ b, r)) →
            scan_body ((u ++ quote_body fuel l') ++ rest) = '(b, r) ← scan_body rest; Some ((u ++ quote_body fuel l') ++ b, r)).
  { intros u l' Hu. rewrite <-app_assoc, Hu, IH. destruct (scan_body rest) as [[? ?]|]; [|done]. cbn. by rewrite app_assoc. }
  cbn [quote_body]. destruct (N.ltb_spec (code a) 128) as [Ha|Ha]; [apply Hstep; intros; by apply scan_quote_char|].
  destruct (decode_rune (a :: l)) as [[r w]|] eqn:Hd; [|by apply Hstep].
  apply Hstep. intros x. unfold quote_wide. destruct (r =? 8232)%N; [done|]. destruct (r =? 8233)%N; [done|].
  apply scan_wide. by eapply decode_rune_wide.
Qed.

Lemma decode_separator l r w : decode_rune l = Some (r, w) → r = 8232%N ∨ r = 8233%N → take w l = encode_rune r.
Proof.
  assert (Hasc : ∀ a n, code a = n → a = ascii_of_N n) by (intros a n <-; symmetry; apply ascii_N_embedding).
  intros Hd Hr. destruct l as [|a0 [|a1 [|a2 [|a3 l]]]]; cbn in Hd; split_ifs Hd; simplify_eq;
    unfold continuation_byte, byte_in, second_low, second_high in *; repeat case_match; bool_facts;
    repeat match goal with
    | H : (_ <=? _)%N = true |- _ => apply N.leb_le in H
    | H : (_ =? _)%N = true |- _ => apply N.eqb_eq in H
    | H : (_ =? _)%N = false |- _ => apply N.eqb_neq in H
    | H : (_ <? _)%N = true |- _ => apply N.ltb_lt in H
    end; try lia.
  all: assert (Hk : (code a0 = 226 ∧ code a1 = 128)%N) by lia; destruct Hk as [H226 H128].
  all: destruct Hr as [Hr|Hr]; rewrite Hr; rewrite (Hasc a0 _ H226), (Hasc a1 _ H128); cbn [take];
    [rewrite (Hasc a2 168%N) by lia|rewrite (Hasc a2 169%N) by lia]; reflexivity.
Qed.

(** Reading a written string body gives the string back. *)
Lemma unquote_quote f l g : length l ≤ f → length (quote_body f l) ≤ g → unquote_body g (quote_body f l) = valid_body f l.
Proof.
  revert l g. induction f as [|f IH]; intros [|a l] g Hf Hg; try (by destruct g).
  cbn [quote_body valid_body length] in *. destruct (N.ltb_spec (code a) 128) as [Ha|Ha].
  - rewrite length_app in Hg. pose proof (quote_char_length a). destruct g as [|g]; [lia|].
    rewrite unquote_quote_char by done. f_equal. apply IH; lia.
  - destruct (wide_byte a Ha) as (_ & Hbs & _ & Hw). destruct (decode_rune (a :: l)) as [[r w]|] eqn:Hd.
    + destruct (decode_rune_local _ _ _ Hd) as [Hlen Hloc]. destruct (decode_rune_wide _ _ _ _ Hd Ha) as [Hw2 _].
      set (t := quote_body f (drop w (a :: l))) in *.
      assert (Hdrop : length (drop w (a :: l)) ≤ f) by (rewrite length_drop; cbn [length]; lia).
      unfold quote_wide in *. destruct (N.eqb_spec r 8232) as [->|]; [|destruct (N.eqb_spec r 8233) as [->|]].
      * rewrite (decode_separator _ _ _ Hd) by auto. rewrite length_app in Hg. cbn [chars String.list_ascii_of_string length] in Hg.
        destruct g as [|g]; [lia|]. change (unquote_body (S g) (chars "\u2028" ++ t)) with (encode_rune 8232 ++ unquote_body g t).
        f_equal. apply IH; [done|fold t; lia].
      * rewrite (decode_separator _ _ _ Hd) by auto. rewrite length_app in Hg. cbn [chars String.list_ascii_of_string length] in Hg.
        destruct g as [|g]; [lia|]. change (unquote_body (S g) (chars "\u2029" ++ t)) with (encode_rune 8233 ++ unquote_body g t).
        f_equal. apply IH; [done|fold t; lia].
      * rewrite length_app, length_take_le in Hg by done. destruct g as [|g]; [lia|].
        assert (Hhd : ∃ t', take w (a :: l) ++ t = a :: t') by (destruct w; [lia|by eexists]). destruct Hhd as [t' Ht'].
        specialize (Hloc t). rewrite Ht' in Hloc |- *. cbn [unquote_body]. rewrite Hbs, Hw, Hloc, <-Ht'.
        rewrite take_app_length', drop_app_length' by (rewrite length_take_le by done; done). f_equal. apply IH; [done|fold t; lia].
    + rewrite length_app in Hg. cbn [chars String.list_ascii_of_string length] in Hg. destruct g as [|g]; [lia|].
      change (unquote_body (S g) (chars "\ufffd" ++ quote_body f l)) with (replacement ++ unquote_body g (quote_body f l)).
      f_equal. apply IH; lia.
Qed.

Lemma scan_quote s rest :
  ∃ body, quote s ++ rest = ascii_of_N 34 :: body ++ ascii_of_N 34 :: rest ∧
    scan_body (body ++ ascii_of_N 34 :: rest) = Some (body, rest) ∧ unquote body = to_valid s.
Proof.
  exists (quote_body (length (chars s)) (chars s)). split; [unfold quote; cbn [app]; by rewrite <-app_assoc|]. split.
  - rewrite quote_body_units. change (scan_body (ascii_of_N 34 :: rest)) with (Some (@nil ascii, rest)). cbn [mbind option_bind]. by rewrite app_nil_r.
  - unfold unquote, to_valid. f_equal. by apply unquote_quote.
Qed.

(** A literal has no control characters. *)
Definition printable (a : ascii) : Prop := (32 <= code a)%N.
Lemma quote_printable s : Forall printable (quote s).
Proof.
  assert (Hc : ∀ a, (code a < 128)%N → Forall printable (quote_char a))
    by (intros a Ha; apply Forall_forall; intros b Hb; revert Ha Hb; each_byte a; intros Ha Hb; try discriminate Ha;
        repeat (apply elem_of_cons in Hb as [->|Hb]; [apply N.leb_le; vm_compute; done|]); by apply elem_of_nil in Hb).
  assert (Hp : ∀ t, t ∈ ["\u2028"; "\u2029"; "\ufffd"]%string → Forall printable (chars t)).
  { intros t Ht. repeat (apply elem_of_cons in Ht as [->|Ht]; [repeat constructor; apply N.leb_le; vm_compute; done|]). by apply elem_of_nil in Ht. }
  unfold quote. apply Forall_app. split; [by repeat constructor; apply N.leb_le|]. apply Forall_app. split; [|by repeat constructor; apply N.leb_le].
  generalize (length (chars s)). intros f. generalize (chars s). induction f as [|f IH]; intros [|a l]; cbn [quote_body]; try constructor.
  destruct (N.ltb_spec (code a) 128) as [Ha|Ha]; [apply Forall_app; by split; [apply Hc|]|].
  destruct (decode_rune (a :: l)) as [[r w]|] eqn:Hd; apply Forall_app; (split; [|done]).
  - unfold quote_wide. destruct (r =? 8232)%N; [apply Hp; set_solver|]. destruct (r =? 8233)%N; [apply Hp; set_solver|].
    eapply Forall_impl; [by eapply decode_rune_wide|]. unfold printable. cbn. lia.
  - apply Hp. set_solver.
Qed.

(** *** Numbers *)

(** What may follow a number: nothing that could belong to it. *)
Definition ends_number (rest : list ascii) : Prop :=
  match rest with
  | [] => True
  | a :: _ => dec_digit a = false ∧ is_char 46 a = false ∧ is_char 101 a || is_char 69 a = false
  end.
Definition no_digit (rest : list ascii) : Prop := match rest with [] => True | a :: _ => dec_digit a = false end.

Lemma span_digits_all ds rest : Forall (λ a, dec_digit a = true) ds → no_digit rest → span_digits (ds ++ rest) = (ds, rest).
Proof.
  induction 1 as [|a ds Ha _ IH]; intros Hr; cbn [app].
  - destruct rest as [|b rest]; [done|]. cbn in *. by rewrite Hr.
  - cbn [span_digits]. by rewrite Ha, IH.
Qed.
Lemma exp_letter_no_digit a : is_char 101 a || is_char 69 a = true → dec_digit a = false ∧ is_char 46 a = false.
Proof. each_byte a; vm_compute; done. Qed.
Lemma sign_no_digit a : dec_digit a = true → is_char 43 a || is_char 45 a = false.
Proof. each_byte a; vm_compute; done. Qed.

Lemma p_exp_chars o rest :
  match o with
  | None => True
  | Some (e, sign, ds) =>
      (is_char 101 e || is_char 69 e = true) ∧ (match sign with Some s => is_char 43 s || is_char 45 s = true | None => True end) ∧
      ds ≠ [] ∧ Forall (λ a, dec_digit a = true) ds
  end → ends_number rest →
  p_exp (exp_chars o ++ rest) = Some (o, rest).
Proof.
  destruct o as [[[e sign] ds]|]; intros Ho Hr.
  - destruct Ho as (He & Hs & Hne & Hds). assert (Hspan : span_digits (ds ++ rest) = (ds, rest)).
    { apply span_digits_all; [done|]. by destruct rest; [|destruct Hr]. }
    destruct ds as [|d0 ds0]; [done|]. destruct sign as [s|]; cbn [exp_chars app p_exp]; rewrite He.
    + rewrite Hs. cbn [app] in Hspan. by rewrite Hspan.
    + inversion Hds; subst. rewrite (sign_no_digit d0) by done. cbn [app] in Hspan. by rewrite Hspan.
  - destruct rest as [|a rest]; [done|]. destruct Hr as (_ & _ & He). cbn [exp_chars app p_exp]. by rewrite He.
Qed.

Lemma p_number_chars n rest : number_ok n → ends_number rest → p_number (number_chars n ++ rest) = Some (n, rest).
Proof.
  destruct n as [neg ints fracs exp]. unfold number_ok, number_chars. cbn [n_neg n_int n_frac n_exp]. intros (Hi & Hf & He) Hr.
  set (tail := exp_chars exp ++ rest).
  assert (Hexp : p_exp tail = Some (exp, rest)) by (by apply p_exp_chars).
  assert (Htail : no_digit tail ∧ match tail with [] => True | a :: _ => is_char 46 a = false end).
  { unfold tail. destruct exp as [[[e sign] ds]|]; [destruct He as [He _]; apply exp_letter_no_digit in He; done|].
    destruct rest; [done|]. by destruct Hr as (? & ? & _). }
  set (mid := frac_chars fracs ++ tail).
  assert (Hfrac : p_frac mid = Some (fracs, tail)).
  { unfold mid. destruct fracs as [|f fs].
    - destruct Htail as [_ Hd]. destruct tail; [done|]. cbn [frac_chars app p_frac]. by rewrite Hd.
    - cbn [frac_chars app p_frac]. change (is_char 46 "."%char) with true. cbn match. change (f :: fs ++ tail) with ((f :: fs) ++ tail).
      by rewrite span_digits_all by (done || apply Htail). }
  assert (Hmid : no_digit mid) by (unfold mid; destruct fracs; [apply Htail|done]).
  assert (Hint : p_int (ints ++ mid) = Some (ints, mid) ∧ ∃ a x, ints ++ mid = a :: x ∧ is_char 45 a = false).
  { destruct Hi as [->|[Hds (a & ds & -> & Ha)]]; [by split; [|eexists _, _]|]. split.
    - cbn [app p_int]. rewrite Ha. change (a :: ds ++ mid) with ((a :: ds) ++ mid). by rewrite span_digits_all.
    - eexists a, _. split; [done|]. inversion Hds; subst. pose proof (sign_no_digit a). bool_facts. by destruct (orb_false_elim _ _ (sign_no_digit a ltac:(done))). }
  rewrite <-!app_assoc. fold tail. fold mid.
  destruct Hint as [Hint (a & x & Hx & Ha)]. unfold p_number. destruct neg; cbn [app].
  - change (is_char 45 "-"%char) with true. cbn match. rewrite Hint. cbn [mbind option_bind]. rewrite Hfrac. cbn [mbind option_bind]. by rewrite Hexp.
  - rewrite Hx, Ha, <-Hx. rewrite Hint. cbn [mbind option_bind]. rewrite Hfrac. cbn [mbind option_bind]. by rewrite Hexp.
Qed.

(** *** Documents *)

(** The first character of a written value decides which rule reads it. *)
Lemma number_head n : number_ok n → ∃ a x, number_chars n = a :: x ∧ (a = "-"%char ∨ dec_digit a = true).
Proof.
  destruct n as [neg ints fracs exp]. unfold number_ok, number_chars. cbn [n_neg n_int n_frac n_exp]. intros (Hi & _).
  destruct neg; [eexists _, _; split; [done|by left]|]. destruct Hi as [->|[Hds (a & ds & -> & _)]]; [by eexists _, _; split; [|right]|].
  inversion Hds; subst. by eexists _, _; split; [|right].
Qed.
Lemma number_rule a : a = "-"%char ∨ dec_digit a = true →
  is_char 123 a = false ∧ is_char 91 a = false ∧ is_char 34 a = false ∧ is_char 116 a = false ∧ is_char 102 a = false ∧ is_char 110 a = false.
Proof. intros [->|Ha]; [done|]. revert Ha. each_byte a; vm_compute; done. Qed.

Lemma p_value_number n d num rest :
  number_ok num → ends_number rest → p_value (S n) d (number_chars num ++ rest) = Some (doc_node (DNum num), rest).
Proof.
  intros Hn Hr. destruct (number_head num Hn) as (a & x & Hx & Ha). pose proof (p_number_chars num rest Hn Hr) as Hp.
  assert (Hnode : node (number_chars num ++ rest) rest (JNum (number_value num)) = doc_node (DNum num)).
  { unfold node. cbn [doc_node]. unfold doc_text. cbn [doc_chars]. rewrite length_app, Nat.add_sub, take_app_length. done. }
  rewrite <-Hnode. rewrite Hx in *. cbn [app] in *. cbn [p_value]. destruct (number_rule a Ha) as (-> & -> & -> & -> & -> & ->).
  rewrite Hp. done.
Qed.

Lemma doc_head d : doc_ok d → ∃ a x, doc_chars d = a :: x ∧ json_space a = false ∧ is_char 93 a = false.
Proof.
  destruct d as [|[]|n|s|l|l]; intros Hd; try by eexists _, _.
  destruct (number_head n Hd) as (a & x & Hx & Ha). exists a, x. split; [done|]. revert Ha. each_byte a; vm_compute; naive_solver.
Qed.
Lemma foldr_and (l : list Prop) : foldr and True l ↔ Forall id l.
Proof. induction l; cbn; [by split|]. rewrite Forall_cons. naive_solver. Qed.
Lemma join_on_cons2 sep x y (l : list (list ascii)) : join_on sep (x :: y :: l) = x ++ sep :: join_on sep (y :: l).
Proof. done. Qed.

Lemma number_printable n : number_ok n → Forall printable (number_chars n).
Proof.
  assert (Hd : ∀ l, Forall (λ a, dec_digit a = true) l → Forall printable l).
  { intros l Hl. eapply Forall_impl; [exact Hl|]. intros a Ha. unfold dec_digit, byte_in in Ha. apply andb_true_iff in Ha as [Ha%N.leb_le _]. unfold printable. lia. }
  assert (Hs : ∀ a k k', (32 <= k)%N → (32 <= k')%N → is_char k a || is_char k' a = true → printable a).
  { intros a k k' ? ? [Ha|Ha]%orb_true_iff; apply N.eqb_eq in Ha; unfold printable; lia. }
  destruct n as [neg ints fracs exp]. unfold number_ok, number_chars. cbn [n_neg n_int n_frac n_exp]. intros (Hi & Hf & He).
  repeat (apply Forall_app; split).
  - destruct neg; repeat constructor. by apply N.leb_le.
  - destruct Hi as [->|[Hi _]]; [repeat constructor; by apply N.leb_le|by apply Hd].
  - destruct fracs; [constructor|]. cbn [frac_chars]. constructor; [by apply N.leb_le|by apply Hd].
  - destruct exp as [[[e sign] ds]|]; [|constructor]. destruct He as (He & Hsg & _ & Hds). cbn [exp_chars]. constructor; [by apply (Hs e 101%N 69%N)|].
    apply Forall_app. split; [|by apply Hd]. destruct sign as [sg|]; repeat constructor. by apply (Hs sg 43%N 45%N).
Qed.
Lemma join_printable (ls : list (list ascii)) : Forall (Forall printable) ls → Forall printable (join_on comma ls).
Proof.
  induction 1 as [|l ls Hl Hls IH]; [constructor|]. destruct ls as [|l' ls]; [done|]. rewrite join_on_cons2. apply Forall_app. split; [done|].
  constructor; [by apply N.leb_le|done].
Qed.
Lemma doc_printable d : doc_ok d → Forall printable (doc_chars d).
Proof.
  assert (Hw : ∀ t, t ∈ ["null"; "true"; "false"]%string → Forall printable (chars t)).
  { intros t Ht. repeat (apply elem_of_cons in Ht as [->|Ht]; [repeat constructor; by apply N.leb_le|]). by apply elem_of_nil in Ht. }
  induction d as [|b|n|s|l IH|l IH] using jdoc_induction; intros Hok; cbn [doc_chars].
  - apply Hw. set_solver.
  - apply Hw. destruct b; set_solver.
  - by apply number_printable.
  - apply quote_printable.
  - constructor; [by apply N.leb_le|]. apply Forall_app. split; [|repeat constructor; by apply N.leb_le].
    apply join_printable, Forall_fmap. cbn [doc_ok] in Hok. apply foldr_and in Hok. rewrite Forall_fmap in Hok.
    rewrite !Forall_forall in *. intros d Hd. by apply IH, Hok.
  - constructor; [by apply N.leb_le|]. apply Forall_app. split; [|repeat constructor; by apply N.leb_le].
    apply join_printable, Forall_fmap. cbn [doc_ok] in Hok. apply foldr_and in Hok. rewrite Forall_fmap in Hok.
    rewrite !Forall_forall in *. intros kv Hkv. cbn [compose fst snd]. apply Forall_app. split; [apply quote_printable|].
    constructor; [by apply N.leb_le|]. by apply IH, Hok.
Qed.
Lemma node_doc d rest v : node (doc_chars d ++ rest) rest v = Node (doc_text d) v.
Proof. unfold node, doc_text. by rewrite length_app, Nat.add_sub, take_app_length. Qed.
Lemma skip_ws_head a l : json_space a = false → skip_ws (a :: l) = a :: l.
Proof. intros Ha. cbn. by rewrite Ha. Qed.

Definition fits (k : N) (d : jdoc) : Prop := doc_ok d ∧ (k + N.of_nat (doc_depth d) <= maxNestingDepth)%N.
Lemma fits_items {A} k (f : A → jdoc) (l : list A) :
  foldr and True ((doc_ok ∘ f) <$> l) → (k + N.of_nat (S (max_list ((doc_depth ∘ f) <$> l))) <= maxNestingDepth)%N →
  (maxNestingDepth <=? k)%N = false ∧ Forall (λ x, fits (k + 1) (f x)) l.
Proof.
  intros Hok%foldr_and Hd. split; [apply N.leb_gt; lia|]. apply Forall_forall. intros x Hx. split.
  - rewrite Forall_fmap, Forall_forall in Hok. by apply (Hok x).
  - assert (doc_depth (f x) ≤ max_list ((doc_depth ∘ f) <$> l)) by (by apply max_list_elem_of_le, (list_elem_of_fmap_2 (doc_depth ∘ f))). lia.
Qed.

Definition member_chars (kv : string * jdoc) : list ascii := quote kv.1 ++ ":"%char :: doc_chars kv.2.
Definition member_node (kv : string * jdoc) : string * json := (to_valid kv.1, doc_node kv.2).
Lemma member_head kv : ∃ x, member_chars kv = ascii_of_N 34 :: x.
Proof. by eexists. Qed.

Definition reads_values (n : nat) : Prop := ∀ d k rest,
  fits k d → ends_number rest → 2 * length (doc_chars d ++ rest) < n → p_value n k (doc_chars d ++ rest) = Some (doc_node d, rest).
Definition reads_members (n : nat) : Prop := ∀ kv l k rest,
  Forall (λ kv, fits k kv.2) (kv :: l) → 2 * length (join_on comma (member_chars <$> kv :: l) ++ "}"%char :: rest) < n →
  p_members n k (join_on comma (member_chars <$> kv :: l) ++ "}"%char :: rest) = Some (member_node <$> kv :: l, rest).
Definition reads_elems (n : nat) : Prop := ∀ d l k rest,
  Forall (fits k) (d :: l) → 2 * length (join_on comma (doc_chars <$> d :: l) ++ "]"%char :: rest) + 1 < n →
  p_elems n k (join_on comma (doc_chars <$> d :: l) ++ "]"%char :: rest) = Some (doc_node <$> d :: l, rest).

Lemma parse_print_value n : reads_members n → reads_elems n → reads_values (S n).
Proof.
  intros IHm IHe.
  intros d k rest [Hok Hdep] Hr Hn. destruct d as [|[]|num|s|l|l].
  - cbn [doc_node]. by rewrite <-(node_doc DNull rest).
  - cbn [doc_node]. by rewrite <-(node_doc (DBool true) rest).
  - cbn [doc_node]. by rewrite <-(node_doc (DBool false) rest).
  - by apply p_value_number.
  - destruct (scan_quote s rest) as (body & Hq & Hs & Hu). cbn [doc_node]. rewrite <-(node_doc (DStr s) rest), <-Hu. cbn [doc_chars] in *.
    rewrite Hq. cbn [p_value]. change (is_char 34 (ascii_of_N 34)) with true. cbn match. by rewrite Hs.
  - destruct (fits_items k id l Hok Hdep) as [Hk Hl]. cbn [doc_node]. rewrite <-(node_doc (DArr l) rest).
    cbn [doc_chars app] in *. rewrite <-app_assoc in *. cbn [app] in *. cbn [p_value].
    change (is_char 123 "["%char) with false. change (is_char 91 "["%char) with true. cbn match. rewrite Hk.
    destruct l as [|d l]; [done|].
    assert (∃ a x, join_on comma (doc_chars <$> d :: l) ++ "]"%char :: rest = a :: x ∧ json_space a = false ∧ is_char 93 a = false) as (a & x & Hx & Ha & Hb).
    { inversion Hl as [|?? [Hd _] _]; subst. destruct (doc_head d Hd) as (a & x & Hx & ?). destruct l as [|d' l].
      - cbn. rewrite Hx. by eexists _, _.
      - rewrite !fmap_cons, join_on_cons2, Hx. by eexists _, _. }
    pose proof (IHe d l (k + 1)%N rest Hl) as He. cbn [length] in Hn. rewrite Hx in He, Hn |- *. rewrite skip_ws_head by done. rewrite Hb.
    cbn [app] in He. rewrite He by (cbn [length] in *; lia). done.
  - destruct (fits_items k snd l Hok Hdep) as [Hk Hl]. cbn [doc_node]. rewrite <-(node_doc (DObj l) rest).
    cbn [doc_chars app] in *. rewrite <-app_assoc in *. cbn [app] in *. cbn [p_value]. change (is_char 123 "{"%char) with true. cbn match. rewrite Hk.
    destruct l as [|kv l]; [done|]. fold member_chars in *.
    assert (∃ x, join_on comma (member_chars <$> kv :: l) ++ "}"%char :: rest = ascii_of_N 34 :: x) as (x & Hx).
    { destruct (member_head kv) as [x Hx]. destruct l as [|kv' l]; [cbn [fmap list_fmap join_on]|rewrite !fmap_cons, join_on_cons2]; rewrite Hx; by eexists. }
    pose proof (IHm kv l (k + 1)%N rest Hl) as Hm. change (λ kv0 : string * jdoc, quote kv0.1 ++ ":"%char :: doc_chars kv0.2) with member_chars in *.
    cbn [length] in Hn. rewrite Hx in Hm, Hn |- *. rewrite skip_ws_head by done. change (is_char 125 (ascii_of_N 34)) with false. cbn match.
    rewrite Hm by (cbn [length] in *; lia). done.
Qed.

Lemma parse_print_members n : reads_values n → reads_members n → reads_members (S n).
Proof.
  intros IHv IHm.
  intros kv l k rest Hl Hn. inversion Hl as [|?? Hkv Hl']; subst.
  set (after := match l with [] => "}"%char :: rest | kv' :: l' => comma :: join_on comma (member_chars <$> kv' :: l') ++ "}"%char :: rest end).
  assert (Hsplit : join_on comma (member_chars <$> kv :: l) ++ "}"%char :: rest = quote kv.1 ++ ":"%char :: doc_chars kv.2 ++ after).
  { unfold after. destruct l as [|kv' l']; [cbn [fmap list_fmap join_on]|rewrite !fmap_cons, join_on_cons2];
      unfold member_chars at 1; by rewrite <-!app_assoc. }
  rewrite Hsplit in *. destruct (scan_quote kv.1 (":"%char :: doc_chars kv.2 ++ after)) as (body & Hq & Hs & Hu).
  assert (Hend : ends_number after) by (unfold after; by destruct l).
  destruct Hkv as [Hok Hdep]. destruct (doc_head kv.2 Hok) as (a & x & Hx & Ha & _).
  rewrite !length_app in Hn. cbn [length] in Hn. rewrite !length_app in Hn.
  rewrite Hq. cbn [p_members]. change (is_char 34 (ascii_of_N 34)) with true. cbn match. rewrite Hs. cbn [mbind option_bind].
  rewrite skip_ws_head by done. change (is_char 58 ":"%char) with true. cbn match.
  assert (Hws : skip_ws (doc_chars kv.2 ++ after) = doc_chars kv.2 ++ after) by (rewrite Hx; by apply skip_ws_head).
  rewrite Hws, (IHv kv.2 k after) by (done || rewrite length_app; lia). cbn [mbind option_bind]. rewrite Hu. unfold after in *.
  destruct l as [|kv' l']; [done|]. rewrite skip_ws_head by done.
  change (is_char 125 comma) with false. change (is_char 44 comma) with true. cbn match.
  cbn [length] in Hn. rewrite length_app in Hn. pose proof (IHm kv' l' k rest Hl') as Hm. rewrite length_app in Hm.
  assert (Hws2 : skip_ws (join_on comma (member_chars <$> kv' :: l') ++ "}"%char :: rest) = join_on comma (member_chars <$> kv' :: l') ++ "}"%char :: rest).
  { destruct (member_head kv') as [y Hy]. destruct l' as [|kv'' l'']; [cbn [fmap list_fmap join_on]|rewrite !fmap_cons, join_on_cons2]; rewrite Hy; by apply skip_ws_head. }
  rewrite Hws2, Hm by lia. done.
Qed.

Lemma parse_print_elems n : reads_values n → reads_elems n → reads_elems (S n).
Proof.
  intros IHv IHe.
  intros d l k rest Hl Hn. inversion Hl as [|?? Hd Hl']; subst.
  set (after := match l with [] => "]"%char :: rest | d' :: l' => comma :: join_on comma (doc_chars <$> d' :: l') ++ "]"%char :: rest end).
  assert (Hsplit : join_on comma (doc_chars <$> d :: l) ++ "]"%char :: rest = doc_chars d ++ after).
  { unfold after. destruct l as [|d' l']; [done|]. rewrite !fmap_cons, join_on_cons2. by rewrite <-app_assoc. }
  rewrite Hsplit in *. assert (Hend : ends_number after) by (unfold after; by destruct l).
  cbn [p_elems]. rewrite (IHv d k after) by (done || lia). cbn [mbind option_bind]. rewrite length_app in Hn. unfold after in *.
  destruct l as [|d' l']; [done|]. rewrite skip_ws_head by done.
  change (is_char 93 comma) with false. change (is_char 44 comma) with true. cbn match.
  cbn [length] in Hn. pose proof (IHe d' l' k rest Hl') as He.
  assert (Hws2 : skip_ws (join_on comma (doc_chars <$> d' :: l') ++ "]"%char :: rest) = join_on comma (doc_chars <$> d' :: l') ++ "]"%char :: rest).
  { inversion Hl' as [|?? [Hd' _] _]; subst. destruct (doc_head d' Hd') as (a & y & Hy & ? & _).
    destruct l' as [|d'' l'']; [cbn [fmap list_fmap join_on]|rewrite !fmap_cons, join_on_cons2]; rewrite Hy; by apply skip_ws_head. }
  rewrite Hws2, He by lia. done.
Qed.

Lemma parse_print n : reads_values n ∧ reads_members n ∧ reads_elems n.
Proof.
  induction n as [|n (IHv & IHm & IHe)]; [split_and!; repeat intro; lia|].
  split_and!; [by apply parse_print_value|by apply parse_print_members|by apply parse_print_elems].
Qed.

Lemma skip_ws_spaces pre l : Forall (λ a, json_space a = true) pre → skip_ws (pre ++ l) = skip_ws l.
Proof. induction 1 as [|a pre Ha _ IH]; [done|]. cbn. by rewrite Ha. Qed.
Lemma spaces_end post : Forall (λ a, json_space a = true) post → ends_number post ∧ skip_ws post = [].
Proof.
  intros Hp. split; [|by rewrite <-(app_nil_r post), skip_ws_spaces]. destruct Hp as [|a post Ha _]; [done|].
  revert Ha. cbn. each_byte a; vm_compute; done.
Qed.

Lemma json_parse_doc d : doc_ok d → doc_depth d ≤ N.to_nat maxNestingDepth → json_parse (doc_text d) = JSON (doc_node d).
Proof.
  intros Hok Hdep. unfold json_parse, doc_text. rewrite chars_text. destruct (doc_head d Hok) as (a & x & Hx & Ha & _).
  assert (Hskip : skip_ws (doc_chars d) = doc_chars d ++ []) by (rewrite app_nil_r, Hx; by apply skip_ws_head). rewrite Hskip.
  by rewrite (proj1 (parse_print _) d 0%N []) by (done || (split; [done|lia]) || lia).
Qed.

(** (JSON round trip) a document written by json.Marshal, between any white
    space, is read back by json.Unmarshal as the same tree, each node with its
    text: for every nesting up to the limit of the decoder, every number literal,
    and every string, whose bytes that are no UTF-8 come back as U+FFFD. *)
Theorem json_roundtrip d pre post :
  doc_ok d → doc_depth d ≤ N.to_nat maxNestingDepth →
  Forall (λ a, json_space a = true) pre → Forall (λ a, json_space a = true) post →
  json_parse (text (pre ++ doc_chars d ++ post)) = JSON (doc_node d).
Proof.
  intros Hok Hdep Hpre Hpost. unfold json_parse. rewrite chars_text, skip_ws_spaces by done.
  destruct (doc_head d Hok) as (a & x & Hx & Ha & _). destruct (spaces_end post Hpost) as [Hend Hws].
  assert (Hskip : skip_ws (doc_chars d ++ post) = doc_chars d ++ post) by (rewrite Hx; by apply skip_ws_head). rewrite Hskip.
  rewrite (proj1 (parse_print _) d 0%N post) by (done || (split; [done|lia]) || lia). by rewrite Hws.
Qed.

Definition sample_doc : jdoc :=
  DObj [ ("name"%string, DStr "a<b\c"); ("ok"%string, DBool true); ("none"%string, DNull);
         ("scores"%string, DArr [DNum (mkNumber true ["1"%char; "2"%char] ["5"%char] (Some ("e"%char, Some "+"%char, ["3"%char]))); DNum (mkNumber false ["0"%char] [] None)]);
         ("inner"%string, DObj []) ].
Lemma json_roundtrip_witness : json_parse (text ([" "%char] ++ doc_chars sample_doc ++ [" "%char])) = JSON (doc_node sample_doc).
Proof.
  apply json_roundtrip.
  - cbn [doc_ok sample_doc fmap list_fmap foldr snd]. unfold number_ok. cbn [n_int n_frac n_exp].
    split_and!; try done; try (by left); try (by repeat constructor). right. split; [by repeat constructor|by eexists _, _].
  - apply Nat.leb_le. vm_compute. done.
  - by repeat constructor.
  - by repeat constructor.
Defined.
