(* ===== verification/Regex.v ===== *)
(** * Regular expressions

    What the code uses of Go's [regexp]: sequences of character classes, greedy
    and lazy repetitions of a class, optional characters and one capture group.
    Of all matches at a position the one is taken that a backtracking search
    meets first, and the leftmost position wins.  Bytes stand for characters: no
    class of the source tells the bytes of a longer character apart. *)
From S2P Require Import Prelude Utf8 Json Lines JsonText.
From stdpp Require Import list.
From Stdlib Require Import Ascii.

Inductive item :=
  | One (f : ascii → bool)
  | Many (greedy : bool) (f : ascii → bool)
  | Opt (f : ascii → bool)
  | Open
  | Close.

Definition first {A} (x y : option A) : option A := match x with Some _ => x | None => y end.

Fixpoint star {A} (greedy : bool) (f : ascii → bool) (k : list ascii → option A) (l : list ascii) : option A :=
  match l with
  | [] => k []
  | a :: l' =>
      if f a then (if greedy then first (star greedy f k l') (k l) else first (k l) (star greedy f k l'))
      else k l
  end.

(** A match at the head: what the group captured and what follows the match.
    [start] is the text at the opening of the group. *)
Fixpoint exec (re : list item) (start cap l : list ascii) : option (list ascii * list ascii) :=
  match re with
  | [] => Some (cap, l)
  | One f :: re' => match l with a :: l' => if f a then exec re' start cap l' else None | [] => None end
  | Many greedy f :: re' => star greedy f (exec re' start cap) l
  | Opt f :: re' =>
      match l with
      | a :: l' => if f a then first (exec re' start cap l') (exec re' start cap l) else exec re' start cap l
      | [] => exec re' start cap l
      end
  | Open :: re' => exec re' l cap l
  | Close :: re' => exec re' start (take (length start - length l) start) l
  end.
Definition match_here (re : list item) (l : list ascii) : option (list ascii * list ascii) := exec re [] [] l.

(** The leftmost match; [boundary] asks for a word boundary before it. *)
Definition word_char (a : ascii) : bool :=
  let c := code a in byte_in c 48 57 || byte_in c 65 90 || byte_in c 97 122 || (c =? 95)%N.
Definition word_boundary (prev : option ascii) (l : list ascii) : bool :=
  xorb (match prev with Some a => word_char a | None => false end) (match l with a :: _ => word_char a | [] => false end).
Fixpoint find_from (boundary : bool) (re : list item) (prev : option ascii) (l : list ascii) : option (list ascii * list ascii) :=
  first (if negb boundary || word_boundary prev l then match_here re l else None)
        (match l with [] => None | a :: l' => find_from boundary re (Some a) l' end).
Definition Find (re : list item) (l : list ascii) : option (list ascii * list ascii) := find_from false re None l.

(** [FindAllSubmatch(src, -1)] of an expression that does not match the empty
    text: the captures of the matches one after the other. *)
Fixpoint find_all (fuel : nat) (re : list item) (l : list ascii) : list (list ascii) :=
  match fuel with
  | O => []
  | S fuel' =>
      match Find re l with
      | Some (cap, rest) => cap :: find_all fuel' re rest
      | None => []
      end
  end.
Definition FindAll (re : list item) (l : list ascii) : list (list ascii) := find_all (S (length l)) re l.

Definition word (s : string) : list item := (λ c, One (λ a, bool_decide (a = c))) <$> chars s.
(** Under [(?i)], of a word whose letters fold to ASCII letters only. *)
Definition word_i (s : string) : list item := (λ c, One (λ a, bool_decide (lower_ascii a = c))) <$> chars s.
(** [\s] *)
Definition re_space (a : ascii) : bool := is_char 32 a || is_char 9 a || is_char 10 a || is_char 12 a || is_char 13 a.
Definition any (a : ascii) : bool := true.

(** ** The language of an expression *)

Inductive matches : list item → list ascii → list ascii → list ascii → list ascii * list ascii → Prop :=
  | m_end start cap l : matches [] start cap l (cap, l)
  | m_one f re start cap a l x : f a = true → matches re start cap l x → matches (One f :: re) start cap (a :: l) x
  | m_many_stop g f re start cap l x : matches re start cap l x → matches (Many g f :: re) start cap l x
  | m_many_step g f re start cap a l x :
      f a = true → matches (Many g f :: re) start cap l x → matches (Many g f :: re) start cap (a :: l) x
  | m_maybe_skip f re start cap l x : matches re start cap l x → matches (Opt f :: re) start cap l x
  | m_maybe_take f re start cap a l x : f a = true → matches re start cap l x → matches (Opt f :: re) start cap (a :: l) x
  | m_open re start cap l x : matches re l cap l x → matches (Open :: re) start cap l x
  | m_close re start cap l x : matches re start (take (length start - length l) start) l x → matches (Close :: re) start cap l x.

Lemma first_Some {A} (x y : option A) z : first x y = Some z → x = Some z ∨ y = Some z.
Proof. destruct x; naive_solver. Qed.
Lemma first_None {A} (x y : option A) : first x y = None ↔ x = None ∧ y = None.
Proof. destruct x; naive_solver. Qed.

Lemma star_sound g f re start cap l x :
  (∀ l x, exec re start cap l = Some x → matches re start cap l x) →
  star g f (exec re start cap) l = Some x → matches (Many g f :: re) start cap l x.
Proof.
  intros IH. induction l as [|a l IHl]; cbn; [by intros; apply m_many_stop, IH|].
  destruct (f a) eqn:Ha; [|by intros; apply m_many_stop, IH].
  destruct g; intros [?|?]%first_Some; [|by apply m_many_stop, IH|by apply m_many_stop, IH|]; by apply m_many_step; [|apply IHl].
Qed.

(** What the search finds is a match. *)
Lemma exec_sound re start cap l x : exec re start cap l = Some x → matches re start cap l x.
Proof.
  revert start cap l x. induction re as [|i re IH]; intros start cap l x; cbn; [by intros [= <-]; constructor|].
  destruct i as [f|g f|f| |].
  - destruct l as [|a l]; [done|]. destruct (f a) eqn:Ha; [|done]. intros. by constructor; [|apply IH].
  - apply star_sound. intros. by apply IH.
  - destruct l as [|a l]; [intros; by apply m_maybe_skip, IH|]. destruct (f a) eqn:Ha; [|intros; by apply m_maybe_skip, IH].
    intros [?|?]%first_Some; [by apply m_maybe_take; [|apply IH]|by apply m_maybe_skip, IH].
  - intros. by constructor; apply IH.
  - intros. by constructor; apply IH.
Qed.

(** Where it finds nothing there is none. *)
Lemma exec_complete re start cap l : exec re start cap l = None → ∀ x, ¬ matches re start cap l x.
Proof.
  revert start cap l. induction re as [|i re IH]; intros start cap l; [done|].
  destruct i as [f|g f|f| |]; cbn [exec].
  - intros He x Hm. inversion Hm; subst. match goal with H : f _ = true |- _ => rewrite H in He end. by apply (IH _ _ _ He x).
  - induction l as [|a l IHl]; cbn [star].
    + intros He x Hm. inversion Hm; subst. by apply (IH _ _ _ He x).
    + destruct (f a) eqn:Ha.
      * intros He x Hm. assert (Hn : star g f (exec re start cap) l = None ∧ exec re start cap (a :: l) = None) by (destruct g; apply first_None in He; tauto).
        destruct Hn as [H1 H2]. inversion Hm; subst; [by apply (IH _ _ _ H2 x)|by apply (IHl H1 x)].
      * intros He x Hm. inversion Hm; subst; [by apply (IH _ _ _ He x)|congruence].
  - destruct l as [|a l].
    + intros He x Hm. inversion Hm; subst. by apply (IH _ _ _ He x).
    + destruct (f a) eqn:Ha.
      * intros [H1 H2]%first_None x Hm. inversion Hm; subst; [by apply (IH _ _ _ H2 x)|by apply (IH _ _ _ H1 x)].
      * intros He x Hm. inversion Hm; subst; [by apply (IH _ _ _ He x)|congruence].
  - intros He x Hm. inversion Hm; subst. by apply (IH _ _ _ He x).
  - intros He x Hm. inversion Hm; subst. by apply (IH _ _ _ He x).
Qed.

(** ** Running an expression *)

Lemma exec_word s re start cap l :
  exec (word s ++ re) start cap l = match TrimPrefix_list (chars s) l with Some l' => exec re start cap l' | None => None end.
Proof.
  unfold word. revert l. induction (chars s) as [|c cs IH]; intros l; [done|]. cbn [fmap list_fmap app exec TrimPrefix_list].
  destruct l as [|a l]; [done|]. rewrite (bool_decide_ext (a = c) (c = a)) by (split; congruence). case_bool_decide; [apply IH|done].
Qed.

(** A greedy repetition before something that its class cannot start. *)
Lemma star_skip {A} f (k : list ascii → option A) l :
  (∀ a x, f a = true → k (a :: x) = None) → star true f k l = k (drop_while f l).
Proof.
  intros Hk. induction l as [|a l IH]; [done|]. cbn [star drop_while]. destruct (f a) eqn:Ha; [|done].
  rewrite Hk by done. rewrite IH. by destruct (k _).
Qed.
(** A lazy repetition stops at the first place where the rest matches. *)
Lemma star_lazy {A} f (k : list ascii → option A) mid y x :
  Forall (λ a, f a = true) mid → (∀ m1 m2, mid = m1 ++ m2 → m2 ≠ [] → k (m2 ++ y) = None) → k y = Some x →
  star false f k (mid ++ y) = Some x.
Proof.
  intros Hf Hn Hy. induction Hf as [|a mid Ha Hf IH]; cbn [app].
  - destruct y as [|b y]; [done|]. cbn [star]. destruct (f b); [by rewrite Hy|done].
  - cbn [star]. rewrite Ha. pose proof (Hn [] (a :: mid) eq_refl ltac:(done)) as Hna. cbn [app] in Hna. rewrite Hna. cbn [first]. apply IH. intros m1 m2 ->. by apply (Hn (a :: m1)).
Qed.

Lemma matches_suffix re start cap l cap' rest : matches re start cap l (cap', rest) → length rest ≤ length l.
Proof. intros Hm. remember (cap', rest) as x eqn:Hx. revert Hx. induction Hm; intros ?; simplify_eq; cbn [length]; try lia; naive_solver lia. Qed.

Lemma find_spec re l cap rest :
  Find re l = Some (cap, rest) → ∃ pre l', l = pre ++ l' ∧ match_here re l' = Some (cap, rest).
Proof.
  unfold Find. generalize (None : option ascii). induction l as [|a l IH]; intros prev; cbn [find_from negb orb].
  - intros [?|?]%first_Some; [by exists [], []|done].
  - intros [?|Hf]%first_Some; [by exists [], (a :: l)|]. destruct (IH _ Hf) as (pre & l' & -> & ?). by exists (a :: pre), l'.
Qed.
(** Nothing matches before the first place where something does. *)
Lemma find_after re pre y x :
  (∀ p1 p2, pre = p1 ++ p2 → p2 ≠ [] → match_here re (p2 ++ y) = None) → match_here re y = Some x → Find re (pre ++ y) = Some x.
Proof.
  unfold Find. generalize (None : option ascii). intros prev Hn Hy. revert prev. induction pre as [|a pre IH]; intros prev; cbn [app].
  - destruct y; cbn [find_from negb orb]; by rewrite Hy.
  - cbn [find_from negb orb]. change (a :: pre ++ y) with ((a :: pre) ++ y). rewrite (Hn [] (a :: pre)) by done. cbn [first].
    apply IH. intros p1 p2 ->. by apply (Hn (a :: p1)).
Qed.

Section FindAll.
Context (f : ascii → bool) (re : list item).

Lemma find_progress l cap rest : Find (One f :: re) l = Some (cap, rest) → length rest < length l.
Proof.
  intros (pre & l' & -> & Hm%exec_sound)%find_spec. inversion Hm; subst. rewrite length_app. cbn [length].
  match goal with H : matches re _ _ _ _ |- _ => apply matches_suffix in H end. lia.
Qed.
Lemma find_all_fuel n m l : length l < n → length l < m → find_all n (One f :: re) l = find_all m (One f :: re) l.
Proof.
  revert m l. induction n as [|n IH]; intros [|m] l Hn Hm; try lia. cbn [find_all]. destruct (Find _ l) as [[cap rest]|] eqn:Hf; [|done].
  apply find_progress in Hf. f_equal. apply IH; lia.
Qed.
Lemma FindAll_cons l cap rest : Find (One f :: re) l = Some (cap, rest) → FindAll (One f :: re) l = cap :: FindAll (One f :: re) rest.
Proof.
  intros Hf. pose proof (find_progress _ _ _ Hf). unfold FindAll at 1. cbn [find_all]. rewrite Hf. f_equal. apply find_all_fuel; lia.
Qed.
End FindAll.
