(* ===== verification/Trace.v ===== *)
(** * Trace contexts

    [internal/domain/trace] (the W3C traceparent value, its parser and printer,
    the trace of a context) and [internal/adapters/inbound/http/middleware/trace.go],
    which gives every request a trace. *)
From S2P Require Import Prelude Ids Utf8 Json GoPath Lines JsonText.
From stdpp Require Import list.
From Stdlib Require Import Ascii.

(** ** encoding/hex and io.ReadFull *)

Definition EncodeToString (l : list ascii) : string := text (mjoin ((λ a, hex_fixed 2 (code a)) <$> l)).
Definition hex_value (a : ascii) : option N :=
  let n := code a in
  if byte_in n 48 57 then Some (n - 48)%N else if byte_in n 97 102 then Some (n - 87)%N
  else if byte_in n 65 70 then Some (n - 55)%N else None.
(** A reader is the bytes it still has. *)
Definition ReadFull (n : nat) (rand : list ascii) : option (list ascii) * list ascii :=
  if length rand <? n then (None, []) else (Some (take n rand), drop n rand).

(** ** trace.go *)

Record Trace := mkTrace { tr_TraceID : string; tr_SpanID : string; tr_Sampled : bool }.

Definition isHex (s : string) : bool := forallb (λ a, bool_decide (is_Some (hex_value a))) (chars s) && negb (str_empty s).
Definition allZeros (s : string) : bool := forallb (λ a, is_char 48 a) (chars s).
Definition validateHex (s : string) (expectedLen : nat) : bool := bool_decide (String.length s = expectedLen) && isHex s.
(** [strings.ToLower] where the callers keep only hexadecimal digits of it: no wide
    rune has one of them as its lower case. *)
Definition ToLower_ascii (s : string) : string := text (lower_ascii <$> chars s).

Definition trace_New (rand : list ascii) : option Trace * list ascii :=
  match ReadFull 16 rand with
  | (None, rand) => (None, rand)
  | (Some traceBytes, rand) =>
      match ReadFull 8 rand with
      | (None, rand) => (None, rand)
      | (Some spanBytes, rand) => (Some (mkTrace (EncodeToString traceBytes) (EncodeToString spanBytes) true), rand)
      end
  end.

(** [None] is ErrInvalidTraceparent. *)
Definition trace_Parse (traceparent : string) : option Trace :=
  match text <$> split_on "-" (chars traceparent) with
  | [version; traceID; spanID; flags] =>
      if negb (bool_decide (version = "00"%string)) then None
      else if negb (validateHex traceID 32) then None
      else if allZeros traceID then None
      else if negb (validateHex spanID 16) then None
      else if allZeros spanID then None
      else match chars flags with
           | [a; b] =>
               _ ← hex_value a; low ← hex_value b;
               Some (mkTrace (ToLower_ascii traceID) (ToLower_ascii spanID) (N.testbit low 0))
           | _ => None
           end
  | _ => None
  end.

Definition Trace_String (t : Trace) : string :=
  concat_strings ["00-"; tr_TraceID t; "-"; tr_SpanID t; "-"; if tr_Sampled t then "01" else "00"]%string.

Definition WithNewSpan (t : Trace) (rand : list ascii) : option Trace * list ascii :=
  match ReadFull 8 rand with
  | (None, rand) => (None, rand)
  | (Some spanBytes, rand) => (Some (mkTrace (tr_TraceID t) (EncodeToString spanBytes) (tr_Sampled t)), rand)
  end.

(** [out[i%16] ^= b] over the bytes, from index [i]. *)
Fixpoint xor_spread (i : nat) (bytes : list ascii) (out : list N) : list N :=
  match bytes with
  | [] => out
  | b :: bytes' => xor_spread (S i) bytes' (alter (λ x, N.lxor x (code b)) (i mod 16) out)
  end.
Definition normaliseRequestID (id : string) : string :=
  let stripped := ToLower_ascii (text (List.filter (λ a, negb (is_char 45 a)) (chars id))) in
  if bool_decide (String.length stripped = 32) && isHex stripped && negb (allZeros stripped) then stripped
  else
    let out := ascii_of_N <$> xor_spread 0 (chars id) (replicate 16 0%N) in
    let out := if allZeros (EncodeToString out) then <[15 := ascii_of_N 1]> out else out in
    EncodeToString out.

Definition FromRequestID (requestID : string) (rand : list ascii) : option Trace * list ascii :=
  let traceID := normaliseRequestID requestID in
  match ReadFull 8 rand with
  | (None, rand) => (None, rand)
  | (Some spanBytes, rand) => (Some (mkTrace traceID (EncodeToString spanBytes) true), rand)
  end.

(** ** context.go

    A context is the trace it carries. *)
Definition ChildSpan (ctx : option Trace) (rand : list ascii) : option Trace * list ascii :=
  let '(child, rand) := match ctx with Some parent => WithNewSpan parent rand | None => trace_New rand end in
  (match child with Some c => Some c | None => ctx end, rand).

(** ** middleware/trace.go *)

(** [get] is Header.Get of the request; the result is whether the trace could be
    made, and what is left of the reader. *)
Definition traceFromRequest (get : string → string) (rand : list ascii) : option Trace * list ascii :=
  if negb (str_empty (get "Traceparent"%string)) then (trace_Parse (get "Traceparent"%string), rand)
  else if negb (str_empty (get "X-Request-ID"%string)) then FromRequestID (get "X-Request-ID"%string) rand
  else trace_New rand.
(** The trace of the context the handler runs with, also echoed to the caller. *)
Definition TraceW3C (get : string → string) (rand : list ascii) : option Trace * list ascii :=
  match traceFromRequest get rand with
  | (Some t, rand) => (Some t, rand)
  | (None, rand) => trace_New rand
  end.

(** ** Well-formed traces *)

Definition lower_hex (a : ascii) : bool := byte_in (code a) 48 57 || byte_in (code a) 97 102.
Definition hex_id (n : nat) (s : string) : Prop := String.length s = n ∧ Forall (λ a, lower_hex a = true) (chars s) ∧ allZeros s = false.
Definition wf_trace (t : Trace) : Prop := hex_id 32 (tr_TraceID t) ∧ hex_id 16 (tr_SpanID t).

Lemma byte_in_spec n a b : byte_in n a b = true ↔ (a <= n <= b)%N.
Proof. unfold byte_in. rewrite andb_true_iff, !N.leb_le. lia. Qed.

Lemma lower_hex_value a : lower_hex a = true → ∃ v, hex_value a = Some v ∧ lower_ascii a = a ∧ a ≠ "-"%char.
Proof. destruct a as [[] [] [] [] [] [] [] []]; vm_compute; intros Ha; try discriminate Ha; eexists; done. Qed.
Lemma hex_value_lower a v : hex_value a = Some v → lower_hex (lower_ascii a) = true ∧ (is_char 48 (lower_ascii a) = is_char 48 a).
Proof. destruct a as [[] [] [] [] [] [] [] []]; vm_compute; intros Ha; try discriminate Ha; done. Qed.
Lemma hex_pair a : hex_fixed 2 (code a) = [hex_digit (code a / 16); hex_digit (code a mod 16)] ∧
  lower_hex (hex_digit (code a / 16)) && lower_hex (hex_digit (code a mod 16)) = true ∧
  (is_char 48 (hex_digit (code a / 16)) && is_char 48 (hex_digit (code a mod 16)) = is_char 0 a).
Proof. each_byte a; vm_compute; done. Qed.

Lemma EncodeToString_cons a l : chars (EncodeToString (a :: l)) = [hex_digit (code a / 16); hex_digit (code a mod 16)] ++ chars (EncodeToString l).
Proof. unfold EncodeToString. rewrite !chars_text, fmap_cons, <-(proj1 (hex_pair a)). done. Qed.
Lemma EncodeToString_length l : length (chars (EncodeToString l)) = 2 * length l.
Proof. induction l as [|a l IH]; [done|]. rewrite EncodeToString_cons, length_app, IH. cbn. lia. Qed.
Lemma EncodeToString_hex l : Forall (λ a, lower_hex a = true) (chars (EncodeToString l)).
Proof.
  induction l as [|a l IH]; [constructor|]. rewrite EncodeToString_cons. apply Forall_app. split; [|done].
  pose proof (hex_pair a) as (_ & [H1 H2]%andb_true_iff & _). by repeat constructor.
Qed.
Lemma EncodeToString_zeros l : allZeros (EncodeToString l) = forallb (is_char 0) l.
Proof.
  unfold allZeros. induction l as [|a l IH]; [done|]. rewrite EncodeToString_cons, forallb_app, IH. cbn [forallb].
  pose proof (hex_pair a) as (_ & _ & <-). by rewrite andb_true_r.
Qed.
Lemma EncodeToString_id n l : length l = n → forallb (is_char 0) l = false → hex_id (2 * n) (EncodeToString l).
Proof. intros <- Hz. split_and!; [by rewrite <-length_chars, EncodeToString_length|apply EncodeToString_hex|by rewrite EncodeToString_zeros]. Qed.

Lemma ToLower_chars s : chars (ToLower_ascii s) = lower_ascii <$> chars s.
Proof. unfold ToLower_ascii. by rewrite chars_text. Qed.
Lemma isHex_lower n s : validateHex s n = true → allZeros s = false → hex_id n (ToLower_ascii s).
Proof.
  unfold validateHex, isHex, hex_id, allZeros. rewrite !andb_true_iff, bool_decide_eq_true. intros (Hl & Hh & _) Hz.
  rewrite <-length_chars, ToLower_chars, length_fmap, length_chars. split; [done|].
  apply Is_true_true, forallb_True in Hh. setoid_rewrite bool_decide_spec in Hh. split.
  - apply Forall_fmap. eapply Forall_impl; [exact Hh|]. intros a [v Hv]. by apply (hex_value_lower a v).
  - rewrite <-Hz. clear -Hh. induction Hh as [|a l [v Hv] _ IH]; [done|]. cbn [fmap list_fmap forallb].
    by rewrite (proj2 (hex_value_lower a v Hv)), IH.
Qed.
Lemma hex_id_valid n s : (0 < n)%nat → hex_id n s → validateHex s n = true ∧ ToLower_ascii s = s ∧ "-"%char ∉ chars s.
Proof.
  intros Hn (Hl & Hh & _). unfold validateHex, isHex. rewrite bool_decide_eq_true_2 by done. split_and!.
  - apply andb_true_iff. split; [done|]. apply andb_true_iff. split; [|destruct s; [cbn in Hl; lia|done]].
    apply Is_true_true, forallb_True. eapply Forall_impl; [exact Hh|]. intros a Ha. cbv beta. destruct (lower_hex_value a Ha) as (v & Hv & _).
    apply bool_decide_spec. by exists v.
  - unfold ToLower_ascii. rewrite <-(text_chars s) at 2. f_equal. clear Hl. induction Hh as [|a l Ha _ IH]; [done|].
    cbn [fmap list_fmap]. rewrite IH. by destruct (lower_hex_value a Ha) as (v & _ & -> & _).
  - intros Hin. rewrite Forall_forall in Hh. by destruct (lower_hex_value _ (Hh _ Hin)) as (v & _ & _ & ?).
Qed.

Lemma allZeros_false_hex s : allZeros s = false → s ≠ EmptyString.
Proof. by intros H ->. Qed.

Lemma xor_spread_length i bytes out : length (xor_spread i bytes out) = length out.
Proof. revert i out. induction bytes as [|b bytes IH]; intros i out; [done|]. cbn [xor_spread]. by rewrite IH, length_alter. Qed.

(** Whatever a caller sends as X-Request-ID becomes a trace id a parser accepts. *)
Lemma normaliseRequestID_id id : hex_id 32 (normaliseRequestID id).
Proof.
  unfold normaliseRequestID. set (st := ToLower_ascii _). destruct (_ && _) eqn:Hc.
  - apply andb_true_iff in Hc as [[Hl Hh]%andb_true_iff Hz%negb_true_iff]. apply bool_decide_eq_true in Hl.
    assert (Hlow : ToLower_ascii st = st).
    { unfold st, ToLower_ascii. f_equal. rewrite chars_text, <-list_fmap_compose. apply list_fmap_ext. intros _ a _. cbn. each_byte a; reflexivity. }
    rewrite <-Hlow. apply isHex_lower; [|done]. unfold validateHex. by rewrite bool_decide_eq_true_2.
  - set (out := ascii_of_N <$> _). assert (Hlen : length out = 16) by (unfold out; by rewrite length_fmap, xor_spread_length).
    destruct (allZeros (EncodeToString out)) eqn:Hz; [|apply (EncodeToString_id 16); [done|by rewrite <-EncodeToString_zeros]].
    apply (EncodeToString_id 16); [by rewrite length_insert|]. apply not_true_is_false. intros Hall.
    apply Is_true_true, forallb_True in Hall. rewrite Forall_lookup in Hall.
    specialize (Hall 15 (ascii_of_N 1)). rewrite list_lookup_insert_eq in Hall by (rewrite Hlen; lia). exact (Hall eq_refl).
Qed.

Lemma split_traceparent v i s f :
  "-"%char ∉ chars v → "-"%char ∉ chars i → "-"%char ∉ chars s → "-"%char ∉ chars f →
  text <$> split_on "-" (chars (concat_strings [v; "-"; i; "-"; s; "-"; f]%string)) = [v; i; s; f].
Proof.
  intros Hv Hi Hs Hf. unfold concat_strings. cbn [foldr]. rewrite !chars_app. cbn [chars String.list_ascii_of_string].
  rewrite app_nil_r. cbn [app]. rewrite !split_on_app_sep, !split_on_single by done. cbn [app fmap list_fmap]. by rewrite !text_chars.
Qed.

Lemma parse_string t : wf_trace t → trace_Parse (Trace_String t) = Some t.
Proof.
  intros [Ht Hs]. destruct (hex_id_valid 32 _ ltac:(lia) Ht) as (Vt & Lt & Dt). destruct (hex_id_valid 16 _ ltac:(lia) Hs) as (Vs & Ls & Ds).
  destruct Ht as (_ & _ & Zt), Hs as (_ & _ & Zs). unfold trace_Parse, Trace_String.
  change (concat_strings ["00-"; tr_TraceID t; "-"; tr_SpanID t; "-"; if tr_Sampled t then "01" else "00"]%string)
    with (concat_strings ["00"; "-"; tr_TraceID t; "-"; tr_SpanID t; "-"; if tr_Sampled t then "01" else "00"]%string).
  rewrite split_traceparent by (done || by destruct (tr_Sampled t); apply (bool_decide_unpack _); vm_compute).
  rewrite Vt, Vs, Zt, Zs, Lt, Ls. destruct t as [i s []]; reflexivity.
Qed.
Lemma parse_wf s t : trace_Parse s = Some t → wf_trace t.
Proof.
  unfold trace_Parse. destruct (text <$> _) as [|v [|i [|sp [|f [|]]]]]; try done. case_bool_decide; [|done]. cbn [negb].
  destruct (validateHex i 32) eqn:Vi; [|done]. destruct (allZeros i) eqn:Zi; [done|]. destruct (validateHex sp 16) eqn:Vs; [|done].
  destruct (allZeros sp) eqn:Zs; [done|]. cbn [negb]. destruct (chars f) as [|a [|b [|]]]; try done.
  destruct (hex_value a); [|done]. cbn [mbind option_bind]. destruct (hex_value b); [|done]. cbn [mbind option_bind]. intros [= <-].
  split; by apply isHex_lower.
Qed.

(** (traceparent) every header the parser accepts gives a well-formed trace, 32
    and 16 lower-case hexadecimal digits not all zero, and every well-formed trace
    is read back as it was printed, so what a service forwards is what it received. *)
Theorem traceparent_roundtrip :
  (∀ t, wf_trace t → trace_Parse (Trace_String t) = Some t) ∧
  (∀ s t, trace_Parse s = Some t → wf_trace t ∧ trace_Parse (Trace_String t) = Some t).
Proof. split; [apply parse_string|]. intros s t Hp. pose proof (parse_wf s t Hp). auto using parse_string. Qed.

Lemma ReadFull_Some n rand x rest : ReadFull n rand = (Some x, rest) → x = take n rand ∧ rest = drop n rand ∧ length x = n.
Proof. unfold ReadFull. destruct (_ <? _) eqn:Hl; [done|]. apply Nat.ltb_ge in Hl. intros [= <- <-]. split_and!; [done..|]. rewrite length_take. lia. Qed.

(** The trace a request runs with. *)
Lemma TraceW3C_spec get rand t rest :
  TraceW3C get rand = (Some t, rest) →
  (get "Traceparent"%string ≠ EmptyString → ∀ t0, trace_Parse (get "Traceparent"%string) = Some t0 → t = t0) ∧
  (get "Traceparent"%string = EmptyString → get "X-Request-ID"%string ≠ EmptyString → 24 ≤ length rand →
     tr_TraceID t = normaliseRequestID (get "X-Request-ID"%string)).
Proof.
  unfold TraceW3C, traceFromRequest, str_empty. intros Ht. split.
  - intros Hne t0 Hp. rewrite bool_decide_eq_false_2 in Ht by done. cbn [negb] in Ht. rewrite Hp in Ht. by simplify_eq.
  - intros He Hne Hl. rewrite bool_decide_eq_true_2 in Ht by done. cbn [negb] in Ht. rewrite bool_decide_eq_false_2 in Ht by done. cbn [negb] in Ht.
    unfold FromRequestID, ReadFull in Ht. destruct (length rand <? 8) eqn:Hlt; [apply Nat.ltb_lt in Hlt; lia|]. by simplify_eq.
Qed.
(** A child keeps the trace and the sampling decision of its parent. *)
Lemma ChildSpan_spec t rand :
  ∃ c rest, ChildSpan (Some t) rand = (Some c, rest) ∧ tr_TraceID c = tr_TraceID t ∧ tr_Sampled c = tr_Sampled t ∧
  (wf_trace t → forallb (is_char 0) (take 8 rand) = false → wf_trace c).
Proof.
  unfold ChildSpan, WithNewSpan. destruct (ReadFull 8 rand) as [[x|] rest] eqn:Hr; [|by exists t, rest].
  apply ReadFull_Some in Hr as (-> & -> & Hl). eexists _, _. split; [reflexivity|]. cbn. split; [done|]. split; [done|]. intros [Ht _] Hz.
  split; [done|]. by apply (EncodeToString_id 8).
Qed.

Definition sample_trace : Trace := mkTrace "4bf92f3577b34da6a3ce929d0e0e4736" "00f067aa0ba902b7" true.
Lemma traceparent_roundtrip_witness :
  trace_Parse "00-4bf92f3577b34da6a3ce929d0e0e4736-00f067aa0ba902b7-01" = Some sample_trace ∧ wf_trace sample_trace.
Proof.
  assert (Hw : wf_trace sample_trace) by (split; (split; [done|]; split; [by repeat constructor|done])).
  split; [|done]. exact (proj1 traceparent_roundtrip sample_trace Hw).
Defined.

Example traceparent_values :
  (trace_Parse <$> ["00-4BF92F3577B34DA6A3CE929D0E0E4736-00f067aa0ba902b7-01"; "01-4bf92f3577b34da6a3ce929d0e0e4736-00f067aa0ba902b7-01";
                    "00-00000000000000000000000000000000-00f067aa0ba902b7-01"]%string = [Some sample_trace; None; None]) ∧
  (normaliseRequestID <$> ["4bf92f35-77b3-4da6-a3ce-929d0e0e4736"; "abc"; "aaaaaaaaaaaaaaaaaaaaaaaaaaaaaaaaa"]%string
   = ["4bf92f3577b34da6a3ce929d0e0e4736"; "61626300000000000000000000000000"; "61000000000000000000000000000000"]%string).
Proof. vm_compute. done. Qed.
