(* ===== verification/HttpBase.v ===== *)
(** * The HTTP client of every outbound adapter

    [internal/adapters/outbound/http_base/client.go]: requests with default
    headers and the trace of the call, retries with jittered exponential backoff,
    and a circuit breaker around the whole.  The breaker is
    [github.com/sony/gobreaker], which is not in the repository: the class
    [Gobreaker] states what its documentation promises.  Whether a URL parses is
    the parameter [UrlParser]; what the servers answer is chosen freely. *)
From S2P Require Import Prelude Ids Utf8 Json GoPath Floats Lines JsonText Trace.
From stdpp Require Import list.
From Stdlib Require Import Ascii QArith.
Open Scope nat_scope.

Class UrlParser := url_ok : string → bool.

(** ** Headers *)

(** textproto.CanonicalMIMEHeaderKey: capitals at the start and after a hyphen,
    unless the key has a byte that no header name has. *)
Definition token_byte (a : ascii) : bool :=
  let n := code a in
  byte_in n 48 57 || byte_in n 65 90 || byte_in n 97 122 || existsb (λ m, (n =? m)%N) [33; 35; 36; 37; 38; 39; 42; 43; 45; 46; 94; 95; 96; 124; 126]%N.
Definition upper_ascii (a : ascii) : ascii := if byte_in (code a) 97 122 then ascii_of_N (code a - 32) else a.
Fixpoint capitalise (upper : bool) (l : list ascii) : list ascii :=
  match l with
  | [] => []
  | a :: l' => (if upper then upper_ascii a else lower_ascii a) :: capitalise (is_char 45 a) l'
  end.
Definition canonical_key (k : string) : string := if forallb token_byte (chars k) then text (capitalise true (chars k)) else k.

(** http.Header: the values of each key, in some order of the keys. *)
Abbreviation Header := (list (string * list string)).
Definition header_values (h : Header) (k : string) : list string := default [] (snd <$> List.find (λ kv, bool_decide (kv.1 = canonical_key k)) h).
Definition header_get (h : Header) (k : string) : string := default EmptyString (head (header_values h k)).
Definition header_del (h : Header) (k : string) : Header := List.filter (λ kv, negb (bool_decide (kv.1 = canonical_key k))) h.
Definition header_set (h : Header) (k v : string) : Header := header_del h k ++ [(canonical_key k, [v])].
Definition header_add (h : Header) (k v : string) : Header := header_del h k ++ [(canonical_key k, header_values h k ++ [v])].

(** ** Configuration *)

Record HttpConfig := mkHttpConfig {
  hc_BaseURL : string; hc_Name : string; hc_HTTPTimeout : Duration; hc_MaxAttempts : Z;
  hc_InitialBackoff : Duration; hc_MaxBackoff : Duration; hc_BackoffMultiplier : float64; hc_JitterFraction : float64;
  hc_CBFailureThreshold : Z; hc_CBTimeoutThreshold : Z; hc_CBOpenDuration : Duration; hc_HalfOpenMaxRequests : Z;
  hc_DefaultHeaders : Header; hc_PropagateTrace : bool
}.

(** The double nearest to 0.3. *)
Definition f64_0_3 : float64 := (5404319552844595 # 18014398509481984)%Q.
Definition trim_slashes (s : string) : string := text (rev (drop_while (is_char 47) (rev (chars s)))).
Definition http_DefaultConfig (name baseURL : string) : HttpConfig :=
  mkHttpConfig (trim_slashes baseURL) name (10 * Second) 3 (100 * Millisecond) (5 * Second) (2 # 1) f64_0_3 3 5 (30 * Second) 1 [] true.

Definition http_Validate `{UrlParser} (c : HttpConfig) : bool :=
  negb (str_empty (hc_BaseURL c)) && negb (str_empty (hc_Name c)) && negb (hc_MaxAttempts c <=? 0)%Z && url_ok (hc_BaseURL c).

(** ** Requests and answers *)

Record Request := mkRequest { rq_Method : string; rq_URL : string; rq_Body : string; rq_Header : Header }.

(** What happens to one request: the transport fails (because the context or the
    client's time is over, or otherwise), the body cannot be read, or a response
    arrives. *)
Inductive http_answer := TransportFailure (contextOver : bool) | BodyUnreadable | Response (status : Z) (body : string).
Record Result := mkResult { res_Status : Z; res_Body : string }.

Inductive http_error :=
  | ErrBuildRequest | ErrTransport (contextOver : bool) | ErrAttemptsExhausted | ErrCircuitOpen
  | ErrStatus (status : Z) (body url : string) | ErrDecodeResponse.

(** What a call does to the outside: requests and pauses. *)
Inductive http_event := Sent (r : Request) | Slept (d : Duration).

Definition buildRequest `{UrlParser} (ctx : option Trace) (method fullURL payload : string) (defaults : Header) (propagate : bool) : option Request :=
  if negb (url_ok fullURL) then None else
  let h := foldl (λ h kvs, foldl (λ h v, header_add h kvs.1 v) h kvs.2) [] defaults in
  let h := if negb (str_empty payload) && str_empty (header_get h "Content-Type") then header_set h "Content-Type" "application/json" else h in
  let h := if propagate then match ctx with Some t => header_set h "Traceparent" (Trace_String t) | None => h end else h in
  Some (mkRequest method fullURL payload h).

(** ** Backoff

    [time.Duration(f)] drops the fraction; a value no int64 holds becomes the
    smallest one, as on amd64. *)
Definition int64_of_float (q : float64) : Z :=
  let z := Z.quot (Qnum q) (Z.pos (Qden q)) in
  if (- 2 ^ 63 <=? z)%Z && (z <? 2 ^ 63)%Z then z else (- 2 ^ 63)%Z.
Definition f64_mul (x y : float64) : float64 := f64_round (x * y).
Definition f64_of_int (z : Z) : float64 := f64_round (inject_Z z).

Fixpoint scale_backoff (n : nat) (mult : float64) (d : Duration) : Duration :=
  match n with O => d | S n' => scale_backoff n' mult (int64_of_float (f64_mul (f64_of_int d) mult)) end.
(** [r] is what [rand.Float64] returned. *)
Definition computeBackoff (c : HttpConfig) (attempt : nat) (r : float64) : Duration :=
  let d := scale_backoff attempt (hc_BackoffMultiplier c) (hc_InitialBackoff c) in
  let d := if (hc_MaxBackoff c <? d)%Z then hc_MaxBackoff c else d in
  if negb (f64_ltb 0 (hc_JitterFraction c)) then d else
  let jitter := f64_mul (f64_of_int d) (hc_JitterFraction c) in
  let offset := f64_mul (f64_round (f64_mul r (2 # 1) - 1)) jitter in
  let d := int64_of_float (f64_round (f64_of_int d + offset)) in
  if (d <? 0)%Z then 0%Z else d.
Definition sleepBackoff (c : HttpConfig) (attempt : nat) (r : float64) : list http_event :=
  let d := computeBackoff c attempt r in if (d <=? 0)%Z then [] else [Slept d].

(** ** executeWithRetry

    The environment of one call: what happens to the request of each attempt, and
    the random number of each pause. *)
Record http_env := mkHttpEnv { he_answer : nat → http_answer; he_random : nat → float64 }.

Section Retry.
Context `{UrlParser} (c : HttpConfig) (ctx : option Trace) (method fullURL payload : string) (env : http_env).

Definition shouldRetry (contextOver : bool) (attempt : nat) : bool :=
  if contextOver then false else (Z.of_nat attempt <? hc_MaxAttempts c - 1)%Z.

(** [left] is MaxAttempts - attempt. *)
Fixpoint retry_from (left attempt : nat) : list http_event * result http_error Result :=
  match left with
  | O => ([], Err ErrAttemptsExhausted)
  | S left' =>
      match buildRequest ctx method fullURL payload (hc_DefaultHeaders c) (hc_PropagateTrace c) with
      | None => ([], Err ErrBuildRequest)
      | Some req =>
          let again := let '(tr, r) := retry_from left' (S attempt) in (Sent req :: sleepBackoff c attempt (he_random env attempt) ++ tr, r) in
          match he_answer env attempt with
          | TransportFailure over => if shouldRetry over attempt then again else ([Sent req], Err (ErrTransport over))
          | BodyUnreadable => again
          | Response status body =>
              if (500 <=? status)%Z && (Z.of_nat attempt <? hc_MaxAttempts c - 1)%Z then again else ([Sent req], Ok (mkResult status body))
          end
      end
  end.
Definition executeWithRetry : list http_event * result http_error Result := retry_from (Z.to_nat (hc_MaxAttempts c)) 0.
End Retry.

(** ** The circuit breaker

    Settings and modes as gobreaker documents them, for calls that do not
    overlap: closed with a number of consecutive failures, open until a time, or
    half-open with the requests let through and their successes. *)
Record cb_settings := mkCbSettings { cb_maxRequests : Z; cb_timeout : Duration; cb_readyToTrip : Z → bool }.
Inductive cb_mode := CbClosed (failures : Z) | CbOpen (until : Time) | CbHalfOpen (requests successes : Z).

Definition cb_admit (s : cb_settings) (now : Time) (m : cb_mode) : option cb_mode :=
  match m with
  | CbClosed k => Some (CbClosed k)
  | CbOpen until => if (until <? now)%Z then Some (CbHalfOpen 1 0) else None
  | CbHalfOpen req ok => if (cb_maxRequests s <=? req)%Z then None else Some (CbHalfOpen (req + 1) ok)
  end.
Definition cb_settle (s : cb_settings) (now : Time) (success : bool) (m : cb_mode) : cb_mode :=
  match m with
  | CbClosed k =>
      if success then CbClosed 0 else if cb_readyToTrip s (k + 1) then CbOpen (now + cb_timeout s) else CbClosed (k + 1)
  | CbHalfOpen req ok =>
      if success then if (cb_maxRequests s <=? ok + 1)%Z then CbClosed 0 else CbHalfOpen req (ok + 1) else CbOpen (now + cb_timeout s)
  | CbOpen until => CbOpen until
  end.
(** Zero values of the settings are defaults. *)
Definition cb_normal (s : cb_settings) : cb_settings :=
  mkCbSettings (if (cb_maxRequests s =? 0)%Z then 1 else cb_maxRequests s)%Z (if (cb_timeout s <=? 0)%Z then 60 * Second else cb_timeout s)%Z (cb_readyToTrip s).

Class Gobreaker := {
  breaker : Type;
  NewCircuitBreaker : cb_settings → breaker;
  beforeRequest : Time → breaker → option breaker;          (* [None]: ErrOpenState or ErrTooManyRequests *)
  afterRequest : Time → bool → breaker → breaker;
  breaker_settings : breaker → cb_settings;
  breaker_mode : breaker → cb_mode;
  new_breaker s : breaker_settings (NewCircuitBreaker s) = cb_normal s ∧ breaker_mode (NewCircuitBreaker s) = CbClosed 0;
  breaker_before now b :
    match beforeRequest now b with
    | Some b' => breaker_settings b' = breaker_settings b ∧ cb_admit (breaker_settings b) now (breaker_mode b) = Some (breaker_mode b')
    | None => cb_admit (breaker_settings b) now (breaker_mode b) = None
    end;
  breaker_after now ok b :
    breaker_settings (afterRequest now ok b) = breaker_settings b ∧
    breaker_mode (afterRequest now ok b) = cb_settle (breaker_settings b) now ok (breaker_mode b)
}.

(** ** Client *)

(** The environment of one logical call: random bytes for its span, the clock when
    it starts and when it ends, and what happens to its requests. *)
Record call_env := mkCallEnv { ce_rand : list ascii; ce_start : Time; ce_finish : Time; ce_http : http_env }.

Section Client.
Context `{UrlParser, Gobreaker} (c : HttpConfig).

Definition readyToTrip (consecutiveFailures : Z) : bool := (hc_CBFailureThreshold c <=? consecutiveFailures)%Z.
Definition http_New : option breaker :=
  if http_Validate c then Some (NewCircuitBreaker (mkCbSettings (hc_HalfOpenMaxRequests c) (hc_CBOpenDuration c) readyToTrip)) else None.

Definition call_context (ctx : option Trace) (rand : list ascii) : option Trace :=
  if hc_PropagateTrace c then fst (ChildSpan ctx rand) else ctx.

(** The function given to the breaker, and whether it counts as a failure. *)
Definition call_failed (r : result http_error Result) : bool :=
  match r with Ok res => (500 <=? res_Status res)%Z | Err _ => true end.
Definition guarded_call (ctx : option Trace) (method path payload : string) (env : call_env) (b : breaker)
    : breaker * list http_event * option (result http_error Result) :=
  match beforeRequest (ce_start env) b with
  | None => (b, [], None)
  | Some b1 =>
      let '(tr, r) := executeWithRetry c (call_context ctx (ce_rand env)) method (String.append (hc_BaseURL c) path) payload (ce_http env) in
      (afterRequest (ce_finish env) (negb (call_failed r)) b1, tr, Some r)
  end.

(** [body] is the marshalled text.  [out] decodes into a value that starts as
    [zero]; without it the response is ignored. *)
Definition http_do {A} (ctx : option Trace) (method path : string) (body : option string) (zero : A) (out : option (json → option A))
    (env : call_env) (b : breaker) : breaker * list http_event * result http_error A :=
  let payload := default EmptyString body in
  let '(b, tr, r) := guarded_call ctx method path payload env b in
  (b, tr,
   match r with
   | None => Err ErrCircuitOpen
   | Some (Err e) => Err e
   | Some (Ok res) =>
       if (400 <=? res_Status res)%Z then Err (ErrStatus (res_Status res) (res_Body res) (String.append (hc_BaseURL c) path))
       else match out with
            | Some decode =>
                if str_empty (res_Body res) then Ok zero
                else match json_parse (res_Body res) with
                     | NotJSON _ => Err ErrDecodeResponse
                     | JSON j => match decode j with Some a => Ok a | None => Err ErrDecodeResponse end
                     end
            | None => Ok zero
            end
   end).

Definition PostJSON {A} (ctx : option Trace) (path : string) (body : string) (zero : A) (out : option (json → option A)) :=
  http_do ctx "POST" path (Some body) zero out.
Definition GetJSON {A} (ctx : option Trace) (path : string) (zero : A) (out : json → option A) :=
  http_do ctx "GET" path None zero (Some out).
Definition PutJSON {A} (ctx : option Trace) (path : string) (body : string) (zero : A) (out : option (json → option A)) :=
  http_do ctx "PUT" path (Some body) zero out.
Definition PatchJSON {A} (ctx : option Trace) (path : string) (body : string) (zero : A) (out : option (json → option A)) :=
  http_do ctx "PATCH" path (Some body) zero out.
Definition Delete (ctx : option Trace) (path : string) :=
  http_do ctx "DELETE" path None tt None.
End Client.

(** ** What a call does *)

Definition sent (tr : list http_event) : list Request := omap (λ e, match e with Sent r => Some r | Slept _ => None end) tr.
(** The answers after which another attempt makes sense. *)
Definition retryable (a : http_answer) : bool :=
  match a with TransportFailure over => negb over | BodyUnreadable => true | Response s _ => (500 <=? s)%Z end.
Definition outcome_of_answer (a : http_answer) : result http_error Result :=
  match a with TransportFailure over => Err (ErrTransport over) | BodyUnreadable => Err ErrAttemptsExhausted | Response s b => Ok (mkResult s b) end.

Lemma sent_app t1 t2 : sent (t1 ++ t2) = sent t1 ++ sent t2.
Proof. apply omap_app. Qed.
Lemma sent_sleep c n r : sent (sleepBackoff c n r) = [].
Proof. unfold sleepBackoff. by destruct (_ <=? _)%Z. Qed.

Lemma canonical_find (h : Header) k v : List.find (λ kv, bool_decide (kv.1 = canonical_key k)) (header_del h k ++ [(canonical_key k, v)]) = Some (canonical_key k, v).
Proof.
  unfold header_del. induction h as [|[k' v'] h IH]; cbn [List.filter app List.find fst]; [by rewrite bool_decide_eq_true_2|].
  destruct (bool_decide (k' = canonical_key k)) eqn:Hk; cbn [negb]; [done|]. cbn [app List.find fst]. by rewrite Hk.
Qed.
Lemma header_get_set h k v : header_get (header_set h k v) k = v.
Proof. unfold header_get, header_set, header_values. by rewrite canonical_find. Qed.

Section Calls.
Context `{UrlParser, Gobreaker} (c : HttpConfig).

Section OneCall.
Context (ctx : option Trace) (method fullURL payload : string) (env : http_env) (req : Request)
        (Hreq : buildRequest ctx method fullURL payload (hc_DefaultHeaders c) (hc_PropagateTrace c) = Some req).

Lemma retry_spec left attempt :
  (0 < left)%nat → (attempt + left)%nat = Z.to_nat (hc_MaxAttempts c) →
  ∃ n, (attempt <= n < attempt + left)%nat ∧ (∀ i, (attempt <= i < n)%nat → retryable (he_answer env i) = true) ∧
    (retryable (he_answer env n) = false ∨ S n = Z.to_nat (hc_MaxAttempts c)) ∧
    sent (fst (retry_from c ctx method fullURL payload env left attempt)) = replicate (S n - attempt) req ∧
    snd (retry_from c ctx method fullURL payload env left attempt) = outcome_of_answer (he_answer env n).
Proof using Hreq.
  revert attempt. induction left as [|left IH]; intros attempt Hl Hk; [lia|]. cbn [retry_from]. rewrite Hreq.
  set (again := let '(tr, r) := _ in (_, r)).
  assert (Hlast : (Z.of_nat attempt <? hc_MaxAttempts c - 1)%Z = bool_decide (0 < left)%nat).
  { destruct (Z.ltb_spec (Z.of_nat attempt) (hc_MaxAttempts c - 1)); [rewrite bool_decide_eq_true_2|rewrite bool_decide_eq_false_2]; lia. }
  assert (Hagain : (0 < left)%nat → retryable (he_answer env attempt) = true → ∃ n, (attempt <= n < attempt + S left)%nat ∧
    (∀ i, (attempt <= i < n)%nat → retryable (he_answer env i) = true) ∧ (retryable (he_answer env n) = false ∨ S n = Z.to_nat (hc_MaxAttempts c)) ∧
    sent (fst again) = replicate (S n - attempt) req ∧ snd again = outcome_of_answer (he_answer env n)).
  { intros Hpos Hr. destruct (IH (S attempt)) as (n & Hn & Hi & Hc & Hs & Ho); [lia..|]. exists n. split; [lia|]. split.
    - intros i Hle. destruct (decide (i = attempt)) as [->|]; [done|]. apply Hi. lia.
    - split; [done|]. unfold again. destruct (retry_from _ _ _ _ _ _ left _) as [tr r]. cbn [fst snd] in *.
      split; [|done]. replace (Sent req :: _ ++ tr) with ([Sent req] ++ sleepBackoff c attempt (he_random env attempt) ++ tr) by done.
      rewrite !sent_app, sent_sleep, Hs. cbn [sent omap list_omap app]. replace (S n - attempt)%nat with (S (S n - S attempt))%nat by lia. done. }
  assert (Hstop : ∀ o, o = outcome_of_answer (he_answer env attempt) →
    (retryable (he_answer env attempt) = false ∨ left = 0%nat) → ∃ n, (attempt <= n < attempt + S left)%nat ∧
    (∀ i, (attempt <= i < n)%nat → retryable (he_answer env i) = true) ∧ (retryable (he_answer env n) = false ∨ S n = Z.to_nat (hc_MaxAttempts c)) ∧
    sent (fst ([Sent req], o)) = replicate (S n - attempt) req ∧ snd ([Sent req], o) = outcome_of_answer (he_answer env n)).
  { intros o -> Hor. exists attempt. split_and!; [lia|lia|intros i ?; lia|destruct Hor; [by left|right; lia]| |done].
    replace (S attempt - attempt)%nat with 1%nat by lia. done. }
  destruct (he_answer env attempt) as [over| |s body] eqn:Ha.
  - unfold shouldRetry. destruct over; [apply Hstop; [done|by left]|]. rewrite Hlast. case_bool_decide; [by apply Hagain|]. apply Hstop; [done|right; lia].
  - destruct left as [|left]; [|apply Hagain; [lia|done]]. exists attempt. rewrite Ha. split_and!; [lia|lia|intros i ?; lia|right; lia| |done].
    unfold again. cbn [retry_from]. rewrite app_nil_r. cbn [fst]. change (Sent req :: ?x) with ([Sent req] ++ x). rewrite sent_app, sent_sleep.
    replace (S attempt - attempt)%nat with 1%nat by lia. done.
  - rewrite Hlast. destruct (500 <=? s)%Z eqn:Hs; cbn [andb].
    + case_bool_decide; [apply Hagain; [done|exact Hs]|]. apply Hstop; [done|right; lia].
    + apply Hstop; [done|left; exact Hs].
Qed.
End OneCall.

Lemma Validate_attempts : http_Validate c = true → (0 < Z.to_nat (hc_MaxAttempts c))%nat.
Proof. unfold http_Validate. rewrite !andb_true_iff, !negb_true_iff. intros [[_ Hm%Z.leb_gt] _]. lia. Qed.

Lemma buildRequest_spec ctx method url payload :
  url_ok url = true → ∃ req, buildRequest ctx method url payload (hc_DefaultHeaders c) (hc_PropagateTrace c) = Some req ∧
    rq_Method req = method ∧ rq_URL req = url ∧ rq_Body req = payload ∧
    (hc_PropagateTrace c = true → ∀ t, ctx = Some t → header_get (rq_Header req) "Traceparent" = Trace_String t).
Proof.
  intros Hu. unfold buildRequest. rewrite Hu. cbn [negb]. eexists. split; [reflexivity|]. cbn [rq_Method rq_URL rq_Body rq_Header].
  split_and!; [done..|]. intros -> t ->. apply header_get_set.
Qed.

(** A call the breaker lets through: which requests, until which answer. *)
Lemma guarded_spec ctx method path payload env b b' tr r :
  http_Validate c = true → url_ok (String.append (hc_BaseURL c) path) = true → guarded_call c ctx method path payload env b = (b', tr, r) →
  (beforeRequest (ce_start env) b = None ∧ b' = b ∧ tr = [] ∧ r = None) ∨
  ∃ req n, buildRequest (call_context c ctx (ce_rand env)) method (String.append (hc_BaseURL c) path) payload (hc_DefaultHeaders c) (hc_PropagateTrace c) = Some req ∧
    (n < Z.to_nat (hc_MaxAttempts c))%nat ∧ sent tr = replicate (S n) req ∧
    (∀ i, (i < n)%nat → retryable (he_answer (ce_http env) i) = true) ∧
    (retryable (he_answer (ce_http env) n) = false ∨ S n = Z.to_nat (hc_MaxAttempts c)) ∧
    r = Some (outcome_of_answer (he_answer (ce_http env) n)).
Proof.
  intros Hv Hu. unfold guarded_call. destruct (beforeRequest (ce_start env) b) as [b1|]; [|by intros [= <- <- <-]; left].
  set (cc := call_context c ctx (ce_rand env)). destruct (buildRequest_spec cc method _ payload Hu) as (req & Hreq & _).
  destruct (retry_spec cc method _ payload (ce_http env) req Hreq _ 0 (Validate_attempts Hv) eq_refl) as (n & [_ Hn] & Hi & Hc & Hs & Ho).
  unfold executeWithRetry. destruct (retry_from _ _ _ _ _ _ _ _) as [tr' r']. cbn [fst snd] in Hs, Ho. intros [= _ <- <-]. right. exists req, n.
  rewrite Nat.sub_0_r in Hs. split_and!; [done|lia|done| |done|by rewrite Ho]. intros i Hlt. apply Hi. lia.
Qed.

(** How a response that ended the attempts is handed to the caller. *)
Definition delivered {A} (url : string) (zero : A) (out : option (json → option A)) (a : http_answer) : result http_error A :=
  match outcome_of_answer a with
  | Err e => Err e
  | Ok res =>
      if (400 <=? res_Status res)%Z then Err (ErrStatus (res_Status res) (res_Body res) url)
      else match out with
           | Some decode => if str_empty (res_Body res) then Ok zero
                            else match json_parse (res_Body res) with
                                 | JSON j => match decode j with Some x => Ok x | None => Err ErrDecodeResponse end
                                 | NotJSON _ => Err ErrDecodeResponse
                                 end
           | None => Ok zero
           end
  end.

(** C32: (one call) whatever the servers answer: a call the breaker refuses sends
    nothing; any other sends the same request at least once and at most MaxAttempts
    times, again only after an answer that is no verdict (a transport failure other
    than the end of the context, an unreadable body, a status of 500 or more), never
    after a verdict, and reports the last answer; every attempt carries the trace of
    the caller. *)
Theorem call_is_bounded {A} ctx method path body (zero : A) out env b b' tr r :
  http_Validate c = true → url_ok (String.append (hc_BaseURL c) path) = true →
  http_do c ctx method path body zero out env b = (b', tr, r) →
  (beforeRequest (ce_start env) b = None ∧ tr = [] ∧ r = Err ErrCircuitOpen) ∨
  ∃ req n, (n < Z.to_nat (hc_MaxAttempts c))%nat ∧ sent tr = replicate (S n) req ∧
    rq_Method req = method ∧ rq_URL req = String.append (hc_BaseURL c) path ∧ rq_Body req = default EmptyString body ∧
    (hc_PropagateTrace c = true → ∀ t, ctx = Some t →
       ∃ child, header_get (rq_Header req) "Traceparent" = Trace_String child ∧ tr_TraceID child = tr_TraceID t ∧ tr_Sampled child = tr_Sampled t) ∧
    (∀ i, (i < n)%nat → retryable (he_answer (ce_http env) i) = true) ∧
    (retryable (he_answer (ce_http env) n) = false ∨ S n = Z.to_nat (hc_MaxAttempts c)) ∧
    r = delivered (String.append (hc_BaseURL c) path) zero out (he_answer (ce_http env) n).
Proof.
  intros Hv Hu. unfold http_do. destruct (guarded_call _ _ _ _ _ _ _) as [[b2 tr2] r2] eqn:Hg. intros [= <- <- <-].
  destruct (guarded_spec _ _ _ _ _ _ _ _ _ Hv Hu Hg) as [(Hb & -> & -> & ->)|(req & n & Hreq & Hn & Hs & Hi & Hc & ->)]; [by left|right].
  destruct (buildRequest_spec (call_context c ctx (ce_rand env)) method _ (default EmptyString body) Hu) as (req' & Hreq' & Hm & Hurl & Hb & Ht).
  rewrite Hreq in Hreq'. injection Hreq' as <-. exists req, n. split_and!; [done..| |done|done|by unfold delivered; destruct (outcome_of_answer _)].
  intros Hp t ->. destruct (ChildSpan_spec t (ce_rand env)) as (child & rest & Hch & Hid & Hsam & _). exists child. split; [|done].
  apply Ht; [done|]. unfold call_context. by rewrite Hp, Hch.
Qed.

(** The plain case: the first answer is a success. *)
Lemma http_do_ok {A} ctx method path body (zero : A) decode env b b1 status resp j a :
  http_Validate c = true → url_ok (String.append (hc_BaseURL c) path) = true → beforeRequest (ce_start env) b = Some b1 →
  he_answer (ce_http env) 0 = Response status resp → (status < 400)%Z → resp ≠ EmptyString → json_parse resp = JSON j → decode j = Some a →
  ∃ req, http_do c ctx method path body zero (Some decode) env b = (afterRequest (ce_finish env) true b1, [Sent req], Ok a) ∧
    rq_Method req = method ∧ rq_Body req = default EmptyString body.
Proof.
  intros Hv Hu Hb Ha Hs Hne Hj Hd. destruct (buildRequest_spec (call_context c ctx (ce_rand env)) method _ (default EmptyString body) Hu) as (req & Hreq & Hm & _ & Hbd & _).
  exists req. split; [|done]. unfold http_do, guarded_call, executeWithRetry. rewrite Hb.
  pose proof (Validate_attempts Hv) as Hk. destruct (Z.to_nat (hc_MaxAttempts c)) as [|k]; [lia|]. cbn [retry_from]. rewrite Hreq, Ha.
  destruct (Z.leb_spec 500 status) as [?|_]; [lia|]. cbn [andb call_failed res_Status res_Body].
  destruct (Z.leb_spec 500 status) as [?|_]; [lia|]. destruct (Z.leb_spec 400 status) as [?|_]; [lia|].
  unfold str_empty. rewrite bool_decide_eq_false_2 by done. by rewrite Hj, Hd.
Qed.

(** ** An outage *)

Record http_call := mkHttpCall { hcl_ctx : option Trace; hcl_method : string; hcl_path : string; hcl_payload : string; hcl_env : call_env }.
Definition make_call (x : http_call) (b : breaker) := guarded_call c (hcl_ctx x) (hcl_method x) (hcl_path x) (hcl_payload x) (hcl_env x) b.
Fixpoint make_calls (xs : list http_call) (b : breaker) : breaker * list (list http_event * option (result http_error Result)) :=
  match xs with
  | [] => (b, [])
  | x :: xs' => let '(b, tr, r) := make_call x b in let '(b, rest) := make_calls xs' b in (b, (tr, r) :: rest)
  end.
(** The service is down: no request of the call gets a response below 500. *)
Definition down (x : http_call) : Prop :=
  ∀ i, match he_answer (ce_http (hcl_env x)) i with Response s _ => (500 <= s)%Z | _ => True end.

Lemma down_fails x b : http_Validate c = true → url_ok (String.append (hc_BaseURL c) (hcl_path x)) = true → down x →
  ∀ b1, beforeRequest (ce_start (hcl_env x)) b = Some b1 →
  ∃ tr r, make_call x b = (afterRequest (ce_finish (hcl_env x)) false b1, tr, Some r) ∧ (1 <= length (sent tr) <= Z.to_nat (hc_MaxAttempts c))%nat ∧ call_failed r = true.
Proof.
  intros Hv Hu Hd b1 Hb. destruct (make_call x b) as [[b2 tr] r] eqn:Hg. pose proof Hg as Hcall. unfold make_call in Hg.
  destruct (guarded_spec _ _ _ _ _ _ _ _ _ Hv Hu Hg) as [(Hn & _)|(req & n & _ & Hn & Hs & _ & _ & ->)]; [congruence|].
  assert (Hf : call_failed (outcome_of_answer (he_answer (ce_http (hcl_env x)) n)) = true).
  { specialize (Hd n). destruct (he_answer _ n); [done..|]. by apply Z.leb_le. }
  unfold guarded_call in Hg. rewrite Hb in Hg. destruct (executeWithRetry _ _ _ _ _ _) as [tr' r']. simplify_eq. rewrite Hf.
  eexists _, _. split; [reflexivity|]. split; [|done]. rewrite Hs, length_replicate. lia.
Qed.

(** Failures in a row, seen from the breaker: it counts them, and opens at the
    threshold. *)
Lemma down_calls xs b k :
  http_Validate c = true → Forall (λ x, url_ok (String.append (hc_BaseURL c) (hcl_path x)) = true ∧ down x) xs →
  cb_readyToTrip (breaker_settings b) = readyToTrip c → breaker_mode b = CbClosed k → (0 <= k)%Z → (k + Z.of_nat (length xs) = hc_CBFailureThreshold c)%Z → xs ≠ [] →
  ∃ b' ans, make_calls xs b = (b', ans) ∧ breaker_settings b' = breaker_settings b ∧
    (∃ x, last xs = Some x ∧ breaker_mode b' = CbOpen (ce_finish (hcl_env x) + cb_timeout (breaker_settings b))) ∧
    Forall (λ a, (1 <= length (sent a.1) <= Z.to_nat (hc_MaxAttempts c))%nat ∧ a.2 ≠ None) ans.
Proof.
  intros Hv. revert b k. induction xs as [|x xs IH]; intros b k Hall Htrip Hm Hk Hlen Hne; [done|].
  inversion Hall as [|? ? [Hu Hd] Hall']; subst. pose proof (breaker_before (ce_start (hcl_env x)) b) as Hbef.
  rewrite Hm in Hbef. cbn [cb_admit] in Hbef. destruct (beforeRequest _ b) as [b1|] eqn:Hb1; [|done]. destruct Hbef as [Hs1 [= Hm1]].
  destruct (down_fails x b Hv Hu Hd b1 Hb1) as (tr & r & Hcall & Hsent & _). cbn [make_calls]. rewrite Hcall.
  pose proof (breaker_after (ce_finish (hcl_env x)) false b1) as [Hs2 Hm2]. rewrite <-Hm1, Hs1 in Hm2. cbn [cb_settle] in Hm2. rewrite Htrip in Hm2. unfold readyToTrip in Hm2.
  cbn [length] in Hlen. destruct xs as [|y xs].
  - cbn [make_calls]. eexists _, _. split; [reflexivity|]. split; [congruence|]. split; [|constructor; [by split|constructor]]. exists x. split; [done|].
    rewrite Hm2. destruct (_ <=? _)%Z eqn:Hle; [done|]. apply Z.leb_gt in Hle. cbn [length] in Hlen. lia.
  - assert ((hc_CBFailureThreshold c <=? k + 1)%Z = false) as Hlt by (apply Z.leb_gt; cbn [length] in Hlen; lia). rewrite Hlt in Hm2.
    destruct (IH _ (k + 1)%Z Hall' ltac:(rewrite Hs2, Hs1; done) Hm2 ltac:(lia) ltac:(lia) ltac:(done)) as (b' & ans & Hcs & Hst & (z & Hz & Hmz) & Hans).
    rewrite Hcs. eexists _, _. split; [reflexivity|]. split; [congruence|]. split; [|constructor; [by split|done]].
    exists z. split; [done|]. by rewrite Hmz, Hs2, Hs1.
Qed.

Lemma open_refuses xs b until :
  breaker_mode b = CbOpen until → Forall (λ x, (ce_start (hcl_env x) <= until)%Z) xs → make_calls xs b = (b, (λ _, ([], None)) <$> xs).
Proof.
  intros Hm. induction 1 as [|x xs Hx _ IH]; [done|]. cbn [make_calls fmap list_fmap].
  pose proof (breaker_before (ce_start (hcl_env x)) b) as Hbef. rewrite Hm in Hbef. cbn [cb_admit] in Hbef.
  destruct (Z.ltb_spec until (ce_start (hcl_env x))); [lia|]. unfold make_call, guarded_call.
  destruct (beforeRequest _ b); [by destruct Hbef|]. by rewrite IH.
Qed.

Lemma make_calls_app xs ys b : make_calls (xs ++ ys) b = let '(b1, a1) := make_calls xs b in let '(b2, a2) := make_calls ys b1 in (b2, a1 ++ a2).
Proof.
  revert b. induction xs as [|x xs IH]; intros b; cbn [app make_calls]; [by destruct (make_calls ys b)|].
  destruct (make_call x b) as [[b1 tr] r]. rewrite IH. destruct (make_calls xs b1) as [b2 a2]. by destruct (make_calls ys b2).
Qed.

(** (an outage is contained) while a service is down, the first
    CBFailureThreshold calls of a new client reach it, with at most MaxAttempts
    requests each; all calls that start before the open duration after the last of
    them is over send nothing and fail at once.  So the service sees at most
    threshold times attempts requests per open period. *)
Theorem outage_is_contained b first later last_call :
  http_New c = Some b → (0 < hc_CBFailureThreshold c)%Z → (0 < hc_CBOpenDuration c)%Z →
  Z.of_nat (length first) = hc_CBFailureThreshold c → last first = Some last_call →
  Forall (λ x, url_ok (String.append (hc_BaseURL c) (hcl_path x)) = true ∧ down x) first →
  Forall (λ x, (ce_start (hcl_env x) <= ce_finish (hcl_env last_call) + hc_CBOpenDuration c)%Z) later →
  ∃ b' ans, make_calls (first ++ later) b = (b', ans ++ ((λ _, ([], None)) <$> later)) ∧ length ans = length first ∧
    Forall (λ a, (1 <= length (sent a.1) <= Z.to_nat (hc_MaxAttempts c))%nat ∧ a.2 ≠ None) ans.
Proof.
  unfold http_New. destruct (http_Validate c) eqn:Hv; [|done]. intros [= <-] Hth Hop Hlen Hlast Hf Hl.
  destruct (new_breaker (mkCbSettings (hc_HalfOpenMaxRequests c) (hc_CBOpenDuration c) (readyToTrip c))) as [Hs Hm].
  destruct (down_calls first _ 0 Hv Hf ltac:(by rewrite Hs) Hm ltac:(lia) ltac:(lia) ltac:(by destruct first)) as (b' & ans & Hcs & Hst & (x & Hx & Hmx) & Hans).
  rewrite make_calls_app, Hcs. rewrite Hlast in Hx. injection Hx as <-.
  rewrite Hs in Hmx. cbn [cb_normal cb_timeout] in Hmx. destruct (Z.leb_spec (hc_CBOpenDuration c) 0); [lia|].
  rewrite (open_refuses later b' _ Hmx) by done. exists b', ans. split; [done|]. split; [|done].
  clear -Hcs. revert b' ans Hcs. generalize (NewCircuitBreaker (mkCbSettings (hc_HalfOpenMaxRequests c) (hc_CBOpenDuration c) (readyToTrip c))).
  induction first as [|y ys IH]; intros b0 b' ans Hcs; cbn [make_calls] in Hcs; [by simplify_eq|].
  destruct (make_call y b0) as [[b1 tr] r]. destruct (make_calls ys b1) as [b2 a2] eqn:H2. simplify_eq. cbn [length]. f_equal. by eapply IH.
Qed.
End Calls.

(** ** A concrete breaker, and calls of it *)

#[local] Instance every_url : UrlParser := λ _, true.
#[local] Program Instance plain_breaker : Gobreaker := {|
  breaker := cb_settings * cb_mode;
  NewCircuitBreaker s := (cb_normal s, CbClosed 0);
  beforeRequest now b := m ← cb_admit b.1 now b.2; Some (b.1, m);
  afterRequest now ok b := (b.1, cb_settle b.1 now ok b.2);
  breaker_settings := fst; breaker_mode := snd
|}.
Next Obligation. by destruct (cb_admit _ _ _). Qed.

Definition sample_config : HttpConfig := http_DefaultConfig "memory" "http://memory:8080/".
Definition sample_env (start : Time) (answers : list http_answer) : call_env :=
  mkCallEnv (replicate 24 "x"%char) start (start + Second) (mkHttpEnv (λ i, default BodyUnreadable (answers !! i)) (λ _, (1 # 2)%Q)).
Definition new_client : breaker := NewCircuitBreaker (mkCbSettings 1 (30 * Second) (readyToTrip sample_config)).

(** A server error, then an answer: two requests with the same trace. *)
Definition sample_call := GetJSON sample_config (Some sample_trace) "/x" EmptyString as_string
  (sample_env 0 [Response 503 "busy"; Response 200 (concat_strings [dq; "hi"; dq])]) new_client.
Lemma call_is_bounded_witness :
  sample_call.2 = Ok "hi"%string ∧ length (sent sample_call.1.2) = 2%nat ∧
  ∃ req n, (n < 3)%nat ∧ sent sample_call.1.2 = replicate (S n) req ∧
     ∃ child, header_get (rq_Header req) "Traceparent" = Trace_String child ∧ tr_TraceID child = tr_TraceID sample_trace.
Proof.
  assert (Hr : sample_call.2 = Ok "hi"%string) by (vm_compute; reflexivity). split; [exact Hr|]. split; [vm_compute; reflexivity|].
  destruct (call_is_bounded sample_config (Some sample_trace) "GET" "/x" None EmptyString (Some as_string)
              (sample_env 0 [Response 503 "busy"; Response 200 (concat_strings [dq; "hi"; dq])]) new_client sample_call.1.1 sample_call.1.2 sample_call.2)
    as [(_ & _ & Hr')|(req & n & Hn & Hs & _ & _ & _ & Ht & _)]; [reflexivity|reflexivity|reflexivity|rewrite Hr in Hr'; discriminate Hr'|].
  exists req, n. split; [exact Hn|]. split; [exact Hs|]. destruct (Ht eq_refl _ eq_refl) as (child & H1 & H2 & _). exists child. split; [exact H1|exact H2].
Defined.

Definition dead_call (start : Time) : http_call := mkHttpCall None "POST" "/x" "{}" (sample_env start [Response 500 ""; TransportFailure false; TransportFailure false]).
Lemma outage_is_contained_witness :
  ∃ b' ans, make_calls sample_config ([dead_call 0; dead_call 1; dead_call 2] ++ [dead_call 3; dead_call 30000000000]) new_client
    = (b', ans ++ [([], None); ([], None)]) ∧ length ans = 3%nat.
Proof.
  destruct (outage_is_contained sample_config new_client [dead_call 0; dead_call 1; dead_call 2] [dead_call 3; dead_call 30000000000] (dead_call 2))
    as (b' & ans & Hc & Hl & _); [reflexivity|reflexivity|reflexivity|reflexivity|reflexivity| | |exists b', ans; split; [exact Hc|exact Hl]].
  - assert (Hd : ∀ t, down (dead_call t)) by (intros t [|[|[|i]]]; cbn; lia || done). by repeat constructor.
  - repeat constructor; vm_compute; discriminate.
Defined.

(** The pauses of the default configuration: 100 ms doubling, within 30 per cent,
    capped; the cap comes before the jitter, so a pause can exceed MaxBackoff. *)
Example backoff_values :
  ((λ n, computeBackoff sample_config n (1 # 2)) <$> [0; 1; 2; 6] = [100000000; 200000000; 400000000; 5000000000]%Z) ∧
  ((λ r, computeBackoff sample_config 6 r) <$> [0; 1023 # 1024]%Q = [3500000000; 6497070312]%Z).
Proof. vm_compute. done. Qed.

(** A call whose caller goes away counts as a failure of the service. *)
Example cancelled_calls_open_the_breaker :
  let gone t := mkHttpCall None "GET" "/x" "" (sample_env t [TransportFailure true]) in
  snd <$> (make_calls sample_config [gone 0; gone 1; gone 2; gone 3]%Z new_client).2
    = [Some (Err (ErrTransport true)); Some (Err (ErrTransport true)); Some (Err (ErrTransport true)); None].
Proof. vm_compute. done. Qed.
