(* ===== verification/Wire.v ===== *)
(** * Encodings on the wire

    What the HTTP clients use of Go's library: base64 as [encoding/json] writes and
    reads a [[]byte], the query strings of [net/url], and times in RFC 3339 as
    [time.Time] reads them. *)
From S2P Require Import Prelude Ids Utf8 Json Envelope GoPath Lines JsonText Trace.
From stdpp Require Import list pretty.
From Stdlib Require Import Ascii.

(** ** base64.StdEncoding *)

Definition alphabet : list ascii := chars "ABCDEFGHIJKLMNOPQRSTUVWXYZabcdefghijklmnopqrstuvwxyz0123456789+/".
Definition b64_digit (n : N) : ascii := default "A"%char (alphabet !! N.to_nat n).
Definition b64_value (a : ascii) : option N :=
  let n := code a in
  if byte_in n 65 90 then Some (n - 65)%N else if byte_in n 97 122 then Some (n - 71)%N else if byte_in n 48 57 then Some (n + 4)%N
  else if (n =? 43)%N then Some 62%N else if (n =? 47)%N then Some 63%N else None.
Definition pad_char : ascii := "="%char.

Fixpoint b64_encode (l : list ascii) : list ascii :=
  match l with
  | a :: b :: c :: l' =>
      b64_digit (code a / 4) :: b64_digit (code a mod 4 * 16 + code b / 16) :: b64_digit (code b mod 16 * 4 + code c / 64)
        :: b64_digit (code c mod 64) :: b64_encode l'
  | [a; b] => [b64_digit (code a / 4); b64_digit (code a mod 4 * 16 + code b / 16); b64_digit (code b mod 16 * 4); pad_char]
  | [a] => [b64_digit (code a / 4); b64_digit (code a mod 4 * 16); pad_char; pad_char]
  | [] => []
  end.

Fixpoint b64_quanta (l : list ascii) : option (list ascii) :=
  match l with
  | [] => Some []
  | a :: b :: c :: d :: l' =>
      x ← b64_value a; y ← b64_value b;
      let one := ascii_of_N (x * 4 + y / 16)%N in
      if bool_decide (d = pad_char) && bool_decide (l' = []) then
        if bool_decide (c = pad_char) then Some [one]
        else z ← b64_value c; Some [one; ascii_of_N (y mod 16 * 16 + z / 4)%N]
      else
        z ← b64_value c; w ← b64_value d; rest ← b64_quanta l';
        Some (one :: ascii_of_N (y mod 16 * 16 + z / 4)%N :: ascii_of_N (z mod 4 * 64 + w)%N :: rest)
  | _ => None
  end.
(** Line breaks are skipped wherever they are. *)
Definition b64_decode (l : list ascii) : option (list ascii) := b64_quanta (List.filter (λ a, negb (is_char 10 a || is_char 13 a)) l).

Lemma b64_digit_value n : (n < 64)%N → b64_value (b64_digit n) = Some n ∧ is_char 10 (b64_digit n) || is_char 13 (b64_digit n) = false ∧ b64_digit n ≠ pad_char.
Proof.
  intros Hn.
  assert (Hall : Forall (λ i, b64_value (b64_digit i) = Some i ∧ is_char 10 (b64_digit i) || is_char 13 (b64_digit i) = false ∧ b64_digit i ≠ pad_char) (N.of_nat <$> seq 0 64)).
  { apply (bool_decide_unpack _). vm_compute. done. }
  rewrite Forall_forall in Hall. apply Hall, list_elem_of_fmap. exists (N.to_nat n). split; [lia|]. apply elem_of_seq. lia.
Qed.
Lemma b64_digit_ascii n : (code (b64_digit n) <? 128)%N = true.
Proof.
  unfold b64_digit. destruct (alphabet !! N.to_nat n) as [a|] eqn:Ha; [|done]. cbn [default].
  assert (Hall : Forall (λ a, (code a <? 128)%N = true) alphabet) by (apply (bool_decide_unpack _); vm_compute; done).
  rewrite Forall_lookup in Hall. eauto.
Qed.
Lemma code_lt a : (code a < 256)%N.
Proof. apply N_ascii_bounded. Qed.
Lemma ascii_code a n : n = code a → ascii_of_N n = a.
Proof. intros ->. apply ascii_N_embedding. Qed.

Lemma list_ind3 (P : list ascii → Prop) :
  P [] → (∀ a, P [a]) → (∀ a b, P [a; b]) → (∀ a b c l, P l → P (a :: b :: c :: l)) → ∀ l, P l.
Proof.
  intros H0 H1 H2 H3. assert (∀ n l, length l ≤ n → P l) as Hn; [|intros l; by eapply Hn].
  induction n as [|n IH]; intros [|a [|b [|c l]]] Hl; cbn in Hl; try lia; auto. apply H3, IH. lia.
Qed.

Ltac sextets := repeat match goal with
  | |- context [code ?a] => lazymatch goal with H : (code a < 256)%N |- _ => fail | _ => pose proof (code_lt a) end
  end; zify; Z.to_euclidean_division_equations; lia.

Lemma b64_encode_plain l : List.filter (λ a, negb (is_char 10 a || is_char 13 a)) (b64_encode l) = b64_encode l.
Proof.
  induction l as [| a | a b | a b c l IH] using list_ind3; [done|..]; cbn [b64_encode List.filter].
  all: repeat match goal with |- context [is_char 10 (b64_digit ?n) || _] => rewrite (proj1 (proj2 (b64_digit_value n ltac:(sextets)))) end.
  all: cbn [negb]; try rewrite IH; reflexivity.
Qed.
Lemma b64_roundtrip l : b64_decode (b64_encode l) = Some l.
Proof.
  unfold b64_decode. rewrite b64_encode_plain. induction l as [| a | a b | a b c l IH] using list_ind3; [done|..]; cbn [b64_encode b64_quanta].
  all: repeat match goal with |- context [b64_value (b64_digit ?n)] => rewrite (proj1 (b64_digit_value n ltac:(sextets))) end; cbn [mbind option_bind].
  - rewrite !bool_decide_eq_true_2 by done. cbn. f_equal. f_equal. apply ascii_code. sextets.
  - rewrite !(bool_decide_eq_true_2 (_ = pad_char)), bool_decide_eq_true_2 by done. cbn [andb].
    rewrite bool_decide_eq_false_2 by (apply b64_digit_value; sextets). f_equal. f_equal; [|f_equal]; apply ascii_code; sextets.
  - rewrite (bool_decide_eq_false_2 (_ = pad_char)) by (apply b64_digit_value; sextets). cbn [andb]. rewrite IH. cbn [mbind option_bind]. f_equal.
    f_equal; [|f_equal; [|f_equal]]; apply ascii_code; sextets.
Qed.

(** A JSON number into an [int]: decimal digits only. *)
Definition as_int (j : json) : option Z :=
  match jvalue j with
  | JNum _ =>
      let '(neg, ds) := match chars (jtext j) with a :: r => if is_char 45 a then (true, r) else (false, a :: r) | [] => (false, []) end in
      let v := ((if neg then -1 else 1) * dec_value ds)%Z in
      if forallb dec_digit ds && (- 2 ^ 63 <=? v)%Z && (v <? 2 ^ 63)%Z then Some v else None
  | _ => None
  end.
Definition set_int {S} (put : Z → S → S) (s : S) (j : json) : option S :=
  match jvalue j with JNull => Some s | _ => v ← as_int j; Some (put v s) end.

(** A JSON value into a [[]byte] that starts nil: base64, or numbers one by one. *)
Definition as_uint8 (j : json) : option ascii :=
  match jvalue j with
  | JNull => Some (ascii_of_N 0)
  | JNum _ =>
      let ds := chars (jtext j) in
      if forallb dec_digit ds && negb (bool_decide (ds = [])) && (dec_value ds <? 256)%Z then Some (ascii_of_N (Z.to_N (dec_value ds))) else None
  | _ => None
  end.
Definition as_bytes (j : json) : option (list ascii) :=
  match jvalue j with
  | JStr s => b64_decode (chars s)
  | JNull => Some []
  | JArr l => mapM as_uint8 l
  | _ => None
  end.

(** strconv.Atoi *)
Definition Atoi (s : string) : option Z :=
  let '(neg, ds) := match chars s with a :: l => if is_char 45 a then (true, l) else if is_char 43 a then (false, l) else (false, a :: l) | [] => (false, []) end in
  let v := ((if neg then -1 else 1) * dec_value ds)%Z in
  if negb (bool_decide (ds = [])) && forallb dec_digit ds && (- 2 ^ 63 <=? v)%Z && (v <? 2 ^ 63)%Z then Some v else None.

(** ** net/url query strings *)

Definition unreserved (a : ascii) : bool :=
  byte_in (code a) 48 57 || byte_in (code a) 65 90 || byte_in (code a) 97 122 || is_char 45 a || is_char 95 a || is_char 46 a || is_char 126 a.
Definition upper_hex_digit (n : N) : ascii := ascii_of_N (if (n <? 10)%N then 48 + n else 55 + n)%N.
Definition escape_byte (a : ascii) : list ascii :=
  if unreserved a then [a] else if is_char 32 a then ["+"%char] else ["%"%char; upper_hex_digit (code a / 16); upper_hex_digit (code a mod 16)].
Definition QueryEscape (s : string) : list ascii := mjoin (escape_byte <$> chars s).
(** [url.Values.Encode] of keys given in order, one value each. *)
Definition encode_pair (kv : string * string) : list ascii := QueryEscape kv.1 ++ "="%char :: QueryEscape kv.2.
Definition Encode (kvs : list (string * string)) : string := text (join_on "&" (encode_pair <$> kvs)).

(** The reading side, [url.ParseQuery]. *)
Fixpoint QueryUnescape (l : list ascii) : option (list ascii) :=
  match l with
  | [] => Some []
  | a :: l' =>
      if is_char 37 a then
        match l' with
        | x :: y :: l'' => h ← hex_value x; lo ← hex_value y; r ← QueryUnescape l''; Some (ascii_of_N (h * 16 + lo) :: r)
        | _ => None
        end
      else r ← QueryUnescape l'; Some ((if is_char 43 a then " "%char else a) :: r)
  end.
Fixpoint cut_at (sep : ascii) (l : list ascii) : list ascii * list ascii :=
  match l with
  | [] => ([], [])
  | a :: l' => if bool_decide (a = sep) then ([], l') else let '(x, y) := cut_at sep l' in (a :: x, y)
  end.
Definition parse_pair (l : list ascii) : option (string * string) :=
  if existsb (is_char 59) l then None else
  let '(k, v) := cut_at "=" l in k ← QueryUnescape k; v ← QueryUnescape v; Some (text k, text v).
Definition ParseQuery (s : string) : option (list (string * string)) := mapM parse_pair (List.filter (λ l, negb (bool_decide (l = []))) (split_on "&" (chars s))).

Lemma escape_byte_spec a :
  (∀ l, QueryUnescape (escape_byte a ++ l) = (λ r, a :: r) <$> QueryUnescape l) ∧
  forallb (λ b, negb (is_char 38 b || is_char 61 b || is_char 59 b)) (escape_byte a) = true.
Proof.
  split; [|each_byte a; vm_compute; done]. intros l.
  assert (Hb : match escape_byte a with
               | [x] => is_char 37 x = false ∧ (if is_char 43 x then " "%char else x) = a
               | [p; x; y] => is_char 37 p = true ∧ ∃ h lo, hex_value x = Some h ∧ hex_value y = Some lo ∧ ascii_of_N (h * 16 + lo) = a
               | _ => False
               end) by (each_byte a; vm_compute; eauto 10).
  destruct (escape_byte a) as [|x [|y [|z [|]]]]; try done.
  - destruct Hb as [H1 H2]. cbn [app QueryUnescape]. rewrite H1, H2. by destruct (QueryUnescape l).
  - destruct Hb as (H1 & h & lo & H2 & H3 & H4). cbn [app QueryUnescape]. rewrite H1, H2, H3. cbn. rewrite H4. by destruct (QueryUnescape l).
Qed.

Lemma QueryUnescape_escape s : QueryUnescape (QueryEscape s) = Some (chars s).
Proof.
  unfold QueryEscape. induction (chars s) as [|a l IH]; [done|]. change (mjoin (escape_byte <$> (a :: l))) with (escape_byte a ++ mjoin (escape_byte <$> l)).
  by rewrite (proj1 (escape_byte_spec a)), IH.
Qed.
Lemma QueryEscape_plain s : Forall (λ b, b ≠ "&"%char ∧ b ≠ "="%char ∧ is_char 59 b = false) (QueryEscape s).
Proof.
  unfold QueryEscape. induction (chars s) as [|a l IH]; [constructor|].
  change (mjoin (escape_byte <$> (a :: l))) with (escape_byte a ++ mjoin (escape_byte <$> l)). apply Forall_app. split; [|done].
  pose proof (proj2 (escape_byte_spec a)) as Hf. apply Is_true_true, forallb_True in Hf. eapply Forall_impl; [exact Hf|].
  intros b Hb%Is_true_true%negb_true_iff. apply orb_false_iff in Hb as [[H1 H2]%orb_false_iff H3]. split_and!; [by intros ->|by intros ->|done].
Qed.
Lemma cut_at_app sep x y : sep ∉ x → cut_at sep (x ++ sep :: y) = (x, y).
Proof.
  induction x as [|a x IH]; intros Hx; cbn [app cut_at]; [by rewrite bool_decide_eq_true_2|].
  apply not_elem_of_cons in Hx as [Ha Hx]. rewrite bool_decide_eq_false_2 by done. by rewrite IH.
Qed.
Lemma encode_pair_parse kv : parse_pair (encode_pair kv) = Some kv ∧ ("&"%char ∉ encode_pair kv) ∧ encode_pair kv ≠ [].
Proof.
  destruct kv as [k v]. unfold encode_pair. cbn [fst snd]. pose proof (QueryEscape_plain k) as Hk. pose proof (QueryEscape_plain v) as Hv.
  rewrite Forall_forall in Hk, Hv. split_and!.
  - unfold parse_pair. rewrite cut_at_app by (intros Hin; by apply Hk in Hin as (_ & ? & _)).
    replace (existsb _ _) with false.
    + rewrite !QueryUnescape_escape. cbn. by rewrite !text_chars.
    + symmetry. apply not_true_is_false. rewrite existsb_elem. intros (b & [Hb|[->|Hb]%elem_of_cons]%elem_of_app & H59); [|done|].
      * by rewrite (proj2 (proj2 (Hk b Hb))) in H59.
      * by rewrite (proj2 (proj2 (Hv b Hb))) in H59.
  - intros [Hin|[Hin|Hin]%elem_of_cons]%elem_of_app; [by apply Hk in Hin as [? _]|done|by apply Hv in Hin as [? _]].
  - by destruct (QueryEscape k).
Qed.
(** A query is read back as it was written, whatever the values hold. *)
Lemma query_roundtrip kvs : ParseQuery (Encode kvs) = Some kvs.
Proof.
  unfold ParseQuery, Encode. rewrite chars_text. destruct kvs as [|kv kvs]; [done|].
  rewrite split_join_on by (done || (apply Forall_fmap, Forall_true; intros x; apply encode_pair_parse)).
  induction (kv :: kvs) as [|x l IH]; [done|]. cbn [fmap list_fmap List.filter].
  destruct (encode_pair_parse x) as (Hp & _ & Hne). rewrite bool_decide_eq_false_2 by done. cbn [negb mapM]. rewrite Hp. cbn. by rewrite IH.
Qed.

(** ** Times

    [time.Time] reads a JSON string in strict RFC 3339, from the text between the
    quotes: fraction of a second up to nanoseconds, offset in hours and minutes. *)
Definition number_in (n : nat) (l : list ascii) (lo hi : Z) : option Z :=
  let v := dec_value l in
  if bool_decide (length l = n) && forallb dec_digit l && (lo <=? v)%Z && (v <=? hi)%Z then Some v else None.
Definition days_in (y m : Z) : Z :=
  if (m =? 2)%Z then if (y mod 4 =? 0)%Z && (negb (y mod 100 =? 0)%Z || (y mod 400 =? 0)%Z) then 29 else 28
  else if bool_decide (m ∈ [4; 6; 9; 11])%Z then 30 else 31.
Definition days_from_civil (y m d : Z) : Z :=
  let y := (if (m <=? 2)%Z then y - 1 else y)%Z in
  let era := (y / 400)%Z in
  let yoe := (y mod 400)%Z in
  let doy := ((153 * (if (m >? 2)%Z then m - 3 else m + 9) + 2) / 5 + d - 1)%Z in
  (era * 146097 + (yoe * 365 + yoe / 4 - yoe / 100 + doy) - 719468)%Z.
Definition parse_zone (l : list ascii) : option Z :=
  match l with
  | [z] => if bool_decide (z = "Z"%char) then Some 0%Z else None
  | sign :: l' =>
      if (bool_decide (sign = "+"%char) || bool_decide (sign = "-"%char)) && bool_decide (length l' = 5) && bool_decide (l' !! 2 = Some ":"%char) then
        h ← number_in 2 (take 2 l') 0 23; m ← number_in 2 (drop 3 l') 0 59;
        let off := ((h * 60 + m) * 60)%Z in Some (if bool_decide (sign = "-"%char) then - off else off)%Z
      else None
  | [] => None
  end.
Definition parse_time (l : list ascii) : option Time :=
  if negb (bool_decide ((l !! 4, l !! 7, l !! 10, l !! 13, l !! 16) = (Some "-", Some "-", Some "T", Some ":", Some ":")%char)) then None else
  y ← number_in 4 (take 4 l) 0 9999; m ← number_in 2 (take 2 (drop 5 l)) 1 12; d ← number_in 2 (take 2 (drop 8 l)) 1 (days_in y m);
  h ← number_in 2 (take 2 (drop 11 l)) 0 23; mi ← number_in 2 (take 2 (drop 14 l)) 0 59; s ← number_in 2 (take 2 (drop 17 l)) 0 59;
  let '(nanos, rest) :=
    match drop 19 l with
    | dot :: ((a :: _) as r) =>
        if is_char 46 dot && dec_digit a then let '(ds, rest) := span_digits r in (dec_value (take 9 (ds ++ replicate 9 "0"%char)), rest) else (0%Z, dot :: r)
    | r => (0%Z, r)
    end in
  off ← parse_zone rest;
  Some (((days_from_civil y m d * 86400 + h * 3600 + mi * 60 + s - off + unixToInternal) * 1000000000 + nanos)%Z).
Definition set_time {S} (put : Time → S → S) (s : S) (j : json) : option S :=
  match jvalue j with
  | JNull => Some s
  | JStr _ => let l := chars (jtext j) in t ← parse_time (take (length l - 2) (drop 1 l)); Some (put t s)
  | _ => None
  end.

Example time_values :
  parse_time <$> (chars <$> ["0001-01-01T00:00:00Z"; "2024-02-29T23:59:59.5+01:30"; "2023-02-29T00:00:00Z"; "2024-01-01T24:00:00Z"; "2024-01-01 00:00:00Z"]%string)
    = [Some 0; Some ((1709245799 + unixToInternal) * 1000000000 + 500000000); None; None; None]%Z.
Proof. vm_compute. reflexivity. Qed.
Example printed_times_are_read : Forall (λ t, parse_time (chars (RFC3339 t)) = Some t) ((λ s, (s + unixToInternal) * 1000000000) <$> [0; 951782400; 1767225599; 4107542400])%Z.
Proof. repeat constructor. Qed.

(** ** Objects with fields that are already text *)

Definition object_text (fields : list (string * list ascii)) : string :=
  text ("{"%char :: join_on "," ((λ kv, quote kv.1 ++ ":"%char :: kv.2) <$> fields) ++ ["}"%char]).
(** [omitempty] *)
Definition opt_field (k v : string) : list (string * list ascii) := if str_empty v then [] else [(k, quote v)].
Definition opt_strings (k : string) (l : list string) : list (string * list ascii) := match l with [] => [] | _ => [(k, doc_chars (DArr (DStr <$> l)))] end.
Definition bool_text (b : bool) : list ascii := chars (if b then "true" else "false").
Definition int_text (z : Z) : list ascii := chars (pretty z).
