(* ===== verification/SkillDomain.v ===== *)
(** * Skills

    [internal/domain/skill]: the Skill aggregate with its lifecycle, the closed
    sets of statuses, risk levels, sources and techniques, and the comparison of
    major versions. *)
From S2P Require Import Prelude Ids Utf8 Json Envelope PhaseDomain ChangeDomain Session Outbox Store.
From stdpp Require Import list.
From Stdlib Require Import Ascii.

(** ** Text

    The Unicode case tables behind [strings.EqualFold] and [strings.ToLower],
    and the digits [unicode.IsDigit] knows outside ASCII, are data of the
    standard library: a parameter, with what they say about ASCII. *)
Class UnicodeTables := {
  EqualFold : string → string → bool;
  ToLower : string → string;
  has_wide_digit : string → bool
}.

Definition is_ascii (s : string) : bool := forallb (λ a, (N_of_ascii a <? 128)%N) (chars s).
Definition lower (s : string) : string := String.string_of_list_ascii (lower_ascii <$> chars s).

Class UnicodeLaws `{UnicodeTables} := {
  EqualFold_ascii s t : is_ascii s = true → is_ascii t = true → EqualFold s t = bool_decide (lower s = lower t);
  ToLower_ascii s : is_ascii s = true → ToLower s = lower s;
  wide_digit_ascii s : is_ascii s = true → has_wide_digit s = false
}.

(** ** Lifecycle (lifecycle.go, technique.go)

    Go string types: the constants, or any other text. *)

Inductive SkillStatus :=
  | SkillCandidate | SkillValidated | SkillActive | SkillDeprecated | SkillBlocked | SkillArchived
  | SkillStatusOther (s : string).
Inductive RiskLevel := RiskLow | RiskMedium | RiskHigh | RiskCritical | RiskOther (s : string).
Inductive ActivationSource :=
  | SourceManual | SourceLegacySeed | SourceArchiveWorker | SourceLLMProposal | SourceImported
  | SourceOther (s : string).
Inductive Technique :=
  | TechniqueConstitutionalSelfCritique | TechniqueChainOfVerification | TechniqueExtendedThinking
  | TechniqueSkeletonOfThought | TechniqueReAct | TechniqueStepBack | TechniqueInlineWhy
  | TechniqueOther (s : string).

#[global] Instance SkillStatus_eq_dec : EqDecision SkillStatus.
Proof. solve_decision. Defined.
#[global] Instance RiskLevel_eq_dec : EqDecision RiskLevel.
Proof. solve_decision. Defined.
#[global] Instance ActivationSource_eq_dec : EqDecision ActivationSource.
Proof. solve_decision. Defined.
#[global] Instance Technique_eq_dec : EqDecision Technique.
Proof. solve_decision. Defined.

Definition skill_status_string (s : SkillStatus) : string :=
  match s with
  | SkillCandidate => "candidate" | SkillValidated => "validated" | SkillActive => "active"
  | SkillDeprecated => "deprecated" | SkillBlocked => "blocked" | SkillArchived => "archived"
  | SkillStatusOther t => t
  end.

Definition SkillStatuses : list SkillStatus :=
  [SkillCandidate; SkillValidated; SkillActive; SkillDeprecated; SkillBlocked; SkillArchived].

(** [Status(t)] *)
Definition skill_status_of (t : string) : SkillStatus :=
  default (SkillStatusOther t) (find (λ s, bool_decide (skill_status_string s = t)) SkillStatuses).

Definition SkillStatus_IsValid (s : SkillStatus) : bool :=
  match s with SkillStatusOther _ => false | _ => true end.
Definition RiskLevel_IsValid (r : RiskLevel) : bool :=
  match r with RiskOther _ => false | _ => true end.
Definition ActivationSource_IsValid (a : ActivationSource) : bool :=
  match a with SourceOther _ => false | _ => true end.
Definition Technique_IsValid (t : Technique) : bool :=
  match t with TechniqueOther _ => false | _ => true end.

Record Scope := mkScope { sc_ProjectID : string; sc_RepoID : string; sc_Phases : list string }.
Record AppliesWhen := mkAppliesWhen {
  aw_FeatureType : list string;
  aw_TouchedPaths : list string;
  aw_ExcludePaths : list string;
  aw_Framework : list string;
  aw_Language : list string;
  aw_FrameworkMinVersion : gmap string string
}.
Record Metrics := mkMetrics {
  me_UsageCount : Z;
  me_SuccessCount : Z;
  me_FailureCount : Z;
  me_TestsPassedCount : Z;
  me_DeprecatedAPIHits : Z;
  me_RollbackCount : Z;
  me_AvgRetryReduction : float64;
  me_LastStackVersion : option string
}.

Definition zeroScope : Scope := mkScope "" "" [].
Definition zeroAppliesWhen : AppliesWhen := mkAppliesWhen [] [] [] [] [] ∅.
Definition zeroMetrics : Metrics := mkMetrics 0 0 0 0 0 0 f64_0 None.

Record LifecycleInput := mkLifecycle {
  li_Status : SkillStatus;
  li_Version : string;
  li_Scope : Scope;
  li_AppliesWhen : AppliesWhen;
  li_RiskLevel : RiskLevel;
  li_ActivationSource : ActivationSource;
  li_Metrics : Metrics;
  li_LastUsedAt : option Time;
  li_LastValidatedAt : option Time
}.

(** ** The aggregate (skill.go) *)

Record Skill := mkSkill {
  sk_id : SkillID;
  sk_name : string;
  sk_phases : list PhaseType;
  sk_content : string;
  sk_techniques : list Technique;
  sk_status : SkillStatus;
  sk_version : string;
  sk_scope : Scope;
  sk_appliesWhen : AppliesWhen;
  sk_riskLevel : RiskLevel;
  sk_activationSource : ActivationSource;
  sk_metrics : Metrics;
  sk_lastUsedAt : option Time;
  sk_lastValidatedAt : option Time;
  sk_createdAt : Time;
  sk_updatedAt : Time
}.

Inductive skill_error :=
  | SkErrEmptyName | SkErrEmptyContent | SkErrNoValidPhases | SkErrNoTechniques | SkErrInvalidTechnique
  | SkErrInvalidStatus | SkErrEmptyVersion | SkErrInvalidRiskLevel | SkErrInvalidActivationSource.

Definition ValidateTechniques (ts : list Technique) : option skill_error :=
  if forallb Technique_IsValid ts then None else Some SkErrInvalidTechnique.

Definition validateCore (name content : string) (ts : list Technique) : option skill_error :=
  if str_empty (TrimSpace name) then Some SkErrEmptyName
  else if str_empty (TrimSpace content) then Some SkErrEmptyContent
  else match ts with [] => Some SkErrNoTechniques | _ => ValidateTechniques ts end.

Definition validateLifecycle (lc : LifecycleInput) : option skill_error :=
  if negb (SkillStatus_IsValid (li_Status lc)) then Some SkErrInvalidStatus
  else if str_empty (TrimSpace (li_Version lc)) then Some SkErrEmptyVersion
  else if negb (RiskLevel_IsValid (li_RiskLevel lc)) then Some SkErrInvalidRiskLevel
  else if negb (ActivationSource_IsValid (li_ActivationSource lc)) then Some SkErrInvalidActivationSource
  else None.

(** Fields left at their zero value take those of [d]. *)
Definition fill_lifecycle (status : SkillStatus) (version : string) (risk : RiskLevel)
    (source : ActivationSource) (lc : LifecycleInput) : LifecycleInput :=
  mkLifecycle
    (if bool_decide (li_Status lc = SkillStatusOther "") then status else li_Status lc)
    (if str_empty (li_Version lc) then version else li_Version lc)
    (li_Scope lc) (li_AppliesWhen lc)
    (if bool_decide (li_RiskLevel lc = RiskOther "") then risk else li_RiskLevel lc)
    (if bool_decide (li_ActivationSource lc = SourceOther "") then source else li_ActivationSource lc)
    (li_Metrics lc) (li_LastUsedAt lc) (li_LastValidatedAt lc).

Definition applyLifecycleDefaults (lc : LifecycleInput) : result skill_error LifecycleInput :=
  let lc' := fill_lifecycle SkillCandidate "v1" RiskMedium SourceManual lc in
  match validateLifecycle lc' with Some e => Err e | None => Ok lc' end.

Definition mergeLifecycle (s : Skill) : LifecycleInput → LifecycleInput :=
  fill_lifecycle (sk_status s) (sk_version s) (sk_riskLevel s) (sk_activationSource s).

Definition canonicalizePhases (input : list PhaseType) : result skill_error (list PhaseType) :=
  let seen := filter (λ p, PhaseType_IsValid p = true) input in
  match seen with
  | [] => Err SkErrNoValidPhases
  | _ => Ok (filter (λ p, p ∈ seen) AllPhaseTypes)
  end.

(** Keeps the first occurrence of each tag. *)
Fixpoint dedupe_from (seen : list Technique) (input : list Technique) : list Technique :=
  match input with
  | [] => []
  | t :: input' => if bool_decide (t ∈ seen) then dedupe_from seen input' else t :: dedupe_from (t :: seen) input'
  end.
Definition dedupeTechniques : list Technique → list Technique := dedupe_from [].

Definition Skill_New (id : SkillID) (name : string) (phases : list PhaseType) (content : string)
    (techniques : list Technique) (lifecycle : LifecycleInput) (now : Time) : result skill_error Skill :=
  let? canonicalPhases := canonicalizePhases phases in
  match validateCore name content techniques with
  | Some e => Err e
  | None =>
      let? lc := applyLifecycleDefaults lifecycle in
      Ok (mkSkill id name canonicalPhases content (dedupeTechniques techniques)
            (li_Status lc) (li_Version lc) (li_Scope lc) (li_AppliesWhen lc) (li_RiskLevel lc)
            (li_ActivationSource lc) (li_Metrics lc) (li_LastUsedAt lc) (li_LastValidatedAt lc) now now)
  end.

Definition Skill_NewLegacy (id : SkillID) (name : string) (phases : list PhaseType) (content : string)
    (techniques : list Technique) (now : Time) : result skill_error Skill :=
  Skill_New id name phases content techniques
    (mkLifecycle SkillActive "v1" (mkScope "*" "*" (pt_string <$> phases)) zeroAppliesWhen RiskMedium
       SourceLegacySeed zeroMetrics None None) now.

(** [Hydrate] takes every field as it is: the constructor [mkSkill]. *)
Definition Skill_Hydrate := mkSkill.

Definition Skill_Update (name : string) (phases : list PhaseType) (content : string)
    (techniques : list Technique) (lifecycle : LifecycleInput) (now : Time) (s : Skill)
    : result skill_error Skill :=
  let? canonicalPhases := canonicalizePhases phases in
  match validateCore name content techniques with
  | Some e => Err e
  | None =>
      let merged := mergeLifecycle s lifecycle in
      match validateLifecycle merged with
      | Some e => Err e
      | None =>
          Ok (mkSkill (sk_id s) name canonicalPhases content (dedupeTechniques techniques)
                (li_Status merged) (li_Version merged) (li_Scope merged) (li_AppliesWhen merged)
                (li_RiskLevel merged) (li_ActivationSource merged) (li_Metrics merged)
                (li_LastUsedAt merged) (li_LastValidatedAt merged) (sk_createdAt s) now)
      end
  end.

Definition AppliesTo (pt : PhaseType) (s : Skill) : bool := existsb (λ p, bool_decide (p = pt)) (sk_phases s).

(** ** Versions (semver.go) *)

Definition is_digit (a : ascii) : bool := byte_in (N_of_ascii a) 48 57.

Section Semver.
Context `{UnicodeTables}.

Definition containsDigit (s : string) : bool := existsb is_digit (chars s) || has_wide_digit s.

(** What precedes and follows the first space. *)
Fixpoint cut_space (l : list ascii) : option (list ascii * list ascii) :=
  match l with
  | [] => None
  | a :: l' => if bool_decide (a = " "%char) then Some ([], l')
               else '(p, r) ← cut_space l'; Some (a :: p, r)
  end.

Definition version_prefix (a : ascii) : bool := bool_decide (a ∈ chars "^~>=<vV").

(** The value of a run of decimal digits; [strconv.Atoi] fails outside of
    int64. *)
Definition digits_value (l : list ascii) : Z :=
  foldl (λ n a, n * 10 + (Z.of_N (N_of_ascii a) - 48))%Z 0%Z l.
Definition Atoi_digits (l : list ascii) : option Z :=
  let n := digits_value l in if (n <? 2 ^ 63)%Z then Some n else None.

Definition MajorOf (version : string) : option Z :=
  let s := TrimSpace version in
  if str_empty s then None else
  let s1 :=
    match cut_space (chars s) with
    | None => s
    | Some (prefix, rest) =>
        let rest := TrimSpace (String.string_of_list_ascii rest) in
        if negb (containsDigit (String.string_of_list_ascii prefix)) && negb (str_empty rest) then rest else s
    end in
  match take_while is_digit (drop_while version_prefix (chars s1)) with
  | [] => None
  | digits => Atoi_digits digits
  end.

Definition DriftsForward (detected activeMin : string) : bool :=
  match MajorOf detected, MajorOf activeMin with
  | Some d, Some a => (a <? d)%Z
  | _, _ => false
  end.
End Semver.

(** ** Well-formed skills *)

Definition blank (s : string) : Prop := TrimSpace s = EmptyString.

Record skill_wf (s : Skill) : Prop := {
  wf_name : ¬ blank (sk_name s);
  wf_content : ¬ blank (sk_content s);
  wf_version : ¬ blank (sk_version s);
  wf_phases : sk_phases s ≠ [] ∧ sk_phases s `sublist_of` AllPhaseTypes;
  wf_techniques : sk_techniques s ≠ [] ∧ NoDup (sk_techniques s) ∧ Forall (λ t, Technique_IsValid t = true) (sk_techniques s);
  wf_enums : SkillStatus_IsValid (sk_status s) = true ∧ RiskLevel_IsValid (sk_riskLevel s) = true ∧
             ActivationSource_IsValid (sk_activationSource s) = true
}.

(** What the phases of a skill are, given what was asked for. *)
Definition phases_of (input phases : list PhaseType) : Prop :=
  phases ≠ [] ∧ phases `sublist_of` AllPhaseTypes ∧ ∀ p, p ∈ phases ↔ p ∈ input ∧ PhaseType_IsValid p = true.

Lemma PhaseType_IsValid_elem p : PhaseType_IsValid p = true ↔ p ∈ AllPhaseTypes.
Proof.
  unfold PhaseType_IsValid. rewrite existsb_exists. split.
  - intros (v & Hv & ->%bool_decide_eq_true). by apply list_elem_of_In.
  - intros Hp. exists p. split; [by apply list_elem_of_In|]. by apply bool_decide_eq_true.
Qed.

Lemma canonicalizePhases_Ok input phases : canonicalizePhases input = Ok phases → phases_of input phases.
Proof.
  unfold canonicalizePhases. set (seen := filter _ input). intros Hc.
  assert (Hmem : ∀ p, p ∈ filter (λ p, p ∈ seen) AllPhaseTypes ↔ p ∈ input ∧ PhaseType_IsValid p = true).
  { intros p. unfold seen. rewrite !list_elem_of_filter, <-PhaseType_IsValid_elem. naive_solver. }
  assert (Hs : seen ≠ [] ∧ phases = filter (λ p, p ∈ seen) AllPhaseTypes) by (destruct seen; by simplify_eq).
  destruct Hs as [Hne ->]. split_and!.
  - destruct seen as [|p l] eqn:Hseen; [done|]. assert (Hp : p ∈ seen) by (rewrite Hseen; by left).
    unfold seen in Hp. apply list_elem_of_filter in Hp as [Hv Hin]. intros Hn.
    assert (Hf : p ∈ filter (λ q, q ∈ p :: l) AllPhaseTypes) by (by apply Hmem). rewrite Hn in Hf. by apply elem_of_nil in Hf.
  - apply sublist_filter.
  - exact Hmem.
Qed.

Lemma dedupe_from_elem seen input t : t ∈ dedupe_from seen input ↔ t ∈ input ∧ t ∉ seen.
Proof.
  revert seen. induction input as [|u input IH]; intros seen; simpl; [set_solver|].
  case_bool_decide; rewrite ?elem_of_cons, IH; [naive_solver|].
  rewrite elem_of_cons. destruct (decide (t = u)); naive_solver.
Qed.

Lemma dedupe_from_NoDup seen input : NoDup (dedupe_from seen input).
Proof.
  revert seen. induction input as [|u input IH]; intros seen; simpl; [constructor|].
  case_bool_decide; [done|]. constructor; [|done]. rewrite dedupe_from_elem. set_solver.
Qed.

Lemma validateCore_None name content ts :
  validateCore name content ts = None →
  ¬ blank name ∧ ¬ blank content ∧
  dedupeTechniques ts ≠ [] ∧ NoDup (dedupeTechniques ts) ∧ Forall (λ t, Technique_IsValid t = true) (dedupeTechniques ts).
Proof.
  unfold validateCore, ValidateTechniques, str_empty, blank. repeat case_bool_decide; try done.
  destruct ts as [|t ts]; [done|]. destruct (forallb _ _) eqn:Hf; [|done]. intros _. split_and!; try done.
  - apply dedupe_from_NoDup.
  - apply Forall_forall. intros u Hu. apply dedupe_from_elem in Hu as [Hu _].
    rewrite forallb_forall in Hf. by apply Hf, list_elem_of_In.
Qed.

Lemma validateLifecycle_None lc :
  validateLifecycle lc = None →
  ¬ blank (li_Version lc) ∧ SkillStatus_IsValid (li_Status lc) = true ∧
  RiskLevel_IsValid (li_RiskLevel lc) = true ∧ ActivationSource_IsValid (li_ActivationSource lc) = true.
Proof.
  unfold validateLifecycle, str_empty, blank. intros H. split_all; bool_facts; by split_and!.
Qed.

(** A run of edits; a refused edit leaves the skill as it is. *)
Record skill_edit := mkEditOf {
  se_name : string; se_phases : list PhaseType; se_content : string; se_techniques : list Technique;
  se_lifecycle : LifecycleInput; se_now : Time
}.
Definition edit_skill (s : Skill) (e : skill_edit) : Skill :=
  match Skill_Update (se_name e) (se_phases e) (se_content e) (se_techniques e) (se_lifecycle e) (se_now e) s with
  | Ok s' => s'
  | Err _ => s
  end.

(** What an edit of [s] must be to be accepted. *)
Definition acceptable (s : Skill) (e : skill_edit) : Prop :=
  Exists (λ p, PhaseType_IsValid p = true) (se_phases e) ∧
  ¬ blank (se_name e) ∧ ¬ blank (se_content e) ∧
  se_techniques e ≠ [] ∧ Forall (λ t, Technique_IsValid t = true) (se_techniques e) ∧
  let lc := mergeLifecycle s (se_lifecycle e) in
  SkillStatus_IsValid (li_Status lc) = true ∧ ¬ blank (li_Version lc) ∧
  RiskLevel_IsValid (li_RiskLevel lc) = true ∧ ActivationSource_IsValid (li_ActivationSource lc) = true.

#[global] Instance blank_dec s : Decision (blank s).
Proof. unfold blank. apply _. Defined.
#[global] Instance acceptable_dec s e : Decision (acceptable s e).
Proof. unfold acceptable. apply _. Defined.

(** The last edit that was acceptable when it came; before any, [cur]. *)
Fixpoint last_accepted (s : Skill) (cur : skill_edit) (edits : list skill_edit) : skill_edit :=
  match edits with
  | [] => cur
  | e :: edits' => last_accepted (edit_skill s e) (if decide (acceptable s e) then e else cur) edits'
  end.

(** The skill is as the edit set it; a status, version, risk level or source
    that the edit left empty is an earlier one. *)
Record follows (s : Skill) (e : skill_edit) : Prop := {
  fo_name : sk_name s = se_name e;
  fo_content : sk_content s = se_content e;
  fo_phases : phases_of (se_phases e) (sk_phases s);
  fo_techniques : sk_techniques s = dedupeTechniques (se_techniques e);
  fo_scope : sk_scope s = li_Scope (se_lifecycle e) ∧ sk_appliesWhen s = li_AppliesWhen (se_lifecycle e);
  fo_metrics : sk_metrics s = li_Metrics (se_lifecycle e);
  fo_times : sk_lastUsedAt s = li_LastUsedAt (se_lifecycle e) ∧
             sk_lastValidatedAt s = li_LastValidatedAt (se_lifecycle e) ∧ sk_updatedAt s = se_now e;
  fo_status : li_Status (se_lifecycle e) ≠ SkillStatusOther "" → sk_status s = li_Status (se_lifecycle e);
  fo_version : li_Version (se_lifecycle e) ≠ EmptyString → sk_version s = li_Version (se_lifecycle e);
  fo_risk : li_RiskLevel (se_lifecycle e) ≠ RiskOther "" → sk_riskLevel s = li_RiskLevel (se_lifecycle e);
  fo_source : li_ActivationSource (se_lifecycle e) ≠ SourceOther "" →
              sk_activationSource s = li_ActivationSource (se_lifecycle e)
}.

Ltac followed :=
  split; try done; unfold fill_lifecycle, str_empty; simpl; intros; repeat case_bool_decide; done.

Lemma Skill_New_Ok id name phases content ts lc now s :
  Skill_New id name phases content ts lc now = Ok s →
  skill_wf s ∧ follows s (mkEditOf name phases content ts lc now) ∧ sk_id s = id ∧ sk_createdAt s = now.
Proof.
  unfold Skill_New, applyLifecycleDefaults. intros H.
  destruct (canonicalizePhases phases) as [ps|] eqn:Hp; [|done].
  destruct (validateCore name content ts) eqn:Hc; [done|].
  destruct (validateLifecycle _) eqn:Hl; [done|]. simplify_eq/=.
  apply canonicalizePhases_Ok in Hp as Hp'. apply validateCore_None in Hc as (? & ? & ? & ? & ?).
  apply validateLifecycle_None in Hl as (? & ? & ? & ?). destruct Hp' as (? & ? & ?) eqn:Hph.
  split_and!; [by split|followed|done|done].
Qed.

Lemma Skill_Update_Ok e s s' :
  Skill_Update (se_name e) (se_phases e) (se_content e) (se_techniques e) (se_lifecycle e) (se_now e) s = Ok s' →
  skill_wf s' ∧ follows s' e ∧ sk_id s' = sk_id s ∧ sk_createdAt s' = sk_createdAt s.
Proof.
  destruct e as [name phases content ts lc now]. unfold Skill_Update, mergeLifecycle. simpl. intros H.
  destruct (canonicalizePhases phases) as [ps|] eqn:Hp; [|done].
  destruct (validateCore name content ts) eqn:Hc; [done|].
  destruct (validateLifecycle _) eqn:Hl; [done|]. simplify_eq/=.
  apply canonicalizePhases_Ok in Hp as Hp'. apply validateCore_None in Hc as (? & ? & ? & ? & ?).
  apply validateLifecycle_None in Hl as (? & ? & ? & ?). destruct Hp' as (? & ? & ?) eqn:Hph.
  split_and!; [by split|followed|done|done].
Qed.

Lemma canonicalizePhases_accepts phases :
  is_Ok (canonicalizePhases phases) = true ↔ Exists (λ p, PhaseType_IsValid p = true) phases.
Proof.
  unfold canonicalizePhases. rewrite Exists_exists. destruct (filter _ phases) as [|p l] eqn:Hf.
  - split; [done|]. intros (p & Hp & Hv).
    assert (Hin : p ∈ filter (λ p, PhaseType_IsValid p = true) phases) by by apply list_elem_of_filter.
    rewrite Hf in Hin. by apply elem_of_nil in Hin.
  - split; [|done]. intros _. exists p. assert (Hin : p ∈ filter (λ p, PhaseType_IsValid p = true) phases) by (rewrite Hf; by left).
    by apply list_elem_of_filter in Hin as [? ?].
Qed.

Lemma validateCore_accepts name content ts :
  validateCore name content ts = None ↔
  ¬ blank name ∧ ¬ blank content ∧ ts ≠ [] ∧ Forall (λ t, Technique_IsValid t = true) ts.
Proof.
  unfold validateCore, ValidateTechniques, str_empty, blank. repeat case_bool_decide; try naive_solver.
  rewrite Forall_forall. destruct ts as [|t ts]; [naive_solver|].
  destruct (forallb Technique_IsValid (t :: ts)) eqn:Hf.
  - split; [|done]. intros _. split_and!; try done. rewrite forallb_forall in Hf. intros u Hu. by apply Hf, list_elem_of_In.
  - split; [done|]. intros (_ & _ & _ & Hall).
    assert (forallb Technique_IsValid (t :: ts) = true) by (apply forallb_forall; intros u Hu; by apply Hall, list_elem_of_In).
    congruence.
Qed.

Lemma validateLifecycle_accepts lc :
  validateLifecycle lc = None ↔
  SkillStatus_IsValid (li_Status lc) = true ∧ ¬ blank (li_Version lc) ∧
  RiskLevel_IsValid (li_RiskLevel lc) = true ∧ ActivationSource_IsValid (li_ActivationSource lc) = true.
Proof.
  unfold validateLifecycle, str_empty, blank. case_bool_decide;
    destruct (SkillStatus_IsValid _), (RiskLevel_IsValid _), (ActivationSource_IsValid _); naive_solver.
Qed.

(** Exactly the acceptable edits are accepted. *)
Lemma edit_accepted s e :
  is_Ok (Skill_Update (se_name e) (se_phases e) (se_content e) (se_techniques e) (se_lifecycle e) (se_now e) s) = true
  ↔ acceptable s e.
Proof.
  unfold acceptable. cbv zeta. rewrite <-canonicalizePhases_accepts, <-validateLifecycle_accepts.
  pose proof (validateCore_accepts (se_name e) (se_content e) (se_techniques e)) as Hc. unfold Skill_Update.
  destruct (canonicalizePhases _) as [ps|x]; cbn [is_Ok]; [|by split; [|intros [? _]]].
  destruct (validateCore _ _ _) as [x|].
  - split; [done|]. intros (_ & H1 & H2 & H3 & H4 & _). by discriminate (proj2 Hc (conj H1 (conj H2 (conj H3 H4)))).
  - destruct (proj1 Hc eq_refl) as (? & ? & ? & ?).
    destruct (validateLifecycle _); [by split; [|intros (_ & _ & _ & _ & _ & ?)]|]. split; [|done]. intros _. by split_and!.
Qed.

(** The invariant of a run of edits. *)
Definition as_set (id : SkillID) (now : Time) (s : Skill) (cur : skill_edit) : Prop :=
  skill_wf s ∧ follows s cur ∧ sk_id s = id ∧ sk_createdAt s = now.

Lemma edits_as_set id now edits s cur :
  as_set id now s cur → as_set id now (foldl edit_skill s edits) (last_accepted s cur edits).
Proof.
  revert s cur. induction edits as [|e edits IH]; intros s cur Hs; [done|]. simpl. apply IH.
  destruct Hs as (Hw & Hf & Hi & Ha). pose proof (edit_accepted s e) as He.
  pose proof (Skill_Update_Ok e s) as Hu. unfold edit_skill in *.
  destruct (Skill_Update _ _ _ _ _ _ s) as [s'|x].
  - destruct (Hu s' eq_refl) as (? & ? & Hi' & Ha'). rewrite decide_True by by apply He.
    split_and!; congruence.
  - rewrite decide_False; [by split_and!|]. intros Hacc. by apply He in Hacc.
Qed.

Lemma AppliesTo_elem pt s : AppliesTo pt s = true ↔ pt ∈ sk_phases s.
Proof.
  unfold AppliesTo. rewrite existsb_exists. split.
  - intros (p & Hp & ->%bool_decide_eq_true). by apply list_elem_of_In.
  - intros Hp. exists pt. split; [by apply list_elem_of_In|by apply bool_decide_eq_true].
Qed.

(** C23: (skills are well formed) a skill that was constructed and then edited any
    number of times has a name, content and version that are not blank, a
    non-empty list of valid phases in canonical order without repetitions, a
    non-empty list of distinct known techniques, and a known status, risk level
    and source; it keeps its identifier and creation time; and its settings are
    those of the construction or, if an edit was accepted, of the last accepted
    one, where an edit is accepted exactly when it names a valid phase, its name
    and content are not blank, its techniques are known and not empty, and its
    lifecycle fields, the empty ones taken from the skill, are known ones: the
    skill applies to a phase exactly when that edit names it and it is valid. *)
Theorem skill_stays_well_formed id name phases content ts lc now edits s0 :
  Skill_New id name phases content ts lc now = Ok s0 →
  let s := foldl edit_skill s0 edits in
  let last := last_accepted s0 (mkEditOf name phases content ts lc now) edits in
  skill_wf s ∧ sk_id s = id ∧ sk_createdAt s = now ∧ follows s last ∧
  ∀ pt, AppliesTo pt s = true ↔ pt ∈ se_phases last ∧ PhaseType_IsValid pt = true.
Proof.
  intros Hs0%Skill_New_Ok. cbv zeta.
  destruct (edits_as_set id now edits s0 _ Hs0) as (Hw & Hf & Hi & Ha). split_and!; try done.
  intros pt. rewrite AppliesTo_elem. apply (fo_phases _ _ Hf).
Qed.
