(* ===== verification/SkillStore.v ===== *)
(** * The skill tables

    [internal/adapters/outbound/pg]: skill_repo.go, reeval_audit_repo.go and the
    reads of skill_usage_repo.go, over the tables of migrations 009 to 013.  Each
    statement, and each transaction, is one atomic step. *)
From S2P Require Import Prelude Ids Json Envelope PhaseDomain ChangeDomain ApplyDomain Session Outbox Store BoardStore Effects Concurrency SkillDomain.
From stdpp Require Import list sorting.

(** The collation of the database, for ORDER BY on text. *)
Class Collation := text_leb : string → string → bool.

(** ** Rows *)

(** outbound.ReevalRunItem and outbound.ReevalRun *)
Record ReevalRunItem := mkRunItem { ri_ID : string; ri_SkillID : string; ri_PriorStatus : string; ri_NewStatus : string }.
Inductive RunMode := ModeApply | ModeRevert.
Record ReevalRun := mkRun {
  rr_ID : string;
  rr_Mode : RunMode;
  rr_RevertsRunID : string;      (* NULL is the empty string *)
  rr_CreatedAt : Time;
  rr_Items : list ReevalRunItem
}.

Record skill_db := mkSkillDb {
  sd_skills : gmap SkillID Skill;
  sd_usage : gmap SkillUsageID SkillUsage;
  sd_runs : gmap string ReevalRun;
  sd_phases : gmap PhaseID Phase;
  sd_board : board_db
}.

Definition sd_with_skills f (d : skill_db) : skill_db :=
  mkSkillDb (f (sd_skills d)) (sd_usage d) (sd_runs d) (sd_phases d) (sd_board d).
Definition sd_with_runs f (d : skill_db) : skill_db :=
  mkSkillDb (sd_skills d) (sd_usage d) (f (sd_runs d)) (sd_phases d) (sd_board d).

(** ** skills (skill_repo.go) *)

(** The CHECK constraints of migration 010. *)
Definition skill_check (s : Skill) : bool :=
  SkillStatus_IsValid (sk_status s) && RiskLevel_IsValid (sk_riskLevel s)
  && ActivationSource_IsValid (sk_activationSource s).

(** The row with the name and version of [s]: UNIQUE (name, version). *)
Definition same_version (s r : Skill) : bool :=
  bool_decide (sk_name r = sk_name s) && bool_decide (sk_version r = sk_version s).
Definition find_version (s : Skill) (m : gmap SkillID Skill) : option (SkillID * Skill) :=
  find (λ kv, same_version s kv.2) (map_to_list m).

(** INSERT ... ON CONFLICT (name, version) DO UPDATE SET every column, id
    included, but created_at; a clash on the primary key alone is an error. *)
Definition skill_Upsert (s : Skill) (m : gmap SkillID Skill) : result store_error (gmap SkillID Skill) :=
  if negb (skill_check s) then Err ErrStore else
  match find_version s m with
  | Some (id, r) =>
      match delete id m !! sk_id s with
      | Some _ => Err ErrStore
      | None =>
          Ok (<[sk_id s :=
                mkSkill (sk_id s) (sk_name r) (sk_phases s) (sk_content s) (sk_techniques s) (sk_status s)
                  (sk_version r) (sk_scope s) (sk_appliesWhen s) (sk_riskLevel s) (sk_activationSource s)
                  (sk_metrics s) (sk_lastUsedAt s) (sk_lastValidatedAt s) (sk_createdAt r) (sk_updatedAt s)]>
              (delete id m))
      end
  | None =>
      match m !! sk_id s with
      | Some _ => Err ErrStore
      | None => Ok (<[sk_id s := s]> m)
      end
  end.

(** ON CONFLICT (name, version) DO NOTHING *)
Definition skill_InsertIfAbsent (s : Skill) (m : gmap SkillID Skill) : result store_error (gmap SkillID Skill) :=
  if negb (skill_check s) then Err ErrStore else
  match find_version s m with
  | Some _ => Ok m
  | None =>
      match m !! sk_id s with
      | Some _ => Err ErrStore
      | None => Ok (<[sk_id s := s]> m)
      end
  end.

Definition skill_rows (keep : Skill → bool) (m : gmap SkillID Skill) : list Skill :=
  filter (λ s, keep s = true) (map_to_list m).*2.

Definition is_active (s : Skill) : bool := bool_decide (sk_status s = SkillActive).

Definition skill_FindByPhase (pt : PhaseType) : gmap SkillID Skill → list Skill :=
  skill_rows (λ s, AppliesTo pt s && is_active s).

Definition skill_ActiveByName (name : string) : gmap SkillID Skill → list Skill :=
  skill_rows (λ s, bool_decide (sk_name s = name) && is_active s).

Definition name_le `{Collation} (x y : Skill) : Prop := text_leb (sk_name x) (sk_name y) = true.
#[global] Instance name_le_dec `{Collation} x y : Decision (name_le x y).
Proof. unfold name_le. apply _. Defined.

(** ORDER BY name *)
Definition skill_List `{Collation} (m : gmap SkillID Skill) : list Skill := merge_sort name_le (map_to_list m).*2.

Definition skill_FindByID (id : SkillID) (m : gmap SkillID Skill) : result store_error Skill :=
  match m !! id with Some s => Ok s | None => Err ErrNotFound end.

(** Additive counters wrap at 64 bits; the average is overwritten unless zero. *)
Definition add_metrics (delta cur : Metrics) : Metrics :=
  mkMetrics (wrap64 (me_UsageCount cur + me_UsageCount delta))
    (wrap64 (me_SuccessCount cur + me_SuccessCount delta))
    (wrap64 (me_FailureCount cur + me_FailureCount delta))
    (wrap64 (me_TestsPassedCount cur + me_TestsPassedCount delta))
    (wrap64 (me_DeprecatedAPIHits cur + me_DeprecatedAPIHits delta))
    (wrap64 (me_RollbackCount cur + me_RollbackCount delta))
    (if Qeq_bool (me_AvgRetryReduction delta) f64_0 then me_AvgRetryReduction cur else me_AvgRetryReduction delta)
    (me_LastStackVersion cur).

Definition with_metrics (me : Metrics) (now : Time) (s : Skill) : Skill :=
  mkSkill (sk_id s) (sk_name s) (sk_phases s) (sk_content s) (sk_techniques s) (sk_status s) (sk_version s)
    (sk_scope s) (sk_appliesWhen s) (sk_riskLevel s) (sk_activationSource s) me (Some now)
    (sk_lastValidatedAt s) (sk_createdAt s) now.

Definition skill_PatchMetrics (id : SkillID) (delta : Metrics) (now : Time) (m : gmap SkillID Skill)
    : result store_error (gmap SkillID Skill) :=
  match m !! id with
  | None => Err ErrNotFound
  | Some s => Ok (<[id := with_metrics (add_metrics delta (sk_metrics s)) now s]> m)
  end.

Definition with_status (st : SkillStatus) (now : Time) (s : Skill) : Skill :=
  mkSkill (sk_id s) (sk_name s) (sk_phases s) (sk_content s) (sk_techniques s) st (sk_version s)
    (sk_scope s) (sk_appliesWhen s) (sk_riskLevel s) (sk_activationSource s) (sk_metrics s) (sk_lastUsedAt s)
    (if bool_decide (st = SkillValidated) then Some now else sk_lastValidatedAt s) (sk_createdAt s) now.

(** UPDATE ... WHERE id: the current status is not looked at. *)
Definition skill_PatchStatus (id : SkillID) (st : SkillStatus) (now : Time) (m : gmap SkillID Skill)
    : result store_error (gmap SkillID Skill) :=
  match m !! id with
  | None => Err ErrNotFound
  | Some s => if SkillStatus_IsValid st then Ok (<[id := with_status st now s]> m) else Err ErrStore
  end.

(** ** skill_usage (skill_usage_repo.go) *)

Definition injected_le (x y : SkillUsage) : Prop := (su_injectedAt x <= su_injectedAt y)%Z.
Definition injected_ge (x y : SkillUsage) : Prop := injected_le y x.
#[global] Instance injected_le_dec x y : Decision (injected_le x y).
Proof. unfold injected_le. apply _. Defined.
#[global] Instance injected_ge_dec x y : Decision (injected_ge x y).
Proof. unfold injected_ge. apply _. Defined.

Definition usage_FindByChange (cid : ChangeID) (d : skill_db) : list SkillUsage :=
  merge_sort injected_le (filter (λ u, su_changeID u = cid) (map_to_list (sd_usage d)).*2).
Definition usage_FindBySkill (sid : SkillID) (d : skill_db) : list SkillUsage :=
  merge_sort injected_ge (filter (λ u, su_skillID u = sid) (map_to_list (sd_usage d)).*2).

(** tasks joined with groups, apply_boards and phases *)
Definition task_change (d : skill_db) (t : Task) : option ChangeID :=
  g ← bd_groups (sd_board d) !! t_groupID t;
  b ← bd_boards (sd_board d) !! g_boardID g;
  p ← sd_phases d !! b_phaseID b;
  Some (p_changeID p).

Definition SumApplyAttemptsByChange (cid : ChangeID) (d : skill_db) : Z :=
  foldr Z.add 0%Z (t_attempts <$> filter (λ t, task_change d t = Some cid) (map_to_list (bd_tasks (sd_board d))).*2).

(** ** reeval_run and reeval_run_item (reeval_audit_repo.go) *)

(** The run and its items in one transaction: every primary key is new. *)
Definition run_Save (r : ReevalRun) (m : gmap string ReevalRun) : result store_error (gmap string ReevalRun) :=
  match m !! rr_ID r with
  | Some _ => Err ErrStore
  | None =>
      let used := mjoin ((λ kv, ri_ID <$> rr_Items kv.2) <$> map_to_list m) in
      if bool_decide (NoDup (used ++ (ri_ID <$> rr_Items r))) then Ok (<[rr_ID r := r]> m) else Err ErrStore
  end.

Definition item_le `{Collation} (x y : ReevalRunItem) : Prop := text_leb (ri_ID x) (ri_ID y) = true.
#[global] Instance item_le_dec `{Collation} x y : Decision (item_le x y).
Proof. unfold item_le. apply _. Defined.

(** Items come back ORDER BY id. *)
Definition scanRun `{Collation} (r : ReevalRun) : ReevalRun :=
  mkRun (rr_ID r) (rr_Mode r) (rr_RevertsRunID r) (rr_CreatedAt r) (merge_sort item_le (rr_Items r)).

Definition run_FindByID `{Collation} (id : string) (m : gmap string ReevalRun) : result store_error ReevalRun :=
  match m !! id with Some r => Ok (scanRun r) | None => Err ErrNotFound end.

(** ORDER BY created_at DESC, id DESC LIMIT 1 *)
Definition run_later `{Collation} (x y : ReevalRun) : bool :=
  (rr_CreatedAt y <? rr_CreatedAt x)%Z
  || ((rr_CreatedAt y =? rr_CreatedAt x)%Z && negb (text_leb (rr_ID x) (rr_ID y))).
Definition run_FindLatest `{Collation} (m : gmap string ReevalRun) : result store_error ReevalRun :=
  match best run_later (map_to_list m).*2 with Some r => Ok (scanRun r) | None => Err ErrNotFound end.

Definition run_ExistsByRevertsRunID (id : string) (m : gmap string ReevalRun) : bool :=
  existsb (λ kv, negb (str_empty (rr_RevertsRunID kv.2)) && bool_decide (rr_RevertsRunID kv.2 = id)) (map_to_list m).

(** ** Statements and effects *)

Inductive skop : Type → Type :=
  | SkNow : skop Time
  | SkNewID : skop string
  | SkPick : skop bool
  | SkList : skop (result store_error (list Skill))
  | SkFindByID (id : SkillID) : skop (result store_error Skill)
  | SkActiveByName (name : string) : skop (result store_error (list Skill))
  | SkUpsert (s : Skill) : skop (option store_error)
  | SkInsertIfAbsent (s : Skill) : skop (option store_error)
  | SkPatchStatus (id : SkillID) (st : SkillStatus) (now : Time) : skop (option store_error)
  | SkPatchMetrics (id : SkillID) (delta : Metrics) (now : Time) : skop (option store_error)
  | SkUsageByChange (cid : ChangeID) : skop (result store_error (list SkillUsage))
  | SkUsageBySkill (sid : SkillID) : skop (result store_error (list SkillUsage))
  | SkSumAttempts (cid : ChangeID) : skop (result store_error Z)
  | SkRunSave (r : ReevalRun) : skop (option store_error)
  | SkRunFind (id : string) : skop (result store_error ReevalRun)
  | SkRunLatest : skop (result store_error ReevalRun)
  | SkRunExists (id : string) : skop (result store_error bool).

Abbreviation skprog := (free skop).
Definition sk {R} (e : skop R) : skprog R := Do e Ret.

(** Statements that write. *)
Definition sk_writes {R} (e : skop R) : bool :=
  match e with
  | SkUpsert _ | SkInsertIfAbsent _ | SkPatchStatus _ _ _ | SkPatchMetrics _ _ _ | SkRunSave _ => true
  | _ => false
  end.

(** Clock, identifiers, scheduler and faults, by the number of effects so
    far. *)
Record skenv := mkSkEnv {
  se_clock : nat → Time;
  se_id : nat → string;
  se_pick : nat → bool;
  se_fault : nat → fault
}.

Section Exec.
Context `{Collation}.

Definition sk_read {A} (f : fault) (a : A) : result store_error A :=
  match f with NoFault => Ok a | _ => Err ErrStore end.
Definition sk_find {A} (f : fault) (a : result store_error A) : result store_error A :=
  match f with NoFault => a | _ => Err ErrStore end.

Definition sk_write {M} (f : fault) (r : result store_error M) (put : M → skill_db) (d : skill_db)
    : option store_error * skill_db :=
  let d' := match r with Ok m => put m | Err _ => d end in
  match f with
  | NoFault => (match r with Ok _ => None | Err e => Some e end, d')
  | FailBefore => (Some ErrStore, d)
  | FailAfter => (Some ErrStore, d')
  end.

Definition put_skills (d : skill_db) (m : gmap SkillID Skill) : skill_db := sd_with_skills (λ _, m) d.
Definition put_runs (d : skill_db) (m : gmap string ReevalRun) : skill_db := sd_with_runs (λ _, m) d.

Definition skperform (E : skenv) {R} (e : skop R) (n : nat) (d : skill_db) : R * skill_db :=
  let f := se_fault E n in
  match e with
  | SkNow => (se_clock E n, d)
  | SkNewID => (se_id E n, d)
  | SkPick => (se_pick E n, d)
  | SkList => (sk_read f (skill_List (sd_skills d)), d)
  | SkFindByID id => (sk_find f (skill_FindByID id (sd_skills d)), d)
  | SkActiveByName name => (sk_read f (skill_ActiveByName name (sd_skills d)), d)
  | SkUpsert s => sk_write f (skill_Upsert s (sd_skills d)) (put_skills d) d
  | SkInsertIfAbsent s => sk_write f (skill_InsertIfAbsent s (sd_skills d)) (put_skills d) d
  | SkPatchStatus id st now => sk_write f (skill_PatchStatus id st now (sd_skills d)) (put_skills d) d
  | SkPatchMetrics id delta now => sk_write f (skill_PatchMetrics id delta now (sd_skills d)) (put_skills d) d
  | SkUsageByChange cid => (sk_read f (usage_FindByChange cid d), d)
  | SkUsageBySkill sid => (sk_read f (usage_FindBySkill sid d), d)
  | SkSumAttempts cid => (sk_read f (SumApplyAttemptsByChange cid d), d)
  | SkRunSave r => sk_write f (run_Save r (sd_runs d)) (put_runs d) d
  | SkRunFind id => (sk_find f (run_FindByID id (sd_runs d)), d)
  | SkRunLatest => (sk_find f (run_FindLatest (sd_runs d)), d)
  | SkRunExists id => (sk_read f (run_ExistsByRevertsRunID id (sd_runs d)), d)
  end.

Fixpoint skexec (E : skenv) {A} (m : skprog A) (n : nat) (d : skill_db) : A * nat * skill_db :=
  match m with
  | Ret a => (a, n, d)
  | Do e k => let '(r, d') := skperform E e n d in skexec E (k r) (S n) d'
  end.

(** [Q] holds of the answer, the clock tick and the tables when [m] has run. *)
Definition skruns (E : skenv) {A} (m : skprog A) (Q : A → nat → skill_db → Prop) (n : nat) (d : skill_db) : Prop :=
  let '(a, n', d') := skexec E m n d in Q a n' d'.

Lemma skexec_bind E {A B} (m : skprog A) (f : A → skprog B) n d :
  skexec E (prog_bind m f) n d = let '(a, n', d') := skexec E m n d in skexec E (f a) n' d'.
Proof.
  revert n d. induction m as [a|R e k IH]; intros n d; simpl; [done|].
  destruct (skperform E e n d) as [r d']. apply IH.
Qed.

Lemma skruns_bind E {A B} (m : skprog A) (f : A → skprog B) Q n d :
  skruns E m (λ a n' d', skruns E (f a) Q n' d') n d → skruns E (prog_bind m f) Q n d.
Proof. unfold skruns. rewrite skexec_bind. by destruct (skexec E m n d) as [[??]?]. Qed.

Lemma skruns_mono E {A} (m : skprog A) (Q Q' : A → nat → skill_db → Prop) n d :
  skruns E m Q n d → (∀ a n' d', Q a n' d' → Q' a n' d') → skruns E m Q' n d.
Proof. unfold skruns. destruct (skexec E m n d) as [[??]?]. auto. Qed.

Lemma skruns_ret E {A} (a : A) (Q : A → nat → skill_db → Prop) n d : Q a n d → skruns E (Ret a) Q n d.
Proof. done. Qed.

Lemma skruns_do E {A R} (e : skop R) (k : R → skprog A) Q n d :
  skruns E (k (skperform E e n d).1) Q (S n) (skperform E e n d).2 → skruns E (Do e k) Q n d.
Proof. unfold skruns. simpl. by destruct (skperform E e n d). Qed.

Lemma skruns_sk E {A R} (e : skop R) (k : R → skprog A) Q n d :
  skruns E (k (skperform E e n d).1) Q (S n) (skperform E e n d).2 → skruns E (prog_bind (sk e) k) Q n d.
Proof. intros H0. apply skruns_bind. unfold skruns at 1, sk. simpl. by destruct (skperform E e n d). Qed.
End Exec.

(** ** The keys of the table *)

(** Rows sit under their id; name and version are unique. *)
Record skills_ok (m : gmap SkillID Skill) : Prop := {
  so_id : ∀ i s, m !! i = Some s → sk_id s = i;
  so_unique : ∀ i j s t, m !! i = Some s → m !! j = Some t → sk_name s = sk_name t → sk_version s = sk_version t → i = j;
  so_check : ∀ i s, m !! i = Some s → skill_check s = true
}.

Lemma find_version_Some s m i r :
  find_version s m = Some (i, r) → m !! i = Some r ∧ sk_name r = sk_name s ∧ sk_version r = sk_version s.
Proof.
  unfold find_version. intros Hf. apply find_some in Hf as [Hin Hs].
  unfold same_version in Hs. apply andb_true_iff in Hs as [Hn%bool_decide_eq_true Hv%bool_decide_eq_true].
  apply list_elem_of_In, elem_of_map_to_list in Hin. done.
Qed.

Lemma find_version_None s m i r :
  find_version s m = None → m !! i = Some r → sk_name r = sk_name s → sk_version r = sk_version s → False.
Proof.
  unfold find_version. intros Hf Hr Hn Hv. assert (Hin : In (i, r) (map_to_list m)) by (by apply list_elem_of_In, elem_of_map_to_list).
  pose proof (find_none _ _ Hf _ Hin) as Hs. unfold same_version in Hs. cbn [snd] in Hs.
  by rewrite !bool_decide_eq_true_2 in Hs.
Qed.

(** A new row, when no other row has its name and version. *)
Lemma skills_ok_insert m s :
  skills_ok m → skill_check s = true →
  (∀ i r, m !! i = Some r → sk_name r = sk_name s → sk_version r = sk_version s → i = sk_id s) →
  skills_ok (<[sk_id s := s]> m).
Proof.
  intros [Hid Hu Hc] Hs Hnew. split.
  - intros i r [[<- <-]|[_ Hr]]%lookup_insert_Some; [done|by apply Hid].
  - intros i j r t [[<- <-]|[_ Hr]]%lookup_insert_Some [[<- <-]|[_ Ht]]%lookup_insert_Some Hn Hv;
      [done|by symmetry; eapply Hnew|by eapply Hnew|by eapply Hu].
  - intros i r [[<- <-]|[_ Hr]]%lookup_insert_Some; [done|by eapply Hc].
Qed.

Lemma skills_ok_delete m i : skills_ok m → skills_ok (delete i m).
Proof. intros [Hid Hu Hc]. split; intros *; rewrite ?lookup_delete_Some; naive_solver. Qed.

Lemma skill_InsertIfAbsent_ok s m m' : skills_ok m → skill_InsertIfAbsent s m = Ok m' → skills_ok m'.
Proof.
  intros Hm. unfold skill_InsertIfAbsent. destruct (skill_check s) eqn:Hc; [|done]. cbn [negb].
  destruct (find_version s m) eqn:Hf; [by intros; simplify_eq|]. destruct (m !! sk_id s); [done|]. intros Hi. simplify_eq.
  apply skills_ok_insert; [done|done|]. intros i r ???. by destruct (find_version_None s m i r).
Qed.

Lemma skill_Upsert_ok s m m' : skills_ok m → skill_Upsert s m = Ok m' → skills_ok m'.
Proof.
  intros Hm. unfold skill_Upsert. destruct (skill_check s) eqn:Hc; [|done]. cbn [negb].
  destruct (find_version s m) as [[i r]|] eqn:Hf.
  - destruct (delete i m !! sk_id s) eqn:Hd; [done|]. intros Hi. simplify_eq.
    apply find_version_Some in Hf as (Hr & Hn & Hv).
    match goal with |- skills_ok (<[_ := ?x]> _) => change (skills_ok (<[sk_id x := x]> (delete i m))) end.
    apply skills_ok_insert; [by apply skills_ok_delete|done|]. intros j t [Hj Ht]%lookup_delete_Some Hn' Hv'.
    destruct Hj. cbn in Hn', Hv'. eapply (so_unique _ Hm); [done|done|congruence|congruence].
  - destruct (m !! sk_id s); [done|]. intros Hi. simplify_eq. apply skills_ok_insert; [done|done|].
    intros i r ???. by destruct (find_version_None s m i r).
Qed.

(** An update that leaves id, name and version alone, and a valid status. *)
Lemma skills_ok_update m i s s' :
  skills_ok m → m !! i = Some s → (sk_id s', sk_name s', sk_version s') = (sk_id s, sk_name s, sk_version s) →
  skill_check s' = true → skills_ok (<[i := s']> m).
Proof.
  intros Hm Hs Heq Hc. simplify_eq. rewrite <-(so_id _ Hm _ _ Hs). replace (sk_id s) with (sk_id s') by congruence.
  apply skills_ok_insert; [done|done|]. intros j r Hr Hn Hv.
  assert (Hid : sk_id s' = sk_id s) by congruence. rewrite Hid, (so_id _ Hm _ _ Hs).
  eapply (so_unique _ Hm); [done|done|congruence|congruence].
Qed.

Lemma skperform_ok `{Collation} E {R} (e : skop R) n d :
  skills_ok (sd_skills d) → skills_ok (sd_skills (skperform E e n d).2).
Proof.
  intros Hm. assert (Hw : ∀ f (r : result store_error (gmap SkillID Skill)),
    (∀ m, r = Ok m → skills_ok m) → skills_ok (sd_skills (sk_write f r (put_skills d) d).2)).
  { intros f r Hr. unfold sk_write. destruct f, r; simpl; auto. }
  destruct e; simpl; try done; try apply Hw.
  - intros m. by apply skill_Upsert_ok.
  - intros m. by apply skill_InsertIfAbsent_ok.
  - intros m Hp. unfold skill_PatchStatus in Hp. destruct (sd_skills d !! id) as [s|] eqn:Hs; [|done].
    destruct (SkillStatus_IsValid st) eqn:Hv; [|done]. simplify_eq. eapply skills_ok_update; [done|done|done|].
    pose proof (so_check _ Hm _ _ Hs) as Hc. unfold skill_check in *. simpl. rewrite Hv.
    apply andb_true_iff in Hc as [[_ H1]%andb_true_iff H2]. by rewrite H1, H2.
  - intros m Hp. unfold skill_PatchMetrics in Hp. destruct (sd_skills d !! id) as [s|] eqn:Hs; [|done].
    simplify_eq. eapply skills_ok_update; [done|done|done|]. apply (so_check _ Hm _ _ Hs).
  - unfold sk_write. by destruct (se_fault E n), (run_Save r (sd_runs d)).
Qed.

(** (the keys of the skill table) whatever program of statements runs against
    the skill tables, and whatever faults it meets, every row stays under its own
    identifier, no two rows have the same name and version, and status, risk
    level and source are among the known ones, even where an upsert gives a row
    a new identifier. *)
Theorem skill_table_keeps_its_keys `{Collation} E {A} (m : skprog A) n d :
  skills_ok (sd_skills d) → let '(_, _, d') := skexec E m n d in skills_ok (sd_skills d').
Proof.
  revert n d. induction m as [a|R e k IH]; intros n d Hd; [done|]. cbn [skexec].
  pose proof (skperform_ok E e n d Hd) as He. destruct (skperform E e n d) as [r d']. by apply IH.
Qed.
