(* ===== verification/SkillService.v ===== *)
(** * The skill service and the reevaluator

    [internal/application/skill]: service.go, transition_path.go, reeval.go and
    reeval_provider.go as programs over the skill tables. *)
From S2P Require Import Prelude Ids Json Envelope PhaseDomain ChangeDomain ApplyDomain Session Outbox Store BoardStore Effects Concurrency SkillDomain SkillStore.
From stdpp Require Import list.

(** ** The transition graph (service.go) *)

Definition allowedTransitions (s : SkillStatus) : list SkillStatus :=
  match s with
  | SkillCandidate => [SkillValidated; SkillBlocked]
  | SkillValidated => [SkillActive; SkillBlocked]
  | SkillActive => [SkillDeprecated; SkillBlocked]
  | SkillDeprecated => [SkillBlocked]
  | SkillBlocked => [SkillCandidate]
  | SkillArchived => []
  | SkillStatusOther _ => []
  end.

Definition allowed (s t : SkillStatus) : bool := bool_decide (t ∈ allowedTransitions s).

(** ** Shortest legal path (transition_path.go) *)

Definition statusOrder : list SkillStatus := SkillStatuses.

Definition orderedTargets (cur : SkillStatus) : list SkillStatus := filter (λ s, allowed cur s = true) statusOrder.

(** One pass over the neighbours of [cur]: the search has found [to], or goes on
    with what it has visited, where it came from, and its queue. *)
Inductive bfs_step :=
  | BfsFound (prev : list (SkillStatus * SkillStatus))
  | BfsMore (visited : list SkillStatus) (prev : list (SkillStatus * SkillStatus)) (queue : list SkillStatus).

Fixpoint bfs_targets (to cur : SkillStatus) (targets visited : list SkillStatus)
    (prev : list (SkillStatus * SkillStatus)) (queue : list SkillStatus) : bfs_step :=
  match targets with
  | [] => BfsMore visited prev queue
  | next :: targets' =>
      if bool_decide (next ∈ visited) then bfs_targets to cur targets' visited prev queue
      else
        let prev' := (next, cur) :: prev in
        if bool_decide (next = to) then BfsFound prev'
        else bfs_targets to cur targets' (next :: visited) prev' (queue ++ [next])
  end.

(** One round per status that is ever queued, and one to see the empty queue. *)
Definition bfs_fuel : nat := S (S (length statusOrder)).

Fixpoint bfs (fuel : nat) (to : SkillStatus) (queue visited : list SkillStatus)
    (prev : list (SkillStatus * SkillStatus)) : option (option (list (SkillStatus * SkillStatus))) :=
  match fuel with
  | O => None
  | S fuel' =>
      match queue with
      | [] => Some None
      | cur :: queue' =>
          match bfs_targets to cur (orderedTargets cur) visited prev queue' with
          | BfsFound prev' => Some (Some prev')
          | BfsMore visited' prev' queue'' => bfs fuel' to queue'' visited' prev'
          end
      end
  end.

Definition came_from (prev : list (SkillStatus * SkillStatus)) (s : SkillStatus) : SkillStatus :=
  match find (λ kv, bool_decide (kv.1 = s)) prev with
  | Some kv => kv.2
  | None => SkillStatusOther ""       (* a missing key of a Go map *)
  end.

Fixpoint reconstruct_rev (fuel : nat) (prev : list (SkillStatus * SkillStatus)) (from cur : SkillStatus)
    : list SkillStatus :=
  match fuel with
  | O => []
  | S fuel' => if bool_decide (cur = from) then [] else cur :: reconstruct_rev fuel' prev from (came_from prev cur)
  end.
Definition reconstruct (prev : list (SkillStatus * SkillStatus)) (from to : SkillStatus) : list SkillStatus :=
  reverse (reconstruct_rev bfs_fuel prev from to).

(** [None] is [(nil, false)]. *)
Definition transitionPath (from to : SkillStatus) : option (list SkillStatus) :=
  if bool_decide (from = to) then Some [] else
  match bfs bfs_fuel to [from] [from] [] with
  | Some (Some prev) => Some (reconstruct prev from to)
  | _ => None
  end.

(** ** The service (service.go) *)

Inductive skill_svc_error :=
  | SkSvcStore (e : store_error) | SkSvcInvalidStatus | ErrForbiddenStatusTransition | SkSvcInvalidID
  | ErrNoLegalRevertPath | SkSvcNoop.

Record MetricsDelta := mkMetricsDelta {
  md_SuccessDelta : Z; md_FailureDelta : Z; md_TestsPassedDelta : Z; md_RollbackDelta : Z;
  md_DeprecatedAPIHits : Z; md_UsageDelta : Z; md_AvgRetryReduction : float64
}.

Section Service.
Context `{UlidLib}.

Definition svc_write (e : option store_error) : result skill_svc_error unit :=
  match e with None => Ok tt | Some e => Err (SkSvcStore e) end.

Definition PatchMetrics (skillID : string) (delta : MetricsDelta) : skprog (result skill_svc_error unit) :=
  match ParseID SkillK skillID with
  | Err _ => Ret (Err (SkSvcStore ErrNotFound))
  | Ok id =>
      let! now := sk SkNow in
      let! e := sk (SkPatchMetrics id
        (mkMetrics (md_UsageDelta delta) (md_SuccessDelta delta) (md_FailureDelta delta) (md_TestsPassedDelta delta)
           (md_DeprecatedAPIHits delta) (md_RollbackDelta delta) (md_AvgRetryReduction delta) None) now) in
      Ret (svc_write e)
  end.

Definition PatchStatus (skillID status : string) : skprog (result skill_svc_error unit) :=
  match ParseID SkillK skillID with
  | Err _ => Ret (Err (SkSvcStore ErrNotFound))
  | Ok id =>
      let newStatus := skill_status_of status in
      if negb (SkillStatus_IsValid newStatus) then Ret (Err SkSvcInvalidStatus) else
      let! current := sk (SkFindByID id) in
      match current with
      | Err e => Ret (Err (SkSvcStore e))
      | Ok s =>
          if negb (allowed (sk_status s) newStatus) then Ret (Err ErrForbiddenStatusTransition) else
          let! now := sk SkNow in
          let! e := sk (SkPatchStatus id newStatus now) in
          Ret (svc_write e)
      end
  end.

Definition CurrentStatus (skillID : string) : skprog (result skill_svc_error SkillStatus) :=
  match ParseID SkillK skillID with
  | Err _ => Ret (Err (SkSvcStore ErrNotFound))
  | Ok id =>
      let! current := sk (SkFindByID id) in
      Ret (match current with Err e => Err (SkSvcStore e) | Ok s => Ok (sk_status s) end)
  end.

(** A usage row with the attempts of its change. *)
Definition SkillUsageRow : Type := SkillUsage * Z.

Definition GetUsage (changeID : string) : skprog (result skill_svc_error (list SkillUsageRow)) :=
  match ParseID ChangeK changeID with
  | Err _ => Ret (Err SkSvcInvalidID)
  | Ok cid =>
      let! rows := sk (SkUsageByChange cid) in
      match rows with
      | Err e => Ret (Err (SkSvcStore e))
      | Ok rows =>
          let! sum := sk (SkSumAttempts cid) in
          Ret (match sum with
               | Err e => Err (SkSvcStore e)
               | Ok attempts => Ok ((λ r, (r, attempts)) <$> rows)
               end)
      end
  end.

(** The sum of a change is asked for once. *)
Fixpoint usage_rows (rows : list SkillUsage) (attemptsByChange : gmap ChangeID Z)
    : skprog (result skill_svc_error (list SkillUsageRow)) :=
  match rows with
  | [] => Ret (Ok [])
  | r :: rows' =>
      let continue_ attempts cache :=
        let! rest := usage_rows rows' cache in
        Ret (let? l := rest in Ok ((r, attempts) :: l)) in
      match attemptsByChange !! su_changeID r with
      | Some attempts => continue_ attempts attemptsByChange
      | None =>
          let! sum := sk (SkSumAttempts (su_changeID r)) in
          match sum with
          | Err e => Ret (Err (SkSvcStore e))
          | Ok attempts => continue_ attempts (<[su_changeID r := attempts]> attemptsByChange)
          end
      end
  end.

Definition GetUsageBySkill (skillID : string) : skprog (result skill_svc_error (list SkillUsageRow)) :=
  match ParseID SkillK skillID with
  | Err _ => Ret (Err SkSvcInvalidID)
  | Ok sid =>
      let! rows := sk (SkUsageBySkill sid) in
      match rows with
      | Err e => Ret (Err (SkSvcStore e))
      | Ok rows => usage_rows rows ∅
      end
  end.

(** The snapshot; the handler's JSON of scope and applies_when is left out. *)
Definition GetSkill (skillID : string) : skprog (result skill_svc_error Skill) :=
  match ParseID SkillK skillID with
  | Err _ => Ret (Err (SkSvcStore ErrNotFound))
  | Ok id =>
      let! s := sk (SkFindByID id) in
      Ret (match s with Err e => Err (SkSvcStore e) | Ok s => Ok s end)
  end.

(** ** Evidence (reeval_provider.go) *)

Record Evidence := mkEvidence {
  ev_SkillID : string; ev_CurrentStatus : SkillStatus; ev_CurrentMetric : float64; ev_ApplyAttempts : Z
}.

(** The largest sum over the distinct changes of the rows. *)
Fixpoint max_attempts (usages : list SkillUsage) (seen : list ChangeID) (maxAttempts : Z)
    : skprog (result skill_svc_error Z) :=
  match usages with
  | [] => Ret (Ok maxAttempts)
  | u :: usages' =>
      if bool_decide (su_changeID u ∈ seen) then max_attempts usages' seen maxAttempts else
      let! sum := sk (SkSumAttempts (su_changeID u)) in
      match sum with
      | Err e => Ret (Err (SkSvcStore e))
      | Ok sum =>
          max_attempts usages' (su_changeID u :: seen) (if (maxAttempts <? sum)%Z then sum else maxAttempts)
      end
  end.

Fixpoint evidence_of (skills : list Skill) : skprog (result skill_svc_error (list Evidence)) :=
  match skills with
  | [] => Ret (Ok [])
  | s :: skills' =>
      let! usages := sk (SkUsageBySkill (sk_id s)) in
      match usages with
      | Err e => Ret (Err (SkSvcStore e))
      | Ok usages =>
          let! m := max_attempts usages [] 0 in
          match m with
          | Err e => Ret (Err e)
          | Ok m =>
              let! rest := evidence_of skills' in
              Ret (let? l := rest in
                   Ok (mkEvidence (raw (sk_id s)) (sk_status s) (me_AvgRetryReduction (sk_metrics s)) m :: l))
          end
      end
  end.

Definition Rows : skprog (result skill_svc_error (list Evidence)) :=
  let! skills := sk SkList in
  match skills with
  | Err e => Ret (Err (SkSvcStore e))
  | Ok skills => evidence_of skills
  end.
End Service.

(** ** Legal paths *)

(** Every hop of [path] is an edge of the graph, and the last status is [to]. *)
Fixpoint legal_path (from : SkillStatus) (path : list SkillStatus) (to : SkillStatus) : Prop :=
  match path with
  | [] => from = to
  | s :: path' => allowed from s = true ∧ legal_path s path' to
  end.

Definition path_length (from to : SkillStatus) : option nat := length <$> transitionPath from to.

(** One hop back costs at most one step more. *)
Lemma path_length_hop from s to n :
  allowed from s = true → path_length s to = Some n → ∃ m, path_length from to = Some m ∧ m ≤ S n.
Proof.
  intros Ha. destruct from, s; try done; destruct to; vm_compute; intros Hn;
    simplify_eq; eexists; (split; [reflexivity|lia]).
Qed.

Lemma path_length_self s : path_length s s = Some 0.
Proof. unfold path_length, transitionPath. by rewrite bool_decide_eq_true_2. Qed.

Lemma legal_path_bound from path to :
  legal_path from path to → ∃ m, path_length from to = Some m ∧ m ≤ length path.
Proof.
  revert from. induction path as [|s path IH]; intros from; simpl.
  - intros ->. exists 0. by rewrite path_length_self.
  - intros [Ha (m & Hm & Hle)%IH]. destruct (path_length_hop _ _ _ _ Ha Hm) as (k & Hk & Hk').
    exists k. split; [done|lia].
Qed.

Lemma transitionPath_legal from to path : transitionPath from to = Some path → legal_path from path to.
Proof.
  unfold transitionPath. case_bool_decide as Hft; [intros Hp; by simplify_eq|].
  destruct from, to; try done; vm_compute; intros Hp; simplify_eq; repeat split.
Qed.

Lemma rtc_legal_path s t : rtc (λ s t, allowed s t = true) s t → ∃ path, legal_path s path t.
Proof.
  induction 1 as [s|s u t Hs _ (path & Hp)]; [by exists []|]. by exists (u :: path).
Qed.

(** (the search is right) the search for a path between two statuses always
    ends; a path it returns takes only legal hops, arrives, and is a shortest
    one; and when it returns none there is no sequence of legal hops at all. *)
Theorem transitionPath_shortest from to :
  match transitionPath from to with
  | Some path => legal_path from path to ∧ ∀ path', legal_path from path' to → length path ≤ length path'
  | None => from ≠ to ∧ bfs bfs_fuel to [from] [from] [] = Some None ∧ ∀ path', ¬ legal_path from path' to
  end.
Proof.
  destruct (transitionPath from to) as [path|] eqn:Hp.
  - split; [by apply transitionPath_legal|]. intros path' (m & Hm & Hle)%legal_path_bound.
    unfold path_length in Hm. rewrite Hp in Hm. by simplify_eq/=.
  - split_and!.
    + intros <-. unfold transitionPath in Hp. by rewrite bool_decide_eq_true_2 in Hp.
    + unfold transitionPath in Hp. case_bool_decide; [done|].
      destruct from, to; by vm_compute in Hp |- *.
    + intros path' (m & Hm & _)%legal_path_bound. unfold path_length in Hm. by rewrite Hp in Hm.
Qed.
