(* ===== verification/Reeval.v ===== *)
(** * Re-evaluation of skills

    [internal/application/skill/reeval.go]: the gates over the recomputed metric,
    dry run, apply with its audit record, and revert. *)
From S2P Require Import Prelude Ids Json Envelope PhaseDomain ChangeDomain ApplyDomain Session Outbox Store BoardStore Effects Concurrency Floats SkillDomain SkillStore SkillService.
From stdpp Require Import list.
From Stdlib Require Import Lqa.

(** ** Gates *)

Definition f64_1_5 : float64 := (3 # 2)%Q.
(** The doubles nearest to 0.20 and 0.05. *)
Definition promoteThreshold : float64 := (3602879701896397 # 18014398509481984)%Q.
Definition demoteThreshold : float64 := (3602879701896397 # 72057594037927936)%Q.

Inductive GateVerdict := VerdictNone | VerdictPromote | VerdictDemote.

Definition recompute (applyAttempts : Z) : float64 :=
  f64_round (f64_round (f64_1_5 - f64_round (inject_Z applyAttempts)) / f64_1_5).

Definition evaluate (current : SkillStatus) (newMetric : float64) : GateVerdict * SkillStatus * bool :=
  if negb (f64_ltb newMetric promoteThreshold) && bool_decide (current = SkillValidated)
  then (VerdictPromote, SkillActive, true)
  else if f64_ltb newMetric demoteThreshold && bool_decide (current = SkillActive)
  then (VerdictDemote, SkillDeprecated, true)
  else (VerdictNone, current, false).

Record ReevalRow := mkReevalRow {
  rv_SkillID : string;
  rv_CurrentStatus : SkillStatus;
  rv_ProposedStatus : SkillStatus;
  rv_OldMetric : float64;
  rv_NewMetric : float64;
  rv_ApplyAttempts : Z;
  rv_Verdict : GateVerdict;
  rv_WouldChange : bool;
  rv_Applied : bool;
  rv_Skipped : bool;
  rv_ApplyErr : option skill_svc_error
}.

Definition reeval_row (e : Evidence) : ReevalRow :=
  let newMetric := recompute (ev_ApplyAttempts e) in
  let '(verdict, proposed, wouldChange) := evaluate (ev_CurrentStatus e) newMetric in
  mkReevalRow (ev_SkillID e) (ev_CurrentStatus e) proposed (ev_CurrentMetric e) newMetric
    (ev_ApplyAttempts e) verdict wouldChange false false None.

Definition CountChanges (report : list ReevalRow) : nat := length (filter (λ r, rv_WouldChange r = true) report).

Definition row_applied (r : ReevalRow) : ReevalRow :=
  mkReevalRow (rv_SkillID r) (rv_CurrentStatus r) (rv_ProposedStatus r) (rv_OldMetric r) (rv_NewMetric r)
    (rv_ApplyAttempts r) (rv_Verdict r) (rv_WouldChange r) true false None.
Definition row_skipped (e : skill_svc_error) (r : ReevalRow) : ReevalRow :=
  mkReevalRow (rv_SkillID r) (rv_CurrentStatus r) (rv_ProposedStatus r) (rv_OldMetric r) (rv_NewMetric r)
    (rv_ApplyAttempts r) (rv_Verdict r) (rv_WouldChange r) false true (Some e).

Record RevertRow := mkRevertRow {
  rt_SkillID : string;
  rt_FromStatus : SkillStatus;
  rt_ToStatus : SkillStatus;
  rt_Path : list SkillStatus;
  rt_Reverted : bool;
  rt_Skipped : bool;
  rt_RevertErr : option skill_svc_error
}.

(** ** The reevaluator

    Built by [Service.Reevaluator]: patcher, status reader and metrics patcher
    are the service.  [audited]: the audit repository and the id generator are
    wired; reverting without them is a nil dereference, so it is modelled with
    them only. *)
Section Reevaluator.
Context `{UlidLib}.

Definition plan : skprog (result skill_svc_error (list ReevalRow)) :=
  let! rows := Rows in Ret (let? rows := rows in Ok (reeval_row <$> rows)).

Definition DryRun := plan.

(** The report so far, the items, and the error that stopped the loop. *)
Fixpoint apply_rows (audited : bool) (report : list ReevalRow)
    : skprog (list ReevalRow * list ReevalRunItem * option skill_svc_error) :=
  match report with
  | [] => Ret ([], [], None)
  | row :: report' =>
      if negb (rv_WouldChange row) then
        let! r := apply_rows audited report' in
        Ret (row :: r.1.1, r.1.2, r.2)
      else
        let! e := PatchStatus (rv_SkillID row) (skill_status_string (rv_ProposedStatus row)) in
        match e with
        | Ok _ =>
            if audited then
              let! itemID := sk SkNewID in
              let! r := apply_rows audited report' in
              Ret (row_applied row :: r.1.1,
                   mkRunItem itemID (rv_SkillID row) (skill_status_string (rv_CurrentStatus row))
                     (skill_status_string (rv_ProposedStatus row)) :: r.1.2, r.2)
            else
              let! r := apply_rows audited report' in
              Ret (row_applied row :: r.1.1, r.1.2, r.2)
        | Err ErrForbiddenStatusTransition =>
            let! r := apply_rows audited report' in
            Ret (row_skipped ErrForbiddenStatusTransition row :: r.1.1, r.1.2, r.2)
        | Err e => Ret (row :: report', [], Some e)
        end
  end.

Definition save_run (audited : bool) (runID : string) (items : list ReevalRunItem)
    : skprog (option skill_svc_error) :=
  if negb audited || bool_decide (items = []) then Ret None else
  let! now := sk SkNow in
  let! e := sk (SkRunSave (mkRun runID ModeApply "" now items)) in
  Ret (SkSvcStore <$> e).

Definition Apply (audited confirm : bool)
    : skprog (list ReevalRow * option skill_svc_error) :=
  let! report := plan in
  match report with
  | Err e => Ret ([], Some e)
  | Ok report =>
      if negb confirm then Ret (report, None) else
      let! runID := (if audited then sk SkNewID else Ret EmptyString) in
      let! r := apply_rows audited report in
      match r.2 with
      | Some e => Ret (r.1.1, Some e)
      | None => let! e := save_run audited runID r.1.2 in Ret (r.1.1, e)
      end
  end.

(** ** Revert *)

(** The status reached, and the error that stopped the walk. *)
Fixpoint walk (skillID : string) (reached : SkillStatus) (path : list SkillStatus)
    : skprog (SkillStatus * option skill_svc_error) :=
  match path with
  | [] => Ret (reached, None)
  | step :: path' =>
      let! e := PatchStatus skillID (skill_status_string step) in
      match e with
      | Err e => Ret (reached, Some e)
      | Ok _ => walk skillID step path'
      end
  end.

Definition rollback_delta : MetricsDelta := mkMetricsDelta 0 0 0 1 0 0 f64_0.

(** One item: its row of the result, the item it adds to the record of the
    revert, and the error that stops everything ([None] as row: none is
    reported). *)
Definition revert_item (skipMetrics : bool) (item : ReevalRunItem)
    : skprog (option RevertRow * option ReevalRunItem * option skill_svc_error) :=
  let to := skill_status_of (ri_PriorStatus item) in
  let! live := CurrentStatus (ri_SkillID item) in
  match live with
  | Err e => Ret (None, None, Some e)
  | Ok from =>
      if bool_decide (from = to)
      then Ret (Some (mkRevertRow (ri_SkillID item) from to [] false true (Some SkSvcNoop)), None, None)
      else
        match transitionPath from to with
        | None =>
            Ret (Some (mkRevertRow (ri_SkillID item) from to [] false true (Some ErrNoLegalRevertPath)), None, None)
        | Some path =>
            let! w := walk (ri_SkillID item) from path in
            match w.2 with
            | Some e =>
                let row := mkRevertRow (ri_SkillID item) from to path false true (Some e) in
                if bool_decide (w.1 = from) then Ret (Some row, None, None)
                else
                  let! itemID := sk SkNewID in
                  Ret (Some row, Some (mkRunItem itemID (ri_SkillID item) (skill_status_string from)
                                         (skill_status_string w.1)), None)
            | None =>
                let! itemID := sk SkNewID in
                let row := mkRevertRow (ri_SkillID item) from to path true false None in
                let it := mkRunItem itemID (ri_SkillID item) (skill_status_string from) (skill_status_string to) in
                if skipMetrics then Ret (Some row, Some it, None)
                else
                  let! e := PatchMetrics (ri_SkillID item) rollback_delta in
                  Ret (Some row, Some it, match e with Ok _ => None | Err e => Some e end)
            end
        end
  end.

Fixpoint revert_items (skipMetrics : bool) (items : list ReevalRunItem)
    : skprog (list RevertRow * list ReevalRunItem * option skill_svc_error) :=
  match items with
  | [] => Ret ([], [], None)
  | item :: items' =>
      let! r := revert_item skipMetrics item in
      match r.2 with
      | Some e => Ret (option_list r.1.1, option_list r.1.2, Some e)
      | None =>
          let! rest := revert_items skipMetrics items' in
          Ret (option_list r.1.1 ++ rest.1.1, option_list r.1.2 ++ rest.1.2, rest.2)
      end
  end.

Definition revertRun (run : ReevalRun) : skprog (list RevertRow * option skill_svc_error) :=
  let! revRunID := sk SkNewID in
  let! exists_ := sk (SkRunExists (rr_ID run)) in
  match exists_ with
  | Err e => Ret ([], Some (SkSvcStore e))
  | Ok skipMetrics =>
      let! r := revert_items skipMetrics (rr_Items run) in
      match r.2 with
      | Some e => Ret (r.1.1, Some e)
      | None =>
          let! now := sk SkNow in
          let! e := sk (SkRunSave (mkRun revRunID ModeRevert (rr_ID run) now r.1.2)) in
          Ret (r.1.1, SkSvcStore <$> e)
      end
  end.

Definition Revert (runID : string) : skprog (list RevertRow * option skill_svc_error) :=
  let! run := sk (SkRunFind runID) in
  match run with
  | Err e => Ret ([], Some (SkSvcStore e))
  | Ok run => revertRun run
  end.

Definition RevertLast : skprog (list RevertRow * option skill_svc_error) :=
  let! run := sk SkRunLatest in
  match run with
  | Err e => Ret ([], Some (SkSvcStore e))
  | Ok run => revertRun run
  end.
End Reevaluator.

(** The live average of one attempt stays between the gates. *)
Example recompute_values :
  (λ n, Qred (recompute n)) <$> [0; 1; 2]%Z =
    [1; 6004799503160661 # 18014398509481984; -6004799503160661 # 18014398509481984]%Q.
Proof. vm_compute. reflexivity. Qed.

(** ** What the gates decide *)

Lemma recompute_low n : (2 <= n)%Z → f64_ltb (recompute n) demoteThreshold = true.
Proof.
  intros Hn. apply f64_ltb_lt. unfold recompute. apply Qle_lt_trans with 0%Q; [|done].
  pose proof (f64_round_int_ge n Hn) as Hr. apply f64_round_nonpos.
  assert (Hs : (f64_round (f64_1_5 - f64_round (inject_Z n)) <= 0)%Q).
  { apply f64_round_nonpos. unfold f64_1_5. lra. }
  apply Qle_shift_div_r; [done|]. lra.
Qed.

Lemma demote_below_promote q : f64_ltb q demoteThreshold = true → f64_ltb q promoteThreshold = true.
Proof. rewrite !f64_ltb_lt. intros Hq. by eapply Qlt_trans. Qed.

Lemma evaluate_attempts s n : (0 <= n)%Z →
  evaluate s (recompute n) =
    if (n <=? 1)%Z && bool_decide (s = SkillValidated) then (VerdictPromote, SkillActive, true)
    else if (2 <=? n)%Z && bool_decide (s = SkillActive) then (VerdictDemote, SkillDeprecated, true)
    else (VerdictNone, s, false).
Proof.
  intros Hn. destruct (Z.leb_spec n 1) as [Hle|Hgt].
  - rewrite (proj2 (Z.leb_gt 2 n)) by lia. unfold evaluate. simpl.
    assert (Hr : f64_ltb (recompute n) promoteThreshold = false ∧ f64_ltb (recompute n) demoteThreshold = false).
    { assert (n = 0 ∨ n = 1)%Z as [-> | ->] by lia; by vm_compute. }
    destruct Hr as [-> ->]. done.
  - rewrite (proj2 (Z.leb_le 2 n)) by lia. pose proof (recompute_low n ltac:(lia)) as Hd.
    unfold evaluate. by rewrite (demote_below_promote _ Hd), Hd.
Qed.

(** (the gates) for any number of attempts that is not negative, however
    large, the verdict of the floating-point gates is that of the integers: a
    validated skill is promoted exactly with at most one attempt, an active one
    demoted exactly with at least two, and nothing else changes; and a change
    that is proposed is a legal transition that can be taken back. *)
Theorem evaluate_gates s n : (0 <= n)%Z →
  let '(verdict, proposed, change) := evaluate s (recompute n) in
  (verdict = VerdictPromote ↔ s = SkillValidated ∧ (n <= 1)%Z) ∧
  (verdict = VerdictDemote ↔ s = SkillActive ∧ (2 <= n)%Z) ∧
  (change = true ↔ verdict ≠ VerdictNone) ∧
  (change = false → proposed = s) ∧
  (change = true → allowed s proposed = true ∧ is_Some (transitionPath proposed s)).
Proof.
  intros Hn. rewrite evaluate_attempts by done.
  destruct (Z.leb_spec n 1), (Z.leb_spec 2 n); try lia; cbn [andb]; case_bool_decide; subst;
    split_and!; try naive_solver; try naive_solver lia; by vm_compute.
Qed.

Lemma evaluate_gates_witness : (0 <= 3)%Z ∧ (evaluate SkillActive (recompute 3)).1.1 = VerdictDemote.
Proof.
  split; [lia|]. pose proof (evaluate_gates SkillActive 3 ltac:(lia)) as Hg.
  destruct (evaluate SkillActive (recompute 3)) as [[verdict proposed] change]. destruct Hg as (_ & Hd & _).
  apply Hd. split; [done|lia].
Defined.
