(* ===== verification/SkillLogic.v ===== *)
(** * What the skill service may do to the skills

    Any sequence of calls of the skill service and the reevaluator, under any
    database faults, moves every skill along the transition graph only. *)
From S2P Require Import Prelude Ids Json Envelope PhaseDomain ChangeDomain ApplyDomain Session Outbox Store BoardStore Effects Concurrency SkillDomain SkillStore SkillService Reeval.
From stdpp Require Import list relations.

(** ** Moves *)

Definition hop (s t : SkillStatus) : Prop := allowed s t = true.

(** What a skill is made of, apart from status, metrics and their times. *)
Definition skill_fixed (s : Skill) :=
  (sk_id s, sk_name s, sk_phases s, sk_content s, sk_techniques s, sk_version s, sk_scope s, sk_appliesWhen s,
   sk_riskLevel s, sk_activationSource s, sk_createdAt s).

Definition skill_moved (s s' : Skill) : Prop :=
  rtc hop (sk_status s) (sk_status s') ∧ skill_fixed s' = skill_fixed s.

Record moves (d d' : skill_db) : Prop := {
  mv_skills : ∀ id, option_Forall2 skill_moved (sd_skills d !! id) (sd_skills d' !! id);
  mv_runs : sd_runs d ⊆ sd_runs d';
  mv_rest : (sd_usage d', sd_phases d', sd_board d') = (sd_usage d, sd_phases d, sd_board d)
}.

#[global] Instance skill_moved_preorder : PreOrder skill_moved.
Proof.
  split; [intros s; by split|]. intros s t u [H1 H2] [H3 H4]. split; [by etrans|congruence].
Qed.

#[global] Instance moves_preorder : PreOrder moves.
Proof.
  split.
  - intros d. split; [|done|done]. intros id. by destruct (sd_skills d !! id); constructor.
  - intros d d' d'' [H1 H2 H3] [H4 H5 H6]. split; [|by etrans|congruence].
    intros id. etrans; [apply H1|apply H4].
Qed.

Lemma moves_skill d id s s' :
  sd_skills d !! id = Some s → skill_moved s s' → moves d (put_skills d (<[id := s']> (sd_skills d))).
Proof.
  intros Hs Hm. split; simpl; [|done|done]. intros j. destruct (decide (j = id)) as [->|Hj].
  - rewrite lookup_insert_eq, Hs. by constructor.
  - rewrite lookup_insert_ne by done. by destruct (sd_skills d !! j); constructor.
Qed.

(** Nothing leaves, and nothing enters, the archive. *)
Lemma hop_archived s t : rtc hop s t → s = SkillArchived ∨ t = SkillArchived → s = t.
Proof.
  intros Hr. induction Hr as [s|s u t Hs Hr IH]; [done|]. intros [-> | ->].
  - by destruct u.
  - rewrite IH in Hs by auto. by destruct s.
Qed.

Section Moves.
Context `{Collation} `{UlidLib}.
Context (E : skenv).

(** [m] moves skills only, whatever the tables. *)
Definition keeps {A} (m : skprog A) : Prop := ∀ n d, skruns E m (λ _ _ d', moves d d') n d.
(** [m] leaves the tables alone. *)
Definition reads {A} (m : skprog A) : Prop := ∀ n d, skruns E m (λ _ _ d', d' = d) n d.

Lemma keeps_ret {A} (a : A) : keeps (Ret a).
Proof. intros n d. by apply skruns_ret. Qed.
Lemma reads_ret {A} (a : A) : reads (Ret a).
Proof. intros n d. by apply skruns_ret. Qed.

Lemma keeps_bind {A B} (m : skprog A) (f : A → skprog B) : keeps m → (∀ a, keeps (f a)) → keeps (prog_bind m f).
Proof.
  intros Hm Hf n d. apply skruns_bind. eapply skruns_mono; [apply Hm|]. intros a n' d' Hd.
  eapply skruns_mono; [apply Hf|]. intros b n'' d'' Hd'. by transitivity d'.
Qed.
Lemma reads_bind {A B} (m : skprog A) (f : A → skprog B) : reads m → (∀ a, reads (f a)) → reads (prog_bind m f).
Proof.
  intros Hm Hf n d. apply skruns_bind. eapply skruns_mono; [apply Hm|]. intros a n' d' ->. apply Hf.
Qed.

Lemma reads_keeps {A} (m : skprog A) : reads m → keeps m.
Proof. intros Hm n d. eapply skruns_mono; [apply Hm|]. by intros a n' d' ->. Qed.

Lemma reads_sk {R} (e : skop R) : sk_writes e = false → reads (sk e).
Proof. intros He n d. unfold skruns, sk. simpl. by destruct e. Qed.

Lemma sk_write_moves {M} f (r : result store_error M) put d :
  (∀ m, r = Ok m → moves d (put m)) → moves d (sk_write f r put d).2.
Proof. intros Hr. unfold sk_write. destruct f, r; simpl; auto; reflexivity. Qed.

Lemma keeps_write {R} (e : skop R) : (∀ n d, moves d (skperform E e n d).2) → keeps (sk e).
Proof.
  intros He n d. specialize (He n d). unfold skruns, sk. simpl.
  by destruct (skperform E e n d).
Qed.

Lemma keeps_metrics id delta now : keeps (sk (SkPatchMetrics id delta now)).
Proof.
  apply keeps_write. intros n d. simpl. apply sk_write_moves. intros m Hm. unfold skill_PatchMetrics in Hm.
  destruct (sd_skills d !! id) as [s|] eqn:Hs; simplify_eq. by eapply moves_skill.
Qed.

Lemma keeps_save r : keeps (sk (SkRunSave r)).
Proof.
  apply keeps_write. intros n d. simpl. apply sk_write_moves. intros m Hm. unfold run_Save in Hm.
  destruct (sd_runs d !! rr_ID r) eqn:Hr; [done|]. case_bool_decide; simplify_eq.
  split; simpl; [|by apply insert_subseteq|done]. intros id. by destruct (sd_skills d !! id); constructor.
Qed.

(** The guard of [PatchStatus] has looked at the status it changes. *)
Lemma keeps_PatchStatus id status : keeps (PatchStatus id status).
Proof.
  unfold PatchStatus. destruct (ParseID SkillK id) as [i|]; [|apply keeps_ret]. case_match; [apply keeps_ret|].
  intros n d. apply skruns_sk. cbn [skperform fst snd]. unfold sk_find, skill_FindByID.
  destruct (se_fault E n); try by apply skruns_ret.
  destruct (sd_skills d !! i) as [s|] eqn:Hs; [|by apply skruns_ret].
  destruct (allowed (sk_status s) (skill_status_of status)) eqn:Ha; [|by apply skruns_ret].
  apply skruns_sk. cbn [skperform fst snd]. apply skruns_sk. cbn [skperform fst snd]. apply skruns_ret.
  apply sk_write_moves. intros m Hm. unfold skill_PatchStatus in Hm. rewrite Hs in Hm. case_match; simplify_eq.
  eapply moves_skill; [done|]. split; [|done]. by apply rtc_once.
Qed.
End Moves.

Create HintDb moves.
#[export] Hint Resolve keeps_ret keeps_metrics keeps_save keeps_PatchStatus reads_ret : moves.
#[export] Hint Extern 1 (reads _ (sk _)) => apply reads_sk; reflexivity : moves.
#[export] Hint Extern 1 (keeps _ (sk _)) => apply reads_keeps, reads_sk; reflexivity : moves.

Ltac moves_step :=
  match goal with
  | |- keeps _ (let _ := _ in _) => cbv zeta
  | |- reads _ (let _ := _ in _) => cbv zeta
  | |- keeps _ (prog_bind _ _) => apply keeps_bind
  | |- reads _ (prog_bind _ _) => apply reads_bind
  | |- keeps _ (match ?x with _ => _ end) => destruct x
  | |- reads _ (match ?x with _ => _ end) => destruct x
  | |- keeps _ _ => solve [auto with moves]
  | |- reads _ _ => solve [auto with moves]
  | |- ∀ _, _ => intros ?
  end.
Ltac moves := repeat moves_step.

(** ** Calls *)

Section Calls.
Context `{Collation} `{UlidLib}.

(** A request to the service or the reevaluator. *)
Inductive skill_call :=
  | CallPatchStatus (skillID status : string)
  | CallPatchMetrics (skillID : string) (delta : MetricsDelta)
  | CallCurrentStatus (skillID : string)
  | CallGetSkill (skillID : string)
  | CallGetUsage (changeID : string)
  | CallGetUsageBySkill (skillID : string)
  | CallDryRun
  | CallApply (audited confirm : bool)
  | CallRevert (runID : string)
  | CallRevertLast.

Definition call (c : skill_call) : skprog unit :=
  match c with
  | CallPatchStatus i st => do! PatchStatus i st in Ret tt
  | CallPatchMetrics i delta => do! PatchMetrics i delta in Ret tt
  | CallCurrentStatus i => do! CurrentStatus i in Ret tt
  | CallGetSkill i => do! GetSkill i in Ret tt
  | CallGetUsage c => do! GetUsage c in Ret tt
  | CallGetUsageBySkill i => do! GetUsageBySkill i in Ret tt
  | CallDryRun => do! DryRun in Ret tt
  | CallApply audited confirm => do! Apply audited confirm in Ret tt
  | CallRevert run => do! Revert run in Ret tt
  | CallRevertLast => do! RevertLast in Ret tt
  end.

(** The calls documented to read only. *)
Definition read_only (c : skill_call) : bool :=
  match c with
  | CallCurrentStatus _ | CallGetSkill _ | CallGetUsage _ | CallGetUsageBySkill _ | CallDryRun
  | CallApply _ false => true
  | _ => false
  end.

Context (E : skenv).

Lemma reads_CurrentStatus i : reads E (CurrentStatus i).
Proof. unfold CurrentStatus. moves. Qed.
Lemma reads_usage_rows rows cache : reads E (usage_rows rows cache).
Proof. revert cache. induction rows as [|r rows IH]; intros cache; cbn [usage_rows]; moves. Qed.
Lemma reads_max_attempts us seen m : reads E (max_attempts us seen m).
Proof. revert seen m. induction us as [|u us IH]; intros seen m; cbn [max_attempts]; moves. Qed.
Lemma reads_evidence ss : reads E (evidence_of ss).
Proof.
  induction ss as [|s ss IH]; cbn [evidence_of]; [moves|]. apply reads_bind; [moves|]. intros [us|e]; [|moves].
  apply reads_bind; [apply reads_max_attempts|]. moves.
Qed.
Lemma reads_plan : reads E plan.
Proof.
  unfold plan, Rows. apply reads_bind; [|moves]. apply reads_bind; [moves|]. intros [l|e]; [|moves].
  apply reads_evidence.
Qed.

Lemma keeps_PatchMetrics i delta : keeps E (PatchMetrics i delta).
Proof. unfold PatchMetrics. moves. Qed.
#[local] Hint Resolve reads_CurrentStatus reads_plan keeps_PatchMetrics : moves.
#[local] Hint Extern 2 (keeps _ (CurrentStatus _)) => apply reads_keeps : moves.
#[local] Hint Extern 2 (keeps _ plan) => apply reads_keeps : moves.
Lemma keeps_apply_rows audited report : keeps E (apply_rows audited report).
Proof. induction report as [|row report IH]; cbn [apply_rows]; moves. Qed.
Lemma keeps_save_run audited runID items : keeps E (save_run audited runID items).
Proof. unfold save_run. moves. Qed.
Lemma keeps_walk i reached path : keeps E (walk i reached path).
Proof. revert reached. induction path as [|s path IH]; intros reached; cbn [walk]; moves. Qed.
#[local] Hint Resolve keeps_apply_rows keeps_save_run keeps_walk : moves.
Lemma keeps_revert_item skip item : keeps E (revert_item skip item).
Proof. unfold revert_item. cbv zeta. moves. Qed.
#[local] Hint Resolve keeps_revert_item : moves.
Lemma keeps_revert_items skip items : keeps E (revert_items skip items).
Proof. induction items as [|item items IH]; cbn [revert_items]; moves. Qed.
#[local] Hint Resolve keeps_revert_items : moves.
Lemma keeps_revertRun run : keeps E (revertRun run).
Proof. unfold revertRun. moves. Qed.
#[local] Hint Resolve keeps_revertRun : moves.
Lemma keeps_Apply audited confirm : keeps E (Apply audited confirm).
Proof. unfold Apply. moves. Qed.

Lemma reads_GetUsageBySkill i : reads E (GetUsageBySkill i).
Proof.
  unfold GetUsageBySkill. destruct (ParseID _ _); [|moves].
  apply reads_bind; [moves|]. intros [l|e]; [apply reads_usage_rows|moves].
Qed.
#[local] Hint Resolve keeps_Apply reads_GetUsageBySkill : moves.

Lemma keeps_call c : keeps E (call c).
Proof.
  destruct c; cbn [call]; (apply keeps_bind; [|moves]); try solve [auto with moves].
  - unfold GetSkill. moves.
  - unfold GetUsage. moves.
  - apply reads_keeps. moves.
  - apply reads_keeps, reads_plan.
  - unfold Revert. moves.
  - unfold RevertLast. moves.
Qed.

Lemma reads_call c : read_only c = true → reads E (call c).
Proof.
  destruct c; intros Hc; try done; cbn [call]; (apply reads_bind; [|moves]); try solve [auto with moves].
  - unfold GetSkill. moves.
  - unfold GetUsage. moves.
  - destruct confirm; [done|]. unfold Apply. cbn [negb]. moves.
Qed.

(** [for c in calls: c()] *)
Definition run_calls (cs : list skill_call) : skprog unit := each call cs.

Lemma keeps_calls cs : keeps E (run_calls cs).
Proof. induction cs as [|c cs IH]; [apply keeps_ret|]. apply keeps_bind; [apply keeps_call|]. by intros _. Qed.
Lemma reads_calls cs : Forall (λ c, read_only c = true) cs → reads E (run_calls cs).
Proof.
  induction 1 as [|c cs Hc Hcs IH]; [apply reads_ret|].
  apply reads_bind; [by apply reads_call|]. by intros _.
Qed.

(** C21: (skills move along the graph) after any sequence of calls to the skill
    service and the reevaluator, from any tables and under any database faults: no
    skill has appeared or disappeared, each has come from its old status to its
    new one by legal transitions alone, and kept its identity, text, scope and
    conditions; a skill that is archived now was archived before and one that was
    is still; no recorded run has changed; and if every call was one documented
    as reading only (a dry run, an apply without confirmation), nothing has. *)
Theorem skill_calls_stay_on_graph cs n d :
  let '(_, _, d') := skexec E (run_calls cs) n d in
  (∀ id, sd_skills d' !! id = None ↔ sd_skills d !! id = None) ∧
  (∀ id s s', sd_skills d !! id = Some s → sd_skills d' !! id = Some s' →
     (∃ path, legal_path (sk_status s) path (sk_status s')) ∧ skill_fixed s' = skill_fixed s ∧
     (sk_status s = SkillArchived ↔ sk_status s' = SkillArchived)) ∧
  (∀ id r, sd_runs d !! id = Some r → sd_runs d' !! id = Some r) ∧
  (Forall (λ c, read_only c = true) cs → d' = d).
Proof.
  pose proof (keeps_calls cs n d) as Hk. pose proof (λ Hcs, reads_calls cs Hcs n d) as Hro.
  unfold skruns in *. destruct (skexec E (run_calls cs) n d) as [[u n'] d'] eqn:Hx.
  destruct Hk as [Hs Hr _]. split_and!; [| |by apply map_subseteq_spec|done].
  - intros id. by destruct (Hs id).
  - intros id s s' H1 H2. specialize (Hs id). rewrite H1, H2 in Hs. inversion Hs as [x y [Hm Hf]|]; subst.
    split_and!; [by apply rtc_legal_path|done|].
    split; intros Ha; rewrite <-Ha; [symmetry|]; eapply hop_archived; eauto.
Qed.
End Calls.
