(* ===== verification/ReevalLogic.v ===== *)
(** * Applying a re-evaluation and taking it back

    Without database faults, an audited apply followed by the revert of its run
    brings every skill back to the status it had. *)
From S2P Require Import Prelude Ids Json Envelope PhaseDomain ChangeDomain ApplyDomain Session Outbox Store BoardStore Effects Concurrency SkillDomain SkillStore SkillService Reeval.
From stdpp Require Import list sorting.

(** ** What is followed *)

(** Status and rollback counter of every skill. *)
Definition marks (d : skill_db) : gmap SkillID (SkillStatus * Z) :=
  (λ s, (sk_status s, me_RollbackCount (sk_metrics s))) <$> sd_skills d.

(** No fault, and identifiers that are new: to each other, and to the audit
    tables from tick [n] on. *)
Record quiet (E : skenv) : Prop := {
  q_fault : ∀ n, se_fault E n = NoFault;
  q_inj : Inj (=) (=) (se_id E)
}.

Definition used_items (m : gmap string ReevalRun) : list string :=
  mjoin ((λ kv, ri_ID <$> rr_Items kv.2) <$> map_to_list m).

Record audit_fresh (E : skenv) (n : nat) (m : gmap string ReevalRun) : Prop := {
  af_nodup : NoDup (used_items m);
  af_run : ∀ k, n ≤ k → m !! se_id E k = None;
  af_item : ∀ k, n ≤ k → se_id E k ∉ used_items m;
  af_reverts : ∀ k, n ≤ k → run_ExistsByRevertsRunID (se_id E k) m = false
}.

(** Identifiers handed out between two ticks. *)
Definition minted (E : skenv) (n n' : nat) (l : list string) : Prop :=
  NoDup l ∧ ∀ x, x ∈ l → ∃ k, n ≤ k ∧ k < n' ∧ x = se_id E k.

Lemma minted_nil E n n' : minted E n n' [].
Proof. split; [constructor|]. by intros x Hx%elem_of_nil. Qed.

Lemma minted_cons E k n n' l : quiet E → minted E (S k) n' l → n ≤ k → k < n' → minted E n n' (se_id E k :: l).
Proof.
  intros HE [Hnd Hl] H1 H2. split.
  - constructor; [|done]. intros (j & Hj & _ & Heq)%Hl. apply (q_inj _ HE) in Heq. lia.
  - intros x [->|(j & ? & ? & ->)%Hl]%elem_of_cons; [by exists k|]. exists j. split_and!; [lia|lia|done].
Qed.

Lemma minted_mono E n1 n2 m1 m2 l : minted E n1 m1 l → n2 ≤ n1 → m1 ≤ m2 → minted E n2 m2 l.
Proof. intros [? Hl] ??. split; [done|]. intros x (k & ? & ? & ->)%Hl. exists k. split_and!; [lia|lia|done]. Qed.

Lemma used_insert m r :
  m !! rr_ID r = None → used_items (<[rr_ID r := r]> m) ≡ₚ (ri_ID <$> rr_Items r) ++ used_items m.
Proof. intros Hr. unfold used_items. by rewrite map_to_list_insert. Qed.

Lemma reverts_insert m r id :
  m !! rr_ID r = None → rr_RevertsRunID r = EmptyString →
  run_ExistsByRevertsRunID id (<[rr_ID r := r]> m) = run_ExistsByRevertsRunID id m.
Proof.
  intros Hr He. unfold run_ExistsByRevertsRunID. apply eq_true_iff_eq. rewrite !existsb_exists.
  split; intros ([i x] & Hin & Hx); exists (i, x); (split; [|done]);
    rewrite <-list_elem_of_In, elem_of_map_to_list in Hin |- *; cbn [fst snd] in *.
  - apply lookup_insert_Some in Hin as [[<- <-]|[_ Hin]]; [by rewrite He in Hx|done].
  - rewrite lookup_insert_ne; [done|congruence].
Qed.

(** A run whose identifiers were minted is accepted, and later ones are still
    new. *)
Lemma run_Save_minted E n k n' r m :
  quiet E → audit_fresh E n m → n ≤ k → k < n' → rr_ID r = se_id E k → minted E n n' (ri_ID <$> rr_Items r) →
  run_Save r m = Ok (<[rr_ID r := r]> m) ∧
  (rr_RevertsRunID r = EmptyString → audit_fresh E n' (<[rr_ID r := r]> m)).
Proof.
  intros HE [Hnd Hrun Hitem Hrev] Hk Hk' Hid [Hnd' Hm].
  assert (Hnone : m !! rr_ID r = None) by (rewrite Hid; by apply Hrun).
  assert (Hnew : NoDup ((ri_ID <$> rr_Items r) ++ used_items m)).
  { apply NoDup_app. split_and!; [done| |done]. intros x (j & ? & ? & ->)%Hm. by apply Hitem. }
  split.
  - unfold run_Save. rewrite Hnone, bool_decide_eq_true_2; [done|].
    unfold used_items in Hnew. by rewrite Permutation_app_comm.
  - intros He. split; rewrite ?used_insert by done; [done| | |intros j Hj; rewrite reverts_insert by done; apply Hrev; lia].
    + intros j Hj. rewrite lookup_insert_ne, Hrun; [done|lia|]. rewrite Hid. intros Heq%(q_inj _ HE). lia.
    + intros j Hj. rewrite used_insert, elem_of_app by done. intros [(i & ? & ? & Heq)%Hm|Hin].
      * apply (q_inj _ HE) in Heq. lia.
      * apply (Hitem j); [lia|done].
Qed.

(** ** Statuses and their names *)

Lemma skill_status_of_string s : SkillStatus_IsValid s = true → skill_status_of (skill_status_string s) = s.
Proof. by destruct s. Qed.

Lemma allowed_valid s t : allowed s t = true → SkillStatus_IsValid s = true ∧ SkillStatus_IsValid t = true.
Proof. by destruct s, t. Qed.

Lemma transitionPath_proper s t path :
  s ≠ t → transitionPath s t = Some path → SkillStatus_IsValid t = true.
Proof. intros Hne. destruct s, t; try done; unfold transitionPath; case_bool_decide; naive_solver. Qed.

#[export] Instance raw_inj k : Inj (=) (=) (@raw k).
Proof. intros [i] [j]. simpl. congruence. Qed.

(** ** Single calls *)

Section Quiet.
Context `{Collation} `{UlidLib}.
Context (E : skenv) (HE : quiet E).

Ltac sk_step := apply skruns_sk; cbn [skperform fst snd]; rewrite ?(q_fault _ HE); cbn [sk_find sk_read sk_write].

(** The tables a call on skills leaves alone, and the clock. *)
Definition same_audit (n : nat) (d : skill_db) (n' : nat) (d' : skill_db) : Prop :=
  n ≤ n' ∧ sd_runs d' = sd_runs d.

Lemma same_audit_trans n d n' d' n'' d'' :
  same_audit n d n' d' → same_audit n' d' n'' d'' → same_audit n d n'' d''.
Proof. intros [? ?] [? ?]. split; [lia|congruence]. Qed.

Lemma marks_insert d i s :
  marks (put_skills d (<[i := s]> (sd_skills d))) = <[i := (sk_status s, me_RollbackCount (sk_metrics s))]> (marks d).
Proof. unfold marks. simpl. by rewrite fmap_insert. Qed.

Lemma PatchStatus_quiet sid i s c t n d :
  ParseID SkillK sid = Ok i → marks d !! i = Some (s, c) → allowed s t = true →
  skruns E (PatchStatus sid (skill_status_string t))
    (λ r n' d', r = Ok tt ∧ same_audit n d n' d' ∧ marks d' = <[i := (t, c)]> (marks d)) n d.
Proof.
  intros Hp Hm Ha. destruct (allowed_valid _ _ Ha) as [_ Ht]. unfold PatchStatus.
  rewrite Hp, skill_status_of_string, Ht by done. cbn [negb].
  unfold marks in Hm. rewrite lookup_fmap, fmap_Some in Hm. destruct Hm as (sk0 & Hs & Heq). simplify_eq/=.
  sk_step. unfold skill_FindByID. rewrite Hs, Ha. cbn [negb]. sk_step. sk_step.
  unfold skill_PatchStatus. rewrite Hs, Ht. apply skruns_ret. split_and!; [done|split; simpl; [lia|done]|].
  etrans; [apply marks_insert|done].
Qed.

Lemma CurrentStatus_quiet sid i s c n d :
  ParseID SkillK sid = Ok i → marks d !! i = Some (s, c) →
  skruns E (CurrentStatus sid) (λ r n' d', r = Ok s ∧ n ≤ n' ∧ d' = d) n d.
Proof.
  intros Hp Hm. unfold CurrentStatus. rewrite Hp. unfold marks in Hm.
  rewrite lookup_fmap, fmap_Some in Hm. destruct Hm as (sk0 & Hs & Heq). simplify_eq/=.
  sk_step. unfold skill_FindByID. rewrite Hs. apply skruns_ret. split_and!; [done|lia|done].
Qed.

Lemma rollback_quiet sid i s c n d :
  ParseID SkillK sid = Ok i → marks d !! i = Some (s, c) →
  skruns E (PatchMetrics sid rollback_delta)
    (λ r n' d', r = Ok tt ∧ same_audit n d n' d' ∧ marks d' = <[i := (s, wrap64 (c + 1))]> (marks d)) n d.
Proof.
  intros Hp Hm. unfold PatchMetrics. rewrite Hp. unfold marks in Hm.
  rewrite lookup_fmap, fmap_Some in Hm. destruct Hm as (sk0 & Hs & Heq). simplify_eq/=.
  sk_step. sk_step. unfold skill_PatchMetrics. rewrite Hs. apply skruns_ret.
  split_and!; [done|split; simpl; [lia|done]|]. etrans; [apply marks_insert|done].
Qed.

Lemma walk_quiet sid i s c t path n d :
  ParseID SkillK sid = Ok i → marks d !! i = Some (s, c) → legal_path s path t →
  skruns E (walk sid s path)
    (λ r n' d', r = (t, None) ∧ same_audit n d n' d' ∧ marks d' = <[i := (t, c)]> (marks d)) n d.
Proof.
  intros Hp. revert s n d. induction path as [|u path IH]; intros s n d Hm Hl; cbn [walk legal_path] in *.
  - subst. apply skruns_ret. split_and!; [done|by split|]. by rewrite insert_id.
  - destruct Hl as [Ha Hl]. apply skruns_bind. eapply skruns_mono; [by eapply PatchStatus_quiet|].
    intros r n' d' (-> & Hs & Hm'). eapply skruns_mono; [apply IH; [|done]; rewrite Hm'; apply lookup_insert_eq|].
    intros w n'' d'' (-> & Hs' & Hm''). split_and!; [done|by eapply same_audit_trans|].
    by rewrite Hm'', Hm', insert_insert_eq.
Qed.

(** ** Taking items back *)

(** An item of a run, between the marks before the run ([old]) and now. *)
Definition item_fits (cur old : gmap SkillID (SkillStatus * Z)) (it : ReevalRunItem) : Prop :=
  ∃ i c prior new path, ParseID SkillK (ri_SkillID it) = Ok i ∧ cur !! i = Some (new, c) ∧
    old !! i = Some (prior, c) ∧ skill_status_of (ri_PriorStatus it) = prior ∧ new ≠ prior ∧
    transitionPath new prior = Some path.

Lemma ParseID_raw sid (i : SkillID) : ParseID SkillK sid = Ok i → raw i = sid.
Proof. intros Hp. by apply ParseID_Ok in Hp as (_ & Hs & _). Qed.

Lemma item_fits_insert cur old i m it :
  item_fits cur old it → raw i ≠ ri_SkillID it → item_fits (<[i := m]> cur) old it.
Proof.
  intros (j & c & prior & new & path & Hp & Hc & Ho & Hrest) Hi. exists j, c, prior, new, path.
  split_and!; try done; try naive_solver. rewrite lookup_insert_ne; [done|]. intros ->.
  by apply ParseID_raw in Hp.
Qed.

Lemma item_fits_old cur old i m it :
  item_fits cur (<[i := m]> old) it → raw i ≠ ri_SkillID it → item_fits cur old it.
Proof.
  intros (j & c & prior & new & path & Hp & Hc & Ho & Hrest) Hi. exists j, c, prior, new, path.
  rewrite lookup_insert_ne in Ho; [done|]. intros ->. by apply ParseID_raw in Hp.
Qed.

Lemma revert_item_quiet skip it old n d :
  item_fits (marks d) old it →
  skruns E (revert_item skip it) (λ r n' d',
    (∃ row ri k, r = (Some row, Some ri, None) ∧ rt_Reverted row = true ∧ ri_ID ri = se_id E k ∧ n ≤ k ∧ k < n') ∧
    same_audit n d n' d' ∧
    ∃ i prior c, ParseID SkillK (ri_SkillID it) = Ok i ∧ old !! i = Some (prior, c) ∧
      marks d' = <[i := (prior, if skip then c else wrap64 (c + 1))]> (marks d)) n d.
Proof.
  intros (i & c & prior & new & path & Hp & Hc & Ho & Hprior & Hne & Hpath). unfold revert_item.
  apply skruns_bind. eapply skruns_mono; [by eapply CurrentStatus_quiet|]. intros r n1 d1 (-> & Hn1 & ->).
  cbv zeta. rewrite Hprior, bool_decide_eq_false_2, Hpath by done.
  apply skruns_bind. eapply skruns_mono; [eapply walk_quiet; [done|done|by apply transitionPath_legal]|].
  intros w n2 d2 (-> & [Hn2 Hr2] & Hm2). cbn [fst snd]. sk_step.
  assert (Hm : marks d2 !! i = Some (prior, c)) by (rewrite Hm2; apply lookup_insert_eq).
  destruct skip.
  - apply skruns_ret. split_and!.
    + eexists _, _, n2. split_and!; [done|done|done|lia|lia].
    + split; [lia|done].
    + by exists i, prior, c.
  - apply skruns_bind. eapply skruns_mono; [by eapply rollback_quiet|]. intros r n3 d3 (-> & [Hn3 Hr3] & Hm3).
    apply skruns_ret. split_and!.
    + eexists _, _, n2. split_and!; [done|done|done|lia|lia].
    + split; [lia|congruence].
    + exists i, prior, c. split_and!; [done|done|]. by rewrite Hm3, Hm2, insert_insert_eq.
Qed.

(** What the marks are when [items] have been taken back. *)
Definition taken_back (skip : bool) (ids : list string) (cur old fin : gmap SkillID (SkillStatus * Z)) : Prop :=
  ∀ i, fin !! i = if bool_decide (raw i ∈ ids)
                  then (λ m, (m.1, if skip then m.2 else wrap64 (m.2 + 1))) <$> (old !! i)
                  else cur !! i.

Lemma revert_items_quiet skip items old n d :
  NoDup (ri_SkillID <$> items) → Forall (item_fits (marks d) old) items →
  skruns E (revert_items skip items) (λ r n' d',
    r.2 = None ∧ length r.1.1 = length items ∧ Forall (λ row, rt_Reverted row = true) r.1.1 ∧
    minted E n n' (ri_ID <$> r.1.2) ∧ same_audit n d n' d' ∧
    taken_back skip (ri_SkillID <$> items) (marks d) old (marks d')) n d.
Proof.
  revert n d. induction items as [|it items IH]; intros n d Hnd Hfit; cbn [revert_items].
  - apply skruns_ret. split_and!; [done|done|constructor|apply minted_nil|by split|].
    intros i. by rewrite bool_decide_eq_false_2 by (by intros ?%elem_of_nil).
  - rewrite fmap_cons in *. apply NoDup_cons in Hnd as [Hit Hnd]. apply Forall_cons in Hfit as [Hfit Hfits].
    apply skruns_bind. eapply skruns_mono; [by eapply revert_item_quiet|].
    intros r n1 d1 ((row & ri & k & -> & Hrow & Hid & Hk & Hk') & [Hn1 Hr1] & (i & prior & c & Hp & Ho & Hm1)).
    cbn [fst snd]. apply ParseID_raw in Hp as Hraw. apply skruns_bind. eapply skruns_mono; [apply IH; [done|]|].
    { rewrite Hm1. rewrite Forall_forall in Hfits |- *. intros it' Hin'. apply item_fits_insert; [by apply Hfits|].
      rewrite Hraw. intros Heq. apply Hit. rewrite Heq. by apply list_elem_of_fmap_2. }
    intros rest n2 d2 (He & Hlen & Hrev & Hmint & [Hn2 Hr2] & Htb). apply skruns_ret. cbn [fst snd option_list app].
    split_and!; [done|by simpl; f_equal|by constructor| |split; [lia|congruence]|].
    + cbn. rewrite Hid. eapply minted_mono; [eapply (minted_cons E k k n2); try done; try lia|lia|done].
      eapply minted_mono; [done|lia|done].
    + intros j. rewrite (Htb j), Hm1. destruct (decide (j = i)) as [->|Hj].
      * rewrite (bool_decide_eq_false_2 (raw i ∈ _)) by (by rewrite Hraw).
        rewrite bool_decide_eq_true_2 by (rewrite Hraw; by left). by rewrite lookup_insert_eq, Ho.
      * rewrite lookup_insert_ne by done. assert (Hr : raw j ≠ ri_SkillID it).
        { rewrite <-Hraw. destruct i, j. simpl. congruence. }
        rewrite !bool_decide_decide. repeat case_decide; set_solver.
Qed.

(** ** The plan *)

Lemma max_attempts_quiet us seen m n d :
  skruns E (max_attempts us seen m) (λ r n' d', (∃ z, r = Ok z) ∧ n ≤ n' ∧ d' = d) n d.
Proof.
  revert seen m n. induction us as [|u us IH]; intros seen m n; cbn [max_attempts].
  - apply skruns_ret. split_and!; [by exists m|lia|done].
  - case_match; [apply IH|]. sk_step. eapply skruns_mono; [apply IH|].
    intros r n' d' (Hr & Hn & ->). split_and!; [done|lia|done].
Qed.

Definition evidence_for (s : Skill) (e : Evidence) : Prop :=
  ev_SkillID e = raw (sk_id s) ∧ ev_CurrentStatus e = sk_status s.

Lemma evidence_quiet ss n d :
  skruns E (evidence_of ss) (λ r n' d', (∃ l, r = Ok l ∧ Forall2 evidence_for ss l) ∧ n ≤ n' ∧ d' = d) n d.
Proof.
  revert n. induction ss as [|s ss IH]; intros n; cbn [evidence_of].
  - apply skruns_ret. split_and!; [by exists []; split|lia|done].
  - sk_step. apply skruns_bind. eapply skruns_mono; [apply max_attempts_quiet|].
    intros m n1 d1 ([z ->] & Hn1 & ->). apply skruns_bind. eapply skruns_mono; [apply IH|].
    intros r n2 d2 ((l & -> & Hl) & Hn2 & ->). apply skruns_ret. split_and!; [|lia|done].
    eexists. split; [done|]. by constructor.
Qed.

Definition row_for (s : Skill) (row : ReevalRow) : Prop :=
  rv_SkillID row = raw (sk_id s) ∧ rv_CurrentStatus row = sk_status s ∧
  (rv_WouldChange row = true → allowed (sk_status s) (rv_ProposedStatus row) = true ∧
     rv_ProposedStatus row ≠ sk_status s ∧ is_Some (transitionPath (rv_ProposedStatus row) (sk_status s))).

Lemma row_for_evidence s e : evidence_for s e → row_for s (reeval_row e).
Proof.
  intros [Hid Hs]. unfold row_for, reeval_row, evaluate. rewrite Hid, Hs.
  destruct (negb _ && _) eqn:H1; [|destruct (f64_ltb _ _ && _) eqn:H2]; cbn [rv_SkillID rv_CurrentStatus
    rv_ProposedStatus rv_WouldChange]; (split_and!; [done|done|intros Hw]).
  - apply andb_true_iff in H1 as [_ ->%bool_decide_eq_true]. split_and!; [by vm_compute|done|by eexists; vm_compute].
  - apply andb_true_iff in H2 as [_ ->%bool_decide_eq_true]. split_and!; [by vm_compute|done|by eexists; vm_compute].
  - discriminate Hw.
Qed.

Lemma plan_quiet n d :
  skruns E plan (λ r n' d', (∃ ss l, r = Ok l ∧ ss ≡ₚ (map_to_list (sd_skills d)).*2 ∧ Forall2 row_for ss l) ∧
    n ≤ n' ∧ d' = d) n d.
Proof.
  unfold plan, Rows. apply skruns_bind. sk_step. eapply skruns_mono; [apply evidence_quiet|].
  intros r n' d' ((l & -> & Hl) & Hn & ->). apply skruns_ret. split_and!; [|lia|done].
  exists (skill_List (sd_skills d)), (reeval_row <$> l). split_and!; [done|by apply merge_sort_Permutation|].
  rewrite <-(list_fmap_id (skill_List _)). apply Forall2_fmap. eapply Forall2_impl; [done|].
  intros s e. apply row_for_evidence.
Qed.

(** ** Applying rows *)

(** A row, and the marks before it is applied. *)
Definition row_fits (σ : gmap SkillID (SkillStatus * Z)) (row : ReevalRow) : Prop :=
  rv_WouldChange row = true → ∃ i c, ParseID SkillK (rv_SkillID row) = Ok i ∧ σ !! i = Some (rv_CurrentStatus row, c) ∧
    allowed (rv_CurrentStatus row) (rv_ProposedStatus row) = true ∧
    rv_ProposedStatus row ≠ rv_CurrentStatus row ∧ is_Some (transitionPath (rv_ProposedStatus row) (rv_CurrentStatus row)).

Lemma row_fits_insert σ i m row : row_fits σ row → raw i ≠ rv_SkillID row → row_fits (<[i := m]> σ) row.
Proof.
  intros Hf Hi Hw. destruct (Hf Hw) as (j & c & Hp & Hs & Hrest). exists j, c. split_and!; try done; try naive_solver.
  rewrite lookup_insert_ne; [done|]. intros ->. by apply ParseID_raw in Hp.
Qed.

Definition changed_ids (report : list ReevalRow) : list string :=
  rv_SkillID <$> filter (λ r, rv_WouldChange r = true) report.

Definition row_done (row : ReevalRow) : ReevalRow := if rv_WouldChange row then row_applied row else row.

Lemma apply_rows_quiet report n d :
  NoDup (rv_SkillID <$> report) → Forall (row_fits (marks d)) report →
  skruns E (apply_rows true report) (λ r n' d',
    r.2 = None ∧ r.1.1 = row_done <$> report ∧ minted E n n' (ri_ID <$> r.1.2) ∧ same_audit n d n' d' ∧
    (ri_SkillID <$> r.1.2) = changed_ids report ∧ Forall (item_fits (marks d') (marks d)) r.1.2 ∧
    (∀ i, raw i ∉ changed_ids report → marks d' !! i = marks d !! i)) n d.
Proof.
  revert n d. induction report as [|row report IH]; intros n d Hnd Hfit; cbn [apply_rows].
  - apply skruns_ret. split_and!; try done; (apply minted_nil || by split).
  - rewrite fmap_cons in Hnd. apply NoDup_cons in Hnd as [Hrow Hnd]. apply Forall_cons in Hfit as [Hf Hfs].
    destruct (rv_WouldChange row) eqn:Hw; cbn [negb].
    2:{ apply skruns_bind. eapply skruns_mono; [by apply IH|]. intros r n' d' (? & Hrep & ? & ? & Hids & ? & Hout).
        apply skruns_ret. unfold changed_ids, row_done in *. rewrite filter_cons_False, fmap_cons, Hw by congruence.
        split_and!; try done. cbn [fst snd]. by rewrite Hrep. }
    destruct (Hf Hw) as (i & c & Hp & Hm & Ha & Hne & [path Hpath]). apply ParseID_raw in Hp as Hraw.
    apply skruns_bind. eapply skruns_mono; [by eapply PatchStatus_quiet|].
    intros r n1 d1 (-> & [Hn1 Hr1] & Hm1). sk_step. apply skruns_bind. eapply skruns_mono; [apply IH; [done|]|].
    { rewrite Hm1. rewrite Forall_forall in Hfs |- *. intros row' Hin'. apply row_fits_insert; [by apply Hfs|].
      rewrite Hraw. intros Heq. apply Hrow. rewrite Heq. by apply list_elem_of_fmap_2. }
    intros r n2 d2 (He & Hrep & Hmint & [Hn2 Hr2] & Hids & Hfits & Hout). apply skruns_ret. cbn [fst snd].
    assert (Hni : raw i ∉ changed_ids report).
    { rewrite Hraw. intros (x & Hx & Hin)%list_elem_of_fmap. apply list_elem_of_filter in Hin as [_ Hin].
      apply Hrow. rewrite Hx. by apply list_elem_of_fmap_2. }
    assert (Hmi : marks d2 !! i = Some (rv_ProposedStatus row, c)).
    { rewrite (Hout i Hni), Hm1. apply lookup_insert_eq. }
    unfold changed_ids in *. rewrite filter_cons_True, fmap_cons by done. split_and!.
    + done.
    + assert (Hd : row_done row = row_applied row) by (unfold row_done; by rewrite Hw). cbn. by rewrite Hrep, Hd.
    + cbn. eapply minted_mono; [eapply (minted_cons E n1 n1 n2); [done|done|lia|lia]|lia|done].
    + split; [lia|congruence].
    + cbn. by rewrite Hids.
    + constructor; [|].
      * exists i, c, (rv_CurrentStatus row), (rv_ProposedStatus row), path. cbn. split_and!; try done.
        apply skill_status_of_string. by apply allowed_valid in Ha as [? _].
      * rewrite Forall_forall in Hfits |- *. intros it Hit. specialize (Hfits it Hit). rewrite Hm1 in Hfits.
        eapply item_fits_old; [exact Hfits|]. intros Heq. apply Hni. rewrite Heq, <-Hids. by apply list_elem_of_fmap_2.
    + intros j Hj. rewrite Hout by set_solver. rewrite Hm1, lookup_insert_ne; [done|]. intros <-. set_solver.
Qed.

(** ** Apply, then revert *)

Definition skills_keyed (d : skill_db) : Prop :=
  ∀ i s, sd_skills d !! i = Some s → sk_id s = i ∧ ParseID SkillK (raw i) = Ok i.

Lemma plan_fits d ss report :
  skills_keyed d → ss ≡ₚ (map_to_list (sd_skills d)).*2 → Forall2 row_for ss report →
  NoDup (rv_SkillID <$> report) ∧ Forall (row_fits (marks d)) report.
Proof.
  intros Hk Hss Hrows.
  assert (Hin : ∀ s, s ∈ ss → sd_skills d !! sk_id s = Some s ∧ ParseID SkillK (raw (sk_id s)) = Ok (sk_id s)).
  { intros s. rewrite Hss. intros ([i s'] & -> & Hin)%list_elem_of_fmap. apply elem_of_map_to_list in Hin.
    destruct (Hk _ _ Hin) as [Hid Hp]. cbn [snd]. by rewrite Hid. }
  split.
  - assert (Heq : rv_SkillID <$> report = raw <$> (sk_id <$> ss)).
    { clear -Hrows. induction Hrows as [|s row ss report (Hid & _) _ IH]; [done|]. cbn. by rewrite Hid, IH. }
    rewrite Heq. apply NoDup_fmap_2; [apply _|]. rewrite Hss, <-list_fmap_compose. assert (Hfst : sk_id ∘ snd <$> map_to_list (sd_skills d) = (map_to_list (sd_skills d)).*1).
      { apply list_fmap_ext. intros k [i s] Hl. apply list_elem_of_lookup_2, elem_of_map_to_list in Hl.
        by destruct (Hk _ _ Hl). }
    rewrite Hfst. apply NoDup_fst_map_to_list.
  - apply Forall_forall. intros row Hrow. apply list_elem_of_lookup in Hrow as [k Hrow].
    destruct (Forall2_lookup_r _ _ _ _ _ Hrows Hrow) as (s & Hs & Hid & Hcur & Hch).
    apply list_elem_of_lookup_2, Hin in Hs as [Hl Hp]. intros Hw. destruct (Hch Hw) as (Ha & Hne & Hpath).
    exists (sk_id s), (me_RollbackCount (sk_metrics s)). rewrite Hid, Hcur. split_and!; try done.
    unfold marks. by rewrite lookup_fmap, Hl.
Qed.

Lemma audit_fresh_mono n n' m : audit_fresh E n m → n ≤ n' → audit_fresh E n' m.
Proof. intros [H1 H2 H3 H4] Hn. split; [done|..]; intros k Hk; [apply H2|apply H3|apply H4]; lia. Qed.

Lemma changed_done report : changed_ids (row_done <$> report) = changed_ids report.
Proof.
  unfold changed_ids, row_done. induction report as [|row report IH]; [done|]. cbn [fmap list_fmap].
  destruct (rv_WouldChange row) eqn:Hw.
  - rewrite !filter_cons_True by done. cbn. by rewrite IH.
  - rewrite !filter_cons_False by congruence. apply IH.
Qed.

(** What is known of a run that has just been recorded. *)
Definition recorded (ids : list string) (n : nat) (d : skill_db) (n' : nat) (d' : skill_db) (run : ReevalRun) : Prop :=
  sd_runs d' = <[rr_ID run := run]> (sd_runs d) ∧ sd_runs d !! rr_ID run = None ∧
  run_ExistsByRevertsRunID (rr_ID run) (sd_runs d') = false ∧ audit_fresh E n' (sd_runs d') ∧
  (ri_SkillID <$> rr_Items run) = ids ∧ Forall (item_fits (marks d') (marks d)) (rr_Items run).

Lemma Apply_quiet n d :
  audit_fresh E n (sd_runs d) → skills_keyed d →
  skruns E (Apply true true) (λ r n' d',
    r.2 = None ∧ Forall (λ row, rv_WouldChange row = true → rv_Applied row = true) r.1 ∧
    NoDup (changed_ids r.1) ∧ (∀ i, raw i ∉ changed_ids r.1 → marks d' !! i = marks d !! i) ∧
    (changed_ids r.1 = [] → sd_runs d' = sd_runs d) ∧
    (changed_ids r.1 ≠ [] → ∃ run, recorded (changed_ids r.1) n d n' d' run)) n d.
Proof.
  intros Hfresh Hkeyed. unfold Apply. apply skruns_bind. eapply skruns_mono; [apply plan_quiet|].
  intros r n1 d1 ((ss & report & -> & Hss & Hrows) & Hn1 & ->). cbn [negb].
  destruct (plan_fits _ _ _ Hkeyed Hss Hrows) as [Hnd Hfits]. sk_step.
  apply skruns_bind. eapply skruns_mono; [by apply apply_rows_quiet|].
  intros r n2 d2 (He & Hrep & Hmint & [Hn2 Hr2] & Hids & Hitems & Hout). rewrite He.
  assert (Hch : changed_ids r.1.1 = changed_ids report) by (rewrite Hrep; apply changed_done).
  assert (Happ : Forall (λ row, rv_WouldChange row = true → rv_Applied row = true) r.1.1).
  { rewrite Hrep. apply Forall_fmap, Forall_true. intros row. unfold compose, row_done.
    destruct (rv_WouldChange row) eqn:Hw; [done|by rewrite Hw]. }
  assert (Hnd' : NoDup (changed_ids report)) by (eapply sublist_NoDup; [exact Hnd|apply fmap_sublist, sublist_filter]).
  unfold save_run. destruct (bool_decide (r.1.2 = [])) eqn:Hempty; cbn [negb orb].
  - apply bool_decide_eq_true in Hempty. rewrite Hempty in Hids. apply skruns_ret. cbn [fst snd]. rewrite Hch.
    rewrite <-Hids in *. by split_and!.
  - apply bool_decide_eq_false in Hempty.
    set (run := mkRun (se_id E n1) ModeApply "" (se_clock E n2) r.1.2).
    destruct (run_Save_minted E n1 n1 (S n2) run (sd_runs d2)) as [Hsave Hfresh']; try done; try lia.
    { rewrite Hr2. by eapply audit_fresh_mono. }
    { eapply minted_mono; [exact Hmint|lia|lia]. }
    apply skruns_bind. sk_step. apply skruns_sk. cbn [skperform fst snd]. rewrite (q_fault _ HE). fold run. rewrite Hsave. cbn [sk_write].
    apply skruns_ret. apply skruns_ret. cbn [fst snd fmap option_fmap option_map]. rewrite Hch.
    assert (Hnone : sd_runs d !! rr_ID run = None) by (apply (af_run _ _ _ Hfresh); lia).
    split_and!; try done.
    + intros Hnil. rewrite Hnil in Hids. by apply fmap_nil_inv in Hids.
    + intros _. exists run. unfold recorded. cbn [sd_runs put_runs sd_with_runs]. rewrite <-Hr2 in *. split_and!; try done.
      * rewrite reverts_insert by done. apply (af_reverts _ _ _ Hfresh). lia.
      * eapply audit_fresh_mono; [by apply Hfresh'|lia].
Qed.

Lemma Revert_quiet ids n d n1 d1 run :
  NoDup ids → recorded ids n d n1 d1 run →
  skruns E (Revert (rr_ID run)) (λ r n' d',
    r.2 = None ∧ length r.1 = length ids ∧ Forall (λ row, rt_Reverted row = true) r.1 ∧
    taken_back false ids (marks d1) (marks d) (marks d')) n1 d1.
Proof.
  intros Hnd (Hruns & Hnone & Hrev & Hfresh & Hids & Hfits). unfold Revert. sk_step.
  unfold run_FindByID. rewrite Hruns, lookup_insert_eq. unfold revertRun, scanRun. cbn [rr_ID rr_Items].
  sk_step. sk_step. rewrite Hrev. pose proof (merge_sort_Permutation item_le (rr_Items run)) as Hperm.
  set (items := merge_sort item_le (rr_Items run)) in *.
  apply skruns_bind. eapply skruns_mono; [apply revert_items_quiet; [rewrite Hperm, Hids; done|by rewrite Hperm]|].
  intros r n2 d2 (He & Hlen & Hrow & Hmint & [Hn2 Hr2] & Htb). rewrite He. sk_step. sk_step.
  destruct (run_Save_minted E n1 (S n1) (S n2) (mkRun (se_id E (S n1)) ModeRevert (rr_ID run) (se_clock E n2) r.1.2) (sd_runs d2))
    as [Hsave _]; try done; try lia.
  { by rewrite Hr2. }
  { eapply minted_mono; [exact Hmint|lia|lia]. }
  rewrite Hsave. apply skruns_ret. cbn [fst snd]. split_and!; [done| |done|].
  - by rewrite Hlen, Hperm, <-Hids, length_fmap.
  - intros i. specialize (Htb i). etrans; [exact Htb|]. rewrite (bool_decide_ext _ (raw i ∈ ids)); [done|by rewrite Hperm, Hids].
Qed.
End Quiet.

Section RoundTrip.
Context `{Collation} `{UlidLib}.

(** C22: (a re-evaluation can be taken back) without database faults and with
    identifiers that are new, a confirmed and audited apply reports no error and
    applies every change of its report; it records a run exactly when there is a
    change; and reverting that run succeeds for every skill in it and leaves each
    skill with the status it had before the apply, whatever legal detour that
    takes, with one rollback more on the counter of those that had changed and
    nothing on the others. *)
Theorem reeval_revert_restores E n d :
  quiet E → audit_fresh E n (sd_runs d) → skills_keyed d →
  let '(report, err, n1, d1) := skexec E (Apply true true) n d in
  err = None ∧ Forall (λ row, rv_WouldChange row = true → rv_Applied row = true) report ∧
  (CountChanges report = 0 → sd_runs d1 = sd_runs d) ∧
  (CountChanges report ≠ 0 → ∃ run,
     sd_runs d1 = <[rr_ID run := run]> (sd_runs d) ∧ sd_runs d !! rr_ID run = None ∧
     let '(rows, err', _, d2) := skexec E (Revert (rr_ID run)) n1 d1 in
     err' = None ∧ length rows = CountChanges report ∧ Forall (λ row, rt_Reverted row = true) rows ∧
     ∀ i, marks d2 !! i = (λ m, (m.1, if bool_decide (raw i ∈ changed_ids report) then wrap64 (m.2 + 1) else m.2))
                          <$> (marks d !! i)).
Proof.
  intros HE Hfresh Hkeyed. pose proof (Apply_quiet E HE n d Hfresh Hkeyed) as Ha. unfold skruns in Ha.
  destruct (skexec E (Apply true true) n d) as [[[report err] n1] d1]. cbn [fst snd] in Ha.
  destruct Ha as (He & Happ & Hnd & Hout & Hnil & Hrec).
  assert (Hcount : CountChanges report = length (changed_ids report)) by (unfold changed_ids; by rewrite length_fmap).
  rewrite Hcount. split_and!; [done|done|intros Hz; by apply Hnil, nil_length_inv|]. intros Hne.
  destruct Hrec as (run & Hrun); [by intros Hz; rewrite Hz in Hne|]. exists run.
  pose proof (Revert_quiet E HE _ _ _ _ _ _ Hnd Hrun) as Hr. unfold skruns in Hr.
  destruct Hrun as (Hruns & Hnone & _). destruct (skexec E (Revert (rr_ID run)) n1 d1) as [[[rows err'] n2] d2].
  cbn [fst snd] in Hr. destruct Hr as (He' & Hlen & Hrow & Htb). split_and!; try done.
  intros i. rewrite (Htb i). case_bool_decide as Hi; [done|]. rewrite Hout by done.
  by destruct (marks d !! i) as [[]|].
Qed.
End RoundTrip.
