(* ===== verification/SkillMatch.v ===== *)
(** * Selecting skills

    [pg/skill_matcher.go] with the query of [discipline/skill_matcher.go] and the
    structural context of [domain/structural/context.go]: which of the skills of
    the table a prompt gets, in which order, and why the others were left out. *)
From S2P Require Import Prelude Ids Json Envelope PhaseDomain ChangeDomain Session Outbox Store SkillDomain.
From stdpp Require Import list sorting strings.

(** doublestar.Match; an invalid pattern matches nothing. *)
Class Glob := glob_match : string → string → bool.

(** ** The structural context (domain/structural/context.go) *)

Record LanguageInfo := mkLanguage { la_Name : string; la_VersionEvidence : string; la_FilesCount : Z }.
Record FrameworkInfo := mkFramework { fw_Name : string; fw_Version : string; fw_EvidencePath : string }.
Record GraphSummary := mkGraphSummary { gs_TotalNodes : Z; gs_TotalEdges : Z; gs_CommunityCount : Z; gs_GodNodes : list string }.
Record StructuralContext := mkStructural {
  st_SchemaVersion : Z;
  st_ProjectID : string;
  st_ChangeID : string;
  st_ChangeName : string;
  st_Languages : list LanguageInfo;
  st_Frameworks : list FrameworkInfo;
  st_PackageManagers : list string;
  st_ArchStyle : list string;
  st_GraphSummary : option GraphSummary;
  st_AffectedModules : list string;
  st_ConventionHints : list string;
  st_GraphAvailable : bool;
  st_DegradedReason : string;
  st_DetectedAt : Time;
  st_GraphifyVersion : string;
  st_SophiaDetectorVer : string;
  st_Greenfield : bool
}.

(** ** The query (discipline/skill_matcher.go) *)

Record SkillQuery := mkQuery {
  q_Phase : PhaseType;
  q_ProjectID : string;
  q_RepoID : string;
  q_StructuralContext : option StructuralContext;
  q_FeatureType : string;
  q_TouchedPaths : list string;
  q_MaxRiskLevel : RiskLevel
}.

Inductive SkipReason :=
  | SkipReasonScopeMismatch | SkipReasonAppliesWhenFailed | SkipReasonStatusNotActive | SkipReasonRiskExceeded
  | SkipReasonStructuralMismatch.
Record SkippedSkill := mkSkipped { ss_SkillID : string; ss_Reason : SkipReason }.

(** riskOrder: a missing key of the map is 0. *)
Definition riskOrder (r : RiskLevel) : Z :=
  match r with RiskLow => 0 | RiskMedium => 1 | RiskHigh => 2 | RiskCritical => 3 | RiskOther _ => 0 end.

Section Filters.
Context `{UnicodeTables} `{Glob}.

Definition wildcard_or (v want : string) : bool :=
  str_empty v || bool_decide (v = "*") || bool_decide (v = want).

Definition scopeMatches (sc : Scope) (q : SkillQuery) : option SkipReason :=
  if negb (str_empty (q_ProjectID q)) && negb (wildcard_or (sc_ProjectID sc) (q_ProjectID q))
  then Some SkipReasonScopeMismatch
  else if negb (str_empty (q_RepoID q)) && negb (wildcard_or (sc_RepoID sc) (q_RepoID q))
  then Some SkipReasonScopeMismatch
  else None.

Definition anyGlobMatch (patterns : list string) (path : string) : bool := existsb (λ pat, glob_match pat path) patterns.

Definition is_nil {A} (l : list A) : bool := match l with [] => true | _ => false end.

Definition appliesWhenMatches (aw : AppliesWhen) (q : SkillQuery) : option SkipReason :=
  if negb (is_nil (aw_FeatureType aw)) && negb (str_empty (q_FeatureType q))
     && negb (existsb (λ ft, bool_decide (ft = q_FeatureType q)) (aw_FeatureType aw))
  then Some SkipReasonAppliesWhenFailed
  else if is_nil (q_TouchedPaths q) then None
  else if negb (is_nil (aw_ExcludePaths aw)) && existsb (anyGlobMatch (aw_ExcludePaths aw)) (q_TouchedPaths q)
  then Some SkipReasonAppliesWhenFailed
  else if negb (is_nil (aw_TouchedPaths aw)) && negb (existsb (anyGlobMatch (aw_TouchedPaths aw)) (q_TouchedPaths q))
  then Some SkipReasonAppliesWhenFailed
  else None.

(** The gate of one detected framework whose name matches. *)
Definition version_gate (aw : AppliesWhen) (fw : FrameworkInfo) : bool :=
  if bool_decide (aw_FrameworkMinVersion aw = ∅) then true else
  match aw_FrameworkMinVersion aw !! ToLower (fw_Name fw) with
  | None => true
  | Some minVer =>
      match MajorOf (fw_Version fw), MajorOf minVer with
      | None, _ => true
      | _, None => true
      | Some detectedMaj, Some minMaj => (minMaj <=? detectedMaj)%Z
      end
  end.

Definition anyFrameworkMatches (aw : AppliesWhen) (detected : list FrameworkInfo) : bool :=
  existsb (λ declaredName, existsb (λ fw, EqualFold declaredName (fw_Name fw) && version_gate aw fw) detected)
    (aw_Framework aw).

Definition anyLanguagePresent (declared : list string) (detected : list LanguageInfo) : bool :=
  existsb (λ d, existsb (λ l, EqualFold d (la_Name l)) detected) declared.

Definition structuralMatches (aw : AppliesWhen) (q : SkillQuery) : option SkipReason :=
  match q_StructuralContext q with
  | None => None
  | Some sc =>
      if negb (is_nil (aw_Framework aw)) && negb (anyFrameworkMatches aw (st_Frameworks sc))
      then Some SkipReasonStructuralMismatch
      else if negb (is_nil (aw_Language aw)) && negb (anyLanguagePresent (aw_Language aw) (st_Languages sc))
      then Some SkipReasonStructuralMismatch
      else None
  end.

Definition risk_exceeded (q : SkillQuery) (s : Skill) : bool :=
  negb (bool_decide (q_MaxRiskLevel q = RiskOther "")) && (riskOrder (q_MaxRiskLevel q) <? riskOrder (sk_riskLevel s))%Z.

(** The body of the loop: why a skill is left out, if it is. *)
Definition skip_reason (q : SkillQuery) (s : Skill) : option SkipReason :=
  if negb (bool_decide (sk_status s = SkillActive)) then Some SkipReasonStatusNotActive
  else if negb (str_empty (pt_string (q_Phase q))) && negb (AppliesTo (q_Phase q) s) then Some SkipReasonScopeMismatch
  else match scopeMatches (sk_scope s) q with
  | Some reason => Some reason
  | None =>
      match appliesWhenMatches (sk_appliesWhen s) q with
      | Some reason => Some reason
      | None =>
          match structuralMatches (sk_appliesWhen s) q with
          | Some reason => Some reason
          | None => if risk_exceeded q s then Some SkipReasonRiskExceeded else None
          end
      end
  end.

Fixpoint match_loop (q : SkillQuery) (candidates : list Skill) : list Skill * list SkippedSkill :=
  match candidates with
  | [] => ([], [])
  | s :: candidates' =>
      let rest := match_loop q candidates' in
      match skip_reason q s with
      | Some reason => (rest.1, mkSkipped (raw (sk_id s)) reason :: rest.2)
      | None => (s :: rest.1, rest.2)
      end
  end.

(** ** Order *)

(** [less] of sortSkills. *)
Definition skill_less (si sj : Skill) : bool :=
  let ri := riskOrder (sk_riskLevel si) in
  let rj := riskOrder (sk_riskLevel sj) in
  if negb (ri =? rj)%Z then (ri <? rj)%Z else
  let by_usage :=
    let ui := me_UsageCount (sk_metrics si) in
    let uj := me_UsageCount (sk_metrics sj) in
    if negb (ui =? uj)%Z then
      if (ui =? 0)%Z then false else if (uj =? 0)%Z then true else (uj <? ui)%Z
    else String.ltb (raw (sk_id si)) (raw (sk_id sj)) in
  match sk_lastValidatedAt si, sk_lastValidatedAt sj with
  | Some _, None => true
  | None, Some _ => false
  | Some ti, Some tj => if negb (ti =? tj)%Z then (tj <? ti)%Z else by_usage
  | None, None => by_usage
  end.

(** sort.SliceStable: what is earlier stays earlier unless the other is less. *)
Fixpoint stable_insert {A} (less : A → A → bool) (x : A) (l : list A) : list A :=
  match l with
  | [] => [x]
  | y :: l' => if less y x then y :: stable_insert less x l' else x :: y :: l'
  end.
Definition SliceStable {A} (less : A → A → bool) : list A → list A := foldr (stable_insert less) [].

Definition sortSkills : list Skill → list Skill := SliceStable skill_less.

Definition match_skills (q : SkillQuery) (candidates : list Skill) : list Skill * list SkippedSkill :=
  let r := match_loop q candidates in (sortSkills r.1, r.2).

Fixpoint risk_loop (q : SkillQuery) (candidates : list Skill) : list Skill * list SkippedSkill :=
  match candidates with
  | [] => ([], [])
  | s :: candidates' =>
      let rest := risk_loop q candidates' in
      if (riskOrder (q_MaxRiskLevel q) <? riskOrder (sk_riskLevel s))%Z
      then (rest.1, mkSkipped (raw (sk_id s)) SkipReasonRiskExceeded :: rest.2)
      else (s :: rest.1, rest.2)
  end.
Definition applyRiskFilter (candidates : list Skill) (q : SkillQuery) : list Skill * list SkippedSkill :=
  if bool_decide (q_MaxRiskLevel q = RiskOther "") then (candidates, []) else risk_loop q candidates.
End Filters.

(** ** Lexicographic order *)

Fixpoint lex_le (a b : list Z) (last : Prop) : Prop :=
  match a, b with
  | x :: a', y :: b' => (x < y)%Z ∨ (x = y ∧ lex_le a' b' last)
  | _, _ => last
  end.

Lemma lex_le_trans a b c (P Q R : Prop) :
  length a = length b → length b = length c → (P → Q → R) → lex_le a b P → lex_le b c Q → lex_le a c R.
Proof.
  revert b c. induction a as [|x a IH]; intros [|y b] [|z c] Hab Hbc HR; try done; simpl in *.
  simplify_eq. intros [?|[-> H1]] [?|[-> H2]]; [left; lia|by left|by left|right; split; [done|eauto]].
Qed.

Lemma lex_le_total a b (P Q : Prop) : length a = length b → P ∨ Q → lex_le a b P ∨ lex_le b a Q.
Proof.
  revert b. induction a as [|x a IH]; intros [|y b] Hab HPQ; try done; simpl in *. simplify_eq.
  destruct (IH b Hab HPQ); destruct (Z.lt_total x y) as [?|[?|?]]; auto 6.
Qed.

Lemma lex_le_antisym a b P Q : length a = length b → lex_le a b P → lex_le b a Q → a = b ∧ P ∧ Q.
Proof.
  revert b. induction a as [|x a IH]; intros [|y b] Hab; try done; simpl in *; simplify_eq.
  intros [?|[-> H1]] [?|[? H2]]; try lia. destruct (IH b Hab H1 H2) as (-> & ? & ?). done.
Qed.

(** Stable sorting by a [less] whose opposite is transitive and total. *)
Section Stable.
Context {A} (less : A → A → bool).
Let le x y := less y x = false.

Lemma stable_insert_perm x l : stable_insert less x l ≡ₚ x :: l.
Proof.
  induction l as [|y l IH]; [done|]. simpl. destruct (less y x); [|done].
  rewrite IH. apply Permutation_swap.
Qed.

Lemma SliceStable_perm l : SliceStable less l ≡ₚ l.
Proof. induction l as [|x l IH]; [done|]. simpl. by rewrite stable_insert_perm, IH. Qed.

Hypothesis (le_trans : ∀ x y z, le x y → le y z → le x z).
Hypothesis (less_le : ∀ x y, less x y = true → le x y).

Lemma stable_insert_sorted x l : StronglySorted le l → StronglySorted le (stable_insert less x l).
Proof.
  induction 1 as [|y l Hl IH Hy]; simpl; [by repeat constructor|].
  destruct (less y x) eqn:Hyx.
  - constructor; [done|]. rewrite stable_insert_perm. constructor; [by apply less_le|done].
  - constructor; [by constructor|]. constructor; [done|].
    eapply Forall_impl; [exact Hy|]. intros z Hz. by eapply le_trans.
Qed.

Lemma SliceStable_sorted l : StronglySorted le (SliceStable less l).
Proof. induction l as [|x l IH]; [constructor|]. by apply stable_insert_sorted. Qed.
End Stable.

(** ** The order of the selection *)

(** Low risk first; then the most recently validated, those never validated
    last; then the most used, those never used last. *)
Definition skill_rank (s : Skill) : list Z :=
  [ riskOrder (sk_riskLevel s);
    match sk_lastValidatedAt s with Some _ => 0 | None => 1 end;
    match sk_lastValidatedAt s with Some t => - t | None => 0 end;
    if (me_UsageCount (sk_metrics s) =? 0)%Z then 1 else 0;
    - me_UsageCount (sk_metrics s) ]%Z.

(** ... and then the smaller identifier. *)
Definition prefer (s t : Skill) : Prop :=
  lex_le (skill_rank s) (skill_rank t) (String.le (raw (sk_id s)) (raw (sk_id t))).

Lemma ltb_false_le s t : String.ltb t s = false ↔ String.le s t.
Proof.
  unfold String.le, String.leb, String.ltb. rewrite (String.compare_antisym t s).
  by destruct (String.compare s t).
Qed.

Lemma skill_less_prefer s t : skill_less t s = false ↔ prefer s t.
Proof.
  unfold skill_less, prefer, skill_rank. cbn [lex_le]. rewrite <-ltb_false_le.
  set (b := String.ltb _ _). set (r1 := riskOrder (sk_riskLevel s)). set (r2 := riskOrder (sk_riskLevel t)).
  set (u1 := me_UsageCount (sk_metrics s)). set (u2 := me_UsageCount (sk_metrics t)).
  destruct (sk_lastValidatedAt s) as [t1|], (sk_lastValidatedAt t) as [t2|]; destruct b;
    repeat match goal with |- context [(?x =? ?y)%Z] => destruct (Z.eqb_spec x y)
                         | |- context [(?x <? ?y)%Z] => destruct (Z.ltb_spec x y) end; cbn [negb]; naive_solver lia.
Qed.

Lemma prefer_trans s t u : prefer s t → prefer t u → prefer s u.
Proof. apply lex_le_trans; try done. intros ??. by etrans. Qed.

Lemma prefer_antisym s t : prefer s t → prefer t s → sk_id s = sk_id t.
Proof.
  intros H1 H2. destruct (lex_le_antisym (skill_rank s) (skill_rank t) _ _ eq_refl H1 H2) as (_ & H3 & H4).
  assert (Hr : raw (sk_id s) = raw (sk_id t)) by (by apply (anti_symm String.le)).
  destruct (sk_id s), (sk_id t). simpl in Hr. by subst.
Qed.

Lemma skill_less_asym s t : skill_less s t = true → skill_less t s = false.
Proof.
  intros Hst. destruct (lex_le_total (skill_rank s) (skill_rank t) _ _ eq_refl
    (total String.le (raw (sk_id s)) (raw (sk_id t)))) as [Hp|Hp].
  - by apply skill_less_prefer.
  - apply skill_less_prefer in Hp. congruence.
Qed.

Lemma NoDup_fmap_elem {A B} (f : A → B) l x y : NoDup (f <$> l) → x ∈ l → y ∈ l → f x = f y → x = y.
Proof.
  intros Hnd [i Hi]%list_elem_of_lookup [j Hj]%list_elem_of_lookup Hf.
  assert (i = j) as ->; [|congruence].
  eapply (NoDup_lookup (f <$> l)); [done|by rewrite list_lookup_fmap, Hi|by rewrite list_lookup_fmap, Hj, Hf].
Qed.

Lemma StronglySorted_impl {A} (R R' : A → A → Prop) l :
  (∀ x y, R x y → R' x y) → StronglySorted R l → StronglySorted R' l.
Proof. intros HR. induction 1 as [|x l Hl IH Hx]; constructor; [done|]. eapply Forall_impl; [exact Hx|apply HR]. Qed.

Lemma sortSkills_sorted l : StronglySorted prefer (sortSkills l).
Proof.
  eapply StronglySorted_impl; [|apply SliceStable_sorted; [|apply skill_less_asym]].
  - intros x y. apply skill_less_prefer.
  - intros x y z. rewrite !skill_less_prefer. apply prefer_trans.
Qed.

Section Selection.
Context `{UnicodeTables} `{Glob}.

Lemma match_loop_matched q l : (match_loop q l).1 = filter (λ s, skip_reason q s = None) l.
Proof.
  induction l as [|s l IH]; [done|]. cbn [match_loop]. destruct (skip_reason q s) eqn:Hr; cbn [fst].
  - by rewrite filter_cons_False, IH by congruence.
  - by rewrite filter_cons_True, IH.
Qed.

Lemma match_loop_skipped q l :
  (match_loop q l).2 = omap (λ s, mkSkipped (raw (sk_id s)) <$> skip_reason q s) l.
Proof.
  induction l as [|s l IH]; [done|]. cbn. destruct (skip_reason q s) eqn:Hr; cbn; by rewrite IH.
Qed.

(** (selection) the selection of skills for a query loses nothing: the skills
    it returns are exactly those no filter rejects, and each other one is listed
    with the first filter that rejects it, in the order of the table; what is
    returned is ordered by risk, then by last validation with those never
    validated last, then by use with those never used last, then by identifier;
    and, identifiers being unique, the returned list does not depend on the order
    in which the table was read. *)
Theorem skill_selection_is_a_partition q l l' :
  let '(matched, skipped) := match_skills q l in
  matched ≡ₚ filter (λ s, skip_reason q s = None) l ∧
  skipped = omap (λ s, mkSkipped (raw (sk_id s)) <$> skip_reason q s) l ∧
  length matched + length skipped = length l ∧
  StronglySorted prefer matched ∧
  (NoDup (sk_id <$> l) → l ≡ₚ l' → (match_skills q l').1 = matched).
Proof.
  unfold match_skills. rewrite match_loop_matched, match_loop_skipped.
  pose proof (SliceStable_perm skill_less) as Hperm. split_and!.
  - apply Hperm.
  - done.
  - unfold sortSkills. rewrite Hperm. clear. induction l as [|s l IH]; [done|]. cbn [omap list_omap].
    destruct (skip_reason q s) eqn:Hr; cbn [fmap option_fmap option_map].
    + rewrite filter_cons_False by congruence. cbn [length]. lia.
    + rewrite filter_cons_True by done. cbn [length]. lia.
  - apply sortSkills_sorted.
  - intros Hnd Hl. cbn [fst]. rewrite match_loop_matched.
    eapply StronglySorted_unique_strong; [|apply sortSkills_sorted|apply sortSkills_sorted|].
    + intros s t. unfold sortSkills. rewrite !Hperm, <-Hl, !list_elem_of_filter. intros [_ Hs] [_ Ht] H1 H2.
      apply (NoDup_fmap_elem sk_id l); auto using prefer_antisym.
    + unfold sortSkills. by rewrite !Hperm, Hl.
Qed.

(** ** What the filters mean *)

Lemma is_nil_true {A} (l : list A) : is_nil l = true ↔ l = [].
Proof. by destruct l. Qed.

Lemma str_empty_true s : str_empty s = true ↔ s = EmptyString.
Proof. apply bool_decide_eq_true. Qed.

(** [if a && negb b then Some reason else rest] *)
Lemma guard_None {A} (a b : bool) (r : A) rest :
  (if negb a && negb b then Some r else rest) = None ↔ (a = true ∨ b = true) ∧ rest = None.
Proof. destruct a, b; simpl; naive_solver. Qed.

Definition wild (v want : string) : Prop := v = EmptyString ∨ v = "*" ∨ v = want.

Lemma scopeMatches_None sc q :
  scopeMatches sc q = None ↔
  (q_ProjectID q = EmptyString ∨ wild (sc_ProjectID sc) (q_ProjectID q)) ∧
  (q_RepoID q = EmptyString ∨ wild (sc_RepoID sc) (q_RepoID q)).
Proof.
  unfold scopeMatches, wildcard_or, wild. rewrite !guard_None, !orb_true_iff, !str_empty_true, !bool_decide_eq_true.
  naive_solver.
Qed.

Lemma anyGlobMatch_true pats path : anyGlobMatch pats path = true ↔ ∃ pat, pat ∈ pats ∧ glob_match pat path = true.
Proof. apply existsb_elem. Qed.

Lemma appliesWhenMatches_None aw q :
  appliesWhenMatches aw q = None ↔
  (aw_FeatureType aw = [] ∨ q_FeatureType q = EmptyString ∨ q_FeatureType q ∈ aw_FeatureType aw) ∧
  (∀ path pat, path ∈ q_TouchedPaths q → pat ∈ aw_ExcludePaths aw → glob_match pat path = false) ∧
  (q_TouchedPaths q = [] ∨ aw_TouchedPaths aw = [] ∨
   ∃ path pat, path ∈ q_TouchedPaths q ∧ pat ∈ aw_TouchedPaths aw ∧ glob_match pat path = true).
Proof.
  unfold appliesWhenMatches. rewrite <-negb_orb, guard_None, orb_true_iff, existsb_elem, is_nil_true, str_empty_true.
  setoid_rewrite bool_decide_eq_true.
  assert (Hx : (negb (is_nil (aw_ExcludePaths aw)) && existsb (anyGlobMatch (aw_ExcludePaths aw)) (q_TouchedPaths q)) = false ↔
    ∀ path pat, path ∈ q_TouchedPaths q → pat ∈ aw_ExcludePaths aw → glob_match pat path = false).
  { rewrite <-not_true_iff_false, andb_true_iff, existsb_elem, negb_true_iff, <-not_true_iff_false, is_nil_true.
    setoid_rewrite anyGlobMatch_true. split.
    - intros Hn path pat Hp Hpat. apply not_true_iff_false. intros Hg. apply Hn.
      split; [intros He; rewrite He in Hpat; by apply elem_of_nil in Hpat|]. naive_solver.
    - intros Hall [_ (path & Hp & pat & Hpat & Hg)]. by rewrite (Hall path pat) in Hg. }
  destruct (is_nil (q_TouchedPaths q)) eqn:Hnil.
  - apply is_nil_true in Hnil. rewrite Hnil. setoid_rewrite elem_of_nil. naive_solver.
  - rewrite <-Hx. destruct (negb (is_nil (aw_ExcludePaths aw)) && _); [naive_solver|].
    rewrite guard_None, is_nil_true, existsb_elem. setoid_rewrite anyGlobMatch_true.
    assert (q_TouchedPaths q ≠ []) by (intros Hq; by rewrite Hq in Hnil). naive_solver.
Qed.

(** The version gate of a framework: open unless both majors parse and the
    detected one is smaller. *)
Definition gate_open (aw : AppliesWhen) (fw : FrameworkInfo) : Prop :=
  ∀ minVer d m, aw_FrameworkMinVersion aw !! ToLower (fw_Name fw) = Some minVer →
    MajorOf (fw_Version fw) = Some d → MajorOf minVer = Some m → (m <= d)%Z.

Lemma version_gate_true aw fw : version_gate aw fw = true ↔ gate_open aw fw.
Proof.
  unfold version_gate, gate_open. case_bool_decide as He; [rewrite He; setoid_rewrite lookup_empty; naive_solver|].
  destruct (aw_FrameworkMinVersion aw !! _) as [v|]; [|naive_solver].
  destruct (MajorOf (fw_Version fw)) as [d|], (MajorOf v) as [m|] eqn:Hm; try naive_solver.
  rewrite Z.leb_le. naive_solver.
Qed.

Lemma structuralMatches_None aw q :
  structuralMatches aw q = None ↔
  ∀ sc, q_StructuralContext q = Some sc →
    (aw_Framework aw = [] ∨ ∃ name fw, name ∈ aw_Framework aw ∧ fw ∈ st_Frameworks sc ∧
       EqualFold name (fw_Name fw) = true ∧ gate_open aw fw) ∧
    (aw_Language aw = [] ∨ ∃ name l, name ∈ aw_Language aw ∧ l ∈ st_Languages sc ∧ EqualFold name (la_Name l) = true).
Proof.
  unfold structuralMatches. destruct (q_StructuralContext q) as [sc|]; [|naive_solver].
  rewrite !guard_None, !is_nil_true. unfold anyFrameworkMatches, anyLanguagePresent. rewrite !existsb_elem.
  setoid_rewrite existsb_elem. setoid_rewrite andb_true_iff. setoid_rewrite version_gate_true. naive_solver.
Qed.

(** (which skills are selected) a skill passes the filters of a query
    exactly when it is active; is for the phase, if one is asked for; its project
    and repository are those asked for, or open; its feature types contain the
    one asked for; no touched path matches a pattern it excludes and, if it names
    patterns, some touched path matches one; and, if the structure of the
    repository is known, one of its frameworks was detected with the version gate
    open, and one of its languages; and its risk is within the bound, where a
    risk level that is not known counts as the lowest.  Whatever the query leaves
    open does not restrict. *)
Theorem skill_is_selected_iff q s :
  skip_reason q s = None ↔
  sk_status s = SkillActive ∧
  (pt_string (q_Phase q) = EmptyString ∨ q_Phase q ∈ sk_phases s) ∧
  ((q_ProjectID q = EmptyString ∨ wild (sc_ProjectID (sk_scope s)) (q_ProjectID q)) ∧
   (q_RepoID q = EmptyString ∨ wild (sc_RepoID (sk_scope s)) (q_RepoID q))) ∧
  (let aw := sk_appliesWhen s in
   (aw_FeatureType aw = [] ∨ q_FeatureType q = EmptyString ∨ q_FeatureType q ∈ aw_FeatureType aw) ∧
   (∀ path pat, path ∈ q_TouchedPaths q → pat ∈ aw_ExcludePaths aw → glob_match pat path = false) ∧
   (q_TouchedPaths q = [] ∨ aw_TouchedPaths aw = [] ∨
    ∃ path pat, path ∈ q_TouchedPaths q ∧ pat ∈ aw_TouchedPaths aw ∧ glob_match pat path = true)) ∧
  (∀ sc, q_StructuralContext q = Some sc →
     let aw := sk_appliesWhen s in
     (aw_Framework aw = [] ∨ ∃ name fw, name ∈ aw_Framework aw ∧ fw ∈ st_Frameworks sc ∧
        EqualFold name (fw_Name fw) = true ∧ gate_open aw fw) ∧
     (aw_Language aw = [] ∨ ∃ name l, name ∈ aw_Language aw ∧ l ∈ st_Languages sc ∧ EqualFold name (la_Name l) = true)) ∧
  (q_MaxRiskLevel q = RiskOther EmptyString ∨ (riskOrder (sk_riskLevel s) <= riskOrder (q_MaxRiskLevel q))%Z).
Proof.
  cbv zeta. rewrite <-scopeMatches_None, <-appliesWhenMatches_None, <-structuralMatches_None, <-AppliesTo_elem.
  unfold skip_reason, risk_exceeded. destruct (decide (sk_status s = SkillActive)) as [Ha|Ha];
    [rewrite bool_decide_eq_true_2 by done|rewrite bool_decide_eq_false_2 by done; naive_solver].
  cbn [negb]. rewrite guard_None, str_empty_true. destruct (scopeMatches _ _); [naive_solver|]. destruct (appliesWhenMatches _ _); [naive_solver|].
  destruct (structuralMatches _ _); [naive_solver|]. case_bool_decide; cbn [negb andb]; [naive_solver|].
  destruct (Z.ltb_spec (riskOrder (q_MaxRiskLevel q)) (riskOrder (sk_riskLevel s))); naive_solver lia.
Qed.
End Selection.
