(* ===== verification/OpenCode.v ===== *)
(** * The OpenCode dispatcher

    [internal/adapters/outbound/dispatcher/opencode]: the agent runs as a
    subprocess of the runtime service; the dispatcher tells an exhausted quota
    from a failed run and finds the envelope in what the agent printed. *)
From S2P Require Import Prelude Ids Utf8 Json Envelope PhaseDomain Discipline GoPath ApplyEffects Lines JsonText Regex.
From stdpp Require Import list gmap.
From Stdlib Require Import Ascii.

(** ** extract_envelope.go *)

Definition backtick : ascii := "`".
Definition fence_open : list ascii := chars "```json".
Definition fence_mark : list ascii := chars "```".
Definition open_brace (a : ascii) : bool := is_char 123 a.
Definition close_brace (a : ascii) : bool := is_char 125 a.

(** [fencedJSONRE] *)
Definition fencedJSONRE : list item :=
  word "```json" ++ [Many true re_space; Open; One open_brace; Many false any; One close_brace; Close; Many true re_space] ++ word "```".

(** [bytes.TrimSpace] *)
Definition trim_bytes (l : list ascii) : list ascii := trimRight (trimLeft l).

Definition extractLastFencedJSONFromText (src : list ascii) : option (list ascii) := trim_bytes <$> last (FindAll fencedJSONRE src).

Record streamEvent := mkStreamEvent { se_Type : string; se_PartType : string; se_PartText : string }.
Definition part_fields : list (string * (streamEvent → json → option streamEvent)) :=
  [ ("type"%string, set_string (λ t e, mkStreamEvent (se_Type e) t (se_PartText e)));
    ("text"%string, set_string (λ t e, mkStreamEvent (se_Type e) (se_PartType e) t)) ].
Definition stream_fields : list (string * (streamEvent → json → option streamEvent)) :=
  [ ("type"%string, set_string (λ t e, mkStreamEvent t (se_PartType e) (se_PartText e)));
    ("part"%string, decode_struct part_fields) ].

(** What one line of the stream adds to the collected text. *)
Definition stream_line (raw : list ascii) : list ascii :=
  let line := trim_bytes raw in
  match line with
  | a :: _ =>
      if open_brace a then
        match json_parse (text line) with
        | JSON j => match decode_struct stream_fields (mkStreamEvent "" "" "") j with
                    | Some ev => if bool_decide (se_Type ev = "text"%string) then chars (se_PartText ev) else []
                    | None => []
                    end
        | NotJSON _ => []
        end
      else []
  | [] => []
  end.

(** The buffer of the scanner is raised to one MiB. *)
Definition maxTokenSize : N := 1048576.
Definition collectStreamText (stdout : list ascii) : list ascii := mjoin (stream_line <$> scan_tokens maxTokenSize (split_on newline stdout)).

Definition isJSONObject (data : list ascii) : bool :=
  match data with
  | a :: _ => open_brace a && match json_parse (text data) with JSON _ => true | NotJSON _ => false end
  | [] => false
  end.

Definition extractEnvelopeRaw (stdout : list ascii) : option (list ascii) :=
  match extractLastFencedJSONFromText stdout with
  | Some raw => Some raw
  | None =>
      let collected := collectStreamText stdout in
      match extractLastFencedJSONFromText collected with
      | Some raw => Some raw
      | None => let trimmed := trim_bytes collected in if isJSONObject trimmed then Some trimmed else None
      end
  end.

(** ** quota_detector.go *)

Fixpoint index_of (sub l : list ascii) : option nat :=
  match TrimPrefix_list sub l with
  | Some _ => Some 0
  | None => match l with [] => None | _ :: l' => S <$> index_of sub l' end
  end.
Definition contains (l : list ascii) (sub : string) : bool := contains_list (chars sub) l.

Definition transportTokens : list string := ["429"; "rate limit"; "AI_RetryError"; "maxRetriesExceeded"]%string.
Definition quotaTokens : list string := ["quota_exceeded"; "quota exceeded"; "x-ratelimit-exceeded"]%string.

Definition quote_mark (a : ascii) : bool := is_char 34 a || is_char 39 a.
Definition header_sep (a : ascii) : bool := is_char 58 a || is_char 61 a || re_space a.
Definition header_value : list item :=
  [Opt quote_mark; Many true re_space; One header_sep; Many true header_sep; Opt quote_mark; Open; One dec_digit; Many true dec_digit; Close].
Definition retryAfterSpecificRE : list item := word_i "x-ratelimit-quota-exceeded-retry-after" ++ header_value.
Definition retryAfterGenericRE : list item := word_i "retry-after" ++ header_value.

(** A capture as a positive int. *)
Definition seconds (m : option (list ascii * list ascii)) : option Z :=
  '(cap, _) ← m; let v := dec_value cap in if (v <? 2 ^ 63)%Z && (0 <? v)%Z then Some v else None.
Definition parseRetryAfter (l : list ascii) : Z :=
  match seconds (Find retryAfterSpecificRE l) with
  | Some v => v
  | None => default 0%Z (seconds (find_from true retryAfterGenericRE None l))
  end.

(** [strings.Fields] *)
Definition space_width (l : list ascii) : nat :=
  match code <$> take 3 l with
  | a :: rest =>
      if space1 a then 1 else
      match rest with
      | b :: rest' => if space2 a b then 2 else match rest' with c :: _ => if space3 a b c then 3 else 0 | [] => 0 end
      | [] => 0
      end
  | [] => 0
  end.
Definition push_word (cur : list ascii) (ws : list (list ascii)) : list (list ascii) := match cur with [] => ws | _ => cur :: ws end.
Fixpoint fields_from (fuel : nat) (cur l : list ascii) : list (list ascii) :=
  match fuel, l with
  | S fuel', a :: l' =>
      match space_width l with
      | 0 => fields_from fuel' (cur ++ [a]) l'
      | w => push_word cur (fields_from fuel' [] (drop w l))
      end
  | _, _ => push_word cur []
  end.
Definition Fields (l : list ascii) : list (list ascii) := fields_from (length l) [] l.

Definition evidence_limit : nat := 200.
Definition extractEvidence (l : list ascii) : list ascii :=
  let idx := foldl (λ idx tok, match index_of (chars tok) l, idx with
                               | Some i, Some j => Some (Nat.min i j)
                               | Some i, None => Some i
                               | None, _ => idx
                               end) None quotaTokens in
  let snippet := match idx with
                 | Some i => trim_bytes (take (Nat.min (i + 120) (length l) - (i - 80)) (drop (i - 80) l))
                 | None => trim_bytes l
                 end in
  take evidence_limit (join_on " "%char (Fields snippet)).

Definition detectProviderQuota (stdout stderr : list ascii) : option (Z * list ascii) :=
  let combined := stdout ++ newline :: stderr in
  if negb (existsb (contains combined) transportTokens) then None
  else if negb (existsb (contains combined) quotaTokens) then None
  else Some (parseRetryAfter combined, extractEvidence combined).

(** ** dispatcher.go *)

Record CliConfig := mkCliConfig { cli_Cmd : string; cli_ExtraArgs : list string; cli_Suggested : Z; cli_Model : string; cli_ModelByPhase : gmap string string }.
Definition SuggestedMaxConcurrentDefault : Z := 4.
Definition OpenCodeConfig : CliConfig := mkCliConfig "opencode" [] SuggestedMaxConcurrentDefault "" ∅.
Definition oc_New (cfg : CliConfig) : CliConfig :=
  mkCliConfig (if str_empty (cli_Cmd cfg) then "opencode" else cli_Cmd cfg) (cli_ExtraArgs cfg)
    (if (cli_Suggested cfg <=? 0)%Z then SuggestedMaxConcurrentDefault else cli_Suggested cfg) (cli_Model cfg) (cli_ModelByPhase cfg).

Record DispatchRequest := mkDispatchRequest { rq_Prompt : string; rq_WorktreePath : string; rq_TimeoutMS : Z; rq_PhaseType : string; rq_ModelOverride : string }.

Inductive ReceiptStatus := ReceiptSuccess | ReceiptFailure | ReceiptTimeout | ReceiptCancelled | ReceiptPartial | ReceiptOther (s : string).
#[global] Instance ReceiptStatus_eq_dec : EqDecision ReceiptStatus.
Proof. solve_decision. Defined.
Record ExecutionReceipt := mkExecReceipt { er_Status : ReceiptStatus; er_Stdout : list ascii; er_Stderr : list ascii; er_ExitCode : Z; er_DurationMS : Z;
  er_ReceiptID : string; er_RetryHint : string; er_StartedAt : Time; er_EndedAt : Time }.
Record ExecutionRequest := mkExecRequest { xr_Capability : string; xr_Payload : string; xr_TimeoutMS : Z; xr_IdempotencyKey : string }.

Definition modelFor (cfg : CliConfig) (req : DispatchRequest) : string :=
  if negb (str_empty (rq_ModelOverride req)) then rq_ModelOverride req
  else match (if str_empty (rq_PhaseType req) then None else cli_ModelByPhase cfg !! rq_PhaseType req) with
       | Some m => if str_empty m then cli_Model cfg else m
       | None => cli_Model cfg
       end.

Definition opencodeWorktreeConfig (worktreePath : string) : jdoc :=
  DObj [ ("$schema"%string, DStr "https://opencode.ai/config.json");
         ("permission"%string, DObj [ ("external_directory"%string,
            DObj [ (worktreePath, DStr "allow"); (String.append worktreePath "/**", DStr "allow") ]) ]) ].
Definition opencodeWorktreeConfigJSON (worktreePath : string) : string :=
  if str_empty worktreePath then EmptyString else doc_text (opencodeWorktreeConfig worktreePath).

Definition dispatch_args (cfg : CliConfig) (req : DispatchRequest) : list string :=
  let model := modelFor cfg req in
  ["run"%string] ++ (if str_empty model then [] else ["-m"%string; model]) ++ cli_ExtraArgs cfg ++ [rq_Prompt req].
(** The members of the marshalled map, in the order of their keys. *)
Definition exec_payload (cfg : CliConfig) (req : DispatchRequest) : jdoc :=
  let wt := rq_WorktreePath req in
  let inside := negb (str_empty wt) && negb (bool_decide (wt = "."%string)) in
  DObj ([ ("args"%string, DArr (DStr <$> dispatch_args cfg req)); ("command"%string, DStr (cli_Cmd cfg)) ] ++
        (if inside then [ ("env"%string, DObj [ ("OPENCODE_CONFIG_CONTENT"%string, DStr (opencodeWorktreeConfigJSON wt)) ]);
                          ("working_dir"%string, DStr wt) ] else [])).
Definition dispatch_execution (cfg : CliConfig) (req : DispatchRequest) : ExecutionRequest :=
  mkExecRequest "shell.exec@v1" (doc_text (exec_payload cfg req)) (rq_TimeoutMS req) EmptyString.
Definition health_execution (cfg : CliConfig) : ExecutionRequest :=
  mkExecRequest "shell.exec@v1" (doc_text (DObj [("args"%string, DArr [DStr "--version"]); ("command"%string, DStr (cli_Cmd cfg))])) 5000 EmptyString.

(** outbound.DispatchResult. *)
Record AgentOutput := mkOutput {
  ao_ExitCode : Z; ao_Stdout : list ascii; ao_Stderr : list ascii; ao_EnvelopeRaw : option (list ascii); ao_DurationMS : Z; ao_AdapterID : string
}.

Section Dispatcher.
Context (cfg : CliConfig) (runtime : ExecutionRequest → result unit ExecutionReceipt).

Definition oc_HealthCheck : bool :=
  match runtime (health_execution cfg) with
  | Ok r => bool_decide (er_Status r = ReceiptSuccess)
  | Err _ => false
  end.

Definition oc_Dispatch (req : DispatchRequest) : result dispatch_error AgentOutput :=
  match runtime (dispatch_execution cfg req) with
  | Err _ => Err DispatchOther
  | Ok r =>
      match detectProviderQuota (er_Stdout r) (er_Stderr r) with
      | Some (retryAfter, evidence) => Err (DispatchQuota (mkQuota "opencode" (modelFor cfg req) retryAfter (text evidence)))
      | None =>
          if bool_decide (er_Status r ≠ ReceiptSuccess) then Err ErrDispatchFailed
          else Ok (mkOutput (er_ExitCode r) (er_Stdout r) (er_Stderr r) (extractEnvelopeRaw (er_Stdout r)) (er_DurationMS r) EmptyString)
      end
  end.
End Dispatcher.

(** ** Fenced blocks *)

(** A closing brace that ends a block: only white space before the fence. *)
Definition fence_close (l : list ascii) : bool :=
  match l with
  | a :: r => close_brace a && match TrimPrefix_list fence_mark (drop_while re_space r) with Some _ => true | None => false end
  | [] => false
  end.
Fixpoint has_fence_end (l : list ascii) : bool :=
  fence_close l || match l with [] => false | _ :: l' => has_fence_end l' end.

Definition fence_tail : list item := [One close_brace; Close; Many true re_space] ++ word "```".

Lemma re_space_mark a x : re_space a = true → TrimPrefix_list fence_mark (a :: x) = None.
Proof. intros Ha. cbn. case_bool_decide; [subst; discriminate Ha|done]. Qed.

Lemma exec_fence_tail start cap l :
  exec fence_tail start cap l =
    match l with
    | a :: r => if close_brace a then
                  match TrimPrefix_list fence_mark (drop_while re_space r) with
                  | Some rest => Some (take (length start - length r) start, rest)
                  | None => None
                  end
                else None
    | [] => None
    end.
Proof.
  destruct l as [|a r]; [done|]. cbn [fence_tail app exec]. destruct (close_brace a); [|done].
  rewrite star_skip.
  - rewrite <-(app_nil_r (word "```")), exec_word. cbn [exec]. done.
  - intros b x Hb. rewrite <-(app_nil_r (word "```")), exec_word. fold fence_mark. by rewrite re_space_mark.
Qed.
Lemma fence_tail_none start cap l : fence_close l = false → exec fence_tail start cap l = None.
Proof.
  rewrite exec_fence_tail. destruct l as [|a r]; [done|]. cbn [fence_close]. destruct (close_brace a); [|done]. cbn [andb].
  by destruct (TrimPrefix_list fence_mark _).
Qed.

Lemma has_fence_end_suffix x y : has_fence_end (x ++ y) = false → has_fence_end y = false.
Proof. induction x as [|a x IH]; [done|]. cbn [app has_fence_end]. intros [_ ?]%orb_false_iff. by apply IH. Qed.
Lemma has_fence_end_head l : has_fence_end l = false → fence_close l = false.
Proof. destruct l; cbn [has_fence_end]; [done|]. by intros [? _]%orb_false_iff. Qed.

Lemma drop_while_app f (y z : list ascii) b : f b = false → drop_while f (y ++ b :: z) = drop_while f (y ++ [b]) ++ z.
Proof. intros Hb. induction y as [|a y IH]; cbn [app drop_while]; [by rewrite Hb|]. destruct (f a); [done|]. cbn. by rewrite <-app_assoc. Qed.

(** Whether a brace inside a block ends it does not depend on what follows. *)
Lemma fence_close_app y z : y ≠ [] → fence_close (y ++ "}"%char :: z) = fence_close (y ++ ["}"%char]).
Proof.
  destruct y as [|a y]; [done|]. intros _. cbn [app fence_close]. f_equal. rewrite drop_while_app by done.
  assert (∃ t, drop_while re_space (y ++ ["}"%char]) = t ++ ["}"%char]) as [t ->].
  { clear. induction y as [|a y [t IH]]; cbn [app drop_while]; [by exists []|]. destruct (re_space a); [by exists t|by exists (a :: y)]. }
  rewrite <-app_assoc. cbn [app]. destruct t as [|t0 [|t1 [|t2 t]]]; cbn; repeat case_bool_decide; simplify_eq; try done.
Qed.

Lemma drop_while_spaces ws x : Forall (λ a, re_space a = true) ws → drop_while re_space (ws ++ fence_mark ++ x) = fence_mark ++ x.
Proof. induction 1 as [|a l Ha _ IH]; [done|]. cbn [app drop_while]. by rewrite Ha. Qed.
Lemma star_spaces {A} (k : list ascii → option A) ws b x :
  Forall (λ a, re_space a = true) ws → re_space b = false → is_Some (k (b :: x)) → star true re_space k (ws ++ b :: x) = k (b :: x).
Proof.
  intros Hws Hb [y Hy]. rewrite Hy. induction Hws as [|a l Ha _ IH]; cbn [app star]; [by rewrite Hb|]. by rewrite Ha, IH.
Qed.

Section Block.
Context (ws body ws' : list ascii) (mid : list ascii).
Context (Hws : Forall (λ a, re_space a = true) ws) (Hws' : Forall (λ a, re_space a = true) ws').
Context (Hbody : body = "{"%char :: mid ++ ["}"%char]) (Hend : has_fence_end body = false).

Definition fenced_block : list ascii := fence_open ++ ws ++ body ++ ws' ++ fence_mark.

Lemma match_block post : match_here fencedJSONRE (fenced_block ++ post) = Some (body, post).
Proof.
  unfold match_here, fencedJSONRE, fenced_block. rewrite <-!app_assoc, exec_word.
  rewrite (proj2 (TrimPrefix_list_Some _ _ (ws ++ body ++ ws' ++ fence_mark ++ post))) by done.
  change ([Many true re_space; Open; One open_brace; Many false any; One close_brace; Close; Many true re_space] ++ word "```")
    with (Many true re_space :: Open :: One open_brace :: Many false any :: fence_tail).
  set (rest := body ++ ws' ++ fence_mark ++ post). cbn [exec].
  assert (Hrun : (λ l, match l with
            | [] => None
            | a :: l' => if open_brace a then star false any (exec fence_tail l []) l' else None
            end) rest = Some (body, post)).
  { unfold rest at 1. rewrite Hbody at 1. cbn [app]. change (open_brace "{"%char) with true. cbn match. rewrite <-app_assoc.
    apply star_lazy; [by apply Forall_forall| |].
    - intros m1 m2 -> Hm2. apply fence_tail_none. cbn [app]. rewrite fence_close_app by done. apply has_fence_end_head.
      apply (has_fence_end_suffix ("{"%char :: m1)). cbn [app]. rewrite app_assoc, <-Hbody. exact Hend.
    - rewrite exec_fence_tail. cbn [app]. change (close_brace "}"%char) with true. cbn match. rewrite drop_while_spaces by done.
      rewrite (proj2 (TrimPrefix_list_Some _ _ post)) by done. do 2 f_equal.
      unfold rest. rewrite length_app, Nat.add_sub, take_app_length. done. }
  assert (Hrest : ∃ x, rest = "{"%char :: x) by (unfold rest; rewrite Hbody; by eexists). destruct Hrest as [x Hx]. rewrite Hx in *.
  rewrite star_spaces; [exact Hrun|done|done|]. exact (mk_is_Some _ _ Hrun).
Qed.
End Block.

Lemma contains_list_suffix sub x y : contains_list sub (x ++ y) = false → y ≠ [] → TrimPrefix_list sub y = None.
Proof.
  induction x as [|a x IH]; cbn [app].
  - intros Hc Hy. destruct y as [|b y]; [done|]. cbn [contains_list] in Hc. by destruct (TrimPrefix_list sub (b :: y)).
  - cbn [contains_list]. destruct (TrimPrefix_list sub (a :: x ++ y)); [done|]. apply IH.
Qed.
(** The opening of a block does not overlap itself. *)
Lemma fence_open_overlap y z : y ≠ [] → TrimPrefix_list fence_open y = None → TrimPrefix_list fence_open (y ++ fence_open ++ z) = None.
Proof.
  intros Hy Hn. destruct (TrimPrefix_list fence_open (y ++ fence_open ++ z)) as [r|] eqn:Hr; [|done]. exfalso.
  apply TrimPrefix_list_Some in Hr. destruct y as [|a0 [|a1 [|a2 [|a3 [|a4 [|a5 [|a6 y]]]]]]]; [done|by injection Hr..|].
  injection Hr as -> -> -> -> -> -> -> _. discriminate Hn.
Qed.

(** An expression that starts with the opening of a block matches nowhere before
    the first opening, and nowhere without one. *)
Lemma find_fenced re pre y x :
  contains_list fence_open pre = false → match_here (word "```json" ++ re) (fence_open ++ y) = Some x →
  Find (word "```json" ++ re) (pre ++ fence_open ++ y) = Some x.
Proof.
  intros Hpre Hm. apply find_after; [|done]. intros p1 p2 -> Hp2. unfold match_here. rewrite exec_word. fold fence_open.
  by rewrite fence_open_overlap by (by try apply (contains_list_suffix _ p1)).
Qed.
Lemma find_no_fence re l : contains_list fence_open l = false → FindAll (word "```json" ++ re) l = [].
Proof.
  intros Hp. assert (Hn : Find (word "```json" ++ re) l = None).
  { destruct (Find _ l) as [[cap rest]|] eqn:Hf; [|done]. apply find_spec in Hf as (p & l' & -> & Hm).
    unfold match_here in Hm. rewrite exec_word in Hm. fold fence_open in Hm. destruct l' as [|a l']; [done|].
    by rewrite (contains_list_suffix _ p (a :: l')) in Hm. }
  unfold FindAll. cbn [find_all]. by rewrite Hn.
Qed.

Lemma find_block pre ws body ws' mid post :
  contains_list fence_open pre = false →
  Forall (λ a, re_space a = true) ws → Forall (λ a, re_space a = true) ws' →
  body = "{"%char :: mid ++ ["}"%char] → has_fence_end body = false →
  Find fencedJSONRE (pre ++ fenced_block ws body ws' ++ post) = Some (body, post).
Proof.
  intros Hpre Hws Hws' Hb He. pose proof (match_block ws body ws' mid Hws Hws' Hb He post) as Hm. unfold fenced_block in *.
  rewrite <-!app_assoc in *. by apply find_fenced.
Qed.

Lemma braces_trim mid : trim_bytes ("{"%char :: mid ++ ["}"%char]) = "{"%char :: mid ++ ["}"%char].
Proof.
  assert (Hleft : trimLeft ("{"%char :: mid ++ ["}"%char]) = "{"%char :: mid ++ ["}"%char]).
  { unfold trimLeft. cbn. destruct (mid ++ ["}"%char]) as [|b l]; [done|]. cbn. by destruct l. }
  unfold trim_bytes, trimRight. rewrite Hleft. change ("{"%char :: mid ++ ["}"%char]) with (("{"%char :: mid) ++ ["}"%char]).
  rewrite reverse_snoc. cbn [trim_head]. change (space1 (N_of_ascii "}"%char)) with false. cbn match.
  destruct (reverse ("{"%char :: mid)) as [|b l] eqn:Hr; [apply (f_equal length) in Hr; rewrite length_reverse in Hr; discriminate Hr|].
  assert (Hno : space2 (N_of_ascii b) (N_of_ascii "}"%char) = false ∧ ∀ c, space3 c (N_of_ascii b) (N_of_ascii "}"%char) = false).
  { split; [unfold space2|intros c; unfold space3]; cbn; by rewrite ?andb_false_r. }
  destruct Hno as [H2 H3]. rewrite H2. cbn match. assert (Heq : reverse ("}"%char :: b :: l) = ("{"%char :: mid) ++ ["}"%char]).
  { rewrite reverse_cons, <-Hr, reverse_involutive. done. }
  destruct l as [|c l]; [exact Heq|]. rewrite H3. exact Heq.
Qed.

(** The last block wins, whatever is around it. *)
Lemma extract_block pre ws body ws' mid post :
  contains_list fence_open pre = false →
  Forall (λ a, re_space a = true) ws → Forall (λ a, re_space a = true) ws' →
  body = "{"%char :: mid ++ ["}"%char] → has_fence_end body = false →
  extractLastFencedJSONFromText (pre ++ fenced_block ws body ws' ++ post) =
    match extractLastFencedJSONFromText post with Some later => Some later | None => Some body end.
Proof.
  intros Hpre Hws Hws' Hb He. unfold extractLastFencedJSONFromText.
  pose proof (find_block pre ws body ws' mid post Hpre Hws Hws' Hb He) as Hf.
  assert (Hall : FindAll fencedJSONRE (pre ++ fenced_block ws body ws' ++ post) = body :: FindAll fencedJSONRE post) by (by apply FindAll_cons).
  rewrite Hall. destruct (FindAll fencedJSONRE post) as [|m ms]; cbn.
  - rewrite Hb. by rewrite braces_trim.
  - by destruct (last (m :: ms)) eqn:Hl; [|apply last_None in Hl].
Qed.
Lemma extract_nothing post : contains_list fence_open post = false → extractLastFencedJSONFromText post = None.
Proof. intros Hp. unfold extractLastFencedJSONFromText, fencedJSONRE. by rewrite find_no_fence. Qed.

(** ** Streams *)

(** An event of the stream: an object the agent's tool wrote on one line. *)
Definition event_ok (ms : list (string * jdoc)) : Prop :=
  doc_ok (DObj ms) ∧ doc_depth (DObj ms) ≤ N.to_nat maxNestingDepth ∧ too_long maxTokenSize (doc_chars (DObj ms)) = false.
Definition event_text (ms : list (string * jdoc)) : list ascii :=
  match decode_struct stream_fields (mkStreamEvent "" "" "") (doc_node (DObj ms)) with
  | Some ev => if bool_decide (se_Type ev = "text"%string) then chars (se_PartText ev) else []
  | None => []
  end.
Definition ndjson (events : list (list (string * jdoc))) : list ascii := mjoin ((λ ms, doc_chars (DObj ms) ++ [newline]) <$> events).

Lemma object_braces ms : ∃ mid, doc_chars (DObj ms) = "{"%char :: mid ++ ["}"%char].
Proof. by eexists. Qed.
Lemma object_no_newline ms : doc_ok (DObj ms) → newline ∉ doc_chars (DObj ms).
Proof. intros Hok Hin. pose proof (doc_printable _ Hok) as Hp. rewrite Forall_forall in Hp. specialize (Hp _ Hin). by vm_compute in Hp. Qed.
Lemma drop_cr_braces mid : drop_cr ("{"%char :: mid ++ ["}"%char]) = "{"%char :: mid ++ ["}"%char].
Proof. unfold drop_cr. rewrite app_comm_cons, reverse_snoc. done. Qed.

Lemma stream_line_event ms : event_ok ms → stream_line (doc_chars (DObj ms)) = event_text ms.
Proof.
  intros (Hok & Hdep & _). unfold stream_line. destruct (object_braces ms) as [mid Hm].
  replace (trim_bytes (doc_chars (DObj ms))) with (doc_chars (DObj ms)) by (by rewrite Hm, braces_trim).
  pose proof (json_parse_doc _ Hok Hdep) as Hp. unfold doc_text in Hp. rewrite Hp, Hm. done.
Qed.

Lemma mjoin_cons {A} (x : list A) xs : mjoin (x :: xs) = x ++ mjoin xs.
Proof. done. Qed.
Lemma ndjson_cons ms events : ndjson (ms :: events) = doc_chars (DObj ms) ++ newline :: ndjson events.
Proof. unfold ndjson. rewrite fmap_cons, mjoin_cons. by rewrite <-app_assoc. Qed.

Lemma collect_ndjson events : Forall event_ok events → collectStreamText (ndjson events) = mjoin (event_text <$> events).
Proof.
  unfold collectStreamText. intros He. assert (Hscan : scan_tokens maxTokenSize (split_on newline (ndjson events)) = (λ ms, doc_chars (DObj ms)) <$> events).
  { induction He as [|ms events Hms _ IH]; [done|]. rewrite ndjson_cons.
    destruct Hms as (Hok & _ & Hlen). rewrite split_on_app_sep, split_on_single by (by apply object_no_newline).
    cbn [app]. destruct (split_on newline (ndjson events)) as [|s ss] eqn:Hs; [by apply split_on_nonempty in Hs|].
    change (scan_tokens maxTokenSize (doc_chars (DObj ms) :: s :: ss)) with
      (if too_long maxTokenSize (doc_chars (DObj ms)) then [] else drop_cr (doc_chars (DObj ms)) :: scan_tokens maxTokenSize (s :: ss)).
    rewrite Hlen, IH, fmap_cons. f_equal. destruct (object_braces ms) as [mid ->]. apply drop_cr_braces. }
  rewrite Hscan. clear Hscan. induction He as [|ms events Hms _ IH]; [done|]. rewrite !fmap_cons, !mjoin_cons.
  by rewrite stream_line_event, IH.
Qed.

(** ** The dispatcher *)

(** C30: (answers) when the run of the tool succeeded and its output does not look
    like an exhausted quota ([detectProviderQuota], which any text that mentions a
    transport and a quota signal triggers), an agent whose answer holds one JSON
    object in a json fence, with no other json fence before or after it and no
    closing brace followed by a fence inside the object, is heard: the dispatcher
    returns exactly the bytes of the object, whether the tool prints the answer or
    streams it as JSON events, each a line within the scanner's limit, cut into
    pieces anywhere and mixed with any other events, as long as no fenced object
    shows in the raw stream itself; and when the object is what json.Marshal
    writes for a document, reading it gives that document.  Each condition is
    needed: [fence_inside_a_string_truncates],
    [inline_fence_in_a_stream_is_not_unescaped] and [talking_about_quotas] below
    are answers that break one. *)
Theorem agent_answer_is_extracted cfg runtime req r pre ws body ws' mid post :
  runtime (dispatch_execution cfg req) = Ok r → er_Status r = ReceiptSuccess → detectProviderQuota (er_Stdout r) (er_Stderr r) = None →
  contains_list fence_open pre = false → contains_list fence_open post = false →
  Forall (λ a, re_space a = true) ws → Forall (λ a, re_space a = true) ws' →
  body = "{"%char :: mid ++ ["}"%char] → has_fence_end body = false →
  let answer := pre ++ fenced_block ws body ws' ++ post in
  (er_Stdout r = answer ∨
   ∃ events, er_Stdout r = ndjson events ∧ Forall event_ok events ∧ mjoin (event_text <$> events) = answer ∧
     extractLastFencedJSONFromText (er_Stdout r) = None) →
  (∃ res, oc_Dispatch cfg runtime req = Ok res ∧ ao_EnvelopeRaw res = Some body) ∧
  (∀ d, body = doc_chars d → doc_ok d → doc_depth d ≤ N.to_nat maxNestingDepth → json_parse (text body) = JSON (doc_node d)).
Proof.
  cbv zeta. intros Hrun Hst Hq Hpre Hpost Hws Hws' Hb He Hout. split; [|intros d -> Hok Hdep; by apply json_parse_doc].
  assert (Hans : extractLastFencedJSONFromText (pre ++ fenced_block ws body ws' ++ post) = Some body).
  { rewrite (extract_block pre ws body ws' mid post) by done. by rewrite extract_nothing. }
  assert (Henv : extractEnvelopeRaw (er_Stdout r) = Some body).
  { unfold extractEnvelopeRaw. destruct Hout as [->|(events & Hev & Hok & Hcat & Hnone)]; [by rewrite Hans|].
    rewrite Hnone, Hev, collect_ndjson by done. by rewrite Hcat, Hans. }
  eexists. unfold oc_Dispatch. rewrite Hrun, Hq, Hst, Henv. split; reflexivity.
Qed.

Lemma seconds_range m v : seconds m = Some v → (0 < v < 2 ^ 63)%Z.
Proof. unfold seconds. intros ([cap r] & _ & Hv)%bind_Some. destruct (_ && _) eqn:Hc; [|done]. apply andb_true_iff in Hc as [?%Z.ltb_lt ?%Z.ltb_lt]. by simplify_eq. Qed.
Lemma parseRetryAfter_range l : (0 <= parseRetryAfter l < 2 ^ 63)%Z.
Proof.
  unfold parseRetryAfter. destruct (seconds (Find _ l)) as [v|] eqn:Hv; [apply seconds_range in Hv; lia|].
  destruct (seconds (find_from _ _ _ l)) as [v|] eqn:Hv'; [apply seconds_range in Hv'; cbn; lia|cbn; lia].
Qed.

(** The texts in which the detector sees an exhausted quota. *)
Definition quota_signalled (l : list ascii) : Prop :=
  (∃ t, t ∈ transportTokens ∧ contains_list (chars t) l = true) ∧ (∃ t, t ∈ quotaTokens ∧ contains_list (chars t) l = true).
Lemma detect_spec stdout stderr :
  match detectProviderQuota stdout stderr with
  | Some (n, e) => quota_signalled (stdout ++ newline :: stderr) ∧ n = parseRetryAfter (stdout ++ newline :: stderr) ∧ e = extractEvidence (stdout ++ newline :: stderr)
  | None => ¬ quota_signalled (stdout ++ newline :: stderr)
  end.
Proof.
  unfold detectProviderQuota, quota_signalled, contains. set (l := stdout ++ newline :: stderr).
  pose proof (existsb_elem (λ t, contains_list (chars t) l) transportTokens) as Ht.
  pose proof (existsb_elem (λ t, contains_list (chars t) l) quotaTokens) as Hq.
  destruct (existsb (λ t, contains_list (chars t) l) transportTokens), (existsb (λ t, contains_list (chars t) l) quotaTokens); cbn [negb]; intuition congruence.
Qed.

(** (outcomes of a dispatch) a dispatch fails as an exhausted quota exactly when
    the runtime answered and its output holds a transport signal and a quota
    signal, whatever the status says; otherwise as a failed run exactly when the
    status is not success, in which case nothing is read from the output; a quota
    error names the model that was asked for, has an evidence of at most 200 bytes
    and a retry hint that is an int, not negative. *)
Theorem dispatch_outcomes cfg runtime req :
  match runtime (dispatch_execution cfg req) with
  | Err _ => oc_Dispatch cfg runtime req = Err DispatchOther
  | Ok r =>
      let output := er_Stdout r ++ newline :: er_Stderr r in
      (quota_signalled output ↔ ∃ q, oc_Dispatch cfg runtime req = Err (DispatchQuota q)) ∧
      (oc_Dispatch cfg runtime req = Err ErrDispatchFailed ↔ ¬ quota_signalled output ∧ er_Status r ≠ ReceiptSuccess) ∧
      (∀ res, oc_Dispatch cfg runtime req = Ok res ↔
         ¬ quota_signalled output ∧ er_Status r = ReceiptSuccess ∧
         res = mkOutput (er_ExitCode r) (er_Stdout r) (er_Stderr r) (extractEnvelopeRaw (er_Stdout r)) (er_DurationMS r) EmptyString)
  end ∧
  (∀ q, oc_Dispatch cfg runtime req = Err (DispatchQuota q) →
     q_Model q = modelFor cfg req ∧ (0 <= q_RetryAfterSeconds q < 2 ^ 63)%Z ∧ String.length (q_Evidence q) ≤ 200).
Proof.
  unfold oc_Dispatch. destruct (runtime _) as [r|[]]; [|split; [done|naive_solver]]. cbv zeta.
  pose proof (detect_spec (er_Stdout r) (er_Stderr r)) as Hd. destruct (detectProviderQuota _ _) as [[n e]|].
  - destruct Hd as (Hq & -> & ->). split.
    + split_and!; naive_solver.
    + intros q [= <-]. cbn. split; [done|]. split; [apply parseRetryAfter_range|]. rewrite <-length_chars, chars_text. unfold extractEvidence, evidence_limit. rewrite length_take. lia.
  - split; [|by case_bool_decide]. case_bool_decide as Hs; split_and!; naive_solver.
Qed.

(** *** Examples *)

Definition q (s : string) : string := concat_strings [dq; s; dq].
Definition sample_answer : list (string * jdoc) := [("status"%string, DStr "DONE"); ("data"%string, DObj [])].
Definition sample_body : list ascii := doc_chars (DObj sample_answer).
Definition sample_text : list ascii := chars "thinking " ++ fenced_block [newline] sample_body [newline] ++ [newline].
Definition text_event (chunk : string) : list (string * jdoc) :=
  [("type"%string, DStr "text"); ("sessionID"%string, DStr "s"); ("part"%string, DObj [("type"%string, DStr "text"); ("text"%string, DStr chunk)])].
(** The answer in two pieces, with another event between them. *)
Definition sample_stream : list (list (string * jdoc)) :=
  [text_event (text (take 14 sample_text)); [("type"%string, DStr "step_finish")]; text_event (text (drop 14 sample_text))].
Definition sample_receipt (out : list ascii) : ExecutionReceipt := mkExecReceipt ReceiptSuccess out [] 0 12 "r" "unknown" zeroTime zeroTime.
Definition sample_request : DispatchRequest := mkDispatchRequest "do it" "/tmp/w" 1000 "spec" "".

Lemma agent_answer_is_extracted_witness :
  ∃ res, oc_Dispatch OpenCodeConfig (λ _, Ok (sample_receipt (ndjson sample_stream))) sample_request = Ok res ∧ ao_EnvelopeRaw res = Some sample_body.
Proof.
  apply (agent_answer_is_extracted OpenCodeConfig (λ _, Ok (sample_receipt (ndjson sample_stream))) sample_request
           (sample_receipt (ndjson sample_stream)) (chars "thinking ") [newline] sample_body [newline]
           (take (length sample_body - 2) (drop 1 sample_body)) [newline]).
  - reflexivity.
  - reflexivity.
  - vm_compute. reflexivity.
  - vm_compute. reflexivity.
  - vm_compute. reflexivity.
  - by repeat constructor.
  - by repeat constructor.
  - vm_compute. reflexivity.
  - vm_compute. reflexivity.
  - right. exists sample_stream. split; [reflexivity|]. split; [|split; vm_compute; reflexivity].
    assert (Hev : ∀ ms, doc_ok (DObj ms) → (doc_depth (DObj ms) <=? N.to_nat maxNestingDepth) && negb (too_long maxTokenSize (doc_chars (DObj ms))) = true → event_ok ms)
      by (intros ms Hok [?%Nat.leb_le ?%negb_true_iff]%andb_true_iff; done).
    constructor; [|constructor; [|constructor; [|constructor]]]; (apply Hev; [by cbn|vm_compute; reflexivity]).
Defined.

(** A summary that quotes a closing brace and a fence cuts the envelope short. *)
Definition quoting_body : list ascii := chars (concat_strings ["{"; q "summary"; ":"; q "use {}``` here"; "}"]%string).
Example fence_inside_a_string_truncates :
  text <$> extractEnvelopeRaw (fenced_block [newline] quoting_body [newline])
    = Some (concat_strings ["{"; q "summary"; ":"; dq; "use {}"]%string) ∧
  json_parse (concat_strings ["{"; q "summary"; ":"; dq; "use {}"]%string) = NotJSON (concat_strings ["{"; q "summary"; ":"; dq; "use {}"]%string).
Proof. vm_compute. done. Qed.

(** A block on one line of a stream is found in the stream itself, with the
    escapes of the event still in it. *)
Example inline_fence_in_a_stream_is_not_unescaped :
  text <$> extractEnvelopeRaw (ndjson [text_event (concat_strings ["```json {"; q "a"; ":1} ```"]%string)])
    = Some (concat_strings ["{\"; dq; "a\"; dq; ":1}"]%string) ∧
  json_parse (concat_strings ["{\"; dq; "a\"; dq; ":1}"]%string) = NotJSON (concat_strings ["{\"; dq; "a\"; dq; ":1}"]%string).
Proof. vm_compute. done. Qed.

(** A log that mentions both signals is taken for an exhausted quota, also when the
    agent answered. *)
Example talking_about_quotas :
  detectProviderQuota (chars "I handle HTTP 429 and quota exceeded errors now.") [] = Some (0%Z, chars "I handle HTTP 429 and quota exceeded errors now.").
Proof. vm_compute. done. Qed.

Example retry_after_values :
  parseRetryAfter <$> [chars "Retry-After: 37"; chars "x-ratelimit-quota-exceeded-retry-after=120 retry-after: 5"; chars "xretry-after: 9"; chars "retry-after: 0"]
    = [37; 120; 0; 0]%Z.
Proof. vm_compute. done. Qed.
