(* ===== verification/Dispatchers.v ===== *)
(** * The other dispatchers, their routing, and the critic

    [internal/adapters/outbound/dispatcher] (aider, ollama, mcp, factory) and
    [internal/adapters/outbound/critic]. *)
From S2P Require Import Prelude Ids Utf8 Json Envelope PhaseDomain GoPath ApplyEffects Lines Floats JsonText Regex Trace Wire OpenCode SkillDomain.
From stdpp Require Import list gmap pretty sorting.
From Stdlib Require Import Ascii.

(** ** Command-line agents *)

(** modelFor of aider, ollama and mcp: the override of a request is not read. *)
Definition phase_model (byPhase : gmap string string) (model phaseType : string) : string :=
  match (if str_empty phaseType then None else byPhase !! phaseType) with
  | Some m => if str_empty m then model else m
  | None => model
  end.

Definition in_worktree (wt : string) : bool := negb (str_empty wt) && negb (bool_decide (wt = "."%string)).
Definition cli_payload (cmd : string) (args : list string) (wt : string) : jdoc :=
  DObj ([ ("args"%string, DArr (DStr <$> args)); ("command"%string, DStr cmd) ] ++
        (if in_worktree wt then [ ("working_dir"%string, DStr wt) ] else [])).
Definition cli_defaults (cmd : string) (suggested : Z) (cfg : CliConfig) : CliConfig :=
  mkCliConfig (if str_empty (cli_Cmd cfg) then cmd else cli_Cmd cfg) (cli_ExtraArgs cfg)
    (if (cli_Suggested cfg <=? 0)%Z then suggested else cli_Suggested cfg) (cli_Model cfg) (cli_ModelByPhase cfg).

Definition aider_New : CliConfig → CliConfig := cli_defaults "aider" 1.
Definition ollama_New : CliConfig → CliConfig := cli_defaults "ollama" 2.

Definition aider_args (cfg : CliConfig) (req : DispatchRequest) : list string :=
  let model := phase_model (cli_ModelByPhase cfg) (cli_Model cfg) (rq_PhaseType req) in
  ["--yes-always"; "--no-auto-commits"]%string ++ (if str_empty model then [] else ["--model"%string; model]) ++
  cli_ExtraArgs cfg ++ ["--message"%string; rq_Prompt req].
Definition ollama_args (cfg : CliConfig) (model : string) (req : DispatchRequest) : list string :=
  ["run"%string; model] ++ cli_ExtraArgs cfg ++ [rq_Prompt req].

(** [fencedJSONRe] of the ollama adapter: the block starts on a line of its own
    and need not be an object. *)
Definition is_newline (a : ascii) : bool := is_char 10 a.
Definition ollamaFencedRE : list item :=
  word "```json" ++ [Many true re_space; One is_newline; Open; Many false any; Close; One is_newline] ++ word "```".
Definition extractLastFencedJSON (stdout : list ascii) : option (list ascii) := trim_bytes <$> last (FindAll ollamaFencedRE stdout).

Section Cli.
Context (runtime : ExecutionRequest → result unit ExecutionReceipt).

(** A run on the runtime service; output is only read of one that succeeded. *)
Definition run_cli (cmd : string) (args : list string) (req : DispatchRequest) : result dispatch_error ExecutionReceipt :=
  match runtime (mkExecRequest "shell.exec@v1" (doc_text (cli_payload cmd args (rq_WorktreePath req))) (rq_TimeoutMS req) EmptyString) with
  | Err _ => Err DispatchOther
  | Ok r => if bool_decide (er_Status r ≠ ReceiptSuccess) then Err ErrDispatchFailed else Ok r
  end.

Definition aider_Dispatch (cfg : CliConfig) (req : DispatchRequest) : result dispatch_error AgentOutput :=
  let? r := run_cli (cli_Cmd cfg) (aider_args cfg req) req in
  Ok (mkOutput (er_ExitCode r) (er_Stdout r) (er_Stderr r) None (er_DurationMS r) "aider").

Definition ollama_Dispatch (cfg : CliConfig) (req : DispatchRequest) : result dispatch_error AgentOutput :=
  let model := phase_model (cli_ModelByPhase cfg) (cli_Model cfg) (rq_PhaseType req) in
  if str_empty model then Err DispatchOther else
  let? r := run_cli (cli_Cmd cfg) (ollama_args cfg model req) req in
  Ok (mkOutput (er_ExitCode r) (er_Stdout r) (er_Stderr r) (extractLastFencedJSON (er_Stdout r)) (er_DurationMS r) EmptyString).
End Cli.

(** ** The MCP bridge *)

Record McpConfig := mkMcpConfig {
  mc_BridgeURL : string; mc_Token : string; mc_Origin : string; mc_Transport : string; mc_TimeoutMS : Z; mc_DefaultModel : string;
  mc_ModelByPhase : gmap string string; mc_Provider : string; mc_DefaultCWD : string; mc_Suggested : Z
}.
Definition mcp_New (c : McpConfig) : McpConfig :=
  mkMcpConfig (mc_BridgeURL c) (mc_Token c) (if str_empty (mc_Origin c) then "http://localhost" else mc_Origin c)
    (if str_empty (mc_Transport c) then "streamable-http" else mc_Transport c)
    (if (mc_TimeoutMS c <=? 0)%Z then 300000 else mc_TimeoutMS c)%Z (mc_DefaultModel c) (mc_ModelByPhase c) (mc_Provider c) (mc_DefaultCWD c)
    (if (mc_Suggested c <=? 0)%Z then 4 else mc_Suggested c)%Z.

(** The tag every error of a dispatch starts with, after ErrDispatchFailed; an
    error the bridge classified keeps the bridge's own class. *)
Inductive mcp_class := TransportError | AuthError | ProviderError | EnvelopeError | PermissionDenied (class path : string) | BridgeClass (c : string).

(** What the SDK answers: the connection, then the call of a tool. *)
Record tool_result := mkToolResult { tr_IsError : bool; tr_Content : list (option string) }.     (* [None]: content that is no text *)
Inductive sdk_error := SdkContext | SdkError (msg : string).

Definition classifyConnectError (e : sdk_error) : mcp_class :=
  match e with
  | SdkContext => TransportError
  | SdkError msg =>
      let has s := contains_list (chars s) (chars msg) in
      if has "Unauthorized"%string || has "Forbidden"%string || has "401"%string || has "403"%string then AuthError else TransportError
  end.
Definition extractTextContent (r : tool_result) : string := default EmptyString (head (omap id (tr_Content r))).

Record bridgeResult := mkBridge {
  br_Status : string; br_Error : string; br_Class : string; br_Stdout : string; br_Stderr : string; br_ExitCode : Z; br_DurationMS : Z; br_EnvelopeRaw : option json
}.
Definition bridge_fields : list (string * (bridgeResult → json → option bridgeResult)) :=
  [ ("status"%string, set_string (λ t b, mkBridge t (br_Error b) (br_Class b) (br_Stdout b) (br_Stderr b) (br_ExitCode b) (br_DurationMS b) (br_EnvelopeRaw b)));
    ("error"%string, set_string (λ t b, mkBridge (br_Status b) t (br_Class b) (br_Stdout b) (br_Stderr b) (br_ExitCode b) (br_DurationMS b) (br_EnvelopeRaw b)));
    ("class"%string, set_string (λ t b, mkBridge (br_Status b) (br_Error b) t (br_Stdout b) (br_Stderr b) (br_ExitCode b) (br_DurationMS b) (br_EnvelopeRaw b)));
    ("stdout"%string, set_string (λ t b, mkBridge (br_Status b) (br_Error b) (br_Class b) t (br_Stderr b) (br_ExitCode b) (br_DurationMS b) (br_EnvelopeRaw b)));
    ("stderr"%string, set_string (λ t b, mkBridge (br_Status b) (br_Error b) (br_Class b) (br_Stdout b) t (br_ExitCode b) (br_DurationMS b) (br_EnvelopeRaw b)));
    ("exit_code"%string, set_int (λ n b, mkBridge (br_Status b) (br_Error b) (br_Class b) (br_Stdout b) (br_Stderr b) n (br_DurationMS b) (br_EnvelopeRaw b)));
    ("duration_ms"%string, set_int (λ n b, mkBridge (br_Status b) (br_Error b) (br_Class b) (br_Stdout b) (br_Stderr b) (br_ExitCode b) n (br_EnvelopeRaw b)));
    ("envelope_raw"%string, λ b j, Some (mkBridge (br_Status b) (br_Error b) (br_Class b) (br_Stdout b) (br_Stderr b) (br_ExitCode b) (br_DurationMS b) (Some j))) ].

(** [strings.Index], and what is before and after the place. *)
Definition cut (sub : string) (l : list ascii) : option (list ascii * list ascii) :=
  i ← index_of (chars sub) l; Some (take i l, drop (i + String.length sub) l).
Definition detectOpencodePermissionRejection (stderr : string) : option (string * string) :=
  '(_, rest) ← cut "permission requested:" (chars stderr);
  '(before, inside) ← cut "(" rest;
  '(path, _) ← cut ")" inside;
  let class := trim_bytes before in
  if bool_decide (class = []) || bool_decide (path = []) then None else Some (text class, text path).

Definition parseEnvelopeRaw (j : json) : option (list ascii) :=
  let trimmed := trim_bytes (chars (jtext j)) in
  match trimmed with
  | a :: _ => if open_brace a then match json_parse (text trimmed) with JSON _ => Some trimmed | NotJSON _ => None end else None
  | [] => None
  end.

Definition resolveCWDForBridge (worktreePath defaultCWD : string) : string :=
  if str_empty defaultCWD then worktreePath else if in_worktree worktreePath then worktreePath else defaultCWD.

Section Mcp.
Context (cfg : McpConfig) (open : result sdk_error unit) (call : string → list (string * jdoc) → result sdk_error tool_result).

Definition callSDK (tool : string) (args : list (string * jdoc)) : result mcp_class bridgeResult :=
  match open with
  | Err e => Err (classifyConnectError e)
  | Ok _ =>
      match call tool args with
      | Err _ => Err TransportError
      | Ok r =>
          if tr_IsError r then Err ProviderError else
          let t := extractTextContent r in
          if str_empty t then Err EnvelopeError else
          match json_parse t with
          | NotJSON _ => Err EnvelopeError
          | JSON j => match decode_struct bridge_fields (mkBridge "" "" "" "" "" 0 0 None) j with Some b => Ok b | None => Err EnvelopeError end
          end
      end
  end.

Definition mcp_HealthCheck : bool :=
  match callSDK "agent.health" [] with Ok b => bool_decide (br_Status b = "ok"%string) | Err _ => false end.

(** The arguments of [agent.run]; the timeout is the decimal of an int. *)
Definition int_doc (z : Z) : jdoc := DNum (mkNumber (z <? 0)%Z (chars (pretty (Z.abs z))) [] None).
Definition mcp_args (req : DispatchRequest) : list (string * jdoc) :=
  let model := phase_model (mc_ModelByPhase cfg) (mc_DefaultModel cfg) (rq_PhaseType req) in
  [ ("cwd"%string, DStr (resolveCWDForBridge (rq_WorktreePath req) (mc_DefaultCWD cfg))) ] ++
  (if str_empty model then [] else [ ("model"%string, DStr model) ]) ++
  [ ("output_contract"%string, DStr "sophia.envelope.v1"); ("prompt"%string, DStr (rq_Prompt req)); ("provider"%string, DStr (mc_Provider cfg));
    ("timeout_ms"%string, int_doc (rq_TimeoutMS req)) ].

Definition mcp_Dispatch (req : DispatchRequest) : result mcp_class AgentOutput :=
  if str_empty (mc_Provider cfg) then Err ProviderError else
  let? resp := callSDK "agent.run" (mcp_args req) in
  if bool_decide (br_Status resp = "error"%string) then
    Err (if str_empty (br_Class resp) then ProviderError else BridgeClass (br_Class resp))
  else
  match br_EnvelopeRaw resp with
  | None => match detectOpencodePermissionRejection (br_Stderr resp) with
            | Some (class, path) => Err (PermissionDenied class path)
            | None => Err EnvelopeError
            end
  | Some j =>
      match parseEnvelopeRaw j with
      | None => Err EnvelopeError
      | Some env => Ok (mkOutput (br_ExitCode resp) (chars (br_Stdout resp)) (chars (br_Stderr resp)) (Some env) (br_DurationMS resp) "mcp")
      end
  end.
End Mcp.

(** ** factory.go *)

Record AgentDispatcher := mkDispatcher {
  ad_Provider : string; ad_SuggestedMaxConcurrent : Z; ad_HealthCheck : bool; ad_Dispatch : DispatchRequest → result dispatch_error AgentOutput
}.
Definition opencode_adapter (runtime : ExecutionRequest → result unit ExecutionReceipt) (cfg : CliConfig) : AgentDispatcher :=
  let cfg := oc_New cfg in mkDispatcher "opencode" (cli_Suggested cfg) (oc_HealthCheck cfg runtime) (oc_Dispatch cfg runtime).
Definition aider_adapter (runtime : ExecutionRequest → result unit ExecutionReceipt) (cfg : CliConfig) : AgentDispatcher :=
  let cfg := aider_New cfg in mkDispatcher "aider" (cli_Suggested cfg) (oc_HealthCheck cfg runtime) (aider_Dispatch runtime cfg).
Definition ollama_adapter (runtime : ExecutionRequest → result unit ExecutionReceipt) (cfg : CliConfig) : AgentDispatcher :=
  let cfg := ollama_New cfg in mkDispatcher "ollama" (cli_Suggested cfg) (oc_HealthCheck cfg runtime) (ollama_Dispatch runtime cfg).
Definition mcp_adapter (open : result sdk_error unit) (call : string → list (string * jdoc) → result sdk_error tool_result) (cfg : McpConfig) : AgentDispatcher :=
  let cfg := mcp_New cfg in
  mkDispatcher "mcp" (mc_Suggested cfg) (mcp_HealthCheck open call) (λ req, result_map_err (λ _, ErrDispatchFailed) (mcp_Dispatch cfg open call req)).

(** [None] stands for the panics of the constructor and of Register. *)
Record Factory := mkFactory { f_adapters : gmap string AgentDispatcher; f_defName : string }.
Definition factory_New (defName : string) (d : AgentDispatcher) : option Factory :=
  if str_empty defName then None else Some (mkFactory {[defName := d]} defName).
Definition Register (provider : string) (adapter : AgentDispatcher) (f : Factory) : option Factory :=
  if str_empty provider then None else Some (mkFactory (<[provider := adapter]> (f_adapters f)) (f_defName f)).
Definition Get (provider : string) (f : Factory) : option AgentDispatcher := f_adapters f !! provider.
Definition Default (f : Factory) : option AgentDispatcher := f_adapters f !! f_defName f.
Definition str_le (x y : string) : Prop := String.leb x y = true.
#[global] Instance str_le_dec : RelDecision str_le.
Proof. intros x y. unfold str_le. apply _. Defined.
Definition Providers (f : Factory) : list string := merge_sort str_le (map_to_list (f_adapters f)).*1.

Definition adapterFor (f : Factory) (providerByPhase : gmap string string) (phaseType : string) : option AgentDispatcher :=
  match (if str_empty phaseType then None else providerByPhase !! phaseType) with
  | Some name => if str_empty name then Default f else match Get name f with Some a => Some a | None => Default f end
  | None => Default f
  end.
(** [None]: the nil pointer a factory without its default would dispatch through. *)
Definition routed_Dispatch (f : Factory) (providerByPhase : gmap string string) (req : DispatchRequest) : option (result dispatch_error AgentOutput) :=
  (λ a, ad_Dispatch a req) <$> adapterFor f providerByPhase (rq_PhaseType req).

(** ** The critics *)

Definition concern_high_risk (i : nat) (r : Risk) : Concern :=
  mkConcern "high" "risk" (String.append "envelope reports a high-level risk: " (r_Description r))
    (concat_strings ["risks["; pretty i; "].level=high"]%string).
Fixpoint first_high (i : nat) (rs : list Risk) : list Concern :=
  match rs with
  | [] => []
  | r :: rs' => if bool_decide (r_Level r = "high"%string) then [concern_high_risk i r] else first_high (S i) rs'
  end.
Definition stub_Review (env : option Envelope) : list Concern :=
  match env with
  | None => []
  | Some e =>
      first_high 0 (e_Risks e) ++
      (if f64_ltb (e_Confidence e) f64_0_5 then
         [mkConcern "medium" "confidence" "envelope confidence is below the advisory threshold"
            (concat_strings ["confidence="; FormatFloat2 (e_Confidence e); "<"; FormatFloat2 f64_0_5]%string)]
       else [])
  end.

Record concernDTO := mkConcernDTO { cd_Severity : string; cd_Category : string; cd_Message : string; cd_Evidence : string }.
Definition decode_concern : json → option concernDTO :=
  decode_struct
    [ ("severity"%string, set_string (λ t c, mkConcernDTO t (cd_Category c) (cd_Message c) (cd_Evidence c)));
      ("category"%string, set_string (λ t c, mkConcernDTO (cd_Severity c) t (cd_Message c) (cd_Evidence c)));
      ("message"%string, set_string (λ t c, mkConcernDTO (cd_Severity c) (cd_Category c) t (cd_Evidence c)));
      ("evidence"%string, set_string (λ t c, mkConcernDTO (cd_Severity c) (cd_Category c) (cd_Message c) t)) ]
    (mkConcernDTO "" "" "" "").
Definition decode_concerns (raw : rawjson) : option (list concernDTO) :=
  match raw with
  | NotJSON _ => None
  | JSON j => decode_struct [("concerns"%string, set_list decode_concern (λ xs _, xs))] [] j
  end.
Definition allowedCategories : list string := ["correctness"; "risk"; "completeness"]%string.

Section Critic.
Context `{UnicodeTables}.

Definition parse_concern (dto : concernDTO) : option Concern :=
  let cat := ToLower (TrimSpace (cd_Category dto)) in
  let msg := TrimSpace (cd_Message dto) in
  if negb (bool_decide (cat ∈ allowedCategories)) || str_empty msg then None
  else Some (mkConcern (ToLower (TrimSpace (cd_Severity dto))) cat msg (TrimSpace (cd_Evidence dto))).
Definition parseConcerns (raw : option (list ascii)) : list Concern :=
  match raw with
  | None => []
  | Some l => match decode_concerns (json_parse (text l)) with Some dtos => omap parse_concern dtos | None => [] end
  end.

Definition extractConcernsRaw (res : AgentOutput) : option (list ascii) :=
  match ao_EnvelopeRaw res with
  | Some (a :: l) => Some (a :: l)
  | _ => match last (FindAll fencedJSONRE (ao_Stdout res)) with Some (a :: l) => Some (a :: l) | _ => None end
  end.

Definition reviewTimeoutMS : Z := 60000.
Definition critic_timeout (t : Z) : Z := if (t <=? 0)%Z then reviewTimeoutMS else t.

(** What a review asks of the governor and the dispatcher, in order. *)
Inductive critic_call := CAcquire | CDispatch (req : DispatchRequest) | CRelease.

(** [prompt] is the text buildPrompt made of the envelope, [None] if it could not
    be marshalled. *)
Definition llm_Review (timeoutMS : Z) (env : option Envelope) (pt : PhaseType) (prompt : option string)
    (acquire : bool) (dispatch : DispatchRequest → result dispatch_error AgentOutput) : list Concern * list critic_call :=
  match env, prompt with
  | None, _ => ([], [])
  | Some _, None => ([], [])
  | Some _, Some p =>
      if negb acquire then ([], [CAcquire]) else
      let req := mkDispatchRequest p "." timeoutMS (pt_string pt) EmptyString in
      let calls := [CAcquire; CDispatch req; CRelease] in
      match dispatch req with
      | Err _ => ([], calls)
      | Ok res => (parseConcerns (extractConcernsRaw res), calls)
      end
  end.
End Critic.

(** ** What the adapters share *)

(** A line that starts with a fence. *)
Definition line_fence (l : list ascii) : bool :=
  match l with
  | a :: r => is_newline a && match TrimPrefix_list fence_mark r with Some _ => true | None => false end
  | [] => false
  end.
Fixpoint has_line_fence (l : list ascii) : bool := line_fence l || match l with [] => false | _ :: l' => has_line_fence l' end.
Lemma has_line_fence_suffix x y : has_line_fence (x ++ y) = false → line_fence y = false.
Proof.
  induction x as [|a x IH]; cbn [app].
  - destruct y; cbn [has_line_fence]; [done|]. by intros [? _]%orb_false_iff.
  - cbn [has_line_fence]. intros [_ ?]%orb_false_iff. by apply IH.
Qed.
Lemma line_fence_app y z : y ≠ [] → line_fence (y ++ "}"%char :: z) = line_fence (y ++ ["}"%char]).
Proof.
  destruct y as [|a y]; [done|]. intros _. cbn [app line_fence]. f_equal.
  destruct y as [|t0 [|t1 [|t2 t]]]; cbn; repeat case_bool_decide; simplify_eq; done.
Qed.

Definition ollama_tail : list item := [Close; One is_newline] ++ word "```".
Lemma exec_ollama_tail start cap l :
  exec ollama_tail start cap l =
    match l with
    | a :: r => if is_newline a then
                  match TrimPrefix_list fence_mark r with Some rest => Some (take (length start - length l) start, rest) | None => None end
                else None
    | [] => None
    end.
Proof.
  cbn [ollama_tail app exec]. destruct l as [|a r]; [done|]. destruct (is_newline a); [|done].
  by rewrite <-(app_nil_r (word "```")), exec_word.
Qed.

Lemma star_to_newline {A} (k : list ascii → option A) ws b x :
  Forall (λ a, re_space a = true) ws → re_space b = false → k (b :: x) = None → is_Some (k (newline :: b :: x)) →
  star true re_space k (ws ++ newline :: b :: x) = k (newline :: b :: x).
Proof.
  intros Hws Hb Hn [y Hy]. rewrite Hy. induction Hws as [|a l Ha _ IH]; cbn [app star].
  - change (re_space newline) with true. cbn match. by rewrite Hb, Hn, Hy.
  - by rewrite Ha, IH.
Qed.

Lemma match_ollama ws body mid post :
  Forall (λ a, re_space a = true) ws → body = "{"%char :: mid ++ ["}"%char] → has_line_fence body = false →
  match_here ollamaFencedRE (fence_open ++ ws ++ newline :: body ++ newline :: fence_mark ++ post) = Some (body, post).
Proof.
  intros Hws Hb He. unfold match_here, ollamaFencedRE. rewrite exec_word.
  rewrite (proj2 (TrimPrefix_list_Some _ _ (ws ++ newline :: body ++ newline :: fence_mark ++ post))) by done.
  change ([Many true re_space; One is_newline; Open; Many false any; Close; One is_newline] ++ word "```")
    with (Many true re_space :: One is_newline :: Open :: Many false any :: ollama_tail).
  set (rest := body ++ newline :: fence_mark ++ post). cbn [exec].
  assert (Hrun : star false any (exec ollama_tail rest []) rest = Some (body, post)).
  { unfold rest at 2. apply star_lazy; [by apply Forall_forall| |].
    - intros m1 m2 Hm Hm2. rewrite exec_ollama_tail. assert (Hlf : line_fence (m2 ++ newline :: fence_mark ++ post) = false).
      { assert (∃ m3, m2 = m3 ++ ["}"%char]) as [m3 ->].
        { destruct (exists_last Hm2) as (m3 & a & ->). exists m3. f_equal. rewrite Hb, app_assoc, app_comm_cons in Hm. by apply app_inj_tail in Hm as [_ <-]. }
        rewrite <-app_assoc. cbn [app]. destruct m3 as [|a m3]; [done|]. rewrite line_fence_app by done.
        apply (has_line_fence_suffix m1). by rewrite <-Hm. }
      destruct (m2 ++ newline :: fence_mark ++ post) as [|a r] eqn:Hr; [done|]. cbn [line_fence] in Hlf. destruct (is_newline a); [|done].
      by destruct (TrimPrefix_list fence_mark r).
    - rewrite exec_ollama_tail. change (is_newline newline) with true. cbn match. rewrite (proj2 (TrimPrefix_list_Some _ _ post)) by done.
      unfold rest. by rewrite length_app, Nat.add_sub, take_app_length. }
  assert (∃ x, rest = "{"%char :: x) as [x Hx] by (unfold rest; rewrite Hb; by eexists). rewrite Hx in *.
  rewrite star_to_newline by (done || exact (mk_is_Some _ _ Hrun)). exact Hrun.
Qed.

(** (one envelope contract) for an answer whose fenced object stands between
    lines of their own, and holds neither a brace nor a line break that is followed
    by a fence, the opencode adapter and the ollama adapter extract the same
    envelope, although their expressions differ. *)
Theorem extractors_agree pre ws body mid post :
  contains_list fence_open pre = false → contains_list fence_open post = false → Forall (λ a, re_space a = true) ws →
  body = "{"%char :: mid ++ ["}"%char] → has_fence_end body = false → has_line_fence body = false →
  let stdout := pre ++ fenced_block (ws ++ [newline]) body [newline] ++ post in
  extractLastFencedJSON stdout = Some body ∧ extractEnvelopeRaw stdout = Some body.
Proof.
  cbv zeta. intros Hpre Hpost Hws Hb He Hl. split.
  - unfold extractLastFencedJSON, fenced_block. pose proof (match_ollama ws body mid post Hws Hb Hl) as Hm.
    apply (find_fenced _ pre) in Hm; [|done]. rewrite <-!app_assoc. cbn [app].
    assert (Hall : FindAll ollamaFencedRE (pre ++ fence_open ++ ws ++ newline :: body ++ newline :: fence_mark ++ post) = [body]).
    { transitivity (body :: FindAll ollamaFencedRE post); [by apply FindAll_cons|]. f_equal. by apply find_no_fence. }
    rewrite Hall. cbn. by rewrite Hb, braces_trim.
  - unfold extractEnvelopeRaw. rewrite (extract_block pre (ws ++ [newline]) body [newline] mid post); try done.
    + by rewrite extract_nothing.
    + apply Forall_app. split; [done|by repeat constructor].
    + by repeat constructor.
Qed.

Definition sample_object : list ascii := chars "{ }".
Lemma extractors_agree_witness :
  extractLastFencedJSON (chars "ok" ++ fenced_block ([] ++ [newline]) sample_object [newline] ++ []) = Some sample_object ∧
  extractEnvelopeRaw (chars "ok" ++ fenced_block ([] ++ [newline]) sample_object [newline] ++ []) = Some sample_object.
Proof. apply (extractors_agree (chars "ok") [] sample_object [" "%char] []); try reflexivity. constructor. Defined.

(** On one line only one of them finds it. *)
Example inline_block_disagrees :
  extractEnvelopeRaw (chars "```json {} ```") = Some (chars "{}") ∧ extractLastFencedJSON (chars "```json {} ```") = None.
Proof. vm_compute. done. Qed.

(** ** The factory *)

Section Contract.
Context (runtime : ExecutionRequest → result unit ExecutionReceipt)
        (open : result sdk_error unit) (call : string → list (string * jdoc) → result sdk_error tool_result).

(** The adapters there are, with any configuration. *)
Inductive adapter : AgentDispatcher → Prop :=
  | is_opencode cfg : adapter (opencode_adapter runtime cfg)
  | is_aider cfg : adapter (aider_adapter runtime cfg)
  | is_ollama cfg : adapter (ollama_adapter runtime cfg)
  | is_mcp cfg : adapter (mcp_adapter open call cfg).

(** A factory made by New and Register. *)
Inductive built : Factory → Prop :=
  | built_new name d f : adapter d → factory_New name d = Some f → built f
  | built_register name d f f' : built f → adapter d → Register name d f = Some f' → built f'.

Lemma built_inv f : built f → is_Some (Default f) ∧ map_Forall (λ _, adapter) (f_adapters f).
Proof.
  induction 1 as [name d f Hd Hf|name d f f' _ [Hdef Hall] Hd Hf].
  - unfold factory_New in Hf. destruct (str_empty name); simplify_eq. split; [unfold Default; cbn; by rewrite lookup_singleton_eq|].
    by apply map_Forall_singleton.
  - unfold Register in Hf. destruct (str_empty name); simplify_eq. split.
    + unfold Default in *. cbn. destruct (decide (f_defName f = name)) as [->|]; [by rewrite lookup_insert_eq|by rewrite lookup_insert_ne].
    + cbn. by apply map_Forall_insert_2.
Qed.

(** What an adapter's answer stands for. *)
Definition answers (a : AgentDispatcher) (out : AgentOutput) : Prop :=
  (ao_AdapterID out = "aider"%string ↔ ad_Provider a = "aider"%string) ∧
  (ao_AdapterID out = "aider"%string → ao_EnvelopeRaw out = None) ∧
  (ao_AdapterID out = "mcp"%string → ∃ env, ao_EnvelopeRaw out = Some env ∧ isJSONObject env = true) ∧
  (ao_AdapterID out ≠ "mcp"%string →
     ∃ x r, runtime x = Ok r ∧ er_Status r = ReceiptSuccess ∧ ao_Stdout out = er_Stdout r ∧ ao_ExitCode out = er_ExitCode r).

Lemma run_cli_Ok cmd args req r : run_cli runtime cmd args req = Ok r → ∃ x, runtime x = Ok r ∧ er_Status r = ReceiptSuccess.
Proof. unfold run_cli. destruct (runtime _) eqn:Hr; [|done]. case_bool_decide as Hs; [done|]. intros [= <-]. by eexists. Qed.

Lemma mcp_envelope cfg req out :
  mcp_Dispatch cfg open call req = Ok out → ao_AdapterID out = "mcp"%string ∧ ∃ env, ao_EnvelopeRaw out = Some env ∧ isJSONObject env = true.
Proof.
  unfold mcp_Dispatch. destruct (str_empty _); [done|]. destruct (callSDK open call _ _) as [resp|]; [|done]. case_bool_decide; [done|].
  destruct (br_EnvelopeRaw resp) as [j|]; [|by destruct (detectOpencodePermissionRejection _) as [[? ?]|]].
  destruct (parseEnvelopeRaw j) as [env|] eqn:Hp; [|done]. intros [= <-]. split; [done|]. exists env. split; [done|].
  unfold parseEnvelopeRaw in Hp. destruct (trim_bytes _) as [|a l]; [done|]. destruct (open_brace a) eqn:Ha; [|done].
  destruct (json_parse (text (a :: l))) eqn:Hj; [done|]. injection Hp as <-. cbn [isJSONObject]. by rewrite Ha, Hj.
Qed.

Lemma adapter_answers a req out : adapter a → ad_Dispatch a req = Ok out → answers a out.
Proof.
  intros [cfg|cfg|cfg|cfg]; cbn [ad_Dispatch opencode_adapter aider_adapter ollama_adapter mcp_adapter]; unfold answers.
  - unfold oc_Dispatch. destruct (runtime _) as [r|] eqn:Hr; [|done]. destruct (detectProviderQuota _ _) as [[? ?]|]; [done|].
    case_bool_decide as Hs; [done|]. intros [= <-]. cbn. split_and!; try naive_solver.
  - unfold aider_Dispatch. destruct (run_cli runtime _ _ _) as [r|] eqn:Hr; [|done]. intros [= <-]. apply run_cli_Ok in Hr as (x & ? & ?). cbn.
    split_and!; try naive_solver.
  - unfold ollama_Dispatch. destruct (str_empty _); [done|]. destruct (run_cli runtime _ _ _) as [r|] eqn:Hr; [|done]. intros [= <-].
    apply run_cli_Ok in Hr as (x & ? & ?). cbn. split_and!; try naive_solver.
  - destruct (mcp_Dispatch _ _ _ _) as [o|] eqn:Hm; cbn [result_map_err]; [|done]. intros [= <-]. apply mcp_envelope in Hm as [Hid Henv].
    rewrite Hid. cbn. split_and!; naive_solver.
Qed.

(** (routing) every request finds an adapter: the one registered last under the
    provider configured for its phase, the default when none is configured or the
    name is not known; and an answer is only ever the output of a run that
    succeeded, or of the bridge with an envelope that is a JSON object; the answers
    without an envelope that the apply phase rebuilds from git are exactly those of
    aider. *)
Theorem dispatch_is_routed f byPhase req :
  built f →
  ∃ a, adapter a ∧ routed_Dispatch f byPhase req = Some (ad_Dispatch a req) ∧
    (∀ name a', rq_PhaseType req ≠ EmptyString → byPhase !! rq_PhaseType req = Some name → name ≠ EmptyString → Get name f = Some a' → a' = a) ∧
    ((∀ name, rq_PhaseType req ≠ EmptyString → byPhase !! rq_PhaseType req = Some name → Get name f = None) → Default f = Some a) ∧
    ∀ out, ad_Dispatch a req = Ok out → answers a out.
Proof.
  intros Hb. destruct (built_inv f Hb) as [[d Hd] Hall]. pose proof (Hall _ _ Hd) as Had. unfold routed_Dispatch, adapterFor, str_empty, Get.
  assert (Hdone : ∀ a, adapter a → ∀ out, ad_Dispatch a req = Ok out → answers a out) by (intros; by eapply adapter_answers).
  case_bool_decide as Hp; [exists d; rewrite Hd; naive_solver|].
  destruct (byPhase !! rq_PhaseType req) as [name|] eqn:Hn; [|exists d; rewrite Hd; naive_solver].
  case_bool_decide as He; [exists d; rewrite Hd; naive_solver|].
  destruct (f_adapters f !! name) as [a|] eqn:Ha; [|exists d; rewrite Hd; naive_solver].
  exists a. pose proof (Hall _ _ Ha). split_and!; [done|done|naive_solver| |auto]. intros Hno. specialize (Hno name Hp eq_refl). congruence.
Qed.
End Contract.

Lemma dispatch_is_routed_witness :
  let runtime := λ _ : ExecutionRequest, Ok (sample_receipt (chars "```json {} ```")) in
  let f := mkFactory (<["aider"%string := aider_adapter runtime (mkCliConfig "" [] 0 "" ∅)]> {["opencode"%string := opencode_adapter runtime OpenCodeConfig]}) "opencode" in
  ∃ a, adapter runtime (Err SdkContext) (λ _ _, Err SdkContext) a ∧ routed_Dispatch f {["spec"%string := "aider"%string]} sample_request = Some (ad_Dispatch a sample_request).
Proof.
  cbv zeta. set (runtime := λ _ : ExecutionRequest, Ok (sample_receipt (chars "```json {} ```"))).
  destruct (dispatch_is_routed runtime (Err SdkContext) (λ _ _, Err SdkContext)
    (mkFactory (<["aider"%string := aider_adapter runtime (mkCliConfig "" [] 0 "" ∅)]> {["opencode"%string := opencode_adapter runtime OpenCodeConfig]}) "opencode")
    {["spec"%string := "aider"%string]} sample_request) as (a & Ha & Hr & _).
  - apply (built_register _ _ _ "aider" (aider_adapter runtime (mkCliConfig "" [] 0 "" ∅)) (mkFactory {["opencode"%string := opencode_adapter runtime OpenCodeConfig]} "opencode")).
    + apply (built_new _ _ _ "opencode" (opencode_adapter runtime OpenCodeConfig)); [apply is_opencode|]. unfold factory_New, str_empty. by rewrite bool_decide_eq_false_2.
    + apply is_aider.
    + unfold Register, str_empty. by rewrite bool_decide_eq_false_2.
  - exists a. done.
Defined.

(** The critic never raises anything outside its three categories, takes one slot
    for one dispatch and gives it back. *)
Lemma llm_Review_advisory `{UnicodeTables} timeoutMS env pt prompt acquire dispatch :
  let '(cs, calls) := llm_Review timeoutMS env pt prompt acquire dispatch in
  Forall (λ c, c_Category c ∈ allowedCategories ∧ c_Message c ≠ EmptyString) cs ∧
  (calls = [] ∨ (calls = [CAcquire] ∧ acquire = false ∧ cs = []) ∨ ∃ req, calls = [CAcquire; CDispatch req; CRelease] ∧ acquire = true).
Proof.
  assert (Hp : ∀ raw, Forall (λ c, c_Category c ∈ allowedCategories ∧ c_Message c ≠ EmptyString) (parseConcerns raw)).
  { intros [l|]; cbn; [|constructor]. destruct (decode_concerns _) as [dtos|]; [|constructor]. apply Forall_forall. intros c Hc.
    apply list_elem_of_omap in Hc as (dto & _ & Hd). unfold parse_concern, str_empty in Hd. destruct (_ || _) eqn:Hg; [done|]. bool_facts. by simplify_eq. }
  unfold llm_Review. destruct env; [|by split; [constructor|left]]. destruct prompt; [|by split; [constructor|left]].
  destruct acquire; cbn [negb]; [|split; [constructor|right; left; done]].
  destruct (dispatch _); (split; [first [apply Hp|constructor]|right; right; eexists; done]).
Qed.
