(* ===== verification/PriorContext.v ===== *)
(** * Prior context

    [internal/application/discipline/prior_context.go]: the layers of context of a
    prompt, their text and their byte budget; and [buildPriorContext] of
    [internal/application/phase/service.go], which fills the layers from what the
    memory engine answers. *)
From S2P Require Import Prelude Ids Json PhaseDomain Floats Lines SkillDomain SkillMatch.
From stdpp Require Import list pretty.
From Stdlib Require Import Ascii.
From Stdlib Require Import Lqa.

(** ** Layers *)

Record RenderedSkill := mkRendered {
  rs_Name : string; rs_Version : string; rs_Status : string; rs_Source : string;
  rs_Techniques : list string; rs_Content : string
}.
Record EpisodeRef := mkEpisode { ep_ID : string; ep_Content : string }.
Record ChangeDigestRef := mkDigest { cd_ChangeID : string; cd_Content : string }.
Record RuleRef := mkRule { ru_ID : string; ru_Kind : string; ru_Content : string }.
Record RoutineOutput := mkRoutine { ro_Source : string; ro_Content : string }.

(** The auxiliary block has no content. *)
Record PriorContext := mkPrior {
  pc_PhaseIdentity : string;
  pc_Skills : list RenderedSkill;
  pc_StructuralCtx : option StructuralContext;
  pc_Episodes : list EpisodeRef;
  pc_ChangeDigests : list ChangeDigestRef;
  pc_BusinessRules : list RuleRef;
  pc_Routines : list RoutineOutput
}.

Record RenderOpts := mkOpts { o_TokenBudget : Z; o_EnableAttribution : bool }.
Record layerBlock := mkBlock { lb_name : string; lb_body : string }.

Definition activation_string (a : ActivationSource) : string :=
  match a with
  | SourceManual => "manual" | SourceLegacySeed => "legacy_seed" | SourceArchiveWorker => "archive_worker"
  | SourceLLMProposal => "llm_proposal" | SourceImported => "imported" | SourceOther s => s
  end.
Definition technique_string (t : Technique) : string :=
  match t with
  | TechniqueConstitutionalSelfCritique => "constitutional-self-critique"
  | TechniqueChainOfVerification => "chain-of-verification"
  | TechniqueExtendedThinking => "extended-thinking"
  | TechniqueSkeletonOfThought => "skeleton-of-thought"
  | TechniqueReAct => "react" | TechniqueStepBack => "step-back" | TechniqueInlineWhy => "inline-why"
  | TechniqueOther s => s
  end.

Definition ToRenderedSkill (s : Skill) : RenderedSkill :=
  mkRendered (sk_name s) (sk_version s) (skill_status_string (sk_status s)) (activation_string (sk_activationSource s))
    (technique_string <$> sk_techniques s) (sk_content s).

(** ** Rendering *)

Definition join_comma (l : list string) : string := String.concat ", " l.

Definition skill_text (attr : bool) (s : RenderedSkill) : string :=
  concat_strings
    ((if attr then ["## Skill: "; rs_Name s; " "; rs_Version s; " ("; rs_Status s; ", source="; rs_Source s; ")"; nl]%string
      else ["## "; rs_Name s; nl]%string) ++
     (if is_nil (rs_Techniques s) then [] else ["Techniques: "; join_comma (rs_Techniques s); nl]%string) ++
     [rs_Content s; nl; nl]).

Definition renderSkills (skills : list RenderedSkill) (attr : bool) : layerBlock :=
  mkBlock "skills" (concat_strings (skill_text attr <$> filter (λ s, rs_Status s = "active"%string) skills)).

Definition renderStructural (sc : StructuralContext) (attr : bool) : layerBlock :=
  mkBlock "structural_ctx" (concat_strings
    ((if attr then ["## Structural Context (init/"; st_ChangeName sc; ")"; nl]%string else []) ++
     (if is_nil (st_Frameworks sc) then [] else ["Frameworks: "; join_comma (fw_Name <$> st_Frameworks sc); nl]%string) ++
     (if is_nil (st_Languages sc) then [] else ["Languages: "; join_comma (la_Name <$> st_Languages sc); nl]%string) ++
     [nl])).

(** An item of the other layers: its header, if headers are wanted, and its
    content. *)
Definition item_text (attr : bool) (header content : string) : string :=
  concat_strings ((if attr then [header; nl] else []) ++ [content; nl; nl]).

Definition renderEpisodes (eps : list EpisodeRef) (attr : bool) : layerBlock :=
  mkBlock "episodes" (concat_strings
    ((λ ep, item_text attr (concat_strings ["## Episode ("; ep_ID ep; ")"]%string) (ep_Content ep)) <$> eps)).
Definition renderDigests (digests : list ChangeDigestRef) (attr : bool) : layerBlock :=
  mkBlock "change_digests" (concat_strings
    ((λ d, item_text attr (concat_strings ["## Change Digest ("; cd_ChangeID d; ")"]%string) (cd_Content d)) <$> digests)).
Definition renderRules (rules : list RuleRef) (attr : bool) : layerBlock :=
  mkBlock "business_rules" (concat_strings
    ((λ r, item_text attr (concat_strings ["## Rule: "; ru_Kind r; " ("; ru_ID r; ")"]%string) (ru_Content r)) <$> rules)).
Definition renderRoutines (routines : list RoutineOutput) (attr : bool) : layerBlock :=
  mkBlock "routines" (concat_strings
    ((λ r, item_text attr (concat_strings ["## Routine: "; ro_Source r]%string) (ro_Content r)) <$> routines)).

Definition layer_if (cond : bool) (b : layerBlock) : list layerBlock := if cond then [b] else [].
Definition nonempty (b : layerBlock) : bool := negb (str_empty (lb_body b)).

Definition collectLayers (attr : bool) (pc : PriorContext) : list layerBlock :=
  layer_if (negb (is_nil (pc_Skills pc)) && nonempty (renderSkills (pc_Skills pc) attr)) (renderSkills (pc_Skills pc) attr) ++
  (match pc_StructuralCtx pc with Some sc => [renderStructural sc attr] | None => [] end) ++
  layer_if (negb (is_nil (pc_Episodes pc))) (renderEpisodes (pc_Episodes pc) attr) ++
  layer_if (negb (is_nil (pc_ChangeDigests pc))) (renderDigests (pc_ChangeDigests pc) attr) ++
  layer_if (negb (is_nil (pc_BusinessRules pc))) (renderRules (pc_BusinessRules pc) attr) ++
  layer_if (negb (is_nil (pc_Routines pc)) && nonempty (renderRoutines (pc_Routines pc) attr)) (renderRoutines (pc_Routines pc) attr) ++
  layer_if (negb (str_empty (pc_PhaseIdentity pc))) (mkBlock "phase_identity" (pc_PhaseIdentity pc)).

(** ** The budget *)

(** The doubles nearest to 0.40, 0.20, 0.15 and 0.10. *)
Definition f64_0_40 : float64 := (7205759403792794 # 18014398509481984)%Q.
Definition f64_0_20 : float64 := (7205759403792794 # 36028797018963968)%Q.
Definition f64_0_15 : float64 := (5404319552844595 # 36028797018963968)%Q.
Definition f64_0_10 : float64 := (7205759403792794 # 72057594037927936)%Q.

Definition layerBudgetShare (name : string) : float64 :=
  if bool_decide (name = "skills"%string) then f64_0_40
  else if bool_decide (name = "episodes"%string) then f64_0_20
  else if bool_decide (name = "change_digests"%string) then f64_0_15
  else if bool_decide (name = "business_rules"%string) then f64_0_15
  else if bool_decide (name = "phase_identity"%string) then f64_0_10
  else f64_1.

(** [int(float64(budget) * share)] *)
Definition layer_alloc (budget : Z) (name : string) : Z :=
  let q := f64_round (f64_round (inject_Z budget) * layerBudgetShare name)%Q in (Qnum q ÷ Z.pos (Qden q))%Z.

Definition over_budget_marker (omittedBytes : Z) (name : string) : string :=
  concat_strings [nl; "…[truncated: "; pretty omittedBytes; " bytes over budget in "; name; " layer]"; nl]%string.

Fixpoint enforce_from (budget remaining : Z) (layers : list layerBlock) : list layerBlock :=
  match layers with
  | [] => []
  | l :: layers' =>
      let alloc := Z.min (layer_alloc budget (lb_name l)) remaining in
      let bodyLen := Z.of_nat (String.length (lb_body l)) in
      if (bodyLen <=? alloc)%Z then l :: enforce_from budget (remaining - bodyLen) layers'
      else
        let cutAt := Z.max 0 alloc in
        let block := mkBlock (lb_name l)
          (String.append (text (take (Z.to_nat cutAt) (chars (lb_body l)))) (over_budget_marker (bodyLen - cutAt) (lb_name l))) in
        if (remaining - cutAt <=? 0)%Z then [block] else block :: enforce_from budget (remaining - cutAt) layers'
  end.
Definition enforceBudget (layers : list layerBlock) (budget : Z) : list layerBlock := enforce_from budget budget layers.

Definition render_layers (opts : RenderOpts) (pc : PriorContext) : list layerBlock :=
  let layers := collectLayers (o_EnableAttribution opts) pc in
  if (0 <? o_TokenBudget opts)%Z then enforceBudget layers (o_TokenBudget opts) else layers.
Definition Render (opts : RenderOpts) (pc : PriorContext) : string := concat_strings (lb_body <$> render_layers opts pc).

(** ** Filling the layers (phase/service.go)

    The answers of the memory engine: [None] is an error or a nil result. *)
Record ContextRecord := mkContextRecord { cr_ID : string; cr_Type : string; cr_Content : string; cr_Score : float64; cr_Relation : string }.
Record ContextSection := mkSection { cs_Type : string; cs_Records : list ContextRecord; cs_TokenCount : Z }.
Record SearchResult := mkSearchResult {
  sr_ID : string; sr_RecordType : string; sr_Title : string; sr_Snippet : string; sr_Score : float64; sr_Freshness : string; sr_CreatedAt : Time
}.

Definition section_episodes (sec : ContextSection) : list EpisodeRef :=
  if bool_decide (cs_Type sec = "recent_episodic"%string ∨ cs_Type sec = "related"%string)
  then (λ rec, mkEpisode (cr_ID rec) (cr_Content rec)) <$> cs_Records sec else [].
Definition section_rules (sec : ContextSection) : list RuleRef :=
  if bool_decide (cs_Type sec = "decisions"%string)
  then (λ rec, mkRule (cr_ID rec) "decision" (cr_Content rec)) <$> cs_Records sec
  else if bool_decide (cs_Type sec = "heuristics"%string)
  then (λ rec, mkRule (cr_ID rec) "heuristic" (cr_Content rec)) <$> cs_Records sec
  else [].

Definition graph_routines (phaseType : PhaseType) (gs : GraphSummary) : list RoutineOutput :=
  mkRoutine "graphify.graph_stats" (concat_strings
    ["Graph: "; pretty (gs_TotalNodes gs); " nodes, "; pretty (gs_TotalEdges gs); " edges, ";
     pretty (gs_CommunityCount gs); " communities"]%string) ::
  (if bool_decide (phaseType = PhaseExplore ∨ phaseType = PhaseApply) && negb (is_nil (gs_GodNodes gs))
   then [mkRoutine "graphify.god_nodes" (String.append "Top blast-radius nodes: " (join_comma (gs_GodNodes gs)))] else []).

(** [bundle], [search]: the first two round trips; [record]: the content of the
    record of the third; [parse]: json.Unmarshal into a StructuralContext. *)
Definition buildPriorContext (parse : string → option StructuralContext) (phaseType : PhaseType)
    (bundle : option (list ContextSection)) (search : option (list SearchResult)) (record : option string) : PriorContext :=
  let sections := default [] bundle in
  let structuralCtx :=
    match record with
    | Some content => if str_empty content then None else parse content
    | None => None
    end in
  mkPrior EmptyString [] structuralCtx
    (mjoin (section_episodes <$> sections))
    ((λ r, mkDigest (sr_ID r) (sr_Snippet r)) <$> default [] search)
    (mjoin (section_rules <$> sections))
    (match structuralCtx ≫= st_GraphSummary with Some gs => graph_routines phaseType gs | None => [] end).

(** [pc.Skills] from the matched skills. *)
Definition with_skills (matched : list Skill) (pc : PriorContext) : PriorContext :=
  mkPrior (pc_PhaseIdentity pc) (match matched with [] => pc_Skills pc | _ => ToRenderedSkill <$> matched end)
    (pc_StructuralCtx pc) (pc_Episodes pc) (pc_ChangeDigests pc) (pc_BusinessRules pc) (pc_Routines pc).

(** ** Nothing is lost without a budget *)

(** [ks] occur in [s] one after the other, without overlap. *)
Inductive in_order : list string → string → Prop :=
  | in_order_nil s : in_order [] s
  | in_order_cons pre k ks s : in_order ks s → in_order (k :: ks) (String.append pre (String.append k s)).
#[local] Hint Constructors in_order : core.

Lemma in_order_before ks a s : in_order ks s → in_order ks (String.append a s).
Proof. destruct 1 as [s|pre k ks s H]; [constructor|]. rewrite append_assoc. by constructor. Qed.
Lemma in_order_app ks1 ks2 s1 s2 : in_order ks1 s1 → in_order ks2 s2 → in_order (ks1 ++ ks2) (String.append s1 s2).
Proof.
  intros H1 H2. induction H1 as [s|pre k ks s H IH]; [by apply in_order_before|]. cbn [app].
  rewrite <-!append_assoc. by constructor.
Qed.
Lemma in_order_one k a b : in_order [k] (String.append a (String.append k b)).
Proof. repeat constructor. Qed.
Lemma in_order_concat (kss : list (list string)) ss :
  Forall2 in_order kss ss → in_order (mjoin kss) (concat_strings ss).
Proof. induction 1; [constructor|]. by apply in_order_app. Qed.
Lemma in_order_items {A} (content text : A → string) (l : list A) :
  (∀ x, in_order [content x] (text x)) → in_order (content <$> l) (concat_strings (text <$> l)).
Proof.
  intros H. induction l as [|x l IH]; [constructor|]. change (content <$> x :: l) with ([content x] ++ (content <$> l)).
  by apply in_order_app.
Qed.

Lemma item_text_content attr header content : in_order [content] (item_text attr header content).
Proof. unfold item_text. rewrite concat_strings_app. apply in_order_before, (in_order_one _ EmptyString). Qed.
Lemma skill_text_content attr s : in_order [rs_Content s] (skill_text attr s).
Proof. unfold skill_text. rewrite !concat_strings_app. apply in_order_before, in_order_before, (in_order_one _ EmptyString). Qed.

(** The contents a context holds, in the order of its layers. *)
Definition pieces (pc : PriorContext) : list string :=
  (rs_Content <$> filter (λ s, rs_Status s = "active"%string) (pc_Skills pc)) ++
  (ep_Content <$> pc_Episodes pc) ++ (cd_Content <$> pc_ChangeDigests pc) ++ (ru_Content <$> pc_BusinessRules pc) ++
  (ro_Content <$> pc_Routines pc) ++ (if str_empty (pc_PhaseIdentity pc) then [] else [pc_PhaseIdentity pc]).

Definition bodies (ls : list layerBlock) : string := concat_strings (lb_body <$> ls).
Lemma bodies_app l1 l2 : bodies (l1 ++ l2) = String.append (bodies l1) (bodies l2).
Proof. unfold bodies. by rewrite fmap_app, concat_strings_app. Qed.

Lemma in_order_layer_if cond ks b :
  in_order ks (lb_body b) → (cond = false → ks = []) → in_order ks (bodies (layer_if cond b)).
Proof.
  intros H Hc. destruct cond; cbn.
  - by rewrite append_nil.
  - rewrite Hc by done. constructor.
Qed.

Lemma fmap_is_nil {A B} (f : A → B) (l : list A) : negb (is_nil l) = false → f <$> l = [].
Proof. by destruct l. Qed.

Lemma str_empty_false s : s ≠ EmptyString → str_empty s = false.
Proof. intros H. unfold str_empty. by rewrite bool_decide_eq_false. Qed.

(** An item never renders to nothing: it ends with an empty line. *)
Lemma items_nonempty {A} (text : A → string) (l : list A) :
  (∀ x, text x ≠ EmptyString) → l ≠ [] → concat_strings (text <$> l) ≠ EmptyString.
Proof.
  intros Ht. destruct l as [|x l]; [done|]. intros _. cbn. specialize (Ht x). by destruct (text x).
Qed.
Lemma item_text_nonempty attr header content : item_text attr header content ≠ EmptyString.
Proof. unfold item_text. destruct attr; cbn; [by destruct header|by destruct content]. Qed.
Lemma skill_text_nonempty attr s : skill_text attr s ≠ EmptyString.
Proof. unfold skill_text. by destruct attr. Qed.

Lemma collectLayers_pieces attr pc : in_order (pieces pc) (bodies (collectLayers attr pc)).
Proof.
  unfold pieces, collectLayers. rewrite !bodies_app. apply in_order_app; [|apply in_order_before; repeat apply in_order_app].
  - apply in_order_layer_if.
    + apply (in_order_items rs_Content), skill_text_content.
    + intros Hc. destruct (filter _ (pc_Skills pc)) as [|s ss] eqn:Hf; [done|]. exfalso.
      unfold nonempty, renderSkills in Hc. cbn [lb_body] in Hc. rewrite Hf in Hc.
      rewrite str_empty_false in Hc by (by apply items_nonempty; [apply skill_text_nonempty|]).
      destruct (pc_Skills pc); [done|]. done.
  - apply in_order_layer_if; [|apply fmap_is_nil]. by apply (in_order_items ep_Content); intros x; apply item_text_content.
  - apply in_order_layer_if; [|apply fmap_is_nil]. by apply (in_order_items cd_Content); intros x; apply item_text_content.
  - apply in_order_layer_if; [|apply fmap_is_nil]. by apply (in_order_items ru_Content); intros x; apply item_text_content.
  - apply in_order_layer_if.
    + by apply (in_order_items ro_Content); intros x; apply item_text_content.
    + destruct (pc_Routines pc) as [|r rs]; [done|]. unfold nonempty, renderRoutines. cbn [lb_body].
      rewrite str_empty_false by (by apply items_nonempty; [intros x; apply item_text_nonempty|]). done.
  - destruct (str_empty (pc_PhaseIdentity pc)); cbn; [constructor|]. rewrite append_nil.
    rewrite <-(append_nil (pc_PhaseIdentity pc)) at 2. apply (in_order_one _ EmptyString).
Qed.

(** Only what is active matters. *)
Definition only_active (pc : PriorContext) : PriorContext :=
  mkPrior (pc_PhaseIdentity pc) (filter (λ s, rs_Status s = "active"%string) (pc_Skills pc)) (pc_StructuralCtx pc)
    (pc_Episodes pc) (pc_ChangeDigests pc) (pc_BusinessRules pc) (pc_Routines pc).

Lemma renderSkills_active skills attr :
  renderSkills (filter (λ s, rs_Status s = "active"%string) skills) attr = renderSkills skills attr.
Proof.
  unfold renderSkills. do 3 f_equal. induction skills as [|s ss IH]; [done|].
  destruct (decide (rs_Status s = "active"%string)).
  - rewrite !filter_cons_True by done. by f_equal.
  - by rewrite filter_cons_False by done.
Qed.

Lemma collectLayers_active attr pc : collectLayers attr (only_active pc) = collectLayers attr pc.
Proof.
  unfold collectLayers. cbn [only_active pc_Skills pc_StructuralCtx pc_Episodes pc_ChangeDigests pc_BusinessRules pc_Routines pc_PhaseIdentity].
  rewrite renderSkills_active. f_equal. destruct (pc_Skills pc) as [|s ss]; [done|]. cbn [is_nil negb andb].
  destruct (filter _ (s :: ss)) eqn:Hf; [|done]. cbn [is_nil negb andb]. unfold nonempty, renderSkills. by rewrite Hf.
Qed.

(** The contents of the sections of the given types. *)
Definition records_of (types : list string) (sections : list ContextSection) : list string :=
  mjoin ((λ sec, if bool_decide (cs_Type sec ∈ types) then cr_Content <$> cs_Records sec else []) <$> sections).

Lemma fmap_mjoin {A B} (f : A → B) (ls : list (list A)) : f <$> mjoin ls = mjoin (fmap f <$> ls).
Proof. induction ls as [|l ls IH]; [done|]. change (f <$> (l ++ mjoin ls) = (f <$> l) ++ mjoin (fmap f <$> ls)). by rewrite fmap_app, IH. Qed.

Lemma records_by {A} (content : A → string) (items : ContextSection → list A) types sections :
  (∀ sec, content <$> items sec = if bool_decide (cs_Type sec ∈ types) then cr_Content <$> cs_Records sec else []) →
  content <$> mjoin (items <$> sections) = records_of types sections.
Proof.
  intros H. rewrite fmap_mjoin, <-list_fmap_compose. unfold records_of. f_equal. apply list_fmap_ext. intros i sec _. apply H.
Qed.

Lemma episodes_records sections :
  ep_Content <$> mjoin (section_episodes <$> sections) = records_of ["recent_episodic"; "related"]%string sections.
Proof.
  apply records_by. intros sec. unfold section_episodes.
  rewrite (bool_decide_ext (_ ∨ _) (cs_Type sec ∈ ["recent_episodic"; "related"]%string)) by set_solver.
  case_bool_decide; [|done]. rewrite <-list_fmap_compose. by apply list_fmap_ext.
Qed.
Lemma rules_records sections :
  ru_Content <$> mjoin (section_rules <$> sections) = records_of ["decisions"; "heuristics"]%string sections.
Proof.
  apply records_by. intros sec. unfold section_rules. case_bool_decide as H1; [|case_bool_decide as H2].
  - rewrite bool_decide_eq_true_2 by (rewrite H1; set_solver). rewrite <-list_fmap_compose. by apply list_fmap_ext.
  - rewrite bool_decide_eq_true_2 by (rewrite H2; set_solver). rewrite <-list_fmap_compose. by apply list_fmap_ext.
  - by rewrite bool_decide_eq_false_2 by set_solver.
Qed.

Definition is_active_skill (s : Skill) : bool := bool_decide (sk_status s = SkillActive).

Lemma active_status s : skill_status_string s = "active"%string ↔ s = SkillActive ∨ s = SkillStatusOther "active".
Proof. destruct s; naive_solver. Qed.

(** (nothing known is lost) without a budget, the prior context of a prompt
    contains, verbatim, one after the other and in this order: the content of
    every matched skill that is active, every episodic or related record, every
    change digest found, every decision and heuristic, and every routine value;
    and whatever is not active leaves no trace in it.  When the memory engine
    answers nothing and no skill matched, it is empty. *)
Theorem prior_context_is_complete parse pt bundle search record matched opts :
  (o_TokenBudget opts <= 0)%Z → Forall (λ s, SkillStatus_IsValid (sk_status s) = true) matched →
  let pc := with_skills matched (buildPriorContext parse pt bundle search record) in
  in_order
    ((sk_content <$> filter (λ s, sk_status s = SkillActive) matched) ++
     records_of ["recent_episodic"; "related"]%string (default [] bundle) ++
     (sr_Snippet <$> default [] search) ++
     records_of ["decisions"; "heuristics"]%string (default [] bundle) ++
     (ro_Content <$> pc_Routines pc))
    (Render opts pc) ∧
  Render opts pc = Render opts (with_skills (filter (λ s, sk_status s = SkillActive) matched)
                                  (buildPriorContext parse pt bundle search record)) ∧
  (bundle = None → search = None → record = None → matched = [] → Render opts pc = EmptyString).
Proof.
  intros Hb Hv. cbv zeta. unfold Render, render_layers. rewrite (proj2 (Z.ltb_ge _ _)) by done.
  fold (bodies (collectLayers (o_EnableAttribution opts) (with_skills matched (buildPriorContext parse pt bundle search record)))).
  assert (Hact : filter (λ s, rs_Status s = "active"%string) (ToRenderedSkill <$> matched)
                 = ToRenderedSkill <$> filter (λ s, sk_status s = SkillActive) matched).
  { induction Hv as [|s ss Hs Hss IH]; [done|]. cbn [fmap list_fmap]. destruct (decide (sk_status s = SkillActive)) as [Ha|Ha].
    - rewrite !filter_cons_True by (try done; cbn; by rewrite Ha). cbn. by f_equal.
    - rewrite !filter_cons_False; [done|done|]. cbn [ToRenderedSkill rs_Status]. rewrite active_status. intros [?|Ho]; [done|]. by rewrite Ho in Hs. }
  assert (Hws : ∀ pc ms, pc_Skills pc = [] → pc_Skills (with_skills ms pc) = ToRenderedSkill <$> ms) by (intros pc [|]; done).
  split_and!.
  - pose proof (collectLayers_pieces (o_EnableAttribution opts) (with_skills matched (buildPriorContext parse pt bundle search record))) as Hp.
    unfold pieces in Hp. rewrite Hws, Hact in Hp by done. cbn in Hp. rewrite app_nil_r in Hp.
    rewrite <-list_fmap_compose in Hp. fold (default [] bundle) in Hp.
    rewrite episodes_records, rules_records in Hp. rewrite <-list_fmap_compose in Hp. exact Hp.
  - f_equal. rewrite <-(collectLayers_active _ (with_skills matched _)). f_equal. f_equal. unfold only_active. rewrite Hws, Hact by done.
    unfold with_skills. cbn. f_equal. by destruct (filter _ matched).
  - by intros -> -> -> ->.
Qed.

(** ** With a budget *)

Definition len (s : string) : Z := Z.of_nat (String.length s).

Lemma layer_alloc_nonneg budget name : (0 <= budget → 0 <= layer_alloc budget name)%Z.
Proof.
  intros Hb. unfold layer_alloc. assert (Hq : (0 <= f64_round (f64_round (inject_Z budget) * layerBudgetShare name))%Q).
  { apply f64_round_nonneg, Qmult_le_0_compat.
    - apply f64_round_nonneg. change 0%Q with (inject_Z 0). by rewrite <-Zle_Qle.
    - unfold layerBudgetShare. by repeat case_bool_decide. }
  set (q := f64_round _) in *. unfold Qle in Hq. cbn in Hq. apply Z.quot_pos; lia.
Qed.

(** What the budget leaves of a layer: all of it, or a beginning and a note of
    how much is missing. *)
Inductive cut_of (budget : Z) : layerBlock → layerBlock → string → Prop :=
  | cut_whole l : (len (lb_body l) <= layer_alloc budget (lb_name l))%Z → cut_of budget l l (lb_body l)
  | cut_part l kept rest :
      lb_body l = String.append kept rest → rest ≠ EmptyString → (len kept <= layer_alloc budget (lb_name l))%Z →
      cut_of budget l (mkBlock (lb_name l) (String.append kept (over_budget_marker (len rest) (lb_name l)))) kept.

Definition total (ss : list string) : Z := foldr (λ s n, len s + n)%Z 0%Z ss.

Lemma len_append a b : len (String.append a b) = (len a + len b)%Z.
Proof. unfold len. rewrite <-!length_chars, chars_app, length_app. lia. Qed.
Lemma len_text l : len (text l) = Z.of_nat (length l).
Proof. unfold len. by rewrite <-length_chars, chars_text. Qed.
Lemma len_nonneg s : (0 <= len s)%Z.
Proof. unfold len. lia. Qed.

Lemma total_nonneg ss : (0 <= total ss)%Z.
Proof. induction ss as [|s ss IH]; cbn; [done|]. pose proof (len_nonneg s). unfold total in IH. lia. Qed.

Lemma enforce_from_spec budget layers remaining :
  (0 <= budget)%Z → (0 <= remaining)%Z →
  let out := enforce_from budget remaining layers in
  ∃ kepts, Forall3 (cut_of budget) (take (length out) layers) out kepts ∧ (total kepts <= remaining)%Z ∧
    (length out < length layers → total kepts = remaining) ∧
    (Forall (λ l, (len (lb_body l) <= layer_alloc budget (lb_name l))%Z) layers →
     (total (lb_body <$> layers) <= remaining)%Z → out = layers).
Proof.
  intros Hb. revert remaining. induction layers as [|l layers IH]; intros remaining Hr; cbv zeta; cbn [enforce_from].
  { exists []. cbn. split_and!; [constructor|done|lia|done]. }
  fold (len (lb_body l)). pose proof (layer_alloc_nonneg budget (lb_name l) Hb) as Ha. pose proof (len_nonneg (lb_body l)).
  destruct (Z.leb_spec (len (lb_body l)) (Z.min (layer_alloc budget (lb_name l)) remaining)) as [Hle|Hgt].
  - destruct (IH (remaining - len (lb_body l))%Z) as (kepts & Hk & Ht & Hd & Hall); [lia|].
    exists (lb_body l :: kepts). cbn [length take total foldr]. fold (total kepts). split_and!.
    + constructor; [constructor; lia|done].
    + lia.
    + intros Hlt. rewrite Hd by lia. lia.
    + intros [_ Hf]%Forall_cons. cbn. fold (total (lb_body <$> layers)). intros Htot. rewrite Hall; [done|done|lia].
  - set (cutAt := Z.max 0 (Z.min (layer_alloc budget (lb_name l)) remaining)). assert (Hc : (0 <= cutAt)%Z) by lia.
    set (kept := text (take (Z.to_nat cutAt) (chars (lb_body l)))). set (rest := text (drop (Z.to_nat cutAt) (chars (lb_body l)))).
    assert (Hbody : lb_body l = String.append kept rest) by (unfold kept, rest; apply (inj chars); by rewrite chars_app, !chars_text, take_drop).
    assert (Hkl : len kept = cutAt).
    { unfold kept. rewrite len_text, length_take, length_chars. unfold len in *. lia. }
    assert (Hrl : (len (lb_body l) - cutAt)%Z = len rest) by (rewrite Hbody, len_append; lia).
    assert (Hne : rest ≠ EmptyString) by (intros He; rewrite He in Hrl; unfold len in Hrl at 2; cbn in Hrl; lia).
    rewrite Hrl. assert (Hcut : cut_of budget l (mkBlock (lb_name l) (String.append kept (over_budget_marker (len rest) (lb_name l)))) kept)
      by (constructor; [done|done|lia]).
    destruct (Z.leb_spec (remaining - cutAt) 0) as [Hz|Hz].
    + exists [kept]. cbn [length take total foldr]. split_and!; [constructor; [done|constructor]|lia|lia|].
      intros [Hl _]%Forall_cons. cbn. fold (total (lb_body <$> layers)). intros Htot.
      pose proof (total_nonneg (lb_body <$> layers)). lia.
    + destruct (IH (remaining - cutAt)%Z) as (kepts & Hk & Ht & Hd & Hall); [lia|].
      exists (kept :: kepts). cbn [length take total foldr]. fold (total kepts). split_and!; [by constructor|lia| |].
      * intros Hlt. rewrite Hd by lia. lia.
      * intros [Hl _]%Forall_cons. cbn. fold (total (lb_body <$> layers)). intros Htot.
        pose proof (total_nonneg (lb_body <$> layers)). lia.
Qed.

(** Layers are left out only after one that was cut. *)
Lemma enforce_from_last budget layers remaining :
  let out := enforce_from budget remaining layers in
  length out < length layers →
  ∃ before name kept omitted, out = before ++ [mkBlock name (String.append kept (over_budget_marker omitted name))].
Proof.
  revert remaining. induction layers as [|l layers IH]; intros remaining; cbv zeta; cbn [enforce_from length]; [lia|].
  assert (Hrec : ∀ b r, length (b :: enforce_from budget r layers) < S (length layers) →
    ∃ before name kept omitted, b :: enforce_from budget r layers
      = before ++ [mkBlock name (String.append kept (over_budget_marker omitted name))]).
  { intros b r Hlt. cbn [length] in Hlt. destruct (IH r) as (before & name & kept & om & ->); [cbv zeta; lia|].
    by exists (b :: before), name, kept, om. }
  destruct (_ <=? _)%Z; [apply Hrec|]. destruct (_ <=? 0)%Z; [|apply Hrec].
  intros _. eexists [], _, _, _. reflexivity.
Qed.

(** C29: (the budget of a prior context) with a positive budget the layers of a
    context are rendered in order up to some layer, each whole or as a beginning
    of it followed by a note of how many of its bytes are missing; what is kept of
    a layer is within its share, and what is kept of all of them within the budget
    (the notes come on top); the layers after that one are left out without a
    note of their own, which happens only when the kept text uses up the budget
    exactly and the last layer rendered is a cut one; and a context whose layers
    all fit their shares and together the budget is rendered as without one. *)
Theorem render_within_budget budget attr pc :
  (0 < budget)%Z →
  let ls := collectLayers attr pc in
  let out := render_layers (mkOpts budget attr) pc in
  Render (mkOpts budget attr) pc = concat_strings (lb_body <$> out) ∧
  ∃ kepts, Forall3 (cut_of budget) (take (length out) ls) out kepts ∧ (total kepts <= budget)%Z ∧
    (length out < length ls → total kepts = budget ∧ ∃ before name kept omitted,
       out = before ++ [mkBlock name (String.append kept (over_budget_marker omitted name))]) ∧
    (Forall (λ l, (len (lb_body l) <= layer_alloc budget (lb_name l))%Z) ls → (total (lb_body <$> ls) <= budget)%Z →
     Render (mkOpts budget attr) pc = Render (mkOpts 0 attr) pc).
Proof.
  intros Hb. cbv zeta. unfold Render, render_layers. cbn [o_EnableAttribution o_TokenBudget].
  rewrite (proj2 (Z.ltb_lt _ _) Hb), Z.ltb_irrefl. split; [done|].
  destruct (enforce_from_spec budget (collectLayers attr pc) budget) as (kepts & Hk & Ht & Hd & Hall); [lia..|].
  exists kepts. split_and!; [done|done|intros Hlt; split; [by apply Hd|by apply enforce_from_last]|].
  intros H1 H2. unfold enforceBudget. by rewrite Hall.
Qed.

Definition identity_only (n : nat) : PriorContext := mkPrior (text (repeat (ascii_of_N 120) n)) [] None [] [] [] [].

Lemma render_within_budget_witness :
  (0 < 100)%Z ∧ length (render_layers (mkOpts 100 false) (identity_only 12)) = 1 ∧
  ∃ kepts, (total kepts <= 100)%Z ∧
    Forall3 (cut_of 100) (take 1 (collectLayers false (identity_only 12)))
      (render_layers (mkOpts 100 false) (identity_only 12)) kepts.
Proof.
  split; [lia|]. split; [by vm_compute|].
  destruct (render_within_budget 100 false (identity_only 12) ltac:(lia)) as (_ & kepts & Hk & Ht & _).
  exists kepts. split; [exact Ht|exact Hk].
Defined.

(** The phase identity is cut to a tenth of the budget although nothing else uses
    any of it. *)
Example unused_share_does_not_cascade :
  lb_body <$> render_layers (mkOpts 100 false) (identity_only 12) =
    [concat_strings [text (repeat (ascii_of_N 120) 10); nl; "…[truncated: 2 bytes over budget in phase_identity layer]"; nl]%string].
Proof. vm_compute. reflexivity. Qed.

(** The notes are not counted: a budget of 20 bytes gives 64. *)
Example notes_exceed_the_budget : len (Render (mkOpts 20 false) (identity_only 12)) = 64%Z.
Proof. vm_compute. reflexivity. Qed.

(** Routines that take what is left of the budget: the phase identity is gone, and
    nothing says so. *)
Example later_layers_leave_no_note :
  lb_name <$> render_layers (mkOpts 10 true) (mkPrior "identity" [] None [] [] [] [mkRoutine "graph" "0123456789"]) = ["routines"%string].
Proof. vm_compute. reflexivity. Qed.

(** A cut can fall inside of a character: the two bytes of [é] are parted. *)
Example cut_inside_a_character :
  lb_body <$> render_layers (mkOpts 10 false) (mkPrior "é." [] None [] [] [] []) =
    [String.append (text [ascii_of_N 195]) (over_budget_marker 2 "phase_identity")].
Proof. vm_compute. reflexivity. Qed.

(** The apply executor renders contexts that hold a phase identity alone. *)
Lemma Render_identity s opts :
  (o_TokenBudget opts <= 0)%Z → Render opts (mkPrior s [] None [] [] [] []) = s.
Proof.
  intros Hb. unfold Render, render_layers. rewrite (proj2 (Z.ltb_ge _ _)) by done.
  unfold collectLayers. cbn. unfold str_empty. case_bool_decide as He; cbn; [done|apply append_nil].
Qed.

Definition sample_bundle : list ContextSection :=
  [mkSection "decisions" [mkContextRecord "d1" "decision" "use hexagonal" f64_0 ""] 4; mkSection "profile" [mkContextRecord "p1" "profile" "unused" f64_0 ""] 2;
   mkSection "recent_episodic" [mkContextRecord "e1" "episodic" "tried and failed" f64_0 ""] 3].

Lemma prior_context_is_complete_witness :
  (o_TokenBudget (mkOpts 0 true) <= 0)%Z ∧
  in_order ["tried and failed"; "use hexagonal"]%string
    (Render (mkOpts 0 true) (with_skills [] (buildPriorContext (λ _, None) PhaseSpec (Some sample_bundle) None None))).
Proof.
  split; [done|].
  destruct (prior_context_is_complete (λ _, None) PhaseSpec (Some sample_bundle) None None [] (mkOpts 0 true)) as [Hp _];
    [done|constructor|exact Hp].
Defined.
