(* ===== verification/PromptBuilder.v ===== *)
(** * The prompt

    [internal/application/discipline/prompt_builder.go]: the text an agent is
    given for a phase. *)
From S2P Require Import Prelude Ids Utf8 Json PhaseDomain Discipline Floats Lines SkillDomain SkillMatch PriorContext.
From stdpp Require Import list pretty gmap.
From Stdlib Require Import Ascii.

(** ** Quoting ([%q], strconv.Quote)

    Which runes beyond ASCII are printable is a table of the Unicode package. *)
Class PrintTable := is_print_wide : N → bool.

Section Prompt.
Context `{PrintTable}.

(** What a rune that starts the bytes [raw] is written as. *)
Definition quote_rune (r : N) (raw : list ascii) : list ascii :=
  if (r =? 34)%N || (r =? 92)%N then backslash :: raw
  else if (if (r <? 128)%N then byte_in r 32 126 else is_print_wide r) then raw
  else if (r =? 7)%N then [backslash; "a"%char] else if (r =? 8)%N then [backslash; "b"%char]
  else if (r =? 12)%N then [backslash; "f"%char] else if (r =? 10)%N then [backslash; "n"%char]
  else if (r =? 13)%N then [backslash; "r"%char] else if (r =? 9)%N then [backslash; "t"%char]
  else if (r =? 11)%N then [backslash; "v"%char]
  else if (r <? 32)%N || (r =? 127)%N then backslash :: "x"%char :: hex_fixed 2 r
  else if (r <? 65536)%N then backslash :: "u"%char :: hex_fixed 4 r
  else backslash :: "U"%char :: hex_fixed 8 r.

Fixpoint quote_chars (fuel : nat) (l : list ascii) : list ascii :=
  match fuel, l with
  | S fuel', a :: _ =>
      match decode_rune l with
      | Some (r, w) => quote_rune r (take w l) ++ quote_chars fuel' (drop w l)
      | None => backslash :: "x"%char :: hex_fixed 2 (code a) ++ quote_chars fuel' (drop 1 l)
      end
  | _, _ => []
  end.
Definition Quote (s : string) : string :=
  concat_strings [dq; text (quote_chars (String.length s) (chars s)); dq].

(** ** The laws as the agent reads them (ironlaw/laws.go) *)

Definition law_texts : list (string * string) :=
  [ (IronLaw1, "No phase transition without persisted envelope.");
    (IronLaw2, "No apply without tasks phase DONE.");
    (IronLaw3, "No archive without verify DONE at confidence ≥ 0.9.");
    (IronLaw4, "No runtime call without governance decision.");
    (IronLaw5, "No fix #4 without architectural escalation.") ]%string.

(** ** The parts of a prompt *)

Record PromptInput := mkPromptInput {
  pi_Phase : PhaseType;
  pi_ChangeName : string;
  pi_Project : string;
  pi_PriorContext : string;
  pi_TaskDescription : string;
  pi_TestsRequired : bool;
  pi_PriorPhasesStatus : gmap string string
}.

Definition tdd_gate : string := "DO NOT proceed without TDD (write failing test first).".

Definition hardGatesFor (i : PromptInput) : list string :=
  match pi_Phase i with
  | PhaseExplore => ["DO NOT write code in this phase; explore only."%string]
  | PhaseProposal => ["DO NOT skip alternatives — present at least 2 approaches with tradeoffs."%string]
  | PhaseSpec => ["DO NOT include placeholders (TBD/TODO/'fill in details')."%string]
  | PhaseDesign => ["DO NOT skip architectural decisions or their rationale."%string]
  | PhaseTasks =>
      ["DO NOT include vague tasks ('similar to', 'fill in details').";
       "Tasks must be bite-sized (2-5 minute steps each)."]%string
  | PhaseApply =>
      let gates := ["DO NOT modify files outside your assigned files_pattern.";
                    "DO NOT attempt fix #4 — escalate after 3 failures."]%string in
      if pi_TestsRequired i then tdd_gate :: gates else gates
  | PhaseVerify => ["DO NOT claim DONE without running tests and citing exact output."%string]
  | _ => []
  end.

Definition snapshot_line (statuses : gmap string string) (pt : PhaseType) : option string :=
  match statuses !! pt_string pt with
  | Some st => if str_empty st then None else Some (concat_strings ["- "; pt_string pt; ": "; st; nl]%string)
  | None => None
  end.
Definition snapshot_header : string := "# Phase Status Snapshot (verified by orchestrator before this prompt fired)".
Definition renderPhaseStatusSnapshot (statuses : gmap string string) : string :=
  if bool_decide (statuses = ∅) then EmptyString else
  concat_strings ([snapshot_header; nl] ++ omap (snapshot_line statuses) AllPhaseTypes ++ [nl]).

(** Text with its double quotes written as single ones. *)
Definition quoted (s : string) : string :=
  text ((λ a, if bool_decide (a = "'"%char) then ascii_of_N 34 else a) <$> chars s).

Definition dataSchemaFor (pt : PhaseType) : string :=
  if bool_decide (pt = PhaseTasks)
  then quoted "{'groups':[{'name':'domain','depends_on':['optional-group'],'tasks':[{'description':'...','files_pattern':['internal/domain/*.go']}]}]}"
  else "{}".

Definition fence_json : string := "```json".
Definition fence : string := "```".

Definition header_part (i : PromptInput) : string := concat_strings
  ["# SDD Phase: "; pt_string (pi_Phase i); nl; "Change: "; pi_ChangeName i; nl; "Project: "; pi_Project i; nl; nl]%string.

Definition laws_part : string := concat_strings
  (["# IRON LAWS (enforced server-side by the orchestrator)"; nl;
    "These invariants are validated BEFORE this prompt fires. Your job is to produce a valid envelope for THIS phase — do NOT re-verify prior phases or look for their evidence locally."; nl]%string ++
   mjoin ((λ l : string * string, ["- ["; l.1; "] "; l.2; nl]%string) <$> law_texts) ++ [nl]).

Definition gates_part (i : PromptInput) : string :=
  match hardGatesFor i with
  | [] => EmptyString
  | gates => concat_strings
      (["# HARD-GATE Markers"; nl]%string ++
       mjoin ((λ g, ["<HARD-GATE>"; g; "</HARD-GATE>"; nl]%string) <$> gates) ++ [nl])
  end.

Definition context_part (i : PromptInput) : string :=
  if str_empty (pi_PriorContext i) then EmptyString
  else concat_strings ["# Prior Context"; nl; pi_PriorContext i; nl; nl]%string.

Definition task_part (i : PromptInput) : string := concat_strings ["# Task"; nl; pi_TaskDescription i; nl; nl]%string.

(** The envelope the agent is shown. *)
Definition envelope_template (i : PromptInput) : string := concat_strings
  [ quoted "{"; nl; quoted "  'schema_version': 'v1',"; nl;
    quoted "  'phase': "; Quote (pt_string (pi_Phase i)); ","; nl;
    quoted "  'change_name': "; Quote (pi_ChangeName i); ","; nl;
    quoted "  'project': "; Quote (pi_Project i); ","; nl;
    quoted "  'status': 'DONE | DONE_WITH_CONCERNS | BLOCKED | NEEDS_CONTEXT',"; nl;
    quoted "  'confidence': 0.0,"; nl;
    quoted "  'executive_summary': '...',"; nl;
    quoted "  'artifacts_saved': [{'topic_key': 'sdd/"; pi_ChangeName i; "/"; pt_string (pi_Phase i);
    quoted "', 'type': "; Quote (pt_string (pi_Phase i)); "}],"; nl;
    quoted "  'next_recommended': ['short string suggestion 1', 'short string suggestion 2'],"; nl;
    quoted "  'risks': [{'description': '...', 'level': 'low|medium|high'}],"; nl;
    quoted "  'data': "; dataSchemaFor (pi_Phase i); nl; "}" ]%string.

Definition output_part (i : PromptInput) : string := concat_strings
  [ "# Required Output"; nl;
    "Wrap the final JSON envelope in a ```json fenced markdown block. The orchestrator extracts the LAST fenced block; everything before it can be free-form reasoning. Do NOT emit a bare JSON object as your only output."; nl; nl;
    fence_json; nl; envelope_template i; nl; fence; nl; nl;
    "Confidence threshold for this phase: "; FormatFloat2 (ConfidenceThreshold (pi_Phase i)); ". ";
    "Status MUST be one of the four enum values. ";
    "CRITICAL: regardless of how long your reasoning is, the LAST thing in your stdout MUST be the ```json fenced envelope shown above. The orchestrator's extractor scans for the LAST fenced JSON block; if you end with prose, code, or any other content after the envelope, the entire phase fails with `envelope_raw is absent` and your work is discarded. Reserve your final lines for the envelope and nothing else. ";
    "next_recommended MUST be a JSON array of plain strings, not objects."; nl ]%string.

(** [PromptBuilder.Build]: [None] is ErrInvalidPhase. *)
Definition Build (i : PromptInput) : option string :=
  if negb (PhaseType_IsValid (pi_Phase i)) then None else
  Some (concat_strings
    [header_part i; laws_part; renderPhaseStatusSnapshot (pi_PriorPhasesStatus i); gates_part i;
     context_part i; task_part i; output_part i]).
End Prompt.

Example quote_values :
  @Quote (λ _, true) <$> ["spec"; String.append "a" (String.append dq "\b"); nl; "é"; text [ascii_of_N 195]; text [ascii_of_N 1]]%string =
    [concat_strings [dq; "spec"; dq]; concat_strings [dq; "a\"; dq; "\\b"; dq]; concat_strings [dq; "\n"; dq];
     concat_strings [dq; "é"; dq]; concat_strings [dq; "\xc3"; dq]; concat_strings [dq; "\x01"; dq]]%string.
Proof. vm_compute. reflexivity. Qed.

(** ** What a prompt contains *)

Example law_texts_are_the_catalogue : law_texts.*1 = ironlaw_catalog.
Proof. reflexivity. Qed.

(** Pieces of one part, by the position of each in what is written. *)
Lemma in_order_pieces ks ss : ks `sublist_of` ss → in_order ks (concat_strings ss).
Proof.
  induction 1 as [|k ks ss Hs IH|s ks ss Hs IH]; [constructor| |].
  - exact (in_order_cons EmptyString k ks _ IH).
  - by apply in_order_before.
Qed.

Lemma in_order_chunk pre mid post :
  in_order [concat_strings mid] (concat_strings (pre ++ mid ++ post)).
Proof. rewrite !concat_strings_app. apply in_order_one. Qed.

Definition law_pieces : list string := mjoin ((λ l : string * string, [l.1; l.2]) <$> law_texts).

Lemma sublist_mjoin {A} (f g : A → list string) l :
  (∀ x, f x `sublist_of` g x) → mjoin (f <$> l) `sublist_of` mjoin (g <$> l).
Proof.
  intros H. induction l as [|x l IH]; [constructor|]. change (f x ++ mjoin (f <$> l) `sublist_of` g x ++ mjoin (g <$> l)).
  by apply sublist_app.
Qed.

Lemma mjoin_singletons {A} (l : list A) : mjoin ((λ x, [x]) <$> l) = l.
Proof. induction l as [|x l IH]; [done|]. change (x :: mjoin ((λ x, [x]) <$> l) = x :: l). by rewrite IH. Qed.

Lemma laws_part_pieces : in_order law_pieces laws_part.
Proof.
  unfold laws_part. apply in_order_pieces. do 4 apply sublist_cons. apply sublist_inserts_r, sublist_mjoin.
  intros l. apply sublist_cons, sublist_skip, sublist_cons, sublist_skip, sublist_nil_l.
Qed.

Lemma gates_part_pieces i : in_order (hardGatesFor i) (gates_part i).
Proof.
  unfold gates_part. destruct (hardGatesFor i) as [|g gs]; [constructor|]. apply in_order_pieces. do 2 apply sublist_cons.
  apply sublist_inserts_r. rewrite <-(mjoin_singletons (g :: gs)) at 1. apply sublist_mjoin.
  intros x. apply sublist_cons, sublist_skip, sublist_nil_l.
Qed.

Lemma snapshot_pieces statuses : in_order (omap (snapshot_line statuses) AllPhaseTypes) (renderPhaseStatusSnapshot statuses).
Proof.
  unfold renderPhaseStatusSnapshot. case_bool_decide as He.
  - subst. assert (omap (snapshot_line ∅) AllPhaseTypes = []) as -> by reflexivity. constructor.
  - apply in_order_pieces. do 2 apply sublist_cons. by apply sublist_inserts_r.
Qed.

Lemma snapshot_line_elem statuses line :
  line ∈ omap (snapshot_line statuses) AllPhaseTypes ↔
  ∃ pt st, PhaseType_IsValid pt = true ∧ statuses !! pt_string pt = Some st ∧ st ≠ EmptyString ∧
    line = concat_strings ["- "; pt_string pt; ": "; st; nl]%string.
Proof.
  rewrite list_elem_of_omap. split.
  - intros (pt & Hpt & Hl). exists pt. apply PhaseType_IsValid_elem in Hpt. unfold snapshot_line in Hl.
    destruct (statuses !! pt_string pt) as [st|]; [|done]. destruct (str_empty st) eqn:He; [done|]. simplify_eq.
    exists st. split_and!; try done. intros ->. done.
  - intros (pt & st & Hpt & Hst & Hne & ->). exists pt. split; [by apply PhaseType_IsValid_elem|].
    unfold snapshot_line. by rewrite Hst, str_empty_false.
Qed.

Section Prompts.
Context `{PrintTable}.

Lemma in_order_self s : in_order [s] s.
Proof. rewrite <-(append_nil s) at 2. apply (in_order_one _ EmptyString). Qed.

(** (prompts) a prompt is built for exactly the nine phases; it contains in
    this order: phase, change and project; every Iron Law of the catalogue with
    its text; one line for each earlier phase that has a status, in the order of
    the lifecycle, and no other; the gates of the phase; the prior context, if
    there is any; the task; and a fenced envelope for the phase; and the gate that
    demands tests first is among the gates exactly for an apply phase whose change
    requires tests. *)
Theorem prompt_is_complete i :
  (Build i = None ↔ PhaseType_IsValid (pi_Phase i) = false) ∧
  (∀ prompt, Build i = Some prompt →
     in_order
       ([pt_string (pi_Phase i); pi_ChangeName i; pi_Project i] ++ law_pieces ++
        omap (snapshot_line (pi_PriorPhasesStatus i)) AllPhaseTypes ++ hardGatesFor i ++
        (if str_empty (pi_PriorContext i) then [] else [pi_PriorContext i]) ++ [pi_TaskDescription i] ++
        [concat_strings [fence_json; nl; envelope_template i; nl; fence]]) prompt) ∧
  (∀ l, l ∈ ironlaw_catalog → l ∈ law_pieces) ∧
  (∀ line, line ∈ omap (snapshot_line (pi_PriorPhasesStatus i)) AllPhaseTypes ↔
     ∃ pt st, PhaseType_IsValid pt = true ∧ pi_PriorPhasesStatus i !! pt_string pt = Some st ∧ st ≠ EmptyString ∧
       line = concat_strings ["- "; pt_string pt; ": "; st; nl]%string) ∧
  (tdd_gate ∈ hardGatesFor i ↔ pi_Phase i = PhaseApply ∧ pi_TestsRequired i = true).
Proof.
  split_and!.
  - unfold Build. by destruct (PhaseType_IsValid (pi_Phase i)).
  - intros prompt Hp. unfold Build in Hp. destruct (negb _); [done|]. simplify_eq.
    apply (in_order_concat
      [[pt_string (pi_Phase i); pi_ChangeName i; pi_Project i]; law_pieces; omap (snapshot_line (pi_PriorPhasesStatus i)) AllPhaseTypes;
       hardGatesFor i; if str_empty (pi_PriorContext i) then [] else [pi_PriorContext i]; [pi_TaskDescription i];
       [concat_strings [fence_json; nl; envelope_template i; nl; fence]]]).
    rewrite !Forall2_cons. split_and!; [| | | | | | |by constructor].
    + apply in_order_pieces.
      apply sublist_cons, sublist_skip, sublist_cons, sublist_cons, sublist_skip, sublist_cons, sublist_cons, sublist_skip, sublist_nil_l.
    + apply laws_part_pieces.
    + apply snapshot_pieces.
    + apply gates_part_pieces.
    + unfold context_part. destruct (str_empty _); [constructor|]. apply in_order_pieces, sublist_cons, sublist_cons, sublist_skip, sublist_nil_l.
    + apply in_order_pieces, sublist_cons, sublist_cons, sublist_skip, sublist_nil_l.
    + unfold output_part. apply (in_order_chunk
        ["# Required Output"; nl;
         "Wrap the final JSON envelope in a ```json fenced markdown block. The orchestrator extracts the LAST fenced block; everything before it can be free-form reasoning. Do NOT emit a bare JSON object as your only output."; nl; nl]%string
        [fence_json; nl; envelope_template i; nl; fence]).
  - intros l Hl. unfold ironlaw_catalog in Hl. rewrite !elem_of_cons, elem_of_nil in Hl.
    destruct_or!; subst; try done; cbn; set_solver.
  - apply snapshot_line_elem.
  - unfold hardGatesFor. destruct (pi_Phase i); try (split; [set_solver|naive_solver]).
    destruct (pi_TestsRequired i); split; try set_solver; try naive_solver.
Qed.
End Prompts.
