(* ===== verification/Clients.v ===== *)
(** * Clients of the other services

    [internal/adapters/outbound/governance], [runtime], [memory] and [webhook]:
    requests and responses of the HTTP APIs, over the client of [HttpBase].  Each
    operation takes the state of its circuit breaker and the environment of the
    call, and gives the new state, what was sent, and its result. *)
From S2P Require Import Prelude Ids Utf8 Json Envelope PhaseDomain GoPath Effects ApplyEffects Lines JsonText Regex Trace HttpBase Wire Rows OpenCode PriorContext PhaseService.
From stdpp Require Import list pretty.
From Stdlib Require Import Ascii.

(** Map the result of a call. *)
Definition after_call {B T E F A A'} (f : result E A → result F A') (x : B * T * result E A) : B * T * result F A' := (x.1, f x.2).

(** ** governance/client.go *)

Record GovClientConfig := mkGovClientConfig { gc_HTTPBase : HttpConfig; gc_APIKey : string; gc_ApprovalPollEvery : Duration; gc_ApprovalMaxWait : Duration }.
Definition with_headers (h : Header) (c : HttpConfig) : HttpConfig :=
  mkHttpConfig (hc_BaseURL c) (hc_Name c) (hc_HTTPTimeout c) (hc_MaxAttempts c) (hc_InitialBackoff c) (hc_MaxBackoff c) (hc_BackoffMultiplier c)
    (hc_JitterFraction c) (hc_CBFailureThreshold c) (hc_CBTimeoutThreshold c) (hc_CBOpenDuration c) (hc_HalfOpenMaxRequests c) h (hc_PropagateTrace c).
Definition gov_DefaultConfig (baseURL apiKey : string) : GovClientConfig :=
  mkGovClientConfig (with_headers [("X-API-Key"%string, [apiKey])] (http_DefaultConfig "governance" baseURL)) apiKey (5 * Second) (1800 * Second).
Definition gov_New (c : GovClientConfig) : GovClientConfig :=
  mkGovClientConfig (gc_HTTPBase c) (gc_APIKey c)
    (if (gc_ApprovalPollEvery c <=? 0)%Z then 5 * Second else gc_ApprovalPollEvery c)%Z
    (if (gc_ApprovalMaxWait c <=? 0)%Z then 1800 * Second else gc_ApprovalMaxWait c)%Z.

Definition evalPhaseRequest (changeID phaseType taskDescription : string) (sensitive : bool) : string :=
  object_text ([("change_id"%string, quote changeID); ("phase_type"%string, quote phaseType)] ++ opt_field "task_description" taskDescription ++
               [("sensitive"%string, bool_text sensitive)]).
Definition evalSensitiveRequest (changeID capability : string) (payload : list ascii) : string :=
  object_text ([("change_id"%string, quote changeID); ("capability"%string, quote capability)] ++
               match payload with [] => [] | _ => [("payload"%string, quote (text (b64_encode payload)))] end).

Definition gov_of_string (s : string) : GovDecision :=
  if bool_decide (s = "allow"%string) then DecisionAllow
  else if bool_decide (s = "allow_with_constraints"%string) then DecisionAllowWithConstraints
  else if bool_decide (s = "require_approval"%string) then DecisionRequireApproval
  else if bool_decide (s = "deny"%string) then DecisionDeny
  else DecisionOther s.

(** decisionResponse; [dr_Approval] is the URL of the gate. *)
Record decisionResponse := mkDecision {
  dr_Decision : string; dr_AgentRole : string; dr_Strategy : string; dr_Reason : string; dr_Constraints : list (string * json); dr_Approval : option string
}.
Definition decision_fields : list (string * (decisionResponse → json → option decisionResponse)) :=
  [ ("decision"%string, set_string (λ t d, mkDecision t (dr_AgentRole d) (dr_Strategy d) (dr_Reason d) (dr_Constraints d) (dr_Approval d)));
    ("agent_role"%string, set_string (λ t d, mkDecision (dr_Decision d) t (dr_Strategy d) (dr_Reason d) (dr_Constraints d) (dr_Approval d)));
    ("strategy"%string, set_string (λ t d, mkDecision (dr_Decision d) (dr_AgentRole d) t (dr_Reason d) (dr_Constraints d) (dr_Approval d)));
    ("reason"%string, set_string (λ t d, mkDecision (dr_Decision d) (dr_AgentRole d) (dr_Strategy d) t (dr_Constraints d) (dr_Approval d)));
    ("constraints"%string, λ d j,
       match jvalue j with
       | JNull => Some (mkDecision (dr_Decision d) (dr_AgentRole d) (dr_Strategy d) (dr_Reason d) [] (dr_Approval d))
       | JObj l => Some (mkDecision (dr_Decision d) (dr_AgentRole d) (dr_Strategy d) (dr_Reason d) (dr_Constraints d ++ l) (dr_Approval d))
       | _ => None
       end);
    ("approval"%string, λ d j,
       match jvalue j with
       | JNull => Some (mkDecision (dr_Decision d) (dr_AgentRole d) (dr_Strategy d) (dr_Reason d) (dr_Constraints d) None)
       | _ => url ← decode_struct [("url"%string, set_string (λ t _, t))] (default EmptyString (dr_Approval d)) j;
              Some (mkDecision (dr_Decision d) (dr_AgentRole d) (dr_Strategy d) (dr_Reason d) (dr_Constraints d) (Some url))
       end) ].
Definition no_decision : decisionResponse := mkDecision "" "" "" "" [] None.

Record GovernanceDecision := mkGovernanceDecision {
  gd_Decision : GovDecision; gd_AgentRole : string; gd_Strategy : string; gd_Reason : string; gd_Approval : option string; gd_Constraints : list (string * json)
}.
Definition toDecision (r : decisionResponse) : GovernanceDecision :=
  mkGovernanceDecision (gov_of_string (dr_Decision r)) (dr_AgentRole r) (dr_Strategy r) (dr_Reason r) (dr_Approval r) (dr_Constraints r).

Inductive approval_error := ErrApprovalDenied | ErrApprovalTimeout | ApprovalContext | ApprovalCall (e : http_error).

Section Governance.
Context `{UrlParser, Gobreaker} (cfg : GovClientConfig) (ctx : option Trace).

Definition gov_EvaluatePhase (changeID : ChangeID) (pt : PhaseType) (task : string) (sensitive : bool) (env : call_env) (b : breaker) :=
  after_call (result_map toDecision)
    (PostJSON (gc_HTTPBase cfg) ctx "/governance/v1/decisions/phase" (evalPhaseRequest (ID_String changeID) (pt_string pt) task sensitive)
       no_decision (Some (decode_struct decision_fields no_decision)) env b).
Definition EvaluateSensitiveAction (changeID : ChangeID) (capability : string) (payload : list ascii) (env : call_env) (b : breaker) :=
  after_call (result_map toDecision)
    (PostJSON (gc_HTTPBase cfg) ctx "/governance/v1/decisions/sensitive" (evalSensitiveRequest (ID_String changeID) capability payload)
       no_decision (Some (decode_struct decision_fields no_decision)) env b).

(** The environment of a wait: each poll, the clock after it, and whether the
    context ends before the timer fires. *)
Record wait_env := mkWaitEnv { we_poll : nat → call_env; we_now : nat → Time; we_cancelled : nat → bool }.
Definition approval_path (changeID : ChangeID) (phaseID : PhaseID) : string :=
  concat_strings ["/governance/v1/approvals/"; ID_String changeID; "/"; ID_String phaseID; "/status"]%string.
Definition poll_status (path : string) (env : call_env) (b : breaker) : breaker * list http_event * result http_error string :=
  GetJSON (gc_HTTPBase cfg) ctx path EmptyString (decode_struct [("status"%string, set_string (λ t _, t))] EmptyString) env b.

(** [None]: still polling after that many polls. *)
Fixpoint await_from (polls i : nat) (path : string) (deadline : Time) (env : wait_env) (b : breaker) : breaker * list http_event * option (result approval_error unit) :=
  match polls with
  | O => (b, [], None)
  | S polls' =>
      let '(b, tr, r) := poll_status path (we_poll env i) b in
      match r with
      | Err e => (b, tr, Some (Err (ApprovalCall e)))
      | Ok status =>
          if bool_decide (status = "granted"%string) then (b, tr, Some (Ok tt))
          else if bool_decide (status = "denied"%string) then (b, tr, Some (Err ErrApprovalDenied))
          else if (deadline <? we_now env i)%Z then (b, tr, Some (Err ErrApprovalTimeout))
          else if we_cancelled env i then (b, tr, Some (Err ApprovalContext))
          else let '(b, tr', r) := await_from polls' (S i) path deadline env b in (b, tr ++ tr', r)
      end
  end.
Definition AwaitApproval (polls : nat) (changeID : ChangeID) (phaseID : PhaseID) (started : Time) (env : wait_env) (b : breaker) :=
  await_from polls 0 (approval_path changeID phaseID) (started + gc_ApprovalMaxWait cfg)%Z env b.

(** *** The wait ends *)

(** The first [n] polls found the approval open, before the deadline, and the
    context went on. *)
Inductive pending (path : string) (deadline : Time) (env : wait_env) (b : breaker) : nat → breaker → Prop :=
  | pending_none : pending path deadline env b 0 b
  | pending_one n b1 b2 tr status :
      pending path deadline env b n b1 → poll_status path (we_poll env n) b1 = (b2, tr, Ok status) →
      status ≠ "granted"%string → status ≠ "denied"%string → (we_now env n <= deadline)%Z → we_cancelled env n = false →
      pending path deadline env b (S n) b2.
(** What the poll that ended the wait says about its result. *)
Definition verdict (deadline : Time) (env : wait_env) (n : nat) (answer : result http_error string) (r : result approval_error unit) : Prop :=
  match answer with
  | Err e => r = Err (ApprovalCall e)
  | Ok status =>
      (status = "granted"%string ∧ r = Ok tt) ∨ (status = "denied"%string ∧ r = Err ErrApprovalDenied) ∨
      (status ≠ "granted"%string ∧ status ≠ "denied"%string ∧
       (((deadline < we_now env n)%Z ∧ r = Err ErrApprovalTimeout) ∨ ((we_now env n <= deadline)%Z ∧ we_cancelled env n = true ∧ r = Err ApprovalContext)))
  end.

(** One poll: it ends the wait, or the wait goes on. *)
Lemma await_step polls i path deadline env b :
  (∃ b' tr r trn answer, await_from (S polls) i path deadline env b = (b', tr, Some r) ∧
     poll_status path (we_poll env i) b = (b', trn, answer) ∧ verdict deadline env i answer r) ∨
  (∃ b1 tr1, (we_now env i <= deadline)%Z ∧ (∀ b0, pending path deadline env b0 i b → pending path deadline env b0 (S i) b1) ∧
     await_from (S polls) i path deadline env b = let '(b2, tr2, r) := await_from polls (S i) path deadline env b1 in (b2, tr1 ++ tr2, r)).
Proof.
  cbn [await_from]. destruct (poll_status path (we_poll env i) b) as [[b1 tr] [status|e]] eqn:Hpoll; [|left; by eexists _, _, _, _, _].
  case_bool_decide as Hg; [left; eexists _, _, _, _, _; split_and!; [done..|by left]|].
  case_bool_decide as Hd; [left; eexists _, _, _, _, _; split_and!; [done..|by right; left]|].
  destruct (Z.ltb_spec deadline (we_now env i)) as [Hlt|Hle]; [left; eexists _, _, _, _, _; split_and!; [done..|unfold verdict; naive_solver]|].
  destruct (we_cancelled env i) eqn:Hc; [left; eexists _, _, _, _, _; split_and!; [done..|unfold verdict; naive_solver]|].
  right. exists b1, tr. split; [done|]. split; [|done]. intros b0 Hp. by econstructor.
Qed.

Lemma await_ends path deadline env every b0 :
  (0 < every)%Z → (∀ i, (we_now env i + every <= we_now env (S i))%Z) →
  ∀ polls i b, (deadline - we_now env i < Z.of_nat polls * every)%Z → pending path deadline env b0 i b →
  ∃ b' tr r n bn trn answer, await_from (S polls) i path deadline env b = (b', tr, Some r) ∧ (i <= n <= i + polls)%nat ∧
    pending path deadline env b0 n bn ∧ poll_status path (we_poll env n) bn = (b', trn, answer) ∧ verdict deadline env n answer r.
Proof.
  intros Hev Hclock. induction polls as [|polls IH]; intros i b Hm Hp.
  - destruct (await_step 0 i path deadline env b) as [(b' & tr & r & trn & ans & He & Hs & Hv)|(b1 & tr1 & Hle & _)]; [|lia].
    exists b', tr, r, i, b, trn, ans. split; [exact He|]. split; [lia|done].
  - destruct (await_step (S polls) i path deadline env b) as [(b' & tr & r & trn & ans & He & Hs & Hv)|(b1 & tr1 & Hle & Hnext & Heq)].
    + exists b', tr, r, i, b, trn, ans. split; [exact He|]. split; [lia|done].
    + destruct (IH (S i) b1) as (b' & tr & r & n & bn & trn & ans & He & Hn & Hrest); [specialize (Hclock i); lia|by apply Hnext|].
      rewrite Heq, He. exists b', (tr1 ++ tr), r, n, bn, trn, ans. split; [done|]. split; [lia|done].
Qed.

(** C33: (waiting for an approval) with a timer that waits at least the poll
    interval, the wait is over after at most MaxWait / PollEvery + 2 polls, and its
    result is what the poll that ended it says: granted, denied, out of time, the
    context gone, or the error of the call; every poll before it found the approval
    open, before the deadline. *)
Theorem approval_wait_ends changeID phaseID started env b :
  (0 < gc_ApprovalPollEvery cfg)%Z → (0 <= gc_ApprovalMaxWait cfg)%Z → (started <= we_now env 0)%Z →
  (∀ i, (we_now env i + gc_ApprovalPollEvery cfg <= we_now env (S i))%Z) →
  let polls := Z.to_nat (gc_ApprovalMaxWait cfg / gc_ApprovalPollEvery cfg + 2) in
  let deadline := (started + gc_ApprovalMaxWait cfg)%Z in
  ∃ b' tr r n bn trn answer, AwaitApproval polls changeID phaseID started env b = (b', tr, Some r) ∧ (n < polls)%nat ∧
    pending (approval_path changeID phaseID) deadline env b n bn ∧
    poll_status (approval_path changeID phaseID) (we_poll env n) bn = (b', trn, answer) ∧ verdict deadline env n answer r.
Proof.
  intros Hev Hmax Hst Hclock polls deadline. set (every := gc_ApprovalPollEvery cfg) in *.
  assert (Hq : (gc_ApprovalMaxWait cfg < (gc_ApprovalMaxWait cfg / every + 1) * every)%Z).
  { pose proof (Z.mod_pos_bound (gc_ApprovalMaxWait cfg) every Hev). pose proof (Z.div_mod (gc_ApprovalMaxWait cfg) every). nia. }
  assert (Hpos : (0 <= gc_ApprovalMaxWait cfg / every)%Z) by (apply Z.div_pos; lia).
  destruct (await_ends (approval_path changeID phaseID) deadline env every b Hev Hclock (Z.to_nat (gc_ApprovalMaxWait cfg / every + 1)) 0 b)
    as (b' & tr & r & n & bn & trn & ans & He & Hn & Hrest); [unfold deadline; rewrite Z2Nat.id by lia; lia|constructor|].
  exists b', tr, r, n, bn, trn, ans. unfold AwaitApproval, polls. replace (Z.to_nat _) with (S (Z.to_nat (gc_ApprovalMaxWait cfg / every + 1))) by lia.
  split; [exact He|]. split; [lia|exact Hrest].
Qed.
End Governance.

(** ** runtime/client.go *)

Definition runtime_DefaultConfig (baseURL apiKey : string) : HttpConfig :=
  let hb := http_DefaultConfig "runtime" baseURL in
  let hb := if str_empty apiKey then hb else with_headers [("X-API-Key"%string, [apiKey])] hb in
  mkHttpConfig (hc_BaseURL hb) (hc_Name hb) (2100 * Second) 1 (hc_InitialBackoff hb) (hc_MaxBackoff hb) (hc_BackoffMultiplier hb)
    (hc_JitterFraction hb) (hc_CBFailureThreshold hb) (hc_CBTimeoutThreshold hb) (hc_CBOpenDuration hb) (hc_HalfOpenMaxRequests hb) (hc_DefaultHeaders hb) (hc_PropagateTrace hb).

(** [None]: a capability that is not adapter.name@version. *)
Definition parseCapability (canonical : string) : option (string * string * string) :=
  let l := chars canonical in
  if negb (bool_decide ("@"%char ∈ l)) then None else
  let '(version, before) := cut_at "@" (reverse l) in
  let version := reverse version in let before := reverse before in
  if negb (bool_decide ("."%char ∈ before)) then None else
  let '(adapter, name) := cut_at "." before in
  if bool_decide (adapter = []) || bool_decide (name = []) || bool_decide (version = []) then None
  else Some (text adapter, text name, text version).

Definition executionRequest (cid adapter name version payload : string) (timeoutMS : Z) (idempotencyKey : string) (now : Time) : string :=
  object_text ([("correlation_id"%string, quote cid); ("adapter_id"%string, quote adapter); ("capability_name"%string, quote name);
                ("capability_version"%string, quote version); ("payload"%string, compact payload); ("timeout_budget_ms"%string, int_text timeoutMS)] ++
               opt_field "idempotency_key" idempotencyKey ++ [("submitted_at"%string, quote (RFC3339 now))]).

(** The parts of the response that are read; the others only have to have the
    right type. *)
Record resultWire := mkResultWire {
  rw_Status : string; rw_Retryable : string; rw_Stdout : option (list ascii); rw_Stderr : option (list ascii); rw_ExitCode : option Z; rw_DurationMs : Z; rw_CompletedAt : Time
}.
Record receiptWire := mkReceiptWire { rcw_ReceiptID : string; rcw_StartedAt : Time; rcw_Result : resultWire; rcw_TStarted : Time; rcw_TCompleted : Time }.

Definition ignore_string {S} (s : S) (j : json) : option S := set_string (λ _ s, s) s j.
Definition ignore_int {S} (s : S) (j : json) : option S := set_int (λ _ s, s) s j.
Definition ignore_time {S} (s : S) (j : json) : option S := set_time (λ _ s, s) s j.
(** streamRefWire, of which only the data are read. *)
Definition stream_ref_fields : list (string * (list ascii → json → option (list ascii))) :=
  [ ("mode"%string, ignore_string); ("data"%string, λ _, as_bytes); ("size_bytes"%string, ignore_int); ("truncated_at_byte"%string, ignore_int) ].
Definition stream_ref (old : option (list ascii)) (j : json) : option (option (list ascii)) :=
  match jvalue j with
  | JNull => Some None
  | _ => Some <$> decode_struct stream_ref_fields (default [] old) j
  end.
Definition result_fields : list (string * (resultWire → json → option resultWire)) :=
  [ ("status"%string, set_string (λ t r, mkResultWire t (rw_Retryable r) (rw_Stdout r) (rw_Stderr r) (rw_ExitCode r) (rw_DurationMs r) (rw_CompletedAt r)));
    ("retryable"%string, set_string (λ t r, mkResultWire (rw_Status r) t (rw_Stdout r) (rw_Stderr r) (rw_ExitCode r) (rw_DurationMs r) (rw_CompletedAt r)));
    ("error_class"%string, ignore_string); ("error_message"%string, ignore_string);
    ("stdout_ref"%string, λ r j, x ← stream_ref (rw_Stdout r) j;
       Some (mkResultWire (rw_Status r) (rw_Retryable r) x (rw_Stderr r) (rw_ExitCode r) (rw_DurationMs r) (rw_CompletedAt r)));
    ("stderr_ref"%string, λ r j, x ← stream_ref (rw_Stderr r) j;
       Some (mkResultWire (rw_Status r) (rw_Retryable r) (rw_Stdout r) x (rw_ExitCode r) (rw_DurationMs r) (rw_CompletedAt r)));
    ("exit_code"%string, λ r j,
       let put x := mkResultWire (rw_Status r) (rw_Retryable r) (rw_Stdout r) (rw_Stderr r) x (rw_DurationMs r) (rw_CompletedAt r) in
       match jvalue j with JNull => Some (put None) | _ => v ← as_int j; Some (put (Some v)) end);
    ("duration_ms"%string, set_int (λ n r, mkResultWire (rw_Status r) (rw_Retryable r) (rw_Stdout r) (rw_Stderr r) (rw_ExitCode r) n (rw_CompletedAt r)));
    ("completed_at"%string, set_time (λ t r, mkResultWire (rw_Status r) (rw_Retryable r) (rw_Stdout r) (rw_Stderr r) (rw_ExitCode r) (rw_DurationMs r) t)) ].
Definition handle_fields : list (string * (Time → json → option Time)) :=
  [ ("handle_id"%string, ignore_string); ("correlation_id"%string, ignore_string); ("adapter_id"%string, ignore_string); ("capability"%string, ignore_string);
    ("started_at"%string, set_time (λ t _, t)) ].
Definition timings_fields : list (string * (Time * Time → json → option (Time * Time))) :=
  [ ("submitted_at"%string, ignore_time); ("started_at"%string, set_time (λ t p, (t, p.2))); ("completed_at"%string, set_time (λ t p, (p.1, t)));
    ("persisted_at"%string, ignore_time) ].
Definition receipt_fields : list (string * (receiptWire → json → option receiptWire)) :=
  [ ("receipt_id"%string, set_string (λ t w, mkReceiptWire t (rcw_StartedAt w) (rcw_Result w) (rcw_TStarted w) (rcw_TCompleted w)));
    ("schema_version"%string, ignore_string);
    ("handle"%string, λ w j, t ← decode_struct handle_fields (rcw_StartedAt w) j; Some (mkReceiptWire (rcw_ReceiptID w) t (rcw_Result w) (rcw_TStarted w) (rcw_TCompleted w)));
    ("result"%string, λ w j, r ← decode_struct result_fields (rcw_Result w) j; Some (mkReceiptWire (rcw_ReceiptID w) (rcw_StartedAt w) r (rcw_TStarted w) (rcw_TCompleted w)));
    ("timings"%string, λ w j, p ← decode_struct timings_fields (rcw_TStarted w, rcw_TCompleted w) j;
       Some (mkReceiptWire (rcw_ReceiptID w) (rcw_StartedAt w) (rcw_Result w) p.1 p.2)) ].
Definition no_receipt : receiptWire := mkReceiptWire "" zeroTime (mkResultWire "" "" None None None 0 zeroTime) zeroTime zeroTime.

Definition receipt_status (s : string) : ReceiptStatus :=
  if bool_decide (s = "success"%string) then ReceiptSuccess else if bool_decide (s = "failure"%string) then ReceiptFailure
  else if bool_decide (s = "timeout"%string) then ReceiptTimeout else if bool_decide (s = "cancelled"%string) then ReceiptCancelled
  else if bool_decide (s = "partial"%string) then ReceiptPartial else ReceiptOther s.
Definition to_receipt (w : receiptWire) : ExecutionReceipt :=
  let r := rcw_Result w in
  mkExecReceipt (receipt_status (rw_Status r)) (default [] (rw_Stdout r)) (default [] (rw_Stderr r)) (default 0%Z (rw_ExitCode r)) (rw_DurationMs r)
    (rcw_ReceiptID w) (rw_Retryable r)
    (if bool_decide (rcw_StartedAt w = zeroTime) then rcw_TStarted w else rcw_StartedAt w)
    (if bool_decide (rw_CompletedAt r = zeroTime) then rcw_TCompleted w else rw_CompletedAt r).

Inductive runtime_error := RuntimeCapability | RuntimeCorrelation | RuntimePayload | RuntimeCall (e : http_error).

Section Runtime.
Context `{UrlParser, Gobreaker} (cfg : HttpConfig) (ctx : option Trace).

(** [cid] is the fresh correlation id, [None] when the entropy source fails. *)
Definition runtime_Execute (req : ExecutionRequest) (cid : option string) (now : Time) (env : call_env) (b : breaker)
    : breaker * list http_event * result runtime_error ExecutionReceipt :=
  match parseCapability (xr_Capability req) with
  | None => (b, [], Err RuntimeCapability)
  | Some (adapter, name, version) =>
      match cid with
      | None => (b, [], Err RuntimeCorrelation)
      | Some cid =>
          match json_parse (xr_Payload req) with
          | NotJSON _ => (b, [], Err RuntimePayload)
          | JSON _ =>
              after_call (λ r, result_map to_receipt (result_map_err RuntimeCall r))
                (PostJSON cfg ctx "/api/v1/execute"
                   (executionRequest cid adapter name version (xr_Payload req) (xr_TimeoutMS req) (xr_IdempotencyKey req) now)
                   no_receipt (Some (decode_struct receipt_fields no_receipt)) env b)
          end
      end
  end.
End Runtime.

Example capability_values :
  parseCapability <$> ["shell.exec@v1"; "shell.exec"; "a.b.c@x@v2"; ".x@v1"]%string
    = [Some ("shell", "exec", "v1"); None; Some ("a", "b.c@x", "v2"); None]%string.
Proof. vm_compute. reflexivity. Qed.

(** *** A receipt comes back as it was written *)

Definition reads_int (n : number) (z : Z) : Prop := number_ok n ∧ as_int (doc_node (DNum n)) = Some z.
Definition reads_time (s : string) (t : Time) : Prop := quote s = chars (concat_strings [dq; s; dq]) ∧ parse_time (chars s) = Some t.

Lemma reads_time_set {T} s t (put : Time → T → T) x : reads_time s t → set_time put x (doc_node (DStr s)) = Some (put t x).
Proof.
  intros [Hq Hp]. cbn [doc_node set_time jvalue jtext]. unfold doc_text. rewrite chars_text. cbn [doc_chars]. rewrite Hq.
  unfold concat_strings. cbn [foldr]. rewrite !chars_app. change (chars dq) with [ascii_of_N 34]. change (chars EmptyString) with (@nil ascii).
  rewrite app_nil_r. cbn [app length drop]. rewrite length_app. cbn [length]. replace (S (length (chars s) + 1) - 2) with (length (chars s)) by lia.
  rewrite drop_0, take_app_length, Hp. done.
Qed.

Lemma b64_text_valid l : to_valid (text (b64_encode l)) = text (b64_encode l).
Proof.
  unfold to_valid. rewrite chars_text. f_equal.
  assert (Hlow : Forall (λ a, (code a <? 128)%N = true) (b64_encode l)).
  { induction l as [| a | a b | a b c l IH] using list_ind3; [constructor|..]; cbn [b64_encode]; repeat (constructor; [|]); try done; apply b64_digit_ascii. }
  clear -Hlow. induction Hlow as [|a x Ha _ IH]; [done|]. cbn [length valid_body]. rewrite Ha. by rewrite IH.
Qed.

(** Decoding what was printed, member by member. *)
Definition doc_member (kv : string * jdoc) : string * json := (to_valid kv.1, doc_node kv.2).
Lemma decode_doc {T} fs (s : T) l : decode_struct fs s (doc_node (DObj l)) = decode_members fs s (doc_member <$> l).
Proof. reflexivity. Qed.
Lemma decode_doc_cons {T} fs (s s' : T) k d l set r :
  find_field fs (to_valid k) = Some set → set s (doc_node d) = Some s' → decode_members fs s' (doc_member <$> l) = r →
  decode_members fs s (doc_member <$> ((k, d) :: l)) = r.
Proof. rewrite fmap_cons. by apply decode_members_cons. Qed.

Lemma reads_int_set {T} n z (put : Z → T → T) x : reads_int n z → set_int put x (doc_node (DNum n)) = Some (put z x).
Proof. intros [_ Hz]. unfold set_int. cbn [doc_node jvalue]. change (as_int (Node _ _)) with (as_int (doc_node (DNum n))). by rewrite Hz. Qed.

Definition written_receipt (status retry id : string) (out err : list ascii) (exit dur : Z) (started completed : Time) : ExecutionReceipt :=
  mkExecReceipt (receipt_status (to_valid status)) out err exit dur (to_valid id) (to_valid retry) started completed.

(** **** The documents of the runtime service

    Each object has the members its documentation names, the optional ones or not,
    in any order and among others that are no field of ours (the request, the
    provenance, the creation time); numbers and times are in any notation that
    reads as them. *)
Abbreviation members := (list (string * jdoc)).
Definition opt_member (k : string) (o : option jdoc) : members := match o with Some d => [(k, d)] | None => [] end.

Definition written {T} (fs : list (string * (T → json → option T))) (known ms : members) : Prop :=
  ∃ extra, ms ≡ₚ known ++ extra ∧ Forall (λ kv, find_field fs (to_valid kv.1) = None) extra.

Definition opt_holds {A} (P : A → Prop) (o : option A) : Prop := match o with Some x => P x | None => True end.
Definition is_int (n : number) : Prop := ∃ z, reads_int n z.
Definition is_time (t : string) : Prop := ∃ x, reads_time t x.

(** A stream; an empty one may be left out, and so may its data. *)
Definition stream_written (bytes : list ascii) (ms : members) : Prop :=
  ∃ mode data size trunc,
    written stream_ref_fields
      (opt_member "mode" (DStr <$> mode) ++ opt_member "data" ((λ l, DStr (text (b64_encode l))) <$> data) ++
       opt_member "size_bytes" (DNum <$> size) ++ opt_member "truncated_at_byte" (DNum <$> trunc)) ms ∧
    opt_holds is_int size ∧ opt_holds is_int trunc ∧ bytes = default [] data.
Definition ref_written (bytes : list ascii) (o : option members) : Prop :=
  match o with Some ms => stream_written bytes ms | None => bytes = [] end.

Definition result_written (status retry : string) (out err : list ascii) (exit dur : Z) (completed : Time) (ms : members) : Prop :=
  ∃ class message outs errs code n t,
    written result_fields
      ([("status"%string, DStr status); ("retryable"%string, DStr retry)] ++
       opt_member "error_class" (DStr <$> class) ++ opt_member "error_message" (DStr <$> message) ++
       opt_member "stdout_ref" (DObj <$> outs) ++ opt_member "stderr_ref" (DObj <$> errs) ++
       opt_member "exit_code" (DNum <$> code) ++ [("duration_ms"%string, DNum n); ("completed_at"%string, DStr t)]) ms ∧
    ref_written out outs ∧ ref_written err errs ∧
    match code with Some c => reads_int c exit | None => exit = 0%Z end ∧ reads_int n dur ∧ reads_time t completed.

Definition handle_written (started : Time) (ms : members) : Prop :=
  ∃ hid cid aid cap t,
    written handle_fields [("handle_id"%string, DStr hid); ("correlation_id"%string, DStr cid); ("adapter_id"%string, DStr aid);
                           ("capability"%string, DStr cap); ("started_at"%string, DStr t)] ms ∧ reads_time t started.
Definition timings_written (started completed : Time) (ms : members) : Prop :=
  ∃ sub st co per,
    written timings_fields ([("submitted_at"%string, DStr sub); ("started_at"%string, DStr st); ("completed_at"%string, DStr co)] ++
                            opt_member "persisted_at" (DStr <$> per)) ms ∧
    is_time sub ∧ reads_time st started ∧ reads_time co completed ∧ opt_holds is_time per.

(** The receipt: the handle's and the result's times, or those of the timings
    where these are the zero time. *)
Record receipt_values := mkReceiptValues {
  rv_id : string; rv_status : string; rv_retry : string; rv_out : list ascii; rv_err : list ascii; rv_exit : Z; rv_duration : Z;
  rv_handle_started : Time; rv_result_completed : Time; rv_started : Time; rv_completed : Time
}.
Definition receipt_written (v : receipt_values) (ms : members) : Prop :=
  ∃ schema hs rs ts,
    written receipt_fields [("receipt_id"%string, DStr (rv_id v)); ("schema_version"%string, DStr schema); ("handle"%string, DObj hs);
                            ("result"%string, DObj rs); ("timings"%string, DObj ts)] ms ∧
    handle_written (rv_handle_started v) hs ∧
    result_written (rv_status v) (rv_retry v) (rv_out v) (rv_err v) (rv_exit v) (rv_duration v) (rv_result_completed v) rs ∧
    timings_written (rv_started v) (rv_completed v) ts.
Definition read_receipt (v : receipt_values) : ExecutionReceipt :=
  mkExecReceipt (receipt_status (to_valid (rv_status v))) (rv_out v) (rv_err v) (rv_exit v) (rv_duration v) (to_valid (rv_id v)) (to_valid (rv_retry v))
    (if bool_decide (rv_handle_started v = zeroTime) then rv_started v else rv_handle_started v)
    (if bool_decide (rv_result_completed v = zeroTime) then rv_completed v else rv_result_completed v).

(** Members that are no field are passed over, and the order of the others does not
    matter. *)
Lemma decode_known {T} (fs : list (string * (T → json → option T))) s l :
  decode_members fs s l = decode_members fs s (filter (λ kv, is_Some (find_field fs kv.1)) l).
Proof.
  revert s. induction l as [|[k v] l IH]; intros s; [done|]. cbn [decode_members]. destruct (find_field fs k) as [set|] eqn:Hk.
  - rewrite filter_cons_True by (cbn; by rewrite Hk). cbn [decode_members]. rewrite Hk. destruct (set s v); cbn; [apply IH|done].
  - rewrite filter_cons_False by (cbn; rewrite Hk; by intros []). apply IH.
Qed.

(** What the field table of a struct must be for this. *)
Record orderly {T} (fs : list (string * (T → json → option T))) : Prop := {
  or_commute : commuting fs;
  or_own : Forall (own_field fs) fs.*1;
  or_distinct : NoDup fs.*1;
  or_valid : Forall (λ k, to_valid k = k) fs.*1
}.

Lemma decode_written {T} (fs : list (string * (T → json → option T))) known ms s r :
  orderly fs → known.*1 `sublist_of` fs.*1 → written fs known ms →
  decode_members fs s (doc_member <$> known) = Some r → decode_struct fs s (doc_node (DObj ms)) = Some r.
Proof.
  intros [Hc Hown Hnd Hval] Hsub (extra & Hp & Hex) Hr. rewrite decode_doc, decode_known.
  assert (Hin : ∀ kv, kv ∈ known → kv.1 ∈ fs.*1) by (intros kv Hk; eapply elem_of_sublist; [by apply list_elem_of_fmap_2|done]).
  rewrite Forall_forall in Hown. rewrite Forall_forall in Hval. rewrite Forall_forall in Hex.
  assert (Hkeys : (doc_member <$> known).*1 = known.*1).
  { rewrite <-list_fmap_compose. apply list_fmap_ext. intros i kv Hi. apply Hval, Hin. by eapply list_elem_of_lookup_2. }
  rewrite <-Hr. symmetry. apply decode_members_perm.
  - done.
  - rewrite Hkeys. apply Forall_forall. intros k (kv & -> & Hk)%list_elem_of_fmap. by apply Hown, Hin.
  - rewrite Hkeys. by eapply sublist_NoDup.
  - rewrite Hp, fmap_app, filter_app. rewrite (filter_none _ (doc_member <$> extra)), app_nil_r.
    + rewrite filter_all; [done|]. intros kv (kv' & -> & Hk)%list_elem_of_fmap. unfold doc_member. cbn.
      rewrite (Hval _ (Hin _ Hk)). destruct (Hown _ (Hin _ Hk)) as (f & -> & _). by eexists.
    + intros kv (kv' & -> & Hk)%list_elem_of_fmap. unfold doc_member. cbn. rewrite (Hex _ Hk). by intros [].
Qed.

(** An optional member. *)
Lemma decode_opt {T} (fs : list (string * (T → json → option T))) k (o : option jdoc) l s s' r set :
  find_field fs (to_valid k) = Some set → match o with Some d => set s (doc_node d) = Some s' | None => s' = s end →
  decode_members fs s' (doc_member <$> l) = r → decode_members fs s (doc_member <$> (opt_member k o ++ l)) = r.
Proof. intros Hf Ho Hr. destruct o as [d|]; cbn [opt_member app]; [by eapply decode_doc_cons|by subst]. Qed.
Lemma sublist_opt k o (l : members) names : l.*1 `sublist_of` names → (opt_member k o ++ l).*1 `sublist_of` k :: names.
Proof. intros Hl. destruct o; cbn; by constructor. Qed.
Lemma sublist_opt_last k o names : (opt_member k o).*1 `sublist_of` k :: names.
Proof. destruct o; cbn; repeat constructor; apply sublist_nil_l. Qed.
Lemma decode_opt_last {T} (fs : list (string * (T → json → option T))) k (o : option jdoc) s s' set :
  find_field fs (to_valid k) = Some set → match o with Some d => set s (doc_node d) = Some s' | None => s' = s end →
  decode_members fs s (doc_member <$> opt_member k o) = Some s'.
Proof. intros Hf Ho. rewrite <-(app_nil_r (opt_member k o)). by eapply decode_opt. Qed.

Ltac setters :=
  repeat first [done | progress cbn
    | match goal with
      | H : ?x = _ |- context [?x] => rewrite H
      | |- context [as_bytes ?j] => destruct (as_bytes j) eqn:?
      | |- context [stream_ref ?o ?j] => destruct (stream_ref o j) eqn:?
      | |- context [decode_struct ?f ?o ?j] => destruct (decode_struct f o j) eqn:?
      | |- context [parse_time ?l] => destruct (parse_time l) eqn:?
      | |- context [as_int ?j] => destruct (as_int j) eqn:?
      | |- context [jvalue ?j] => destruct (jvalue j) eqn:?
      end].
Ltac orderly_fields :=
  split; [intros k f k' g Hf Hg Hk s v w; each_member Hf; each_member Hg; try done;
            unfold ignore_string, ignore_int, ignore_time, set_string, set_int, set_time; setters
         |repeat constructor; (eexists; split; [reflexivity|]); repeat first [apply list_elem_of_here|apply list_elem_of_further]
         |apply (bool_decide_unpack _); vm_compute; exact I
         |repeat constructor].
Section Orders.
#[local] Opaque as_bytes as_int parse_time stream_ref decode_struct.
Lemma stream_orderly : orderly stream_ref_fields.
Proof. orderly_fields. Qed.
Lemma handle_orderly : orderly handle_fields.
Proof. orderly_fields. Qed.
Lemma timings_orderly : orderly timings_fields.
Proof. orderly_fields. Qed.
Lemma result_orderly : orderly result_fields.
Proof. orderly_fields. Qed.
Lemma receipt_orderly : orderly receipt_fields.
Proof. orderly_fields. Qed.
End Orders.

(** The members of a list of known ones are a part of the names of its fields. *)
Ltac known_names :=
  cbn [app fmap list_fmap fst];
  repeat first [apply sublist_nil_l | apply sublist_opt_last | apply sublist_opt | apply sublist_skip | apply sublist_cons | progress cbn [app fmap list_fmap fst]].
Ltac member := eapply decode_doc_cons; [reflexivity| |].
Ltac optional := eapply decode_opt; [reflexivity| |].
Ltac optional_to s' := eapply (decode_opt _ _ _ _ _ s'); [reflexivity| |].

Lemma ignored_int {T} n (x : T) : is_int n → ignore_int x (doc_node (DNum n)) = Some x.
Proof. intros [z Hz]. by apply (reads_int_set n z (λ _ x, x)). Qed.
Lemma ignored_time {T} t (x : T) : is_time t → ignore_time x (doc_node (DStr t)) = Some x.
Proof. intros [z Hz]. by apply (reads_time_set t z (λ _ x, x)). Qed.

Lemma stream_read bytes o :
  ref_written bytes o →
  match o with Some ms => stream_ref None (doc_node (DObj ms)) = Some (Some bytes) | None => bytes = [] end.
Proof.
  destruct o as [ms|]; [|done]. intros (mode & data & size & trunc & Hw & Hs & Ht & ->).
  unfold stream_ref. change (jvalue (doc_node (DObj ms))) with (JObj (doc_member <$> ms)). cbv iota.
  transitivity (Some <$> Some (default [] data)); [|done]. f_equal.
  eapply decode_written; [apply stream_orderly| |exact Hw|]; [known_names|].
  optional; [instantiate (1 := []); by destruct mode|]. optional.
  { instantiate (1 := default [] data). destruct data as [l|]; [|done]. cbn [fmap option_fmap option_map default]. cbv beta.
    change (as_bytes (doc_node (DStr (text (b64_encode l))))) with (b64_decode (chars (to_valid (text (b64_encode l))))).
    by rewrite b64_text_valid, chars_text, b64_roundtrip. }
  optional; [destruct size; [by apply ignored_int|reflexivity]|].
  eapply decode_opt_last; [reflexivity|]. destruct trunc; [by apply ignored_int|done].
Qed.

Lemma handle_read started ms t0 : handle_written started ms → decode_struct handle_fields t0 (doc_node (DObj ms)) = Some started.
Proof.
  intros (hid & cid & aid & cap & t & Hw & Ht). eapply decode_written; [apply handle_orderly| |exact Hw|]; [known_names|].
  do 4 (member; [reflexivity|]). member; [by apply reads_time_set|reflexivity].
Qed.

Lemma timings_read started completed ms p :
  timings_written started completed ms → decode_struct timings_fields p (doc_node (DObj ms)) = Some (started, completed).
Proof.
  intros (sub & st & co & per & Hw & Hsub & Hst & Hco & Hper).
  eapply decode_written; [apply timings_orderly| |exact Hw|]; [known_names|].
  member; [by apply ignored_time|]. member; [by apply reads_time_set|]. member; [by apply reads_time_set|].
  eapply decode_opt_last; [reflexivity|]. destruct per; [by apply ignored_time|done].
Qed.

Lemma result_read status retry out err exit dur completed ms :
  result_written status retry out err exit dur completed ms →
  ∃ o e c, decode_struct result_fields (rcw_Result no_receipt) (doc_node (DObj ms))
             = Some (mkResultWire (to_valid status) (to_valid retry) o e c dur completed) ∧
    default [] o = out ∧ default [] e = err ∧ default 0%Z c = exit.
Proof.
  intros (class & message & outs & errs & code & n & t & Hw & Ho%stream_read & He%stream_read & Hc & Hn & Ht).
  exists (match outs with Some _ => Some out | None => None end), (match errs with Some _ => Some err | None => None end),
    (match code with Some _ => Some exit | None => None end).
  split; [|destruct outs, errs, code; by subst].
  eapply decode_written; [apply result_orderly| |exact Hw|]; [known_names|].
  do 2 (member; [reflexivity|]).
  set (o := match outs with Some _ => Some out | None => None end). set (e := match errs with Some _ => Some err | None => None end).
  set (c := match code with Some _ => Some exit | None => None end).
  pose (w x y z := mkResultWire (to_valid status) (to_valid retry) x y z 0 zeroTime).
  optional_to (w None None None); [by destruct class|]. optional_to (w None None None); [by destruct message|].
  optional_to (w o None None).
  { subst o. destruct outs; [|done]. cbv beta. cbn [fmap option_fmap option_map]. change (rw_Stdout _) with (@None (list ascii)). by rewrite Ho. }
  optional_to (w o e None).
  { subst e. destruct errs; [|done]. cbv beta. cbn [fmap option_fmap option_map]. change (rw_Stderr _) with (@None (list ascii)). by rewrite He. }
  optional_to (w o e c).
  { subst c. destruct code as [n0|]; [|done]. destruct Hc as [_ Hc]. cbn [fmap option_fmap option_map doc_node jvalue].
    change (as_int (Node _ _)) with (as_int (doc_node (DNum n0))). by rewrite Hc. }
  member; [by apply reads_int_set|]. member; [by apply reads_time_set|]. reflexivity.
Qed.

Lemma receipt_read v ms :
  receipt_written v ms → to_receipt <$> decode_struct receipt_fields no_receipt (doc_node (DObj ms)) = Some (read_receipt v).
Proof.
  intros (schema & hs & rs & ts & Hw & Hh & Hr & Ht).
  destruct (result_read _ _ _ _ _ _ _ _ Hr) as (o & e & c & Hres & Ho & He & Hc).
  transitivity (to_receipt <$> Some (mkReceiptWire (to_valid (rv_id v)) (rv_handle_started v)
    (mkResultWire (to_valid (rv_status v)) (to_valid (rv_retry v)) o e c (rv_duration v) (rv_result_completed v)) (rv_started v) (rv_completed v))).
  - f_equal. eapply decode_written; [apply receipt_orderly| |exact Hw|]; [known_names|].
    do 2 (member; [reflexivity|]).
    member; [cbv beta; rewrite (handle_read _ _ _ Hh); reflexivity|].
    member; [cbv beta; cbn [rcw_Result]; rewrite Hres; reflexivity|].
    member; [cbv beta; rewrite (timings_read _ _ _ _ Ht); reflexivity|]. reflexivity.
  - unfold read_receipt, to_receipt. cbn. by rewrite Ho, He, Hc.
Qed.

Section RuntimeCalls.
Context `{UrlParser, Gobreaker} (cfg : HttpConfig) (ctx : option Trace).

(** C34: (receipts) when the runtime service answers 200 with a receipt as
    documented (every member it names, the optional ones given or not, in any
    order, with further members the client does not know, such as the request and
    the provenance), the call gives that receipt: the bytes of the two streams
    that were sent, UTF-8 or not, the status, retry hint, identifier, exit code
    (0 when there is none), duration, and the times of the handle and the result,
    or those of the timings where they are the zero time; one request was sent.
    Where a stream was cut, the size and the place of the cut are read and
    dropped: the receipt is that of the bytes sent. *)
Theorem receipt_crosses_the_wire req cid now env b b1 adapter name version j v ms :
  http_Validate cfg = true → url_ok (String.append (hc_BaseURL cfg) "/api/v1/execute") = true → beforeRequest (ce_start env) b = Some b1 →
  parseCapability (xr_Capability req) = Some (adapter, name, version) → json_parse (xr_Payload req) = JSON j →
  receipt_written v ms → doc_ok (DObj ms) → doc_depth (DObj ms) ≤ N.to_nat maxNestingDepth →
  he_answer (ce_http env) 0 = Response 200 (doc_text (DObj ms)) →
  ∃ sent_request, runtime_Execute cfg ctx req (Some cid) now env b = (afterRequest (ce_finish env) true b1, [Sent sent_request], Ok (read_receipt v)).
Proof.
  intros Hv Hu Hb Hcap Hpay Hr%receipt_read Hok Hdep Ha. unfold runtime_Execute. rewrite Hcap, Hpay.
  destruct (decode_struct receipt_fields no_receipt _) as [w|] eqn:Hw; [|done]. apply (inj Some) in Hr.
  destruct (http_do_ok cfg ctx "POST" "/api/v1/execute"
              (Some (executionRequest cid adapter name version (xr_Payload req) (xr_TimeoutMS req) (xr_IdempotencyKey req) now))
              no_receipt (decode_struct receipt_fields no_receipt) env b b1 200 _ _ w Hv Hu Hb Ha ltac:(lia) ltac:(done) (json_parse_doc _ Hok Hdep) Hw) as (sr & Hdo & _).
  exists sr. unfold PostJSON. rewrite Hdo. unfold after_call. cbn [fst snd result_map result_map_err]. by rewrite Hr.
Qed.
End RuntimeCalls.

(** ** memory/client.go *)

Definition memory_DefaultConfig (baseURL apiKey : string) : HttpConfig :=
  let hb := http_DefaultConfig "memory-engine" baseURL in
  let hb := if str_empty apiKey then hb else with_headers [("X-API-Key"%string, [apiKey])] hb in
  mkHttpConfig (hc_BaseURL hb) (hc_Name hb) (15 * Second) (hc_MaxAttempts hb) (hc_InitialBackoff hb) (hc_MaxBackoff hb) (hc_BackoffMultiplier hb)
    (hc_JitterFraction hb) (hc_CBFailureThreshold hb) (hc_CBTimeoutThreshold hb) (hc_CBOpenDuration hb) (hc_HalfOpenMaxRequests hb) (hc_DefaultHeaders hb) (hc_PropagateTrace hb).

Record MemoryScope := mkScope { sc_TenantID : string; sc_ProjectID : string; sc_RepoID : string; sc_AgentID : string; sc_SessionID : string; sc_Environment : string }.
Record MemoryProvenance := mkProvenance { pv_Source : string; pv_SourceURI : string; pv_Method : string; pv_ParentID : string }.
Record IngestMemoryInput := mkIngest {
  im_Type : string; im_Content : string; im_Summary : string; im_Tags : list string; im_TopicKey : string; im_FTSLanguage : string;
  im_Scope : MemoryScope; im_Provenance : MemoryProvenance; im_ValidFrom : option Time; im_ValidUntil : option Time
}.
Record MemoryRecord := mkMemoryRecord { mr_ID : string; mr_Type : string; mr_Status : string; mr_TopicKey : string; mr_Content : string; mr_CreatedAt : Time }.
Record SearchQuery := mkSearchQuery { sq_Query : string; sq_Scope : MemoryScope; sq_Types : list string; sq_Limit : Z; sq_Offset : Z }.
Record SearchResults := mkSearchResults { srs_Results : list SearchResult; srs_TotalCount : Z; srs_Query : string }.
Record ContextRequest := mkContextRequest { cq_Scope : MemoryScope; cq_Query : string; cq_MaxTokens : Z; cq_IncludeTypes : list string; cq_ExpandGraph : bool }.
Record ContextBundle := mkBundle { cb_Sections : list ContextSection; cb_TotalTokens : Z; cb_Truncated : bool; cb_GeneratedAt : Time }.
Record RecordDecisionInput := mkDecisionInput {
  ri_Title : string; ri_Decision : string; ri_Rationale : string; ri_Scope : MemoryScope; ri_Confidence : float64; ri_Provenance : MemoryProvenance
}.

(** toScopeWire and toProvWire, as JSON. *)
Definition toScopeWire (s : MemoryScope) : list ascii :=
  chars (object_text (opt_field "tenant_id" (sc_TenantID s) ++ [("project_id"%string, quote (sc_ProjectID s))] ++ opt_field "repo_id" (sc_RepoID s) ++
    opt_field "agent_id" (sc_AgentID s) ++ opt_field "session_id" (sc_SessionID s) ++ opt_field "environment" (sc_Environment s))).
Definition toProvWire (p : MemoryProvenance) : list ascii :=
  chars (object_text ([("source"%string, quote (pv_Source p))] ++ opt_field "source_uri" (pv_SourceURI p) ++ [("method"%string, quote (pv_Method p))] ++
    opt_field "parent_id" (pv_ParentID p))).

Definition ingestRequest (i : IngestMemoryInput) : string :=
  object_text ([("type"%string, quote (im_Type i)); ("content"%string, quote (im_Content i))] ++ opt_field "summary" (im_Summary i) ++
    opt_strings "tags" (im_Tags i) ++ opt_field "topic_key" (im_TopicKey i) ++ opt_field "fts_language" (im_FTSLanguage i) ++
    [("scope"%string, toScopeWire (im_Scope i)); ("provenance"%string, toProvWire (im_Provenance i))] ++
    opt_field "valid_from" (from_option RFC3339 EmptyString (im_ValidFrom i)) ++ opt_field "valid_until" (from_option RFC3339 EmptyString (im_ValidUntil i))).
Definition positive_field (k : string) (z : Z) : list (string * list ascii) := if (0 <? z)%Z then [(k, int_text z)] else [].
Definition searchRequest (q : SearchQuery) : string :=
  object_text ([("query"%string, quote (sq_Query q)); ("scope"%string, toScopeWire (sq_Scope q))] ++ opt_strings "types" (sq_Types q) ++
    positive_field "limit" (sq_Limit q) ++ positive_field "offset" (sq_Offset q)).
Definition contextRequest (r : ContextRequest) : string :=
  object_text ([("scope"%string, toScopeWire (cq_Scope r))] ++ opt_field "query" (cq_Query r) ++ positive_field "max_tokens" (cq_MaxTokens r) ++
    opt_strings "include_types" (cq_IncludeTypes r) ++ (if cq_ExpandGraph r then [("expand_graph"%string, bool_text true)] else [])).
Definition archiveRequest (reason requestedBy : string) : string := object_text [("reason"%string, quote reason); ("requested_by"%string, quote requestedBy)].
Definition relationRequest (fromID toID relationType : string) : string :=
  object_text [("from_id"%string, quote fromID); ("to_id"%string, quote toID); ("relation_type"%string, quote relationType)].

(** Responses. *)
Definition ingest_fields : list (string * (string * Time → json → option (string * Time))) :=
  [ ("id"%string, set_string (λ t p, (t, p.2))); ("created_at"%string, set_time (λ t p, (p.1, t))) ].
Definition memory_fields : list (string * (MemoryRecord → json → option MemoryRecord)) :=
  [ ("id"%string, set_string (λ t r, mkMemoryRecord t (mr_Type r) (mr_Status r) (mr_TopicKey r) (mr_Content r) (mr_CreatedAt r)));
    ("type"%string, set_string (λ t r, mkMemoryRecord (mr_ID r) t (mr_Status r) (mr_TopicKey r) (mr_Content r) (mr_CreatedAt r)));
    ("status"%string, set_string (λ t r, mkMemoryRecord (mr_ID r) (mr_Type r) t (mr_TopicKey r) (mr_Content r) (mr_CreatedAt r)));
    ("topic_key"%string, set_string (λ t r, mkMemoryRecord (mr_ID r) (mr_Type r) (mr_Status r) t (mr_Content r) (mr_CreatedAt r)));
    ("content"%string, set_string (λ t r, mkMemoryRecord (mr_ID r) (mr_Type r) (mr_Status r) (mr_TopicKey r) t (mr_CreatedAt r)));
    ("created_at"%string, set_time (λ t r, mkMemoryRecord (mr_ID r) (mr_Type r) (mr_Status r) (mr_TopicKey r) (mr_Content r) t)) ].
Definition no_record : MemoryRecord := mkMemoryRecord "" "" "" "" "" zeroTime.
Definition set_float {S} (put : float64 → S → S) (s : S) (j : json) : option S :=
  match jvalue j with JNull => Some s | JNum v => Some (put v s) | _ => None end.
Definition set_flag {S} (put : bool → S → S) (s : S) (j : json) : option S :=
  match jvalue j with JNull => Some s | JBool v => Some (put v s) | _ => None end.

Definition decode_hit : json → option SearchResult :=
  decode_struct
    [ ("id"%string, set_string (λ t r, mkSearchResult t (sr_RecordType r) (sr_Title r) (sr_Snippet r) (sr_Score r) (sr_Freshness r) (sr_CreatedAt r)));
      ("record_type"%string, set_string (λ t r, mkSearchResult (sr_ID r) t (sr_Title r) (sr_Snippet r) (sr_Score r) (sr_Freshness r) (sr_CreatedAt r)));
      ("title"%string, set_string (λ t r, mkSearchResult (sr_ID r) (sr_RecordType r) t (sr_Snippet r) (sr_Score r) (sr_Freshness r) (sr_CreatedAt r)));
      ("snippet"%string, set_string (λ t r, mkSearchResult (sr_ID r) (sr_RecordType r) (sr_Title r) t (sr_Score r) (sr_Freshness r) (sr_CreatedAt r)));
      ("score"%string, set_float (λ v r, mkSearchResult (sr_ID r) (sr_RecordType r) (sr_Title r) (sr_Snippet r) v (sr_Freshness r) (sr_CreatedAt r)));
      ("freshness"%string, set_string (λ t r, mkSearchResult (sr_ID r) (sr_RecordType r) (sr_Title r) (sr_Snippet r) (sr_Score r) t (sr_CreatedAt r)));
      ("created_at"%string, set_time (λ t r, mkSearchResult (sr_ID r) (sr_RecordType r) (sr_Title r) (sr_Snippet r) (sr_Score r) (sr_Freshness r) t)) ]
    (mkSearchResult "" "" "" "" f64_0 "" zeroTime).
Definition search_fields : list (string * (SearchResults → json → option SearchResults)) :=
  [ ("results"%string, set_list decode_hit (λ l r, mkSearchResults l (srs_TotalCount r) (srs_Query r)));
    ("total_count"%string, set_int (λ n r, mkSearchResults (srs_Results r) n (srs_Query r)));
    ("query"%string, set_string (λ t r, mkSearchResults (srs_Results r) (srs_TotalCount r) t)) ].

Definition decode_context_record : json → option ContextRecord :=
  decode_struct
    [ ("id"%string, set_string (λ t r, mkContextRecord t (cr_Type r) (cr_Content r) (cr_Score r) (cr_Relation r)));
      ("type"%string, set_string (λ t r, mkContextRecord (cr_ID r) t (cr_Content r) (cr_Score r) (cr_Relation r)));
      ("content"%string, set_string (λ t r, mkContextRecord (cr_ID r) (cr_Type r) t (cr_Score r) (cr_Relation r)));
      ("score"%string, set_float (λ v r, mkContextRecord (cr_ID r) (cr_Type r) (cr_Content r) v (cr_Relation r)));
      (* a pointer, whose null is read as the empty relation *)
      ("relation"%string, λ r j, match jvalue j with
                                 | JNull => Some (mkContextRecord (cr_ID r) (cr_Type r) (cr_Content r) (cr_Score r) "")
                                 | _ => set_string (λ t r, mkContextRecord (cr_ID r) (cr_Type r) (cr_Content r) (cr_Score r) t) r j
                                 end) ]
    (mkContextRecord "" "" "" f64_0 "").
Definition decode_section : json → option ContextSection :=
  decode_struct
    [ ("type"%string, set_string (λ t s, mkSection t (cs_Records s) (cs_TokenCount s)));
      ("records"%string, set_list decode_context_record (λ l s, mkSection (cs_Type s) l (cs_TokenCount s)));
      ("token_count"%string, set_int (λ n s, mkSection (cs_Type s) (cs_Records s) n)) ]
    (mkSection "" [] 0).
Definition bundle_fields : list (string * (ContextBundle → json → option ContextBundle)) :=
  [ ("sections"%string, set_list decode_section (λ l c, mkBundle l (cb_TotalTokens c) (cb_Truncated c) (cb_GeneratedAt c)));
    ("total_tokens"%string, set_int (λ n c, mkBundle (cb_Sections c) n (cb_Truncated c) (cb_GeneratedAt c)));
    ("truncated"%string, set_flag (λ v c, mkBundle (cb_Sections c) (cb_TotalTokens c) v (cb_GeneratedAt c)));
    ("generated_at"%string, set_time (λ t c, mkBundle (cb_Sections c) (cb_TotalTokens c) (cb_Truncated c) t)) ].

Inductive memory_error := MemoryNotFound | MemoryInvalidRequest | MemoryCall (e : http_error).
Definition isNotFound (e : http_error) : bool := match e with ErrStatus status _ _ => (status =? 404)%Z | _ => false end.
Definition lookup_error (e : http_error) : memory_error := if isNotFound e then MemoryNotFound else MemoryCall e.

(** The parameters of a lookup, in the order of their keys. *)
Definition opt_param (k v : string) : list (string * string) := if str_empty v then [] else [(k, v)].
Definition topic_params (scope : MemoryScope) (topicKey : string) : list (string * string) :=
  opt_param "agent_id" (sc_AgentID scope) ++ opt_param "environment" (sc_Environment scope) ++ [("project_id"%string, sc_ProjectID scope)] ++
  opt_param "repo_id" (sc_RepoID scope) ++ opt_param "session_id" (sc_SessionID scope) ++ opt_param "tenant_id" (sc_TenantID scope) ++ [("topic_key"%string, topicKey)].
Definition topic_path : string := "/api/v1/memories/by-topic-key?".

Section Memory.
Context `{UrlParser, Gobreaker} (cfg : HttpConfig) (ctx : option Trace) (float_text : float64 → list ascii).

Definition Ingest (i : IngestMemoryInput) (env : call_env) (b : breaker) : breaker * list http_event * result memory_error MemoryRecord :=
  after_call (λ r, result_map (λ p, mkMemoryRecord p.1 (im_Type i) EmptyString (im_TopicKey i) EmptyString p.2) (result_map_err MemoryCall r))
    (PostJSON cfg ctx "/api/v1/memories" (ingestRequest i) (EmptyString, zeroTime) (Some (decode_struct ingest_fields (EmptyString, zeroTime))) env b).

Definition memory_Get (id : string) (env : call_env) (b : breaker) : breaker * list http_event * result memory_error MemoryRecord :=
  after_call (result_map_err lookup_error)
    (GetJSON cfg ctx (String.append "/api/v1/memories/" id) no_record (decode_struct memory_fields no_record) env b).

Definition GetByTopicKey (scope : MemoryScope) (topicKey : string) (env : call_env) (b : breaker) : breaker * list http_event * result memory_error MemoryRecord :=
  if str_empty (sc_ProjectID scope) then (b, [], Err MemoryInvalidRequest)
  else if str_empty topicKey then (b, [], Err MemoryInvalidRequest)
  else after_call (result_map_err lookup_error)
         (GetJSON cfg ctx (String.append topic_path (Encode (topic_params scope topicKey))) no_record (decode_struct memory_fields no_record) env b).

Definition memory_Archive (id reason requestedBy : string) (env : call_env) (b : breaker) : breaker * list http_event * result memory_error unit :=
  after_call (result_map_err MemoryCall)
    (PostJSON cfg ctx (concat_strings ["/api/v1/memories/"; id; "/archive"]%string) (archiveRequest reason requestedBy) tt None env b).

Definition memory_Search (q : SearchQuery) (env : call_env) (b : breaker) : breaker * list http_event * result memory_error SearchResults :=
  after_call (result_map_err MemoryCall)
    (PostJSON cfg ctx "/api/v1/search" (searchRequest q) (mkSearchResults [] 0 EmptyString) (Some (decode_struct search_fields (mkSearchResults [] 0 EmptyString))) env b).

Definition BuildContext (r : ContextRequest) (env : call_env) (b : breaker) : breaker * list http_event * result memory_error ContextBundle :=
  after_call (result_map_err MemoryCall)
    (PostJSON cfg ctx "/api/v1/search/context" (contextRequest r) (mkBundle [] 0 false zeroTime) (Some (decode_struct bundle_fields (mkBundle [] 0 false zeroTime))) env b).

Definition decisionRequest (i : RecordDecisionInput) : string :=
  object_text [("title"%string, quote (ri_Title i)); ("decision"%string, quote (ri_Decision i)); ("rationale"%string, quote (ri_Rationale i));
               ("scope"%string, toScopeWire (ri_Scope i)); ("confidence"%string, float_text (ri_Confidence i)); ("provenance"%string, toProvWire (ri_Provenance i))].
Definition RecordDecision (i : RecordDecisionInput) (env : call_env) (b : breaker) : breaker * list http_event * result memory_error MemoryRecord :=
  after_call (λ r, result_map (λ p, mkMemoryRecord p.1 "decision" EmptyString EmptyString EmptyString p.2) (result_map_err MemoryCall r))
    (PostJSON cfg ctx "/api/v1/decisions" (decisionRequest i) (EmptyString, zeroTime) (Some (decode_struct ingest_fields (EmptyString, zeroTime))) env b).
Definition RecordRelation (fromID toID relationType : string) (env : call_env) (b : breaker) : breaker * list http_event * result memory_error unit :=
  after_call (result_map_err MemoryCall) (PostJSON cfg ctx "/api/v1/relations" (relationRequest fromID toID relationType) tt None env b).

Lemma in_topic_params scope key k v :
  sc_ProjectID scope ≠ EmptyString → key ≠ EmptyString →
  (k, v) ∈ topic_params scope key ↔ v ≠ EmptyString ∧
    ((k = "project_id"%string ∧ v = sc_ProjectID scope) ∨ (k = "topic_key"%string ∧ v = key) ∨ (k = "tenant_id"%string ∧ v = sc_TenantID scope) ∨
     (k = "repo_id"%string ∧ v = sc_RepoID scope) ∨ (k = "agent_id"%string ∧ v = sc_AgentID scope) ∨ (k = "session_id"%string ∧ v = sc_SessionID scope) ∨
     (k = "environment"%string ∧ v = sc_Environment scope)).
Proof.
  intros Hp Hk. assert (Ho : ∀ k' v', (k, v) ∈ opt_param k' v' ↔ v ≠ EmptyString ∧ k = k' ∧ v = v').
  { intros k' v'. unfold opt_param, str_empty. case_bool_decide as He; [rewrite elem_of_nil|rewrite list_elem_of_singleton]; naive_solver. }
  unfold topic_params. rewrite !elem_of_app, !list_elem_of_singleton, !Ho. naive_solver.
Qed.

(** (lookups) a lookup by topic key without a project or a key is refused and
    sends nothing; otherwise each request it sends is a GET whose query, read by a
    server, holds exactly the project, the key and the scope fields that are set,
    whatever characters they contain; it answers "not found" exactly when the
    verdict of the service is 404, so an outage is never taken for absence. *)
Theorem topic_lookup_is_exact scope key env b b' tr r :
  http_Validate cfg = true → url_ok (String.append (hc_BaseURL cfg) (String.append topic_path (Encode (topic_params scope key)))) = true →
  GetByTopicKey scope key env b = (b', tr, r) →
  ((sc_ProjectID scope = EmptyString ∨ key = EmptyString) → b' = b ∧ tr = [] ∧ r = Err MemoryInvalidRequest) ∧
  (sc_ProjectID scope ≠ EmptyString → key ≠ EmptyString →
     (∀ req, req ∈ sent tr → rq_Method req = "GET"%string ∧ ∃ query params, rq_URL req = String.append (hc_BaseURL cfg) (String.append topic_path query) ∧
        ParseQuery query = Some params ∧ ∀ k v, (k, v) ∈ params ↔ v ≠ EmptyString ∧
          ((k = "project_id"%string ∧ v = sc_ProjectID scope) ∨ (k = "topic_key"%string ∧ v = key) ∨ (k = "tenant_id"%string ∧ v = sc_TenantID scope) ∨
           (k = "repo_id"%string ∧ v = sc_RepoID scope) ∨ (k = "agent_id"%string ∧ v = sc_AgentID scope) ∨ (k = "session_id"%string ∧ v = sc_SessionID scope) ∨
           (k = "environment"%string ∧ v = sc_Environment scope))) ∧
     (r = Err MemoryNotFound ↔ sent tr ≠ [] ∧ ∃ body, he_answer (ce_http env) (length (sent tr) - 1) = Response 404 body)).
Proof.
  intros Hv Hu. unfold GetByTopicKey, str_empty. case_bool_decide as Hp; [intros [= <- <- <-]; split; [done|tauto]|].
  case_bool_decide as Hk; [intros [= <- <- <-]; split; [done|tauto]|]. unfold after_call, GetJSON, http_do.
  destruct (guarded_call _ _ _ _ _ _ _) as [[b2 tr2] r2] eqn:Hg. cbn [fst snd]. intros [= <- <- <-]. split; [tauto|intros _ _].
  destruct (guarded_spec _ _ _ _ _ _ _ _ _ _ Hv Hu Hg) as [(_ & -> & -> & ->)|(req & n & Hreq & Hn & Hs & _ & _ & ->)].
  { cbn [sent omap list_omap]. split; [by intros req ?%elem_of_nil|]. split; [done|by intros [? _]]. }
  destruct (buildRequest_spec cfg (call_context cfg ctx (ce_rand env)) "GET" _ EmptyString Hu) as (req' & Hreq' & Hm & Hurl & _ & _).
  cbn [default] in Hreq. rewrite Hreq in Hreq'. injection Hreq' as <-. rewrite Hs. split.
  - intros x [-> _]%elem_of_replicate. split; [done|]. eexists _, _. split; [exact Hurl|]. split; [apply query_roundtrip|]. intros k v. by apply in_topic_params.
  - rewrite length_replicate. replace (S n - 1)%nat with n by lia. split.
    + intros Hr. split; [done|]. destruct (he_answer (ce_http env) n) as [| |s body]; cbn [outcome_of_answer res_Status res_Body] in Hr; [done..|].
      destruct (400 <=? s)%Z; [|by repeat (case_match || case_bool_decide)]. cbn [result_map_err lookup_error isNotFound] in Hr. unfold lookup_error in Hr. cbn [isNotFound] in Hr.
      destruct (Z.eqb_spec s 404) as [->|]; [by exists body|done].
    + intros [_ [body ->]]. done.
Qed.
End Memory.

(** ** webhook/adapter.go *)

Record WebhookConfig := mkWebhookConfig { wh_URL : string; wh_APIKey : string; wh_Timeout : Duration }.
Definition webhook_New (c : WebhookConfig) : WebhookConfig :=
  mkWebhookConfig (wh_URL c) (wh_APIKey c) (if (wh_Timeout c <=? 0)%Z then 5 * Second else wh_Timeout c)%Z.
Inductive webhook_error := ErrDisabled | WebhookBuild | WebhookTransport | WebhookStatus (status : Z).
(** One request, no retry: the relay retries.  An unreadable body is drained and
    ignored. *)
Definition webhook_request (c : WebhookConfig) (payload : string) : Request :=
  let h := header_set [] "Content-Type" "application/json" in
  mkRequest "POST" (wh_URL c) payload (if str_empty (wh_APIKey c) then h else header_set h "X-API-Key" (wh_APIKey c)).
Definition webhook_Deliver `{UrlParser} (c : WebhookConfig) (payload : string) (answer : option Z) : list Request * result webhook_error unit :=
  if str_empty (wh_URL c) then ([], Err ErrDisabled)
  else if negb (url_ok (wh_URL c)) then ([], Err WebhookBuild)
  else ([webhook_request c payload],
        match answer with
        | None => Err WebhookTransport
        | Some status => if (status <? 200)%Z || (300 <=? status)%Z then Err (WebhookStatus status) else Ok tt
        end).

(** ** Calls evaluated *)

Lemma triple_eta {A B C} (x : A * B * C) : x = (x.1.1, x.1.2, x.2).
Proof. by destruct x as [[]]. Qed.

#[local] Existing Instance every_url.
#[local] Existing Instance plain_breaker.

Definition gov_config : GovClientConfig := gov_New (mkGovClientConfig (http_DefaultConfig "governance" "http://gov") "key" 0 (12 * Second)).
Definition status_answer (s : string) : http_answer := Response 200 (doc_text (DObj [("status"%string, DStr s)])).
(** Two polls find the approval pending, the third granted. *)
Definition gov_wait : wait_env :=
  mkWaitEnv (λ i, sample_env 0 [status_answer (if i <? 2 then "pending" else "granted")]) (λ i, (Z.of_nat i * (5 * Second))%Z) (λ _, false).
Definition gov_breaker : breaker := NewCircuitBreaker (mkCbSettings 1 (30 * Second) (readyToTrip (gc_HTTPBase gov_config))).
Lemma approval_wait_ends_witness :
  ∃ b' tr r n bn trn answer, AwaitApproval gov_config None 4 (mkID "C") (mkID "P") 0 gov_wait gov_breaker = (b', tr, Some r) ∧ (n < 4)%nat ∧
    pending gov_config None (approval_path (mkID "C") (mkID "P")) (12 * Second) gov_wait gov_breaker n bn ∧
    poll_status gov_config None (approval_path (mkID "C") (mkID "P")) (we_poll gov_wait n) bn = (b', trn, answer) ∧ verdict (12 * Second) gov_wait n answer r.
Proof.
  apply (approval_wait_ends gov_config None (mkID "C") (mkID "P") 0 gov_wait gov_breaker).
  - reflexivity.
  - discriminate.
  - discriminate.
  - intros i. cbn [we_now gov_wait]. change (gc_ApprovalPollEvery gov_config) with (5 * Second)%Z. lia.
Defined.
Example third_poll_grants : (AwaitApproval gov_config None 4 (mkID "C") (mkID "P") 0 gov_wait gov_breaker).2 = Some (Ok tt).
Proof. vm_compute. reflexivity. Qed.

(** An answer without a body, or with a decision nobody knows, is neither deny nor
    require_approval. *)
Example empty_answer_is_no_denial :
  let ask body := (gov_EvaluatePhase gov_config None (mkID "C") PhaseSpec "t" false (sample_env 0 [Response 200 body]) gov_breaker).2 in
  result_map gd_Decision (ask EmptyString) = Ok (DecisionOther EmptyString) ∧
  result_map gd_Decision (ask (doc_text (DObj [("decision"%string, DStr "DENY")]))) = Ok (DecisionOther "DENY").
Proof. vm_compute. done. Qed.

Definition runtime_config : HttpConfig := runtime_DefaultConfig "http://runtime" "key".
Definition runtime_breaker : breaker := NewCircuitBreaker (mkCbSettings 1 (30 * Second) (readyToTrip runtime_config)).
(** Bytes that are no UTF-8. *)
Definition raw_output : list ascii := [ascii_of_N 255; ascii_of_N 0; "a"%char; ascii_of_N 128].
(** A receipt with the members of the documentation, the version first; the
    handle's start is only in the timings, and standard output was cut. *)
Definition decimal (ds : list ascii) : number := mkNumber false ds [] None.
Definition sample_handle : members :=
  [("handle_id"%string, DStr "h1"); ("correlation_id"%string, DStr "01J"); ("adapter_id"%string, DStr "shell"); ("capability"%string, DStr "shell.exec@v1");
   ("started_at"%string, DStr "0001-01-01T00:00:00Z")].
Definition sample_stdout : members :=
  [("mode"%string, DStr "inline"); ("data"%string, DStr (text (b64_encode raw_output))); ("size_bytes"%string, DNum (decimal ["9"%char]));
   ("truncated_at_byte"%string, DNum (decimal ["4"%char]))].
Definition sample_result : members :=
  [("status"%string, DStr "success"); ("retryable"%string, DStr "unknown"); ("stdout_ref"%string, DObj sample_stdout); ("exit_code"%string, DNum (decimal ["0"%char]));
   ("duration_ms"%string, DNum (decimal ["1"%char; "7"%char])); ("completed_at"%string, DStr "2024-03-01T00:00:00.25Z")].
Definition sample_timings : members :=
  [("submitted_at"%string, DStr "2024-02-29T23:59:58Z"); ("started_at"%string, DStr "2024-02-29T23:59:59Z"); ("completed_at"%string, DStr "2024-03-01T00:00:00.25Z")].
Definition documented_extra : members :=
  [("request"%string, DObj [("payload"%string, DObj [])]); ("provenance"%string, DObj [("host"%string, DStr "a")]); ("created_at"%string, DStr "2024-03-01T00:00:01Z")].
Definition documented_answer : members :=
  [("schema_version"%string, DStr "v1"); ("receipt_id"%string, DStr "r1"); ("handle"%string, DObj sample_handle); ("result"%string, DObj sample_result);
   ("timings"%string, DObj sample_timings)] ++ documented_extra.
Definition at_2024 (secs ns : Z) : Time := ((secs + unixToInternal) * 1000000000 + ns)%Z.
Definition sample_values : receipt_values :=
  mkReceiptValues "r1" "success" "unknown" raw_output [] 0 17 zeroTime (at_2024 1709251200 250000000) (at_2024 1709251199 0) (at_2024 1709251200 250000000).

Lemma written_as_is {T} (fs : list (string * (T → json → option T))) ms : written fs ms ms.
Proof. exists []. split; [by rewrite app_nil_r|constructor]. Qed.
Lemma decimal_ok a ds : dec_digit a = true → Forall (λ d, dec_digit d = true) ds → is_char 48 a = false → number_ok (decimal (a :: ds)).
Proof. intros Ha Hds H48. split; [right; split; [by constructor|by eexists _, _]|]. split; [constructor|exact I]. Qed.
Lemma decimal_zero_ok : number_ok (decimal ["0"%char]).
Proof. split; [by left|]. split; [constructor|exact I]. Qed.
Lemma decimal_reads ds z : number_ok (decimal ds) → as_int (doc_node (DNum (decimal ds))) = Some z → reads_int (decimal ds) z.
Proof. done. Qed.
Lemma sample_stdout_written : stream_written raw_output sample_stdout.
Proof.
  exists (Some "inline"%string), (Some raw_output), (Some (decimal ["9"%char])), (Some (decimal ["4"%char])).
  split; [apply written_as_is|]. split; [|split; [|reflexivity]]; eexists; (apply decimal_reads; [by apply decimal_ok|vm_compute; reflexivity]).
Qed.
Lemma sample_result_written : result_written "success" "unknown" raw_output [] 0 17 (at_2024 1709251200 250000000) sample_result.
Proof.
  exists None, None, (Some sample_stdout), None, (Some (decimal ["0"%char])), (decimal ["1"%char; "7"%char]), "2024-03-01T00:00:00.25Z"%string.
  split; [apply written_as_is|]. split; [apply sample_stdout_written|]. split; [reflexivity|]. split; [|split].
  - by apply decimal_reads; [apply decimal_zero_ok|].
  - by apply decimal_reads; [apply decimal_ok; [|repeat constructor|]|].
  - split; vm_compute; reflexivity.
Qed.
Lemma sample_written : receipt_written sample_values documented_answer.
Proof.
  exists "v1"%string, sample_handle, sample_result, sample_timings. split; [|split; [|split]].
  - exists documented_extra. split; [apply perm_swap|repeat constructor].
  - exists "h1"%string, "01J"%string, "shell"%string, "shell.exec@v1"%string, "0001-01-01T00:00:00Z"%string.
    split; [apply written_as_is|]. split; vm_compute; reflexivity.
  - apply sample_result_written.
  - exists "2024-02-29T23:59:58Z"%string, "2024-02-29T23:59:59Z"%string, "2024-03-01T00:00:00.25Z"%string, None.
    split; [apply written_as_is|]. split; [eexists|split; [|split; [|exact I]]]; (split; vm_compute; reflexivity).
Qed.

Lemma receipt_crosses_the_wire_witness :
  ∃ sent_request, runtime_Execute runtime_config None (health_execution OpenCodeConfig) (Some "01J"%string) zeroTime
      (sample_env 0 [Response 200 (doc_text (DObj documented_answer))]) runtime_breaker
    = (afterRequest Second true runtime_breaker, [Sent sent_request],
       Ok (mkExecReceipt ReceiptSuccess raw_output [] 0 17 "r1" "unknown" (at_2024 1709251199 0) (at_2024 1709251200 250000000))).
Proof.
  destruct (json_parse (xr_Payload (health_execution OpenCodeConfig))) as [t|j] eqn:Hj; [vm_compute in Hj; discriminate Hj|].
  apply (receipt_crosses_the_wire runtime_config None (health_execution OpenCodeConfig) "01J" zeroTime
           (sample_env 0 [Response 200 (doc_text (DObj documented_answer))]) runtime_breaker runtime_breaker "shell" "exec" "v1" j sample_values documented_answer).
  - reflexivity.
  - reflexivity.
  - reflexivity.
  - reflexivity.
  - exact Hj.
  - apply sample_written.
  - repeat first [exact I | apply decimal_zero_ok | (apply decimal_ok; [reflexivity|repeat constructor|reflexivity]) | split].
  - apply Nat.leb_le. vm_compute. reflexivity.
  - reflexivity.
Defined.

Definition memory_config : HttpConfig := memory_DefaultConfig "http://memory" "key".
Definition memory_breaker : breaker := NewCircuitBreaker (mkCbSettings 1 (30 * Second) (readyToTrip memory_config)).
Definition sample_scope : MemoryScope := mkScope "" "p&q=1" "" "" "c 1" "".
Definition sample_lookup := GetByTopicKey memory_config None sample_scope "sdd/a b/tasks" (sample_env 0 [Response 503 "busy"; Response 404 "no"]) memory_breaker.
Lemma topic_lookup_is_exact_witness :
  sample_lookup.2 = Err MemoryNotFound ∧
  (sent sample_lookup.1.2 ≠ [] ∧ ∃ body, he_answer (ce_http (sample_env 0 [Response 503 "busy"; Response 404 "no"])) (length (sent sample_lookup.1.2) - 1) = Response 404 body).
Proof.
  assert (Hr : sample_lookup.2 = Err MemoryNotFound) by (vm_compute; reflexivity). split; [exact Hr|].
  destruct (topic_lookup_is_exact memory_config None sample_scope "sdd/a b/tasks" (sample_env 0 [Response 503 "busy"; Response 404 "no"]) memory_breaker
              sample_lookup.1.1 sample_lookup.1.2 sample_lookup.2 eq_refl eq_refl (triple_eta sample_lookup)) as [_ Hok].
  destruct (Hok ltac:(discriminate) ltac:(discriminate)) as [_ Hiff]. apply Hiff. exact Hr.
Defined.
Example topic_query : Encode (topic_params sample_scope "sdd/a b/tasks") = "project_id=p%26q%3D1&session_id=c+1&topic_key=sdd%2Fa+b%2Ftasks"%string.
Proof. vm_compute. reflexivity. Qed.
