(* ===== verification/Artifacts.v ===== *)
(** * Artifact stores

    [internal/adapters/outbound/artifact]: artifacts of the phases in files under a
    root ([openspec]), in the memory service ([memoryengine]), or in both
    ([hybrid]).  A store is its operations over a state; for the files the state is
    the contents by absolute path, and whether the directory can be made and the
    file written is up to the environment. *)
From S2P Require Import Prelude Ids Utf8 Json GoPath Lines ChangeDomain PriorContext HttpBase Wire Clients.
From stdpp Require Import list gmap strings.
From Stdlib Require Import Ascii.

Record SaveArtifactInput := mkSaveInput {
  sa_TopicKey : string; sa_Type : string; sa_Content : list ascii; sa_ContentType : string; sa_Summary : string; sa_Tags : list string;
  sa_Scope : MemoryScope; sa_Provenance : MemoryProvenance; sa_OpenspecPath : string
}.
Record Artifact := mkArtifact { af_TopicKey : string; af_Content : list ascii; af_ContentType : string }.
Inductive artifact_error := ErrInvalidTopicKey | ErrArtifactNotFound | ErrStoreIO.

Record artifact_store (S : Type) := mkStore {
  st_Mode : string;
  st_Save : SaveArtifactInput → S → S * result artifact_error unit;
  st_Load : string → S → result artifact_error Artifact
}.
Arguments mkStore {S}.
Arguments st_Mode {S}.
Arguments st_Save {S}.
Arguments st_Load {S}.

(** ** openspec/store.go *)

Definition has_prefix_list (pre l : list ascii) : bool := bool_decide (take (length pre) l = pre).
Definition relPathFromTopicKey (topicKey : string) : string :=
  let parts := split_slash (chars topicKey) in
  let bad p := bool_decide (p = []) || bool_decide (p = dot) || bool_decide (p = dotdot) || bool_decide ("\"%char ∈ p) || bool_decide (":"%char ∈ p) in
  match parts with
  | sdd :: change :: _ :: _ =>
      if negb (bool_decide (sdd = chars "sdd")) then EmptyString
      else if existsb bad parts then EmptyString
      else GoPath.Join ["openspec"; "changes"; text change; text (join_on "-" (drop 2 parts) ++ chars ".md")]%string
  | _ => EmptyString
  end.
Definition validateRelPath (rel : string) : option string :=
  let clean := Clean rel in
  if is_rooted (chars clean) || has_prefix_list (dotdot ++ [slash]) (chars clean) || bool_decide (chars clean = dotdot) then None else Some clean.
Definition relPath (i : SaveArtifactInput) : option string :=
  if negb (str_empty (sa_OpenspecPath i)) then validateRelPath (sa_OpenspecPath i)
  else let rel := relPathFromTopicKey (sa_TopicKey i) in if str_empty rel then None else Some rel.

(** The root as New leaves it: [filepath.Abs] of a non-empty path. *)
Definition openspec_New (cwd root : string) : option string :=
  if str_empty root then None else Some (if is_rooted (chars root) then Clean root else GoPath.Join [cwd; root]).
(** The path of an artifact, when it does not leave the root. *)
Definition inside (root rel : string) : option string :=
  let full := GoPath.Join [root; rel] in
  if negb (has_prefix_list (chars root ++ [slash]) (chars full)) && negb (bool_decide (full = root)) then None else Some full.

(** What os.WriteFile does: it truncates the file when it opens it, so a failure
    later leaves a part of the content. *)
Inductive write_answer := WriteDone | OpenFailed | WriteShort (n : nat).

Section Openspec.
Context (root : string) (mkdir_ok : string → bool) (write : string → write_answer).

Definition openspec_Save (i : SaveArtifactInput) (fs : gmap string (list ascii)) : gmap string (list ascii) * result artifact_error unit :=
  match relPath i with
  | None => (fs, Err ErrInvalidTopicKey)
  | Some rel =>
      match inside root rel with
      | None => (fs, Err ErrInvalidTopicKey)
      | Some full =>
          if negb (mkdir_ok full) then (fs, Err ErrStoreIO)
          else match write full with
               | WriteDone => (<[full := sa_Content i]> fs, Ok tt)
               | OpenFailed => (fs, Err ErrStoreIO)
               | WriteShort n => (<[full := take n (sa_Content i)]> fs, Err ErrStoreIO)
               end
      end
  end.
Definition openspec_Load (topicKey : string) (fs : gmap string (list ascii)) : result artifact_error Artifact :=
  let rel := relPathFromTopicKey topicKey in
  if str_empty rel then Err ErrInvalidTopicKey else
  match inside root rel with
  | None => Err ErrInvalidTopicKey
  | Some full =>
      match fs !! full with
      | None => Err ErrArtifactNotFound
      | Some data => Ok (mkArtifact topicKey data (if has_prefix_list (reverse (chars ".json")) (reverse (chars rel)) then "application/json" else "text/markdown"))
      end
  end.
Definition openspec_store : artifact_store (gmap string (list ascii)) := mkStore ArtifactStoreOpenspec openspec_Save openspec_Load.
End Openspec.

(** ** memoryengine/store.go *)

Section MemoryEngine.
Context {M : Type} (ingest : IngestMemoryInput → M → M * bool).
Definition ingest_input (i : SaveArtifactInput) : IngestMemoryInput :=
  let contentType := if str_empty (sa_ContentType i) then "text/markdown"%string else sa_ContentType i in
  mkIngest (sa_Type i) (text (sa_Content i)) (sa_Summary i) (sa_Tags i ++ [String.append "content_type:" contentType]) (sa_TopicKey i) EmptyString
    (sa_Scope i) (sa_Provenance i) None None.
Definition memoryengine_Save (i : SaveArtifactInput) (m : M) : M * result artifact_error unit :=
  if str_empty (sa_TopicKey i) then (m, Err ErrInvalidTopicKey)
  else let '(m, ok) := ingest (ingest_input i) m in (m, if ok then Ok tt else Err ErrStoreIO).
Definition memoryengine_Load (_ : string) (_ : M) : result artifact_error Artifact := Err ErrArtifactNotFound.
Definition memoryengine_store : artifact_store M := mkStore ArtifactStoreMemoryEngine memoryengine_Save memoryengine_Load.
End MemoryEngine.

(** ** hybrid/store.go *)

Section Hybrid.
Context {A B : Type} (primary : artifact_store A) (secondary : artifact_store B).
Definition hybrid_Save (i : SaveArtifactInput) (s : A * B) : (A * B) * result artifact_error unit :=
  match st_Save primary i s.1 with
  | (a, Err e) => ((a, s.2), Err e)
  | (a, Ok _) => let '(b, r) := st_Save secondary i s.2 in ((a, b), r)
  end.
Definition hybrid_Load (topicKey : string) (s : A * B) : result artifact_error Artifact :=
  match st_Load primary topicKey s.1 with
  | Ok x => Ok x
  | Err ErrArtifactNotFound => st_Load secondary topicKey s.2
  | Err e => Err e
  end.
Definition hybrid_store : artifact_store (A * B) := mkStore ArtifactStoreHybrid hybrid_Save hybrid_Load.
End Hybrid.

(** ** Paths stay inside *)

Lemma clean_stack_proper ws stack :
  Forall (λ w, slash ∉ w) ws → Forall proper stack → Forall proper (foldl (clean_step true) stack ws).
Proof.
  revert stack. induction ws as [|w ws IH]; intros stack Hws Hst; [done|]. apply Forall_cons in Hws as [Hw Hws]. cbn [foldl]. apply IH; [done|].
  unfold clean_step. destruct (bool_decide (w = [])) eqn:H1; [done|]. destruct (bool_decide (w = dot)) eqn:H2; [done|]. cbn [orb].
  apply bool_decide_eq_false in H1, H2. case_bool_decide as H3.
  - destruct Hst as [|top stack Htop Hst]; [constructor|]. rewrite bool_decide_eq_false_2 by (by destruct Htop as (_ & _ & ? & _)). done.
  - by constructor.
Qed.
(** A cleaned absolute path is a list of proper components. *)
Lemma clean_proper l : is_rooted l = true → ∃ ws, clean_chars l = slash :: join_slash ws ∧ Forall proper ws.
Proof.
  intros Hr. unfold clean_chars. rewrite Hr. cbv zeta. eexists. split; [reflexivity|]. apply Forall_reverse, clean_stack_proper; [|constructor].
  apply split_on_no_sep.
Qed.
Lemma proper_no_slash ws : Forall proper ws → Forall (λ w, slash ∉ w) ws.
Proof. intros H. eapply Forall_impl; [exact H|]. by intros w (_ & _ & _ & ?). Qed.
Lemma under_prefix rs ws rest :
  rs ≠ [] → Forall proper rs → Forall proper ws → slash :: join_slash ws = (slash :: join_slash rs) ++ slash :: rest → ∃ tail, tail ≠ [] ∧ ws = rs ++ tail.
Proof.
  intros Hne Hrs Hws [= Heq]. destruct ws as [|w ws].
  { cbn in Heq. by destruct (join_slash rs). }
  pose proof (f_equal split_slash Heq) as Hsplit. rewrite split_on_app_sep, !split_join in Hsplit by (done || by apply proper_no_slash).
  exists (split_slash rest). split; [apply split_on_nonempty|done].
Qed.

(** An absolute path by its components. *)
Definition path_of (ws : list (list ascii)) : string := text (slash :: join_slash ws).
Lemma Join_rooted root rel : is_rooted (chars root) = true → ∃ ws, GoPath.Join [root; rel] = path_of ws ∧ Forall proper ws.
Proof.
  intros Hr. cbn [GoPath.Join]. unfold str_empty. rewrite bool_decide_eq_false_2 by (by intros ->). unfold Clean.
  rewrite String.list_ascii_of_string_of_list_ascii. cbn [fmap list_fmap join_slash].
  destruct (clean_proper (String.list_ascii_of_string root ++ slash :: String.list_ascii_of_string rel)) as (ws & Hc & Hp).
  - revert Hr. unfold chars. by destruct (String.list_ascii_of_string root).
  - exists ws. split; [|done]. unfold path_of, text. by rewrite Hc.
Qed.

Lemma has_prefix_list_spec pre l : has_prefix_list pre l = true → ∃ rest, l = pre ++ rest.
Proof. unfold has_prefix_list. intros Hp%bool_decide_eq_true. exists (drop (length pre) l). by rewrite <-Hp at 1; rewrite take_drop. Qed.

Lemma inside_spec rs rel full :
  Forall proper rs → inside (path_of rs) rel = Some full →
  full = path_of rs ∨ ∃ tail, tail ≠ [] ∧ Forall proper tail ∧ full = path_of (rs ++ tail).
Proof.
  intros Hrs. unfold inside. destruct (Join_rooted (path_of rs) rel) as (ws & Hj & Hws); [by unfold path_of; rewrite chars_text|]. rewrite Hj.
  case_bool_decide as Heq; [rewrite andb_false_r; intros [= <-]; by left|]. rewrite andb_true_r.
  destruct (has_prefix_list _ _) eqn:Hp; [|done]. intros [= <-]. right. apply has_prefix_list_spec in Hp as [rest Hp].
  unfold path_of in Hp at 1 2. rewrite !chars_text, <-app_assoc in Hp. cbn [app] in Hp. destruct rs as [|r rs].
  - exfalso. destruct ws as [|w ws]; [done|]. cbn [join_slash app] in Hp. injection Hp as Hp. apply Forall_cons in Hws as [(Hne & _ & _ & Hns) _].
    destruct w as [|a w]; [done|]. apply Hns. destruct ws; cbn in Hp; injection Hp as -> _; apply list_elem_of_here.
  - destruct (under_prefix (r :: rs) ws rest) as (tail & Hne & ->); [done..|]. exists tail. apply Forall_app in Hws as [_ Ht]. done.
Qed.

(** The roots New makes. *)
Lemma openspec_New_root cwd root r : is_rooted (chars cwd) = true → openspec_New cwd root = Some r → ∃ rs, r = path_of rs ∧ Forall proper rs.
Proof.
  intros Hc. unfold openspec_New, str_empty. case_bool_decide; [done|]. destruct (is_rooted (chars root)) eqn:Hr; intros [= <-].
  - destruct (clean_proper _ Hr) as (ws & Hw & Hp). exists ws. split; [|done]. unfold Clean, path_of, text. by rewrite <-Hw.
  - destruct (Join_rooted cwd root Hc) as (ws & Hj & Hp). by exists ws.
Qed.

(** C35: (no escape) whatever topic key or override path it is given, a save changes
    no file but one whose absolute path, in clean components, is the root of the
    store or below it; the file holds the content, or after a failed write a part of
    it. *)
Theorem artifact_writes_stay_inside cwd configured root mkdir_ok write i fs fs' res path :
  is_rooted (chars cwd) = true → openspec_New cwd configured = Some root →
  openspec_Save root mkdir_ok write i fs = (fs', res) → fs' !! path ≠ fs !! path →
  (∃ n, fs' = <[path := take n (sa_Content i)]> fs) ∧ (res = Ok tt → fs' !! path = Some (sa_Content i)) ∧
  ∃ rs tail, root = path_of rs ∧ path = path_of (rs ++ tail) ∧ Forall proper (rs ++ tail).
Proof.
  intros Hc Hnew Hsave Hpath. destruct (openspec_New_root _ _ _ Hc Hnew) as (rs & -> & Hrs). unfold openspec_Save in Hsave.
  destruct (relPath i) as [rel|]; [|by simplify_eq]. destruct (inside (path_of rs) rel) as [full|] eqn:Hin; [|by simplify_eq].
  destruct (mkdir_ok full); cbn [negb] in Hsave; [|by simplify_eq].
  assert (Hfs : ∃ n, fs' = <[full := take n (sa_Content i)]> fs ∧ (res = Ok tt → fs' !! full = Some (sa_Content i))).
  { destruct (write full) as [| |n]; simplify_eq; [exists (length (sa_Content i)); rewrite firstn_all, lookup_insert_eq|exists n]; done. }
  destruct Hfs as (n & -> & Hok). destruct (decide (path = full)) as [->|Hne]; [|by rewrite lookup_insert_ne in Hpath]. split; [by exists n|]. split; [done|].
  destruct (inside_spec rs rel full Hrs Hin) as [->|(tail & _ & Ht & ->)].
  - exists rs, []. rewrite app_nil_r. done.
  - exists rs, tail. split; [done|]. split; [done|]. by apply Forall_app.
Qed.

(** (save, then load) an artifact saved under its topic key in a hybrid store
    over memory and files is loaded back byte for byte, under the same key, although
    the memory side answers no load; keys with another path load as before. *)
Theorem saved_artifact_is_loaded {M} (ingest : IngestMemoryInput → M → M * bool) root mkdir_ok write i m fs s' :
  let store := hybrid_store (memoryengine_store ingest) (openspec_store root mkdir_ok write) in
  sa_OpenspecPath i = EmptyString → st_Save store i (m, fs) = (s', Ok tt) →
  (∃ contentType, st_Load store (sa_TopicKey i) s' = Ok (mkArtifact (sa_TopicKey i) (sa_Content i) contentType)) ∧
  (∃ m', ingest (ingest_input i) m = (m', true)) ∧
  (∀ key, inside root (relPathFromTopicKey key) ≠ inside root (relPathFromTopicKey (sa_TopicKey i)) → st_Load store key s' = st_Load store key (m, fs)).
Proof.
  cbv zeta. intros Ho. cbn [st_Save st_Load hybrid_store]. unfold hybrid_Save, hybrid_Load. cbn [st_Save st_Load memoryengine_store openspec_store fst snd].
  unfold memoryengine_Save. destruct (str_empty (sa_TopicKey i)); [done|]. destruct (ingest (ingest_input i) m) as [m' []]; [|done].
  unfold openspec_Save, relPath. rewrite Ho. cbn [str_empty bool_decide negb]. unfold memoryengine_Load, openspec_Load.
  destruct (str_empty (relPathFromTopicKey (sa_TopicKey i))) eqn:Hrel; [done|]. cbv beta iota.
  change (negb (str_empty EmptyString)) with false. cbv iota. destruct (inside root (relPathFromTopicKey (sa_TopicKey i))) as [full|] eqn:Hin; [|done].
  destruct (mkdir_ok full); [|done]. destruct (write full); [|done..]. cbn [negb]. intros [= <-]. cbn [fst snd]. rewrite lookup_insert_eq.
  split; [by eexists|]. split; [by exists m'|]. intros key Hne. destruct (str_empty (relPathFromTopicKey key)); [done|].
  destruct (inside root (relPathFromTopicKey key)) as [other|]; [|done]. by rewrite lookup_insert_ne by congruence.
Qed.

(** *** Examples *)

Definition sample_artifact (key override : string) : SaveArtifactInput :=
  mkSaveInput key "sdd_spec" (chars "# Spec") "" "" [] (mkScope "" "p" "" "" "" "") (mkProvenance "o" "" "m" "") override.
Definition file_system : gmap string (list ascii) := {[ "/etc/passwd"%string := chars "root" ]}.
Definition save_at (key override : string) := openspec_Save "/srv/repo" (λ _, true) (λ _, WriteDone) (sample_artifact key override) file_system.

Lemma artifact_writes_stay_inside_witness :
  openspec_New "/" "/srv//repo/" = Some "/srv/repo"%string ∧
  ∃ rs tail, "/srv/repo"%string = path_of rs ∧ "/srv/repo/openspec/changes/c1/spec.md"%string = path_of (rs ++ tail) ∧ Forall proper (rs ++ tail).
Proof.
  split; [vm_compute; reflexivity|].
  destruct (artifact_writes_stay_inside "/" "/srv//repo/" "/srv/repo" (λ _, true) (λ _, WriteDone) (sample_artifact "sdd/c1/spec" "") file_system
    (save_at "sdd/c1/spec" "").1 (save_at "sdd/c1/spec" "").2 "/srv/repo/openspec/changes/c1/spec.md") as (_ & _ & H);
    [reflexivity|vm_compute; reflexivity|vm_compute; reflexivity|vm_compute; discriminate|exact H].
Defined.

Lemma saved_artifact_is_loaded_witness :
  ∃ contentType, st_Load (hybrid_store (memoryengine_store (λ (_ : IngestMemoryInput) (n : nat), (S n, true))) (openspec_store "/srv/repo" (λ _, true) (λ _, WriteDone)))
    "sdd/c1/spec" (1%nat, (save_at "sdd/c1/spec" "").1) = Ok (mkArtifact "sdd/c1/spec" (chars "# Spec") contentType).
Proof.
  apply (saved_artifact_is_loaded (λ (_ : IngestMemoryInput) (n : nat), (S n, true)) "/srv/repo" (λ _, true) (λ _, WriteDone)
    (sample_artifact "sdd/c1/spec" "") 0%nat file_system (1%nat, (save_at "sdd/c1/spec" "").1)); [reflexivity|vm_compute; reflexivity].
Defined.

(** Escapes are refused; two keys can name one file. *)
Example hostile_paths :
  ((λ p, (save_at p.1 p.2).2) <$> [("sdd/../etc", ""); ("x", "../../etc/passwd"); ("x", "/etc/passwd"); ("x", "a/../../b")]%string
    = [Err ErrInvalidTopicKey; Err ErrInvalidTopicKey; Err ErrInvalidTopicKey; Err ErrInvalidTopicKey]) ∧
  relPathFromTopicKey "sdd/c1/apply/report" = relPathFromTopicKey "sdd/c1/apply-report".
Proof. vm_compute. done. Qed.
