(* ===== verification/RateGuard.v ===== *)
(** * The sliding-window rate guard

    [internal/application/bootstrap/rateguard.go].  [Allow] holds the mutex for
    its whole body: a run is the sequence of the calls in the order in which they
    took it. *)
From S2P Require Import Prelude.
From stdpp Require Import list sorting.

(** [entries]: per project, the times of the calls still counted, oldest
    first. *)
Abbreviation RateGuard := (gmap string (list Time)).

Section Guard.
Context (limit : Z) (window : Duration).

(** [!t.Before(cutoff)] *)
Definition within (cutoff t : Time) : bool := negb (t <? cutoff)%Z.

Definition trim (now : Time) (calls : list Time) : list Time := filter (λ t, within (now - window) t = true) calls.

Definition Allow (projectID : string) (now : Time) (g : RateGuard) : bool * RateGuard :=
  let valid := trim now (default [] (g !! projectID)) in
  if (limit <=? Z.of_nat (length valid))%Z then (false, <[projectID := valid]> g)
  else (true, <[projectID := valid ++ [now]]> g).

(** The calls [cs] one after the other: the answers, and the guard. *)
Fixpoint allow_run (cs : list (string * Time)) (g : RateGuard) : list bool * RateGuard :=
  match cs with
  | [] => ([], g)
  | c :: cs' =>
      let r := Allow c.1 c.2 g in
      let rest := allow_run cs' r.2 in
      (r.1 :: rest.1, rest.2)
  end.

(** ** The policy it implements

    Everything allowed so far is remembered; a call is allowed when fewer than
    [limit] calls of its project were allowed within the window before it. *)

Definition of_project (p : string) (h : list (string * Time)) : list Time := (filter (λ c, c.1 = p) h).*2.

Definition policy (h : list (string * Time)) (c : string * Time) : bool :=
  (Z.of_nat (length (trim c.2 (of_project c.1 h))) <? limit)%Z.

Fixpoint policy_run (h cs : list (string * Time)) : list bool * list (string * Time) :=
  match cs with
  | [] => ([], h)
  | c :: cs' =>
      let a := policy h c in
      let rest := policy_run (if a then h ++ [c] else h) cs' in
      (a :: rest.1, rest.2)
  end.

(** The guard has forgotten only what the policy no longer counts. *)
Definition remembers (now : Time) (h : list (string * Time)) (g : RateGuard) : Prop :=
  ∀ p t, (now <= t)%Z → trim t (default [] (g !! p)) = trim t (of_project p h).

Lemma trim_trim t t' l : (t <= t')%Z → trim t' (trim t l) = trim t' l.
Proof.
  intros Ht. unfold trim. rewrite list_filter_filter. apply list_filter_iff.
  intros x. unfold within. rewrite !negb_true_iff, !Z.ltb_ge. lia.
Qed.

Lemma trim_app t l1 l2 : trim t (l1 ++ l2) = trim t l1 ++ trim t l2.
Proof. apply filter_app. Qed.

Lemma of_project_snoc p h c : of_project p (h ++ [c]) = of_project p h ++ (if bool_decide (c.1 = p) then [c.2] else []).
Proof.
  unfold of_project. rewrite filter_app, fmap_app, filter_cons, filter_nil. f_equal.
  case_bool_decide; [by rewrite decide_True|by rewrite decide_False].
Qed.

Lemma Allow_policy now h g c :
  remembers now h g → (now <= c.2)%Z →
  (Allow c.1 c.2 g).1 = policy h c ∧ remembers c.2 (if policy h c then h ++ [c] else h) (Allow c.1 c.2 g).2.
Proof.
  intros Hr Hc. unfold Allow, policy. rewrite (Hr c.1 c.2 Hc).
  assert (Hold : ∀ p t, (c.2 <= t)%Z → trim t (default [] ((<[c.1 := trim c.2 (of_project c.1 h)]> g) !! p)) = trim t (of_project p h)).
  { intros p t Ht. destruct (decide (p = c.1)) as [->|Hp].
    - rewrite lookup_insert_eq. by apply trim_trim.
    - rewrite lookup_insert_ne by done. apply Hr. lia. }
  set (k := Z.of_nat _). destruct (Z.leb_spec limit k), (Z.ltb_spec k limit); try lia; (split; [done|]).
  - exact Hold.
  - intros p t Ht. rewrite of_project_snoc, trim_app. destruct (decide (p = c.1)) as [->|Hp].
    + cbn [snd]. rewrite lookup_insert_eq, bool_decide_eq_true_2 by done. cbn [from_option id]. rewrite trim_app.
      f_equal. by apply trim_trim.
    + cbn [snd]. rewrite lookup_insert_ne, bool_decide_eq_false_2 by done. rewrite app_nil_r. apply Hr. lia.
Qed.

(** The clock does not go back. *)
Definition ordered (cs : list (string * Time)) : Prop := StronglySorted Z.le cs.*2.

Lemma ordered_cons c cs : ordered (c :: cs) → ordered cs ∧ Forall (λ c', c.2 <= c'.2)%Z cs.
Proof. intros [Ho Hle]%StronglySorted_inv. split; [done|]. exact (proj1 (Forall_fmap snd (Z.le c.2) cs) Hle). Qed.

Lemma allow_run_policy now h g cs :
  remembers now h g → Forall (λ c, now <= c.2)%Z cs → ordered cs →
  (allow_run cs g).1 = (policy_run h cs).1.
Proof.
  revert now h g. induction cs as [|c cs IH]; intros now h g Hr Hnow Ho; [done|].
  apply Forall_cons in Hnow as [Hc _]. apply ordered_cons in Ho as [Ho Hle].
  destruct (Allow_policy now h g c Hr Hc) as [Ha Hr']. cbn [allow_run policy_run fst]. rewrite Ha. f_equal.
  eapply IH; [exact Hr'|exact Hle|exact Ho].
Qed.

(** ** The bound *)

(** How many calls of [p] in [h] fall into the window that starts at [a]. *)
Definition in_window (a : Time) (p : string) (h : list (string * Time)) : nat :=
  length (filter (λ t, a <= t <= a + window)%Z (of_project p h)).

Lemma filter_weaken {A} (P Q : A → Prop) `{∀ x, Decision (P x), ∀ x, Decision (Q x)} l :
  (∀ x, P x → Q x) → length (filter P l) <= length (filter Q l).
Proof.
  intros HPQ. induction l as [|x l IH]; [done|]. rewrite !filter_cons.
  repeat case_decide; cbn [length]; try lia. naive_solver.
Qed.

Lemma policy_run_bound h cs p a :
  Forall (λ c, ∀ x, x ∈ h → x.2 <= c.2)%Z cs → ordered cs →
  (Z.of_nat (in_window a p h) <= Z.max 0 limit)%Z →
  (Z.of_nat (in_window a p (policy_run h cs).2) <= Z.max 0 limit)%Z.
Proof.
  revert h. induction cs as [|c cs IH]; intros h Hle Ho Hb; [done|].
  apply Forall_cons in Hle as [Hc Hcs]. apply ordered_cons in Ho as [Ho Hs].
  cbn [policy_run snd]. destruct (policy h c) eqn:Hp; apply IH; try done.
  - rewrite Forall_forall in Hcs, Hs |- *. intros c' Hin x [Hx| ->%list_elem_of_singleton]%elem_of_app; [by apply Hcs|by apply Hs].
  - unfold in_window. rewrite of_project_snoc, filter_app, length_app. case_bool_decide as Hq; [|simpl; unfold in_window in Hb; lia].
    rewrite filter_cons, filter_nil. case_decide as Hw; cbn [length]; [|unfold in_window in Hb; lia].
    unfold policy in Hp. rewrite Hq in Hp. apply Z.ltb_lt in Hp.
    assert (Hf : length (filter (λ t, a <= t <= a + window)%Z (of_project p h)) <= length (trim c.2 (of_project p h))).
    { apply filter_weaken. intros t Ht. unfold within. rewrite negb_true_iff, Z.ltb_ge. lia. }
    lia.
Qed.

(** The calls that were allowed. *)
Fixpoint granted (answers : list bool) (cs : list (string * Time)) : list (string * Time) :=
  match answers, cs with
  | true :: answers', c :: cs' => c :: granted answers' cs'
  | false :: answers', _ :: cs' => granted answers' cs'
  | _, _ => []
  end.

Lemma policy_run_granted h cs : (policy_run h cs).2 = h ++ granted (policy_run h cs).1 cs.
Proof.
  revert h. induction cs as [|c cs IH]; intros h; cbn [policy_run fst snd granted]; [by rewrite app_nil_r|].
  rewrite IH. destruct (policy h c); [|done]. by rewrite <-app_assoc.
Qed.
End Guard.

(** C24: (the quota) over any sequence of calls whose times do not go back, the
    guard, which keeps only the calls of the current window, gives the same
    answers as the policy that remembers every call ever allowed and allows one
    when fewer than [limit] of its project's lie within the window before it; and
    no window of that length, wherever it starts, ever holds more than [limit]
    allowed calls of one project. *)
Theorem rate_guard_is_sliding_window limit window cs :
  ordered cs →
  let answers := (allow_run limit window cs ∅).1 in
  answers = (policy_run limit window [] cs).1 ∧
  ∀ p a, (Z.of_nat (in_window window a p (granted answers cs)) <= Z.max 0 limit)%Z.
Proof.
  intros Ho. cbv zeta.
  assert (Heq : (allow_run limit window cs ∅).1 = (policy_run limit window [] cs).1).
  { destruct cs as [|c cs]; [done|]. destruct (ordered_cons c cs Ho) as [_ Hle].
    apply (allow_run_policy limit window c.2); [by intros p t _; rewrite lookup_empty| |done].
    by constructor. }
  split; [done|]. intros p a. rewrite Heq. change (granted _ cs) with ([] ++ granted (policy_run limit window [] cs).1 cs).
  rewrite <-policy_run_granted. apply policy_run_bound; [|done|vm_compute; by destruct limit].
  apply Forall_forall. intros c _ x Hx. by apply elem_of_nil in Hx.
Qed.

Lemma rate_guard_is_sliding_window_witness :
  ordered [("p", 0); ("p", 5); ("q", 6); ("p", 9); ("p", 11)]%Z ∧
  (allow_run 2 10 [("p", 0); ("p", 5); ("q", 6); ("p", 9); ("p", 11)]%Z ∅).1 = [true; true; true; false; true] ∧
  (Z.of_nat (in_window 10 1 "p" (granted [true; true; true; false; true]
     [("p", 0); ("p", 5); ("q", 6); ("p", 9); ("p", 11)]%Z)) <= 2)%Z.
Proof.
  assert (Ho : ordered [("p", 0); ("p", 5); ("q", 6); ("p", 9); ("p", 11)]%Z)
    by (unfold ordered; cbn; repeat (apply SSorted_nil || apply SSorted_cons || apply Forall_nil_2 || apply Forall_cons_2 || lia)).
  split; [done|]. destruct (rate_guard_is_sliding_window 2 10 _ Ho) as [_ Hb]. specialize (Hb "p"%string 1%Z).
  vm_compute in Hb |- *. done.
Defined.
