(* ===== verification/Bootstrap.v ===== *)
(** * The bootstrap trigger

    [internal/application/bootstrap/service.go]: after the init phase, import
    documentation for a repository that is new or whose framework has moved on by
    a major version. *)
From S2P Require Import Prelude Ids Json Envelope PhaseDomain ChangeDomain ApplyDomain Session Outbox Store BoardStore GoPath Effects Concurrency Floats Lines SkillDomain SkillStore SkillMatch RateGuard Importer.
From stdpp Require Import list pretty.

(** outbound.LibraryEntry *)
Record LibraryEntry := mkEntry { le_ID : string; le_Snippets : Z; le_Score : float64; le_IsMain : bool }.

(** ** Effects: the skill tables, the guard, and the documentation provider *)

Inductive bop : Type → Type :=
  | BSk {R} (e : skop R) : bop R
  | BAllow (projectID : string) : bop bool
  | BResolve (framework query : string) : bop (option (list LibraryEntry))
  | BGetDocs (libraryID query topic : string) (tokens : Z) : bop (option DocsResult).
Abbreviation bprog := (free bop).
Definition bs {R} (e : bop R) : bprog R := Do e Ret.

(** A program over the skill tables is one over all of them. *)
Fixpoint on_skills {A} (m : skprog A) : bprog A :=
  match m with
  | Ret a => Ret a
  | Do e k => Do (BSk e) (λ r, on_skills (k r))
  end.

Section Service.
Context `{UnicodeTables} `{UlidLib}.

(** ServiceDeps, as NewService leaves them. *)
Record ServiceDeps := mkDeps { d_Docs : bool; d_Rate : bool; d_MinSnippets : Z; d_Budget : Z }.
Definition NewService (d : ServiceDeps) : ServiceDeps :=
  mkDeps (d_Docs d) (d_Rate d) (if (d_MinSnippets d <=? 0)%Z then 50 else d_MinSnippets d) (d_Budget d).

Context (D : ServiceDeps).

(** The entry with the highest score, the first of those. *)
Definition better (best : option LibraryEntry) (e : LibraryEntry) : option LibraryEntry :=
  match best with
  | None => Some e
  | Some b => if f64_ltb (le_Score b) (le_Score e) then Some e else Some b
  end.

Definition selectEntry (entries : list LibraryEntry) : option string :=
  let mainEntry := foldl better None (filter (λ e, le_IsMain e = true) entries) in
  let versionEntry := foldl better None (filter (λ e, le_IsMain e = false) entries) in
  let fat e := match e with Some e => (d_MinSnippets D <=? le_Snippets e)%Z | None => false end in
  if fat versionEntry then le_ID <$> versionEntry
  else if fat mainEntry then le_ID <$> mainEntry
  else None.

(** [fmt.Sprintf("stack/%s-%s", fwLower, major)] *)
Definition stack_name (fwLower major : string) : string :=
  String.append "stack/" (String.append fwLower (String.append "-" major)).

Definition runImport (fw version : string) : bprog unit :=
  let fwLower := ToLower fw in
  let! entries := bs (BResolve fwLower "best practices") in
  match entries with
  | None => Ret tt
  | Some entries =>
      match selectEntry entries with
      | None => Ret tt
      | Some selectedID =>
          let! result := bs (BGetDocs selectedID "best practices" "" 8000) in
          match result with
          | None => Ret tt
          | Some r =>
              do! on_skills (ImportDocs (d_Budget D) (stack_name fwLower (extractMajor version)) version fwLower r) in
              Ret tt
          end
      end
  end.

(** What the active skills say: the first with a usable baseline decides. *)
Fixpoint drifts (fwLower version : string) (actives : list Skill) : bool :=
  match actives with
  | [] => false
  | active :: actives' =>
      match aw_FrameworkMinVersion (sk_appliesWhen active) !! fwLower with
      | None => drifts fwLower version actives'
      | Some minVersion =>
          if str_empty minVersion then drifts fwLower version actives'
          else match MajorOf minVersion with
               | None => drifts fwLower version actives'
               | Some _ => DriftsForward version minVersion
               end
      end
  end.

Definition runDriftCheck (fw version : string) : bprog unit :=
  let fwLower := ToLower fw in
  match MajorOf version with
  | None => Ret tt
  | Some detectedMajorInt =>
      if (detectedMajorInt <=? 1)%Z then Ret tt else
      let! actives := on_skills (sk (SkActiveByName (stack_name fwLower (pretty (detectedMajorInt - 1)%Z)))) in
      match actives with
      | Err _ => Ret tt
      | Ok actives => if drifts fwLower version actives then runImport fw version else Ret tt
      end
  end.

Definition TriggerIfNeeded (sc : StructuralContext) : bprog unit :=
  if negb (d_Docs D) then Ret tt else
  let! allowed := (if d_Rate D then bs (BAllow (st_ProjectID sc)) else Ret true) in
  if negb allowed then Ret tt else
  if st_Greenfield sc then each (λ fw, runImport (fw_Name fw) (fw_Version fw)) (st_Frameworks sc)
  else each (λ fw, runDriftCheck (fw_Name fw) (fw_Version fw)) (st_Frameworks sc).
End Service.

(** ** Running *)

Record bworld := mkBWorld { bw_db : skill_db; bw_guard : RateGuard }.

Record benv := mkBEnv {
  be_sk : skenv;
  be_limit : Z;
  be_window : Duration;
  be_resolve : nat → string → option (list LibraryEntry);
  be_docs : nat → string → option DocsResult
}.

Section Exec.
Context `{Collation}.

Definition bperform (E : benv) {R} (e : bop R) (n : nat) (w : bworld) : R * bworld :=
  match e with
  | BSk e => let '(r, d) := skperform (be_sk E) e n (bw_db w) in (r, mkBWorld d (bw_guard w))
  | BAllow p =>
      let '(r, g) := Allow (be_limit E) (be_window E) p (se_clock (be_sk E) n) (bw_guard w) in (r, mkBWorld (bw_db w) g)
  | BResolve fw _ => (be_resolve E n fw, w)
  | BGetDocs i _ _ _ => (be_docs E n i, w)
  end.

Fixpoint bexec (E : benv) {A} (m : bprog A) (n : nat) (w : bworld) : A * nat * bworld :=
  match m with
  | Ret a => (a, n, w)
  | Do e k => let '(r, w') := bperform E e n w in bexec E (k r) (S n) w'
  end.

Lemma bexec_bind E {A B} (m : bprog A) (f : A → bprog B) n w :
  bexec E (prog_bind m f) n w = let '(a, n', w') := bexec E m n w in bexec E (f a) n' w'.
Proof.
  revert n w. induction m as [a|R e k IH]; intros n w; simpl; [done|].
  destruct (bperform E e n w) as [r w']. apply IH.
Qed.

(** [I] holds throughout [m], and [Q] of its answer. *)
Definition bkeeps (E : benv) (I : skill_db → Prop) {A} (m : bprog A) (Q : A → Prop) : Prop :=
  ∀ n w, I (bw_db w) → let '(a, _, w') := bexec E m n w in I (bw_db w') ∧ Q a.

Lemma bkeeps_ret E I {A} (a : A) (Q : A → Prop) : Q a → bkeeps E I (Ret a) Q.
Proof. intros Ha n w Hw. by split. Qed.

Lemma bkeeps_bind E I {A B} (m : bprog A) (f : A → bprog B) P Q :
  bkeeps E I m P → (∀ a, P a → bkeeps E I (f a) Q) → bkeeps E I (prog_bind m f) Q.
Proof.
  intros Hm Hf n w Hw. rewrite bexec_bind. specialize (Hm n w Hw).
  destruct (bexec E m n w) as [[a n'] w']. destruct Hm as [Hw' Ha]. by apply Hf.
Qed.

Lemma bkeeps_each E I {A} (f : A → bprog unit) l :
  (∀ x, x ∈ l → bkeeps E I (f x) (λ _, True)) → bkeeps E I (each f l) (λ _, True).
Proof.
  induction l as [|x l IH]; intros Hf; [by apply bkeeps_ret|]. eapply bkeeps_bind; [apply Hf; by left|].
  intros _ _. apply IH. intros y Hy. apply Hf. by right.
Qed.

Lemma bkeeps_weaken E I {A} (m : bprog A) (P Q : A → Prop) : bkeeps E I m P → (∀ a, P a → Q a) → bkeeps E I m Q.
Proof.
  intros Hm HPQ n w Hw. specialize (Hm n w Hw). destruct (bexec E m n w) as [[a n'] w'].
  destruct Hm. auto.
Qed.

(** One effect. *)
Lemma bkeeps_bs E I {R} (e : bop R) (Q : R → Prop) :
  (∀ n w, I (bw_db w) → let '(r, w') := bperform E e n w in I (bw_db w') ∧ Q r) → bkeeps E I (bs e) Q.
Proof.
  intros He n w Hw. specialize (He n w Hw). unfold bs. cbn [bexec].
  by destruct (bperform E e n w).
Qed.
End Exec.

(** ** What a trigger may add *)

Section Trigger.
Context `{UnicodeTables} `{UlidLib} `{Collation}.
Context (D : ServiceDeps) (E : benv).

(** The repository is new, or the framework has moved past what an active skill
    for the major version before was made for. *)
Definition import_due (sc : StructuralContext) (d : skill_db) (fw : FrameworkInfo) : Prop :=
  st_Greenfield sc = true ∨
  ∃ id active detected minVersion baseline,
    sd_skills d !! id = Some active ∧ sk_status active = SkillActive ∧
    MajorOf (fw_Version fw) = Some detected ∧ (2 <= detected)%Z ∧
    sk_name active = stack_name (ToLower (fw_Name fw)) (pretty (detected - 1)%Z) ∧
    aw_FrameworkMinVersion (sk_appliesWhen active) !! ToLower (fw_Name fw) = Some minVersion ∧
    MajorOf minVersion = Some baseline ∧ (baseline < detected)%Z.

(** A skill a trigger may add to [d]. *)
Definition import_for (sc : StructuralContext) (d : skill_db) (s : Skill) : Prop :=
  ∃ fw r id now, fw ∈ st_Frameworks sc ∧ import_due sc d fw ∧
    imported_skill (d_Budget D) now id (stack_name (ToLower (fw_Name fw)) (extractMajor (fw_Version fw)))
      (fw_Version fw) (ToLower (fw_Name fw)) r = Ok s.

Record extended (sc : StructuralContext) (d d' : skill_db) : Prop := {
  ex_kept : ∀ id s, sd_skills d !! id = Some s → sd_skills d' !! id = Some s;
  ex_new : ∀ id s, sd_skills d' !! id = Some s → sd_skills d !! id = Some s ∨ import_for sc d s;
  ex_rest : (sd_usage d', sd_runs d', sd_phases d', sd_board d') = (sd_usage d, sd_runs d, sd_phases d, sd_board d)
}.

Lemma imported_skill_status budget now id name version fw r s :
  imported_skill budget now id name version fw r = Ok s →
  sk_status s = SkillCandidate ∧ sk_activationSource s = SourceImported.
Proof.
  unfold imported_skill, Skill_New, applyLifecycleDefaults. cbv zeta. intros Hs.
  destruct (canonicalizePhases _); [|done]. destruct (validateCore _ _ _); [done|].
  destruct (validateLifecycle _); [done|]. by simplify_eq/=.
Qed.

Lemma extended_insert sc d0 d s : extended sc d0 d → import_for sc d0 s →
  ∀ f, extended sc d0 (sk_write f (skill_InsertIfAbsent s (sd_skills d)) (put_skills d) d).2.
Proof.
  intros Hd Hs f. assert (Hput : ∀ m, skill_InsertIfAbsent s (sd_skills d) = Ok m → extended sc d0 (put_skills d m)).
  { intros m. unfold skill_InsertIfAbsent. destruct (negb _); [done|]. destruct Hd as [Hk Hn Hr].
    destruct (find_version _ _); [intros [= <-]; by split|].
    destruct (sd_skills d !! sk_id s) eqn:Hid; [done|]. intros [= <-]. split; [| |done]; cbn.
    - intros id x Hx. rewrite lookup_insert_ne; [by apply Hk|]. intros <-. apply Hk in Hx. congruence.
    - intros id x [[<- <-]|[_ Hx]]%lookup_insert_Some; [by right|by apply Hn]. }
  unfold sk_write. destruct f, (skill_InsertIfAbsent s (sd_skills d)); cbn [snd]; auto.
Qed.

Abbreviation keeps_ext sc d0 m := (bkeeps E (extended sc d0) m (λ _, True)).

Lemma ext_effect sc d0 {R} (e : bop R) :
  match e with BSk e => sk_writes e = false | _ => True end → keeps_ext sc d0 (bs e).
Proof.
  intros He. apply bkeeps_bs. intros n w Hw. destruct e; cbn [bperform]; try done.
  - by destruct e.
  - by destruct (Allow _ _ _ _ _).
Qed.

Lemma ext_import sc d0 fw r : fw ∈ st_Frameworks sc → import_due sc d0 fw →
  keeps_ext sc d0 (on_skills (ImportDocs (d_Budget D) (stack_name (ToLower (fw_Name fw)) (extractMajor (fw_Version fw)))
    (fw_Version fw) (ToLower (fw_Name fw)) r)).
Proof.
  intros Hfw Hdue n w Hw. unfold ImportDocs, ImportFromDocs, sk. cbn [prog_bind on_skills bexec bperform skperform].
  destruct (ParseID SkillK _) as [id|]; cbn [prog_bind on_skills bexec]; [|by split].
  destruct (imported_skill _ _ _ _ _ _ _) as [s|] eqn:Hs; cbn [prog_bind on_skills bexec]; [|by split].
  cbn [bperform skperform]. pose proof (extended_insert sc d0 _ s Hw) as Hi.
  assert (Himp : import_for sc d0 s) by (by exists fw, r, id, (se_clock (be_sk E) n)). specialize (Hi Himp (se_fault (be_sk E) (S (S n)))).
  cbn [bw_db] in *. destruct (sk_write _ _ _ _) as [e d']. by split.
Qed.

Lemma ext_runImport sc d0 fw : fw ∈ st_Frameworks sc → import_due sc d0 fw →
  keeps_ext sc d0 (runImport D (fw_Name fw) (fw_Version fw)).
Proof.
  intros Hfw Hdue. unfold runImport. eapply bkeeps_bind; [by apply ext_effect|].
  intros [entries|] _; [|by apply bkeeps_ret]. destruct (selectEntry D entries); [|by apply bkeeps_ret].
  eapply bkeeps_bind; [by apply ext_effect|]. intros [r|] _; [|by apply bkeeps_ret].
  eapply bkeeps_bind; [by apply ext_import|]. intros _ _. by apply bkeeps_ret.
Qed.

(** Skills that are active now were active before: what is added is not. *)
Lemma ext_actives sc d0 name :
  bkeeps E (extended sc d0) (on_skills (sk (SkActiveByName name))) (λ r, ∀ l s, r = Ok l → s ∈ l →
    ∃ id, sd_skills d0 !! id = Some s ∧ sk_status s = SkillActive ∧ sk_name s = name).
Proof.
  intros n w Hw. unfold sk. cbn [on_skills bexec bperform skperform]. split; [done|]. intros l s Hl Hin.
  assert (Hl' : l = skill_ActiveByName name (sd_skills (bw_db w))) by (destruct (se_fault _ _); by simplify_eq/=).
  subst l. unfold skill_ActiveByName, skill_rows in Hin. apply list_elem_of_filter in Hin as [Hact Hin].
  apply andb_true_iff in Hact as [Hname%bool_decide_eq_true Hact%bool_decide_eq_true].
  apply list_elem_of_fmap in Hin as ([id s'] & -> & Hin%elem_of_map_to_list). cbn [snd] in *.
  destruct (ex_new _ _ _ Hw _ _ Hin) as [Hold|(fw & r & id' & now & _ & _ & Hs)]; [by exists id|].
  apply imported_skill_status in Hs as [Hs _]. congruence.
Qed.

Lemma drifts_true fwLower version actives :
  drifts fwLower version actives = true →
  ∃ s minVersion baseline detected, s ∈ actives ∧ aw_FrameworkMinVersion (sk_appliesWhen s) !! fwLower = Some minVersion ∧
    MajorOf minVersion = Some baseline ∧ MajorOf version = Some detected ∧ (baseline < detected)%Z.
Proof.
  induction actives as [|s actives IH]; [done|]. cbn [drifts]. intros Hd.
  assert (Hrest : drifts fwLower version actives = true → ∃ s' minVersion baseline detected, s' ∈ s :: actives ∧
    aw_FrameworkMinVersion (sk_appliesWhen s') !! fwLower = Some minVersion ∧
    MajorOf minVersion = Some baseline ∧ MajorOf version = Some detected ∧ (baseline < detected)%Z).
  { intros (s' & v & b & x & Hin & ?)%IH. exists s', v, b, x. split; [by right|done]. }
  destruct (aw_FrameworkMinVersion _ !! _) as [v|] eqn:Hv; [|auto]. destruct (str_empty v); [auto|].
  destruct (MajorOf v) as [b|] eqn:Hb; [|auto]. unfold DriftsForward in Hd. rewrite Hb in Hd.
  destruct (MajorOf version) as [x|] eqn:Hx; [|done]. apply Z.ltb_lt in Hd.
  exists s, v, b, x. split_and!; [by left|done|done|done|done].
Qed.

Lemma ext_runDriftCheck sc d0 fw : fw ∈ st_Frameworks sc →
  keeps_ext sc d0 (runDriftCheck D (fw_Name fw) (fw_Version fw)).
Proof.
  intros Hfw. unfold runDriftCheck. destruct (MajorOf (fw_Version fw)) as [m|] eqn:Hm; [|by apply bkeeps_ret].
  destruct (Z.leb_spec m 1); [by apply bkeeps_ret|]. eapply bkeeps_bind; [apply ext_actives|].
  intros [l|e] Hl; [|by apply bkeeps_ret]. destruct (drifts _ _ l) eqn:Hd; [|by apply bkeeps_ret].
  apply ext_runImport; [done|]. apply drifts_true in Hd as (s & v & b & x & Hin & Hv & Hb & Hx & Hlt).
  destruct (Hl l s eq_refl Hin) as (id & Hs & Hact & Hname). right.
  assert (x = m) as -> by congruence. exists id, s, m, v, b. split_and!; try done. lia.
Qed.

Lemma ext_trigger sc d0 : keeps_ext sc d0 (TriggerIfNeeded D sc).
Proof.
  unfold TriggerIfNeeded. destruct (negb (d_Docs D)); [by apply bkeeps_ret|].
  eapply (bkeeps_bind _ _ _ _ (λ _, True)).
  { destruct (d_Rate D); [by apply ext_effect|by apply bkeeps_ret]. }
  intros allowed _. destruct (negb allowed); [by apply bkeeps_ret|].
  destruct (st_Greenfield sc) eqn:Hg; apply bkeeps_each; intros fw Hfw.
  - apply ext_runImport; [done|by left].
  - by apply ext_runDriftCheck.
Qed.

(** (a trigger only adds candidates) whatever the documentation provider
    answers and whatever faults the database has, a bootstrap trigger changes no
    skill there is and nothing else; each skill it adds is an imported candidate,
    built for a detected framework and its version; and unless the context is
    marked as a new repository, there was, for that framework, an active skill for
    the major version before whose baseline is behind the detected major.  For a
    context marked as the detector marks it - new when neither frameworks nor
    languages were found - a new repository therefore gets no skill at all. *)
Theorem bootstrap_only_adds_candidates sc n w :
  let '(_, _, w') := bexec E (TriggerIfNeeded D sc) n w in
  let d := bw_db w in let d' := bw_db w' in
  (∀ id s, sd_skills d !! id = Some s → sd_skills d' !! id = Some s) ∧
  (sd_usage d', sd_runs d', sd_phases d', sd_board d') = (sd_usage d, sd_runs d, sd_phases d, sd_board d) ∧
  (∀ id s, sd_skills d' !! id = Some s → sd_skills d !! id = None →
     sk_status s = SkillCandidate ∧ sk_activationSource s = SourceImported ∧ import_for sc d s) ∧
  (st_Greenfield sc = is_nil (st_Frameworks sc) && is_nil (st_Languages sc) → st_Greenfield sc = true → d' = d).
Proof.
  pose proof (ext_trigger sc (bw_db w) n w) as He. destruct (bexec E (TriggerIfNeeded D sc) n w) as [[u n'] w'] eqn:Hx.
  destruct He as [[Hk Hn Hr] _]; [split; auto|]. split_and!; [done|done| |].
  - intros id s Hs Hnone. destruct (Hn _ _ Hs) as [?|Himp]; [congruence|].
    pose proof Himp as (fw & r & id' & now & _ & _ & Hi). by apply imported_skill_status in Hi as [? ?].
  - intros Hmark Hg. rewrite Hg in Hmark. symmetry in Hmark. apply andb_true_iff in Hmark as [Hf _].
    apply is_nil_true in Hf. unfold TriggerIfNeeded in Hx. rewrite Hg, Hf in Hx.
    destruct (negb (d_Docs D)); [by simplify_eq/=|]. destruct (d_Rate D); cbn [prog_bind bs bexec bperform] in Hx.
    + destruct (Allow _ _ _ _ _) as [[] g]; cbn [negb each bexec] in Hx; by simplify_eq/=.
    + by simplify_eq/=.
Qed.
End Trigger.
