(* ===== verification/SeedSkills.v ===== *)
(** * The seeded skills

    [internal/bootstrap/seed_skills.go]: one skill per phase, upserted at every
    start of the process. *)
From S2P Require Import Prelude Ids Json Envelope PhaseDomain ChangeDomain ApplyDomain Session Outbox Store BoardStore Effects Concurrency Lines SkillDomain SkillStore SkillService.
From stdpp Require Import list.

Record seed_def := mkSeed {
  sd_rawID : string; sd_name : string; sd_phase_list : list PhaseType; sd_content : string; sd_techniques : list Technique
}.

Definition seed_init : seed_def := mkSeed "01JXSKLLP000000000000000IN" "init-bootstrap-context" [PhaseInit]
  "Before writing anything, step back and ask: what is the REAL problem this change solves?

Rules:
1. Capture the change name and project in the envelope — these identifiers propagate through every subsequent phase.
   Why: mismatched identifiers cause orphaned phases; anchoring them here prevents drift.
2. Do not assume scope — surface ambiguities as open questions for the explore phase.
   Why: the init phase is cheap to revisit; later phases are expensive.
3. Confirm the relevant bounded context (which aggregate, which service boundary) before proceeding.
   Why: context errors compound across the full SDD cycle."%string
  [TechniqueStepBack; TechniqueInlineWhy].

Definition seed_explore : seed_def := mkSeed "01JXSKLLP000000000000EXPL0" "explore-investigate" [PhaseExplore]
  "Apply the ReAct (Reason–Act–Observe) cycle: for each hypothesis, take one concrete look-up action and record what you actually found before forming the next hypothesis.

Rules:
1. Never describe code you have not read — observe first, reason second.
   Why: hallucinated code structure causes the design phase to produce wrong interfaces.
2. For each finding, record: WHERE (file + line), WHAT (code excerpt), WHY it matters.
   Why: structured evidence prevents context loss when the explore artifact is handed to spec/design.
3. End with an explicit gap list: unknowns that a subsequent phase must resolve.
   Why: unexposed unknowns become silent assumptions that block the apply phase."%string
  [TechniqueReAct; TechniqueInlineWhy].

Definition seed_proposal : seed_def := mkSeed "01JXSKLLP000000000000PROP0" "proposal-draft-options" [PhaseProposal]
  ("Use Skeleton-of-Thought: write the proposal outline first (problem statement, approach A, approach B, tradeoff table, recommendation), then fill each section in order.

Rules:
1. Present at least 2 distinct approaches before recommending one.
   Why: a single-option proposal is a decision, not a proposal; it removes stakeholder input.
2. The tradeoff table MUST include at least: implementation complexity, testability, and operational risk.
   Why: these three dimensions surface the most common post-implementation regrets.
3. The recommended approach MUST name a specific rationale, not just " ++ dq ++ "simpler" ++ dq ++ " or " ++ dq ++ "better" ++ dq ++ ".
   Why: vague rationale cannot be challenged or revisited when constraints change.")%string
  [TechniqueSkeletonOfThought; TechniqueInlineWhy].

Definition seed_spec : seed_def := mkSeed "01JXSKLLP000000000000SPEC0" "spec-write-requirements" [PhaseSpec]
  ("Use Skeleton-of-Thought: list every requirement title and scenario slug before expanding any scenario body.

Rules:
1. Each scenario must follow GIVEN–WHEN–THEN with no " ++ dq ++ "TBD" ++ dq ++ " or " ++ dq ++ "fill in details" ++ dq ++ " placeholders.
   Why: vague scenarios cannot be used as acceptance criteria during the verify phase.
2. Every requirement must map to at least one observable outcome (measurable, not " ++ dq ++ "should work well" ++ dq ++ ").
   Why: unmeasurable requirements block the verify phase and produce contested DONE calls.
3. If a requirement conflicts with an iron law, surface it explicitly — do not silently adjust the requirement.
   Why: hidden iron-law conflicts resurface at the apply or verify phase with much higher cost.")%string
  [TechniqueSkeletonOfThought; TechniqueInlineWhy].

Definition seed_design : seed_def := mkSeed "01JXSKLLP000000000000DSGN0" "design-architect-system" [PhaseDesign]
  "Before designing any interface, step back to the aggregate boundary level: what invariant does this aggregate own, and how does the new behavior interact with existing state transitions?

Apply extended thinking: for each architectural decision, explicitly enumerate what you are NOT doing and why.

Rules:
1. Every architectural decision MUST have a documented alternative and a rationale for rejection.
   Why: undocumented decisions are re-litigated at every future code review.
2. Identify the persistence boundary before the interface boundary.
   Why: retrofitting persistence constraints onto an already-designed interface is the most expensive rework in this codebase.
3. Cross-aggregate reads are allowed; cross-aggregate writes require an explicit event or saga.
   Why: silent cross-aggregate mutation breaks the invariant model and makes audit trails inconsistent.
4. Mark every open question — do not silently resolve them with an assumption.
   Why: silent assumptions in design become load-bearing decisions in apply that nobody can later challenge."%string
  [TechniqueExtendedThinking; TechniqueStepBack; TechniqueInlineWhy].

Definition seed_tasks : seed_def := mkSeed "01JXSKLLP000000000000TASK0" "tasks-decompose-work" [PhaseTasks]
  "Use extended thinking to map the full dependency graph before writing any task. Ask: which task, if delayed, blocks all others? That task goes in the first group.

Rules:
1. Each task must be completable in 2–5 minutes of focused work on a single concern.
   Why: oversized tasks produce oversized diffs that fail review and obscure rollback boundaries.
2. Every group must declare its depends_on list explicitly — no implicit ordering.
   Why: implicit ordering is lost when tasks are parallelized across apply workers.
3. files_pattern must be specific enough that two concurrent tasks do not overlap.
   Why: overlapping patterns cause merge conflicts and partial-state corruption in parallel apply.
4. Include a verify task in the final group that asserts the full acceptance criteria from the spec.
   Why: without a spec-anchored verify task, the verify phase has no ground truth."%string
  [TechniqueExtendedThinking; TechniqueInlineWhy].

Definition seed_apply : seed_def := mkSeed "01JXSKLLP000000000000APLY0" "apply-implement-safely" [PhaseApply]
  "After implementing each task, apply constitutional self-critique: run your own review against the checklist before marking the task done.

Self-critique checklist:
- Does this change break any iron law? (check docs/rules.md)
- Is the new code reachable by the tests in this task's scope?
- Did I introduce a cross-aggregate write without an event or saga?
- Did I call time.Now() or ulid.Make() inside domain or application packages?
- Is the public surface area I added the minimum needed by the spec scenario?

Rules:
1. Never mark a task done before running the checklist above.
   Why: defects found in the apply phase cost 5× less to fix than defects found in the verify phase.
2. If the checklist reveals a constraint violation, fix it in the same task — do not defer.
   Why: deferred fixes are frequently forgotten and cause verify to block unexpectedly.
3. When in doubt about files_pattern scope, do LESS and report it — do not expand scope silently.
   Why: scope creep in apply pollutes other tasks' boundaries and makes rollback impossible."%string
  [TechniqueConstitutionalSelfCritique; TechniqueInlineWhy].

Definition seed_verify : seed_def := mkSeed "01JXSKLLP000000000000VRFY0" "verify-chain-validation" [PhaseVerify]
  ("Apply chain-of-verification: for every claim in your summary, provide the concrete evidence that backs it.

Evidence format: claim → command run → exact output excerpt.

Rules:
1. " ++ dq ++ "Tests pass" ++ dq ++ " is only valid when accompanied by the exact test runner output including the counts.
   Why: a claim without evidence is indistinguishable from a hallucination to the orchestrator.
2. For each spec scenario, assert WHICH test covers it and cite the test name.
   Why: uncovered scenarios silently pass verify and resurface as production bugs.
3. Coverage gates (domain 100%, app 85%) must be cited from actual coverage output — not estimated.
   Why: estimated coverage routinely overstates and hides missing cases.
4. If any scenario is NOT covered, set status=DONE_WITH_CONCERNS and list the gap.
   Why: DONE with hidden gaps causes the archive phase to lock in an incomplete state.")%string
  [TechniqueChainOfVerification; TechniqueInlineWhy].

Definition seed_archive : seed_def := mkSeed "01JXSKLLP000000000000ARCH0" "archive-finalize-deltas" [PhaseArchive]
  "Before finalizing, step back and re-read the original proposal intent: does the implementation deliver what was proposed, or did scope drift occur?

Rules:
1. The archive artifact must contain a delta summary: what changed vs the original design, and why any deviation was acceptable.
   Why: deviations that are not documented become undocumented technical debt.
2. If scope drifted beyond the proposal, mark the artifact with a risks entry describing the drift.
   Why: undocumented scope changes make future archaeology misleading and break change tracking.
3. Verify that every open question from the design phase is either resolved in the archive artifact or explicitly deferred to a follow-up change.
   Why: unresolved design questions that disappear into the archive make follow-up changes impossible to scope accurately."%string
  [TechniqueStepBack; TechniqueInlineWhy].

Definition seed_defs : list seed_def := [seed_init; seed_explore; seed_proposal; seed_spec; seed_design; seed_tasks; seed_apply; seed_verify; seed_archive].

Inductive seed_error := SeedBadID | SeedInvalid (e : skill_error) | SeedUpsert (name : string) (e : store_error).

Section Seeds.
Context `{UlidLib}.

Definition build_seed (now : Time) (d : seed_def) : result seed_error Skill :=
  match ParseID SkillK (sd_rawID d) with
  | Err _ => Err SeedBadID
  | Ok id =>
      match Skill_NewLegacy id (sd_name d) (sd_phase_list d) (sd_content d) (sd_techniques d) now with
      | Err e => Err (SeedInvalid e)
      | Ok s => Ok s
      end
  end.

Fixpoint build_seeds (now : Time) (defs : list seed_def) : result seed_error (list Skill) :=
  match defs with
  | [] => Ok []
  | d :: defs' =>
      let? s := build_seed now d in
      let? rest := build_seeds now defs' in
      Ok (s :: rest)
  end.
Definition buildSeedSkills (now : Time) : result seed_error (list Skill) := build_seeds now seed_defs.

Fixpoint upsert_all (seeds : list Skill) : skprog (option seed_error) :=
  match seeds with
  | [] => Ret None
  | s :: seeds' =>
      let! e := sk (SkUpsert s) in
      match e with
      | Some e => Ret (Some (SeedUpsert (sk_name s) e))
      | None => upsert_all seeds'
      end
  end.

Definition SeedSkills : skprog (option seed_error) :=
  let! now := sk SkNow in
  match buildSeedSkills now with
  | Err e => Ret (Some e)
  | Ok seeds => upsert_all seeds
  end.
End Seeds.

(** ** What seeding does *)

Definition with_created (c : Time) (s : Skill) : Skill :=
  mkSkill (sk_id s) (sk_name s) (sk_phases s) (sk_content s) (sk_techniques s) (sk_status s) (sk_version s)
    (sk_scope s) (sk_appliesWhen s) (sk_riskLevel s) (sk_activationSource s) (sk_metrics s) (sk_lastUsedAt s)
    (sk_lastValidatedAt s) c (sk_updatedAt s).

(** The identifier is free, or that of an earlier version of the same row. *)
Definition id_fits (m : gmap SkillID Skill) (s : Skill) : Prop := ∀ r, m !! sk_id s = Some r → same_version s r = true.

Lemma same_version_true s r : same_version s r = true ↔ sk_name r = sk_name s ∧ sk_version r = sk_version s.
Proof. unfold same_version. by rewrite andb_true_iff, !bool_decide_eq_true. Qed.

Lemma skill_Upsert_spec s m :
  skills_ok m → skill_check s = true → id_fits m s →
  ∃ m', skill_Upsert s m = Ok m' ∧ skills_ok m' ∧ (∃ c, m' !! sk_id s = Some (with_created c s)) ∧
    (∀ i t, same_version s t = false → m' !! i = Some t ↔ m !! i = Some t).
Proof.
  intros Hm Hc Hfit. destruct (skill_Upsert s m) as [m'|e] eqn:Hu.
  - exists m'. split; [done|]. split; [by eapply skill_Upsert_ok|]. unfold skill_Upsert in Hu. rewrite Hc in Hu. cbn [negb] in Hu.
    destruct (find_version s m) as [[i r]|] eqn:Hf.
    + apply find_version_Some in Hf as (Hr & Hn & Hv). destruct (delete i m !! sk_id s) eqn:Hd; [done|]. simplify_eq.
      split; [exists (sk_createdAt r); rewrite lookup_insert_eq; unfold with_created; by rewrite Hn, Hv|].
      intros j t Ht. assert (Hnot : ∀ k r', m !! k = Some r' → same_version s r' = true → r' ≠ t) by (intros k r' _ Hs ->; congruence).
      destruct (decide (j = sk_id s)) as [->|Hj].
      * rewrite lookup_insert_eq. split; intros Hl; simplify_eq.
        { exfalso. apply (not_true_iff_false (same_version s _)) in Ht. apply Ht, same_version_true. by rewrite Hn, Hv. }
        exfalso. by apply (Hnot _ _ Hl (Hfit _ Hl)).
      * rewrite lookup_insert_ne, lookup_delete_Some by done. split; [by intros []|]. intros Hl. split; [|done].
        intros ->. assert (r = t) as <- by congruence. apply (Hnot _ _ Hr); [by apply same_version_true|done].
    + destruct (m !! sk_id s) eqn:Hid; [done|]. simplify_eq. split.
      * exists (sk_createdAt s). rewrite lookup_insert_eq. by destruct s.
      * intros j t Ht. rewrite lookup_insert_Some. split; [|intros Hl; right; split; [congruence|done]].
        intros [[<- <-]|[_ ?]]; [|done]. exfalso. apply (not_true_iff_false (same_version s s)) in Ht.
        by apply Ht, same_version_true.
  - exfalso. unfold skill_Upsert in Hu. rewrite Hc in Hu. cbn [negb] in Hu.
    destruct (find_version s m) as [[i r]|] eqn:Hf.
    + apply find_version_Some in Hf as (Hr & Hn & Hv). destruct (delete i m !! sk_id s) as [x|] eqn:Hd; [|done].
      apply lookup_delete_Some in Hd as [Hne Hx]. apply Hne. apply Hfit in Hx as Hs. apply same_version_true in Hs as [? ?].
      eapply (so_unique _ Hm); [exact Hr|exact Hx|congruence|congruence].
    + destruct (m !! sk_id s) as [x|] eqn:Hid; [|done]. apply Hfit in Hid as Hs. apply same_version_true in Hs as [? ?].
      by apply (find_version_None s m _ x Hf Hid).
Qed.

Section Seeding.
Context `{Collation} `{UlidLib}.
Context (E : skenv) (Hquiet : ∀ n, se_fault E n = NoFault).

Definition apart (s t : Skill) : Prop := same_version s t = false ∧ sk_id s ≠ sk_id t.

Lemma same_version_sym s t : same_version s t = same_version t s.
Proof. apply eq_true_iff_eq. rewrite !same_version_true. naive_solver. Qed.

Lemma upsert_all_spec seeds n d :
  skills_ok (sd_skills d) → Forall (λ s, skill_check s = true) seeds → Forall (id_fits (sd_skills d)) seeds →
  ForallOrdPairs apart seeds →
  skruns E (upsert_all seeds) (λ r _ d', r = None ∧
    (∀ s, s ∈ seeds → ∃ c, sd_skills d' !! sk_id s = Some (with_created c s)) ∧
    (∀ i t, Forall (λ s, same_version s t = false) seeds → sd_skills d' !! i = Some t ↔ sd_skills d !! i = Some t)) n d.
Proof.
  revert n d. induction seeds as [|s seeds IH]; intros n d Hm Hchk Hfit Hap; cbn [upsert_all].
  - apply skruns_ret. split_and!; [done|by intros s Hs%elem_of_nil|done].
  - apply Forall_cons in Hchk as [Hc Hchk]. apply Forall_cons in Hfit as [Hf Hfit].
    inversion Hap as [|? ? Hs Hap']; subst. apply skruns_sk. cbn [skperform]. rewrite Hquiet.
    destruct (skill_Upsert_spec s _ Hm Hc Hf) as (m' & -> & Hm' & [c Hrow] & Hother). cbn [sk_write fst snd].
    eapply skruns_mono; [apply IH; [done|done| |done]|].
    + rewrite Forall_forall in Hfit, Hs |- *. intros t Ht r Hr. cbn in Hr. destruct (Hs t Ht) as [Hst Hid].
      destruct (same_version s r) eqn:Hsr; [|apply (Hfit t Ht); by apply Hother].
      exfalso. apply Hid. apply same_version_true in Hsr as [? ?].
      eapply (so_unique _ Hm'); [exact Hrow|exact Hr|done|done].
    + intros r n' d' (-> & Hrows & Hkeep). split_and!; [done| |].
      * intros t [->|Ht]%elem_of_cons; [|by apply Hrows]. exists c. apply Hkeep; [|done].
        eapply Forall_impl; [exact Hs|]. intros t [Ht _]. rewrite same_version_sym in Ht. exact Ht.
      * intros i t [Hst Hts]%Forall_cons. rewrite Hkeep by done. by apply Hother.
Qed.

(** The skill a definition stands for. *)
Definition seed_skill (now : Time) (d : seed_def) : Skill :=
  mkSkill (mkID (sd_rawID d)) (sd_name d) (sd_phase_list d) (sd_content d) (sd_techniques d) SkillActive "v1"
    (mkScope "*" "*" (pt_string <$> sd_phase_list d)) zeroAppliesWhen RiskMedium SourceLegacySeed zeroMetrics
    None None now now.

Definition seed_ids_parse : Prop := Forall (λ d, ulid_Parse (sd_rawID d) = true) seed_defs.

Lemma build_seed_Ok now d : d ∈ seed_defs → ulid_Parse (sd_rawID d) = true → build_seed now d = Ok (seed_skill now d).
Proof.
  intros Hd Hp. unfold build_seed, ParseID, parseULID. rewrite Hp.
  repeat (apply elem_of_cons in Hd as [->|Hd]; [by vm_compute|]). by apply elem_of_nil in Hd.
Qed.

Lemma build_seeds_Ok now defs :
  Forall (λ d, d ∈ seed_defs) defs → Forall (λ d, ulid_Parse (sd_rawID d) = true) defs →
  build_seeds now defs = Ok (seed_skill now <$> defs).
Proof.
  induction 1 as [|d defs Hd _ IH]; [done|]. intros [Hp Hps]%Forall_cons. cbn [build_seeds].
  rewrite build_seed_Ok by done. by rewrite IH.
Qed.

Lemma buildSeedSkills_Ok now : seed_ids_parse → buildSeedSkills now = Ok (seed_skill now <$> seed_defs).
Proof. apply build_seeds_Ok. by apply Forall_forall. Qed.

Lemma seeds_apart now : ForallOrdPairs apart (seed_skill now <$> seed_defs).
Proof.
  unfold seed_defs. cbn [fmap list_fmap].
  repeat (constructor; [repeat (constructor; [by split; vm_compute|]); constructor|]). constructor.
Qed.

(** (seeding resets) without database faults, when the identifiers of the
    seeds are valid and not taken by other skills, seeding succeeds from any
    tables: afterwards each seed is active, with the text of the code, no
    conditions and metrics of zero, whatever an operator or the loop had made of
    it - deprecated, blocked, edited or counted; every skill of another name or
    version is untouched; and every phase has an active skill. *)
Theorem seeding_resets_the_seeds n d :
  skills_ok (sd_skills d) → seed_ids_parse →
  (∀ def r, def ∈ seed_defs → sd_skills d !! mkID (sd_rawID def) = Some r → sk_name r = sd_name def ∧ sk_version r = "v1"%string) →
  let '(r, _, d') := skexec E SeedSkills n d in
  r = None ∧
  (∀ def, def ∈ seed_defs → ∃ created, sd_skills d' !! mkID (sd_rawID def) = Some (with_created created (seed_skill (se_clock E n) def))) ∧
  (∀ i t, (∀ def, def ∈ seed_defs → sk_name t ≠ sd_name def ∨ sk_version t ≠ "v1"%string) →
     sd_skills d' !! i = Some t ↔ sd_skills d !! i = Some t) ∧
  (∀ p, PhaseType_IsValid p = true → skill_FindByPhase p (sd_skills d') ≠ []).
Proof.
  intros Hm Hparse Hids. set (now := se_clock E n).
  assert (Hrun : skruns E SeedSkills (λ r _ d', r = None ∧
    (∀ s, s ∈ seed_skill now <$> seed_defs → ∃ c, sd_skills d' !! sk_id s = Some (with_created c s)) ∧
    (∀ i t, Forall (λ s, same_version s t = false) (seed_skill now <$> seed_defs) →
       sd_skills d' !! i = Some t ↔ sd_skills d !! i = Some t)) n d).
  { unfold SeedSkills. apply skruns_sk. cbn [skperform fst snd]. fold now. rewrite buildSeedSkills_Ok by done.
    apply upsert_all_spec; [done| | |apply seeds_apart].
    - apply Forall_fmap, Forall_true. by intros def.
    - apply Forall_fmap, Forall_forall. intros def Hdef r Hr. apply same_version_true. by apply (Hids def). }
  unfold skruns in Hrun. destruct (skexec E SeedSkills n d) as [[r n'] d']. destruct Hrun as (-> & Hrows & Hkeep).
  assert (Hseed : ∀ def, def ∈ seed_defs → ∃ created, sd_skills d' !! mkID (sd_rawID def) = Some (with_created created (seed_skill now def))).
  { intros def Hdef. apply (Hrows (seed_skill now def)). by apply list_elem_of_fmap_2. }
  split_and!; [done|done| |].
  - intros i t Ht. apply Hkeep, Forall_fmap, Forall_forall. intros def Hdef. apply not_true_iff_false.
    intros Hs. apply same_version_true in Hs as [Hn Hv]. destruct (Ht def Hdef); done.
  - intros p Hp. apply PhaseType_IsValid_elem in Hp.
    assert (Hdef : ∃ def, def ∈ seed_defs ∧ p ∈ sd_phase_list def).
    { assert (Hall : forallb (λ p, existsb (λ def, bool_decide (p ∈ sd_phase_list def)) seed_defs) AllPhaseTypes = true)
        by (by vm_compute).
      rewrite forallb_forall in Hall. apply list_elem_of_In, Hall, existsb_exists in Hp as (def & Hdef & Hpd).
      exists def. split; [by apply list_elem_of_In|by apply bool_decide_eq_true in Hpd]. }
    destruct Hdef as (def & Hdef & Hpd). destruct (Hseed def Hdef) as [c Hc]. intros Hnil.
    assert (Hin : with_created c (seed_skill now def) ∈ skill_FindByPhase p (sd_skills d')).
    { unfold skill_FindByPhase, skill_rows. apply list_elem_of_filter. split.
      - apply andb_true_iff. split; [by apply AppliesTo_elem|done].
      - apply list_elem_of_fmap. eexists (_, _). split; [|by apply elem_of_map_to_list]. done. }
    rewrite Hnil in Hin. by apply elem_of_nil in Hin.
Qed.
End Seeding.
