(* ===== verification/Detector.v ===== *)
(** * The structural detector

    [internal/application/init/detector]: languages, frameworks, package managers
    and architecture of a repository, from its manifests. *)
From S2P Require Import Prelude Ids Utf8 Json GoPath Lines JsonText SkillDomain SkillMatch.
From stdpp Require Import list.
From Stdlib Require Import Ascii.

(** ** The file system

    What [os.ReadFile], [os.Stat] and [os.ReadDir] answer; [encoding/json] and
    [encoding/xml] as far as the detector reads them. *)
Inductive file_read := Absent | Unreadable | Content (bytes : string).
Record FileSystem := mkFS {
  fs_read : string → file_read;
  fs_stat : string → option bool;        (* of what exists, whether it is a directory *)
  fs_subdirs : string → nat              (* sub-directories; none when it cannot be read *)
}.

Record Pom := mkPom { pom_GroupID : string; pom_Version : string; pom_JavaVersion : string }.
Class XmlDecoder := { pom_of : string → option Pom }.

(** [readIfExists], with the caller's [err == nil && len(content) > 0]. *)
Definition manifest (fs : FileSystem) (path : string) : option string :=
  match fs_read fs path with
  | Content s => if str_empty s then None else Some s
  | Absent | Unreadable => None
  end.

Definition fileExists (fs : FileSystem) (path : string) : bool :=
  match fs_stat fs path with Some dir => negb dir | None => false end.
Definition dirExists (fs : FileSystem) (path : string) : bool :=
  match fs_stat fs path with Some dir => dir | None => false end.
Definition hasMultipleSubdirs (fs : FileSystem) (path : string) : bool := 2 <=? fs_subdirs fs path.

(** ** Text *)

(** [strings.Contains] *)
Definition Contains (s sub : string) : bool := contains_list (chars sub) (chars s).

(** The default buffer of a scanner holds 64 KiB. *)
Definition MaxScanTokenSize : N := 65536.
Definition scan_lines (s : string) : list string := text <$> scan_tokens MaxScanTokenSize (lines_of s).

Definition TrimLeft (cutset : string) (s : string) : string :=
  text (drop_while (λ a, bool_decide (a ∈ chars cutset)) (chars s)).
Definition Trim_char (c : ascii) (s : string) : string :=
  let f a := bool_decide (a = c) in
  text (reverse (drop_while f (reverse (drop_while f (chars s))))).

(** What follows the first [=], if there is one. *)
Fixpoint after_equals (l : list ascii) : option (list ascii) :=
  match l with
  | [] => None
  | a :: l' => if bool_decide (a = "="%char) then Some l' else after_equals l'
  end.

(** ** Sets kept as lists *)

Definition append_if {A} (same : A → A → bool) (slice : list A) (x : A) : list A :=
  if existsb (same x) slice then slice else slice ++ [x].
Definition appendUniq : list string → string → list string := append_if (λ x v, bool_decide (v = x)).
Definition appendLangUniq : list LanguageInfo → LanguageInfo → list LanguageInfo :=
  append_if (λ l v, bool_decide (la_Name v = la_Name l)).
Definition appendFwUniq : list FrameworkInfo → FrameworkInfo → list FrameworkInfo :=
  append_if (λ fw v, bool_decide (fw_Name v = fw_Name fw)).
Definition appendIfMissing := appendFwUniq.

(** ** Parsers *)

Section Parsers.
Context `{UnicodeTables} `{XmlDecoder}.

(** parser_go.go *)
Definition parseGoMod (content : string) : LanguageInfo :=
  let goVersion :=
    match find (λ line, HasPrefix line "go ") (TrimSpace <$> scan_lines content) with
    | Some line => TrimSpace (TrimPrefix line "go ")
    | None => EmptyString
    end in
  let version := if str_empty goVersion then "unknown"%string else goVersion in
  mkLanguage "Go" (String.append "go " version) 0.

(** parser_node.go *)
Definition as_string_map (j : json) : option (list (string * string)) :=
  match jvalue j with
  | JObj l => mapM (λ kv : string * json, v ← as_string kv.2; Some (kv.1, v)) l
  | JNull => Some []
  | _ => None
  end.

(** A member decoded twice adds to the map it made the first time. *)
Definition package_fields : list (string * (list (string * string) * list (string * string) → json →
    option (list (string * string) * list (string * string)))) :=
  [ ("dependencies"%string, λ p j, match jvalue j with JNull => Some ([], p.2) | _ => m ← as_string_map j; Some (p.1 ++ m, p.2) end);
    ("devDependencies"%string, λ p j, match jvalue j with JNull => Some (p.1, []) | _ => m ← as_string_map j; Some (p.1, p.2 ++ m) end) ].

(** [allDeps]: the development dependencies win. *)
Definition package_deps (content : string) : option (list (string * string)) :=
  match json_parse content with
  | NotJSON _ => None
  | JSON j => p ← decode_struct package_fields ([], []) j; Some (p.1 ++ p.2)
  end.

Definition stripSemverPrefix (v : string) : string := TrimLeft "^~>=<" v.

Definition node_framework (name version : string) : FrameworkInfo :=
  mkFramework name (stripSemverPrefix version) "package.json".

Definition parseNodeManifest (fs : FileSystem) (content repoRoot : string) : list FrameworkInfo * list string :=
  match package_deps content with
  | None => ([], [])
  | Some allDeps =>
      let dep k := obj_get k allDeps in
      let angular :=
        match dep "@angular/core" with
        | None => ([], [])
        | Some v =>
            match dep "@ngrx/store" with
            | Some ngrx =>
                ([node_framework "Angular" v; node_framework "NgRx" ngrx], ["NgRx variant: @ngrx/store present"%string])
            | None =>
                ([node_framework "Angular" v],
                 match fs_stat fs (GoPath.Join [repoRoot; "app.config.ts"]%string) with
                 | Some _ => ["Angular Signals variant: app.config.ts present, no @ngrx/store"%string]
                 | None => []
                 end)
            end
        end in
      let react :=
        match dep "react" with
        | None => []
        | Some v => [match dep "next" with Some nv => node_framework "Next.js" nv | None => node_framework "React" v end]
        end in
      let vue := match dep "vue" with None => [] | Some v => [node_framework "Vue" v] end in
      (angular.1 ++ react ++ vue, angular.2)
  end.

(** parser_python.go *)
Definition add_if (cond : bool) (name path : string) (fws : list FrameworkInfo) : list FrameworkInfo :=
  if cond then appendIfMissing fws (mkFramework name EmptyString path) else fws.

Definition parsePyprojectToml (content : string) : list FrameworkInfo :=
  foldl (λ fws line,
    let lower := ToLower (TrimSpace line) in
    add_if (Contains lower "flask") "Flask" "pyproject.toml"
      (add_if (Contains lower "django") "Django" "pyproject.toml"
        (add_if (Contains lower "fastapi") "FastAPI" "pyproject.toml" fws))) [] (scan_lines content).

Definition parseRequirementsTxt (content : string) : list FrameworkInfo :=
  foldl (λ fws line,
    let line := ToLower (TrimSpace line) in
    if HasPrefix line "#" then fws
    else add_if (HasPrefix line "flask") "Flask" "requirements.txt"
      (add_if (HasPrefix line "django") "Django" "requirements.txt"
        (add_if (HasPrefix line "fastapi") "FastAPI" "requirements.txt" fws))) [] (scan_lines content).

(** parser_rust.go: the state is whether the line is in [package], and the
    edition. *)
Definition cargo_line (st : bool * string) (raw : string) : bool * string :=
  let line := TrimSpace raw in
  if bool_decide (line = "[package]"%string) then (true, st.2) else
  let inPackage := if HasPrefix line "[" then false else st.1 in
  (inPackage,
   if inPackage && HasPrefix line "edition" then
     match after_equals (chars line) with
     | Some rest => Trim_char (ascii_of_N 34) (TrimSpace (text rest))
     | None => st.2
     end
   else st.2).
Definition parseCargoToml (content : string) : LanguageInfo :=
  let edition := (foldl cargo_line (false, EmptyString) (scan_lines content)).2 in
  mkLanguage "Rust"
    (if str_empty edition then "Cargo.toml"%string
     else String.append "Cargo.toml (edition " (String.append edition ")")) 0.

(** parser_jvm.go *)
Definition parseBuildGradle (content : string) : list LanguageInfo * list FrameworkInfo :=
  ([mkLanguage (if Contains content "kotlin" then "Kotlin" else "Java") "build.gradle" 0],
   (if Contains content "spring-boot-starter" then [mkFramework "Spring Boot" EmptyString "build.gradle"] else []) ++
   (if Contains content "micronaut" then [mkFramework "Micronaut" EmptyString "build.gradle"] else [])).

Definition parsePomXML (content : string) : list LanguageInfo * list FrameworkInfo :=
  let boot version := [mkFramework "Spring Boot" version "pom.xml"] in
  match pom_of content with
  | None =>
      ([mkLanguage "Java" "pom.xml" 0], if Contains content "spring-boot" then boot EmptyString else [])
  | Some pom =>
      ([mkLanguage "Java" (pom_JavaVersion pom) 0],
       if bool_decide (pom_GroupID pom = "org.springframework.boot"%string) then boot (pom_Version pom)
       else if Contains content "spring-boot" then boot EmptyString else [])
  end.

(** ** Detection (detector.go, arch.go) *)

Definition detectArchStyle (fs : FileSystem) (repoRoot : string) : list string :=
  let at_ name := GoPath.Join [repoRoot; name] in
  let styles :=
    (if fileExists fs (at_ "pnpm-workspace.yaml") || fileExists fs (at_ "go.work") then ["monorepo"] else [])%string ++
    (if dirExists fs (at_ "domain") && dirExists fs (at_ "application") && dirExists fs (at_ "infrastructure")
     then ["hexagonal"] else [])%string ++
    (if hasMultipleSubdirs fs (at_ "cmd") || hasMultipleSubdirs fs (at_ "services") then ["microservices"] else [])%string in
  match styles with [] => ["monolith"%string] | _ => styles end.

(** DetectorResult, which the steps of [Detect] build up. *)
Record DetectorResult := mkDetected {
  de_Languages : list LanguageInfo;
  de_Frameworks : list FrameworkInfo;
  de_PackageManagers : list string;
  de_ArchStyle : list string;
  de_ConventionHints : list string
}.

Definition add_languages ls (r : DetectorResult) : DetectorResult :=
  mkDetected (foldl appendLangUniq (de_Languages r) ls) (de_Frameworks r) (de_PackageManagers r) (de_ArchStyle r) (de_ConventionHints r).
Definition add_frameworks fws (r : DetectorResult) : DetectorResult :=
  mkDetected (de_Languages r) (foldl appendFwUniq (de_Frameworks r) fws) (de_PackageManagers r) (de_ArchStyle r) (de_ConventionHints r).
Definition add_manager m (r : DetectorResult) : DetectorResult :=
  mkDetected (de_Languages r) (de_Frameworks r) (appendUniq (de_PackageManagers r) m) (de_ArchStyle r) (de_ConventionHints r).

Section Detect.
Context (fs : FileSystem) (repoRoot : string).

Definition at_root (name : string) : string := GoPath.Join [repoRoot; name].

(** [if content, err := readIfExists(...); err == nil && len(content) > 0] *)
Definition with_manifest (name : string) (f : string → DetectorResult → DetectorResult) (r : DetectorResult) : DetectorResult :=
  match manifest fs (at_root name) with Some content => f content r | None => r end.

(** The languages and frameworks of the first manifests are plainly appended. *)
Definition detect_go : DetectorResult → DetectorResult := with_manifest "go.mod" (λ content r,
  add_manager "go modules"
    (mkDetected (de_Languages r ++ [parseGoMod content]) (de_Frameworks r) (de_PackageManagers r) (de_ArchStyle r) (de_ConventionHints r))).

Definition detect_node : DetectorResult → DetectorResult := with_manifest "package.json" (λ content r,
  let '(frameworks, hints) := parseNodeManifest fs content repoRoot in
  let r := mkDetected (de_Languages r) (de_Frameworks r ++ frameworks) (de_PackageManagers r) (de_ArchStyle r)
             (de_ConventionHints r ++ hints) in
  let r := add_manager (if fileExists fs (at_root "pnpm-lock.yaml") then "pnpm"
                        else if fileExists fs (at_root "yarn.lock") then "yarn" else "npm") r in
  if fileExists fs (at_root "tsconfig.json") then add_languages [mkLanguage "TypeScript" "tsconfig.json" 0] r else r).

Definition detect_pyproject : DetectorResult → DetectorResult := with_manifest "pyproject.toml" (λ content r,
  add_frameworks (parsePyprojectToml content)
    (add_manager "uv/pip" (add_languages [mkLanguage "Python" "pyproject.toml" 0] r))).

Definition detect_requirements : DetectorResult → DetectorResult := with_manifest "requirements.txt" (λ content r,
  add_frameworks (parseRequirementsTxt content) (add_languages [mkLanguage "Python" "requirements.txt" 0] r)).

Definition detect_cargo : DetectorResult → DetectorResult := with_manifest "Cargo.toml" (λ content r,
  add_manager "cargo" (add_languages [parseCargoToml content] r)).

Definition detect_gradle : DetectorResult → DetectorResult := with_manifest "build.gradle" (λ content r,
  let '(langs, fws) := parseBuildGradle content in
  add_manager "gradle" (add_frameworks fws (add_languages langs r))).

Definition detect_pom : DetectorResult → DetectorResult := with_manifest "pom.xml" (λ content r,
  let '(langs, fws) := parsePomXML content in
  add_manager "maven" (add_frameworks fws (add_languages langs r))).

Definition SchemaV1 : Z := 1.
Definition SophiaDetectorVer : string := "v1.1.0".

Definition detect_all : DetectorResult :=
  let r := detect_pom (detect_gradle (detect_cargo (detect_requirements (detect_pyproject (detect_node
             (detect_go (mkDetected [] [] [] [] []))))))) in
  mkDetected (de_Languages r) (de_Frameworks r) (de_PackageManagers r) (detectArchStyle fs repoRoot) (de_ConventionHints r).

(** [Detector.Detect]: the error it could return never occurs. *)
Definition Detect : StructuralContext :=
  let r := detect_all in
  mkStructural SchemaV1 "" "" "" (de_Languages r) (de_Frameworks r) (de_PackageManagers r) (de_ArchStyle r) None []
    (de_ConventionHints r) false "" zeroTime "" SophiaDetectorVer (is_nil (de_Frameworks r) && is_nil (de_Languages r)).

(** [DetectorAdapter.Detect] *)
Definition adapter_Detect : DetectorResult :=
  let sc := Detect in
  mkDetected (st_Languages sc) (st_Frameworks sc) (st_PackageManagers sc) (st_ArchStyle sc) (st_ConventionHints sc).
End Detect.
End Parsers.

(** ** What a detection looks like *)

Lemma append_if_key {A K} `{EqDecision K} (key : A → K) l x :
  NoDup (key <$> l) → NoDup (key <$> append_if (λ x v, bool_decide (key v = key x)) l x).
Proof.
  intros Hl. unfold append_if. destruct (existsb _ l) eqn:He; [done|]. rewrite fmap_app. apply NoDup_app.
  split_and!; [done| |apply NoDup_singleton]. intros k Hk ->%list_elem_of_singleton.
  apply list_elem_of_fmap in Hk as (y & Hy & Hin). apply not_true_iff_false in He. apply He, existsb_exists.
  exists y. split; [by apply list_elem_of_In|by apply bool_decide_eq_true].
Qed.

Lemma append_all_key {A K} `{EqDecision K} (key : A → K) l xs :
  NoDup (key <$> l) → NoDup (key <$> foldl (append_if (λ x v, bool_decide (key v = key x))) l xs).
Proof. revert l. induction xs as [|x xs IH]; intros l Hl; [done|]. by apply IH, append_if_key. Qed.

Lemma append_if_nonempty {A} same (l : list A) x : append_if same l x ≠ [].
Proof. unfold append_if. destruct (existsb _ l) eqn:He; [by destruct l|]. by destruct l. Qed.

(** Names are listed once. *)
Definition detected_once (r : DetectorResult) : Prop :=
  NoDup (la_Name <$> de_Languages r) ∧ NoDup (fw_Name <$> de_Frameworks r) ∧ NoDup (de_PackageManagers r).

Section Detection.
Context `{UnicodeTables} `{XmlDecoder}.

Lemma once_languages ls r : detected_once r → detected_once (add_languages ls r).
Proof. intros (Hl & Hf & Hm). split_and!; [|done|done]. by apply (append_all_key la_Name). Qed.
Lemma once_frameworks fws r : detected_once r → detected_once (add_frameworks fws r).
Proof. intros (Hl & Hf & Hm). split_and!; [done| |done]. by apply (append_all_key fw_Name). Qed.
Lemma once_manager m r : detected_once r → detected_once (add_manager m r).
Proof.
  intros (Hl & Hf & Hm). split_and!; [done|done|]. cbn.
  pose proof (append_if_key id (de_PackageManagers r) m) as Ha. rewrite !list_fmap_id in Ha. by apply Ha.
Qed.

Lemma node_frameworks_once fs content repoRoot : NoDup (fw_Name <$> (parseNodeManifest fs content repoRoot).1).
Proof.
  unfold parseNodeManifest. destruct (package_deps content) as [deps|]; [|constructor]. cbn [fst].
  destruct (obj_get "@angular/core" deps), (obj_get "@ngrx/store" deps), (obj_get "react" deps), (obj_get "next" deps),
    (obj_get "vue" deps); apply (bool_decide_unpack _); by vm_compute.
Qed.

Lemma detect_all_once fs repoRoot : detected_once (detect_all fs repoRoot).
Proof.
  assert (Hgo : detected_once (detect_go fs repoRoot (mkDetected [] [] [] [] [])) ∧
    de_Frameworks (detect_go fs repoRoot (mkDetected [] [] [] [] [])) = []).
  { unfold detect_go, with_manifest. destruct (manifest _ _); (split; [|done]).
    - apply once_manager. split_and!; cbn; [apply NoDup_singleton|constructor|constructor].
    - split_and!; constructor. }
  destruct Hgo as [Hgo Hnone].
  assert (Hnode : detected_once (detect_node fs repoRoot (detect_go fs repoRoot (mkDetected [] [] [] [] [])))).
  { set (r := detect_go _ _ _) in *. unfold detect_node, with_manifest. destruct (manifest _ _) as [content|]; [|done].
    pose proof (node_frameworks_once fs content repoRoot) as Hfw. destruct (parseNodeManifest _ _ _) as [fws hints].
    destruct Hgo as (Hl & _ & Hm). cbn [fst] in Hfw. set (r1 := mkDetected _ _ _ _ _).
    assert (Hr1 : detected_once r1) by (split_and!; [exact Hl|cbn; by rewrite Hnone|exact Hm]).
    clearbody r1. case_match; [apply once_languages|]; by apply once_manager. }
  unfold detect_all. set (r := detect_node _ _ _) in *. clearbody r.
  enough (Hall : detected_once (detect_pom fs repoRoot (detect_gradle fs repoRoot (detect_cargo fs repoRoot
    (detect_requirements fs repoRoot (detect_pyproject fs repoRoot r)))))) by exact Hall.
  unfold detect_pom, detect_gradle, detect_cargo, detect_requirements, detect_pyproject, with_manifest.
  repeat (case_match; simplify_eq); auto 20 using once_languages, once_frameworks, once_manager.
Qed.

(** The manifests of which one is enough to know a language. *)
Definition language_manifests : list string :=
  ["go.mod"; "pyproject.toml"; "requirements.txt"; "Cargo.toml"; "build.gradle"; "pom.xml"]%string.

Lemma with_manifest_languages fs repoRoot name f r :
  (∀ content r, de_Languages (f content r) ≠ []) →
  de_Languages (with_manifest fs repoRoot name f r) = [] ↔ de_Languages r = [] ∧ manifest fs (at_root repoRoot name) = None.
Proof.
  intros Hf. unfold with_manifest. destruct (manifest _ _) as [content|]; [|naive_solver].
  split; [by intros ?%Hf|by intros [_ ?]].
Qed.

Lemma detect_node_languages fs repoRoot r :
  de_Languages (detect_node fs repoRoot r) = [] ↔
  de_Languages r = [] ∧ (manifest fs (at_root repoRoot "package.json") = None ∨ fileExists fs (at_root repoRoot "tsconfig.json") = false).
Proof.
  unfold detect_node, with_manifest. destruct (manifest _ _) as [content|]; [|naive_solver].
  destruct (parseNodeManifest _ _ _) as [fws hints]. destruct (fileExists fs (at_root repoRoot "tsconfig.json")); cbn.
  - split; [by intros ?%append_if_nonempty|naive_solver].
  - naive_solver.
Qed.

Lemma detect_languages_nil fs repoRoot :
  de_Languages (detect_all fs repoRoot) = [] ↔
  Forall (λ name, manifest fs (at_root repoRoot name) = None) language_manifests ∧
  (manifest fs (at_root repoRoot "package.json") = None ∨ fileExists fs (at_root repoRoot "tsconfig.json") = false).
Proof.
  unfold detect_all. cbn [de_Languages].
  unfold detect_pom, detect_gradle, detect_cargo, detect_requirements, detect_pyproject, detect_go.
  rewrite !with_manifest_languages, detect_node_languages, with_manifest_languages.
  - unfold language_manifests. rewrite !Forall_cons, Forall_nil. cbn [de_Languages]. naive_solver.
  - intros content r. cbn. by destruct (de_Languages r).
  - intros content r. apply append_if_nonempty.
  - intros content r. apply append_if_nonempty.
  - intros content r. apply append_if_nonempty.
  - intros content r. apply append_if_nonempty.
  - intros content r. unfold parsePomXML. destruct (pom_of content); apply append_if_nonempty.
Qed.

(** (detection) whatever the repository holds, unreadable files included,
    detection succeeds; it lists no language, framework or package manager twice;
    it finds no language exactly when there is none of the six manifests that
    imply one, nor a package.json next to a tsconfig.json, a manifest that is
    empty or cannot be read counting as missing; it labels the architecture a
    monolith exactly when no other style applies; and it marks the repository as
    new exactly when it found neither language nor framework. *)
Theorem detection_is_well_formed fs repoRoot :
  let sc := Detect fs repoRoot in
  NoDup (la_Name <$> st_Languages sc) ∧ NoDup (fw_Name <$> st_Frameworks sc) ∧ NoDup (st_PackageManagers sc) ∧
  (st_Languages sc = [] ↔
     Forall (λ name, manifest fs (at_root repoRoot name) = None) language_manifests ∧
     (manifest fs (at_root repoRoot "package.json") = None ∨ fileExists fs (at_root repoRoot "tsconfig.json") = false)) ∧
  (∀ style, style ∈ st_ArchStyle sc → "monolith"%string ∈ st_ArchStyle sc → style = "monolith"%string) ∧
  st_ArchStyle sc ≠ [] ∧
  (st_Greenfield sc = true ↔ st_Languages sc = [] ∧ st_Frameworks sc = []).
Proof.
  cbv zeta. destruct (detect_all_once fs repoRoot) as (Hl & Hf & Hm). split_and!; try done.
  - apply detect_languages_nil.
  - cbn [Detect st_ArchStyle detect_all de_ArchStyle]. unfold detectArchStyle. repeat (case_match; try done); set_solver.
  - cbn [Detect st_ArchStyle detect_all de_ArchStyle]. unfold detectArchStyle. by repeat case_match.
  - cbn [Detect st_Greenfield st_Languages st_Frameworks]. rewrite andb_true_iff, !is_nil_true. naive_solver.
Qed.
End Detection.
