(* ===== verification/InitPhase.v ===== *)
(** * The init phase

    [internal/application/init]: the cache key (key_builder.go, cache/key.go), the
    file cache (cache/file_cache.go), the dual persister (persister), and
    [Service.Run] (service.go). *)
From S2P Require Import Prelude Ids Json Envelope ChangeDomain GoPath Sha256 Lines SkillDomain SkillMatch Detector.
From stdpp Require Import list sorting strings.
From Stdlib Require Import Ascii.

(** ** The cache key *)

Definition bytes_of (s : string) : list Z := (λ c, Z.of_N (N_of_ascii c)) <$> chars s.
Definition sha_hex (s : string) : string := hex_encode (sha256 (bytes_of s)).
(** [hex.EncodeToString(sum[:8])] *)
Definition sha_hex8 (s : string) : string := hex_encode (take 8 (sha256 (bytes_of s))).

Definition nul : ascii := ascii_of_N 0.
Definition comma : ascii := ascii_of_N 44.
Definition join_text (sep : ascii) (ws : list string) : string := text (join_on sep (chars <$> ws)).
Definition sort_Strings : list string → list string := merge_sort String.le.

(** cache.CacheKey *)
Record CacheKey := mkCacheKey {
  ck_GraphifyVersion : string;
  ck_RepoRoot : string;
  ck_GitHead : string;
  ck_DirtyTreeHash : string;
  ck_IncludeGlobs : list string;
  ck_ConfigHash : string;
  ck_SophiaDetectorVer : string;
  ck_ManifestHash : string
}.

(** What [CacheKey.Hash] hashes. *)
Definition key_components (k : CacheKey) : list string :=
  [ ck_GraphifyVersion k; ck_RepoRoot k; ck_GitHead k; ck_DirtyTreeHash k;
    join_text comma (sort_Strings (ck_IncludeGlobs k));
    ck_ConfigHash k; ck_SophiaDetectorVer k; ck_ManifestHash k ].
Definition key_text (k : CacheKey) : string := join_text nul (key_components k).
Definition Hash (k : CacheKey) : string := sha_hex (key_text k).

(** key_builder.go, the same computation once more. *)
Definition computeCacheKeyHash (graphifyVersion repoRoot gitHead dirtyTreeHash : string) (includeGlobs : list string)
    (configHash sophiaDetectorVer manifestHash : string) : string :=
  let globsJoined := join_text comma (sort_Strings includeGlobs) in
  sha_hex (join_text nul
    [graphifyVersion; repoRoot; gitHead; dirtyTreeHash; globsJoined; configHash; sophiaDetectorVer; manifestHash]).

Definition manifestNames : list string :=
  ["Cargo.toml"; "build.gradle"; "go.mod"; "package.json"; "pom.xml"; "pyproject.toml"; "requirements.txt"]%string.

Definition absentSentinel : string := String (ascii_of_N 1) "<absent>".

(** What [computeManifestHash] writes to the hash. *)
Definition manifest_text (fs : FileSystem) (repoRoot : string) : string :=
  text (mjoin ((λ name,
    chars name ++ [nul] ++
    chars (match fs_read fs (GoPath.Join [repoRoot; name]) with Content s => s | _ => absentSentinel end) ++ [nul])
    <$> manifestNames)).
Definition computeManifestHash (fs : FileSystem) (repoRoot : string) : string := sha_hex8 (manifest_text fs repoRoot).

(** GitRunner: [None] is an error. *)
Record GitState := mkGit { git_head : option string; git_porcelain : option string }.

(** [KeyBuilder.Build]: it never fails. *)
Definition build_key (git : GitState) (fs : FileSystem) (repoRoot graphifyVersion : string) : CacheKey :=
  mkCacheKey graphifyVersion repoRoot (default EmptyString (git_head git))
    (sha_hex8 (default EmptyString (git_porcelain git))) ["**/*"%string]
    (sha_hex8 (match fs_read fs (GoPath.Join [repoRoot; ".sophia.yaml"%string]) with Content s => s | _ => EmptyString end))
    SophiaDetectorVer (computeManifestHash fs repoRoot).
Definition Build (git : GitState) (fs : FileSystem) (repoRoot graphifyVersion : string) : string :=
  let k := build_key git fs repoRoot graphifyVersion in
  computeCacheKeyHash (ck_GraphifyVersion k) (ck_RepoRoot k) (ck_GitHead k) (ck_DirtyTreeHash k) (ck_IncludeGlobs k)
    (ck_ConfigHash k) (ck_SophiaDetectorVer k) (ck_ManifestHash k).

(** ** Cache and memory *)

(** A file of the cache directory: a context as it was written, or anything
    else. *)
Inductive cache_file := CachedContext (sc : StructuralContext) | CorruptFile.

Record init_world := mkInitWorld {
  iw_cache : gmap string cache_file;
  iw_memory : list (string * StructuralContext)      (* ingested: topic key and content, newest first *)
}.

Inductive lookup_result := CacheHit (sc : StructuralContext) | ErrCacheMiss | ErrSchemaVersionMismatch.

(** [FileCache.Lookup] *)
Definition Lookup (ttl : Duration) (now : Time) (key : string) (cache : gmap string cache_file) : lookup_result :=
  match cache !! key with
  | None => ErrCacheMiss
  | Some CorruptFile => ErrCacheMiss
  | Some (CachedContext sc) =>
      if negb (st_SchemaVersion sc =? SchemaV1)%Z then ErrSchemaVersionMismatch
      else if (ttl <? now - st_DetectedAt sc)%Z then ErrCacheMiss
      else CacheHit sc
  end.

(** [FileCache.Write]: the temporary file is renamed into place, or any of its steps
    failed and nothing is there. *)
Definition Write (write_ok : bool) (key : string) (sc : StructuralContext) (cache : gmap string cache_file)
    : bool * gmap string cache_file :=
  if write_ok then (true, <[key := CachedContext sc]> cache) else (false, cache).

(** [DualPersister.Persist]: the topic key, and whether it returns no error. *)
Definition topic_key (changeName : string) : string := String.append "sdd/" (String.append changeName "/init").

Definition Persist (ingest_ok write_ok : bool) (sc : StructuralContext) (cacheKey : string) (w : init_world)
    : bool * init_world :=
  if negb ingest_ok then (false, w) else
  let memory := (topic_key (st_ChangeName sc), sc) :: iw_memory w in
  (true, mkInitWorld (Write write_ok cacheKey sc (iw_cache w)).2 memory).

(** ** The service *)

Definition buildEnvelope (c : Change) (sc : StructuralContext) : Envelope :=
  mkEnvelope SchemaVersionV1 "init" (ch_name c) (ch_project c) StatusDone f64_1
    "INIT phase complete: structural detection finished"
    (if str_empty (st_ChangeName sc) then [] else [mkArtifactRef (topic_key (st_ChangeName sc)) "sdd_init"])
    ["explore"%string] [] None.

(** What the collaborators answer during one run: the repository, graphify (its
    summary and version, or the reason it is degraded), the clock of the cache and
    of the service, memory engine and file system. *)
Record InitEnv := mkInitEnv {
  ie_git : GitState;
  ie_fs : FileSystem;
  ie_spawn : result string (option GraphSummary * string);
  ie_lookup_now : Time;
  ie_now : Time;
  ie_ingest_ok : bool;
  ie_write_ok : bool
}.

Section Init.
Context `{UnicodeTables} `{XmlDecoder}.

(** NewService: a TTL of zero is a day. *)
Context (ttl : Duration).

Definition merged (c : Change) (E : InitEnv) : StructuralContext :=
  let det := adapter_Detect (ie_fs E) "." in
  let '(summary, version, degraded) :=
    match ie_spawn E with
    | Ok (summary, version) => (summary, version, EmptyString)
    | Err reason => (None, EmptyString, reason)
    end in
  mkStructural SchemaV1 (ch_project c) (raw (ch_id c)) (ch_name c)
    (de_Languages det) (de_Frameworks det) (de_PackageManagers det) (de_ArchStyle det)
    summary [] (de_ConventionHints det) (match summary with Some _ => true | None => false end) degraded (ie_now E) version
    SophiaDetectorVer false.

(** [Service.Run]: detector and graphify run side by side and neither sees the
    other. *)
Definition Run (c : Change) (E : InitEnv) (w : init_world) : (StructuralContext * Envelope) * init_world :=
  let cacheKey := Build (ie_git E) (ie_fs E) "." EmptyString in
  let miss :=
    let sc := merged c E in
    let w' := (Persist (ie_ingest_ok E) (ie_write_ok E) sc cacheKey w).2 in
    ((sc, buildEnvelope c sc), w') in
  match Lookup ttl (ie_lookup_now E) cacheKey (iw_cache w) with
  | CacheHit cached =>
      if (st_SchemaVersion cached =? SchemaV1)%Z then ((cached, buildEnvelope c cached), w) else miss
  | _ => miss
  end.

(** The changes of a process, one after the other. *)
Definition run_all (runs : list (Change * InitEnv)) (w : init_world) : list (StructuralContext * Envelope) * init_world :=
  foldl (λ acc r, let x := Run r.1 r.2 acc.2 in (acc.1 ++ [x.1], x.2)) ([], w) runs.
End Init.

(** ** The key tells its components apart *)

Lemma join_on_inj sep ws ws' :
  ws ≠ [] → ws' ≠ [] → Forall (λ w, sep ∉ w) ws → Forall (λ w, sep ∉ w) ws' →
  join_on sep ws = join_on sep ws' → ws = ws'.
Proof. intros H1 H2 H3 H4 Heq. rewrite <-(split_join_on sep ws), <-(split_join_on sep ws') by done. by rewrite Heq. Qed.

Lemma join_text_inj sep ws ws' :
  ws ≠ [] → ws' ≠ [] → Forall (λ w, sep ∉ chars w) ws → Forall (λ w, sep ∉ chars w) ws' →
  join_text sep ws = join_text sep ws' → ws = ws'.
Proof.
  intros H1 H2 H3 H4 Heq. apply (inj text) in Heq. apply join_on_inj in Heq.
  - by apply (inj (fmap chars)).
  - by intros Hn%fmap_nil_inv.
  - by intros Hn%fmap_nil_inv.
  - by apply Forall_fmap.
  - by apply Forall_fmap.
Qed.

(** Components without the separators: no NUL, and no comma in a pattern. *)
Definition key_plain (k : CacheKey) : Prop :=
  ck_IncludeGlobs k ≠ [] ∧ Forall (λ g, comma ∉ chars g) (ck_IncludeGlobs k) ∧
  Forall (λ c, nul ∉ chars c) (key_components k).

Lemma key_text_inj k k' : key_plain k → key_plain k' → key_text k = key_text k' →
  k' = mkCacheKey (ck_GraphifyVersion k) (ck_RepoRoot k) (ck_GitHead k) (ck_DirtyTreeHash k) (ck_IncludeGlobs k')
         (ck_ConfigHash k) (ck_SophiaDetectorVer k) (ck_ManifestHash k) ∧
  ck_IncludeGlobs k ≡ₚ ck_IncludeGlobs k'.
Proof.
  intros (Hg & Hc & Hn) (Hg' & Hc' & Hn') Heq. apply join_text_inj in Heq; [|done|done|done|done].
  unfold key_components in Heq. injection Heq as H1 H2 H3 H4 H5 H6 H7 H8.
  assert (Hp : ∀ l, sort_Strings l ≡ₚ l) by (intros l; apply merge_sort_Permutation).
  assert (Hne : ∀ l, l ≠ [] → sort_Strings l ≠ []).
  { intros l Hl Hs. apply Hl. apply Permutation_nil_r. by rewrite <-Hs, Hp. }
  apply join_text_inj in H5; [|by apply Hne|by apply Hne|by rewrite Hp|by rewrite Hp].
  split; [destruct k, k'; by simplify_eq/=|]. by rewrite <-Hp, H5, Hp.
Qed.

Lemma Build_Hash git fs repoRoot version : Build git fs repoRoot version = Hash (build_key git fs repoRoot version).
Proof. done. Qed.

(** ** What runs return *)

#[local] Opaque sha256.

Section Runs.
Context `{UnicodeTables} `{XmlDecoder}.
Context (ttl : Duration).

Definition repo_key (E : InitEnv) : string := Build (ie_git E) (ie_fs E) "." EmptyString.

(** Every cached context was detected, for some change, in one of [runs]. *)
Definition cache_from (runs : list (Change * InitEnv)) (cache : gmap string cache_file) : Prop :=
  ∀ key sc, cache !! key = Some (CachedContext sc) →
    ∃ c E, (c, E) ∈ runs ∧ key = repo_key E ∧ sc = merged c E.

Lemma cache_from_mono runs runs' cache : runs ⊆ runs' → cache_from runs cache → cache_from runs' cache.
Proof. intros Hsub Hc key sc (c & E & Hin & ?)%Hc. exists c, E. split; [by apply Hsub|done]. Qed.

(** An outcome for the change [c] at the repository state of [E]. *)
Definition outcome_from (runs : list (Change * InitEnv)) (c : Change) (E : InitEnv) (x : StructuralContext * Envelope) : Prop :=
  x.2 = buildEnvelope c x.1 ∧
  ∃ c' E', (c', E') ∈ runs ∧ x.1 = merged c' E' ∧ repo_key E' = repo_key E ∧
    ((c', E') = (c, E) ∨ (ie_lookup_now E - ie_now E' <= ttl)%Z).

Lemma Persist_cache_from runs c E i wr w :
  (c, E) ∈ runs → cache_from runs (iw_cache w) → cache_from runs (iw_cache (Persist i wr (merged c E) (repo_key E) w).2).
Proof.
  intros Hin Hc. unfold Persist. destruct i; [|done]. destruct wr; [|done]. cbn.
  intros key sc [[<- [= <-]]|[_ Hk]]%lookup_insert_Some; [by exists c, E|by apply Hc].
Qed.

Lemma merged_detected c E : st_DetectedAt (merged c E) = ie_now E ∧ st_Greenfield (merged c E) = false ∧
  st_ChangeName (merged c E) = ch_name c ∧ st_SchemaVersion (merged c E) = SchemaV1.
Proof. unfold merged. by destruct (ie_spawn E) as [[[g|] v]|]. Qed.

Lemma Run_outcome runs c E w :
  (c, E) ∈ runs → cache_from runs (iw_cache w) →
  outcome_from runs c E (Run ttl c E w).1 ∧ cache_from runs (iw_cache (Run ttl c E w).2).
Proof.
  intros Hin Hc. assert (Hmiss : outcome_from runs c E (merged c E, buildEnvelope c (merged c E)) ∧
    cache_from runs (iw_cache (Persist (ie_ingest_ok E) (ie_write_ok E) (merged c E) (repo_key E) w).2)).
  { split; [|by apply Persist_cache_from]. split; [done|]. exists c, E. split_and!; [done|done|done|by left]. }
  unfold Run. fold (repo_key E). unfold Lookup.
  destruct (iw_cache w !! repo_key E) as [[cached|]|] eqn:Hl; [|exact Hmiss|exact Hmiss].
  destruct (st_SchemaVersion cached =? SchemaV1)%Z eqn:Hv; cbn [negb]; [|exact Hmiss].
  destruct (Z.ltb_spec ttl (ie_lookup_now E - st_DetectedAt cached)); [exact Hmiss|]. rewrite Hv.
  split; [|exact Hc]. split; [done|]. destruct (Hc _ _ Hl) as (c' & E' & Hin' & Hkey & ->). exists c', E'.
  destruct (merged_detected c' E') as (Hat & _). rewrite Hat in *. split_and!; [done|done|done|by right].
Qed.

Lemma run_all_snoc runs c E w :
  run_all ttl (runs ++ [(c, E)]) w =
    ((run_all ttl runs w).1 ++ [(Run ttl c E (run_all ttl runs w).2).1], (Run ttl c E (run_all ttl runs w).2).2).
Proof. unfold run_all. by rewrite foldl_app. Qed.

(** C26: (init contexts) in any sequence of init runs of a process that starts
    with an empty cache, whatever graphify, the memory engine and the file system
    answer, each run returns an envelope for its own change and a context that
    was detected, by itself or by an earlier run of the sequence, for a
    repository with the same cache key, and in the second case not longer ago
    than the time to live; the artifact the envelope names is that of the change
    of that run; and no context is ever marked as a new repository. *)
Theorem init_returns_detected_contexts runs memory :
  let '(outcomes, w) := run_all ttl runs (mkInitWorld ∅ memory) in
  length outcomes = length runs ∧
  ∀ i c E sc env, runs !! i = Some (c, E) → outcomes !! i = Some (sc, env) →
    env = buildEnvelope c sc ∧ st_Greenfield sc = false ∧
    ∃ c' E', (c', E') ∈ take (S i) runs ∧ sc = merged c' E' ∧ repo_key E' = repo_key E ∧
      ((c', E') = (c, E) ∨ (ie_lookup_now E - ie_now E' <= ttl)%Z) ∧
      (ch_name c' ≠ EmptyString → e_ArtifactsSaved env = [mkArtifactRef (topic_key (ch_name c')) "sdd_init"]).
Proof.
  assert (Hall : let '(outcomes, w) := run_all ttl runs (mkInitWorld ∅ memory) in
    cache_from runs (iw_cache w) ∧ length outcomes = length runs ∧
    ∀ i c E x, runs !! i = Some (c, E) → outcomes !! i = Some x → outcome_from (take (S i) runs) c E x).
  { induction runs as [|[c E] runs IH] using rev_ind.
    - cbn. split_and!; [|done|done]. intros key sc Hk. by rewrite lookup_empty in Hk.
    - rewrite run_all_snoc. destruct (run_all ttl runs _) as [outcomes w]. cbn [fst snd]. destruct IH as (Hc & Hlen & Hout).
      apply (cache_from_mono _ (runs ++ [(c, E)])) in Hc; [|set_solver].
      destruct (Run_outcome (runs ++ [(c, E)]) c E w) as [Ho Hc']; [set_solver|done|]. split_and!; [done|rewrite !length_app; simpl; lia|].
      intros i c0 E0 x Hr Hx. apply lookup_app_Some in Hr as [Hr|[Hge Hr]].
      + apply lookup_lt_Some in Hr as Hlt. rewrite lookup_app_l in Hx by lia. rewrite take_app_le by lia. by apply Hout.
      + apply list_lookup_singleton_Some in Hr as [Hi [= <- <-]]. assert (i = length runs) as -> by lia.
        rewrite <-Hlen, lookup_app_r, Nat.sub_diag in Hx by lia. simplify_eq/=. rewrite take_ge by (rewrite length_app; simpl; lia).
        exact Ho. }
  destruct (run_all ttl runs _) as [outcomes w]. destruct Hall as (_ & Hlen & Hout). split; [done|].
  intros i c E sc env Hr Hx. destruct (Hout _ _ _ _ Hr Hx) as (He & c' & E' & Hin & Hsc & Hk & Ht). cbn [fst snd] in *.
  destruct (merged_detected c' E') as (_ & Hg & Hn & _). split; [done|]. split; [by rewrite Hsc|]. exists c', E'.
  split_and!; try done. intros Hne. rewrite He, Hsc. unfold buildEnvelope. cbn [e_ArtifactsSaved]. rewrite Hn.
  unfold str_empty. by rewrite bool_decide_eq_false_2.
Qed.

(** What a change gets from a repository another change has just looked at: the
    other's context and artifact; nothing is recorded for it. *)
Lemma second_change_is_not_recorded c1 E1 c2 E2 w :
  iw_cache w !! repo_key E1 = None → repo_key E2 = repo_key E1 → ie_ingest_ok E1 = true → ie_write_ok E1 = true →
  (ie_lookup_now E2 - ie_now E1 <= ttl)%Z →
  let w1 := (Run ttl c1 E1 w).2 in
  Run ttl c2 E2 w1 = ((merged c1 E1, buildEnvelope c2 (merged c1 E1)), w1) ∧
  iw_memory w1 = (topic_key (ch_name c1), merged c1 E1) :: iw_memory w.
Proof.
  intros Hnone Hkey Hi Hwr Hage. destruct (merged_detected c1 E1) as (Hat & _ & Hn & Hv).
  assert (H1 : (Run ttl c1 E1 w).2 = mkInitWorld (<[repo_key E1 := CachedContext (merged c1 E1)]> (iw_cache w))
                 ((topic_key (ch_name c1), merged c1 E1) :: iw_memory w)).
  { unfold Run. fold (repo_key E1). unfold Lookup. rewrite Hnone, Hi, Hwr. unfold Persist. cbn [negb snd]. by rewrite Hn. }
  cbv zeta. rewrite H1. split; [|done]. unfold Run. fold (repo_key E2). rewrite Hkey. unfold Lookup.
  cbn [iw_cache]. rewrite lookup_insert_eq. cbv beta iota. rewrite Hv, Hat. change (negb (SchemaV1 =? SchemaV1)%Z) with false. cbv iota.
  rewrite (proj2 (Z.ltb_ge _ _)) by lia. cbv iota. by rewrite Hv.
Qed.
End Runs.
