(* ===== verification/EventStream.v ===== *)
(** * Event stream

    [internal/application/eventstream/stream.go], [pg/event_store.go] and the
    handler of [internal/adapters/inbound/http/handlers/sse.go]: events are stored
    and then sent to the channels of the live subscribers; a client that comes
    back first gets what was stored since the last event it saw.

    Goroutines interleave between any two steps: a publisher stores its event,
    copies the list of subscribers and sends to one after the other; the sequence
    number of an event is drawn before the insert commits, as PostgreSQL draws the
    default of a BIGSERIAL column. *)
From S2P Require Import Prelude Ids Json PhaseDomain Store Lines SkillDomain.
From stdpp Require Import list gmap sorting.
From Stdlib Require Import Ascii.

(** ** State *)

(** inbound.Event, with what identifies its content. *)
Record Event := mkEvent { ev_Type : string; ev_Payload : string; ev_Sequence : Z }.
#[global] Instance Event_eq_dec : EqDecision Event.
Proof. solve_decision. Defined.

Definition DefaultBufferSize : nat := 32.
(** New: a size that is not positive is the default. *)
Definition buffer_size (bufSize : Z) : nat := if (bufSize <=? 0)%Z then DefaultBufferSize else Z.to_nat bufSize.

Record channel := mkChannel { ch_phase : PhaseID; ch_buf : list Event; ch_closed : bool }.

(** A call of Publish under way. *)
Inductive publisher :=
  | Appending (p : PhaseID) (ev : Event)                   (* the insert has not committed *)
  | Appended (p : PhaseID) (ev : Event)                    (* before the copy of the subscribers *)
  | Sending (p : PhaseID) (ev : Event) (subs : list nat).

(** A connection of the SSE handler: its channel, where its client was, the last
    replayed sequence once it has replayed, and what was written to the client. *)
Record connection := mkConn {
  cn_phase : PhaseID; cn_sub : nat; cn_since : Z; cn_maxReplayed : option Z; cn_out : list Event
}.

Record stream := mkStream {
  s_seq : Z;                                    (* the last sequence number drawn *)
  s_log : list (PhaseID * Event);               (* committed rows of phase_events *)
  s_topics : gmap PhaseID (list nat);
  s_chans : gmap nat channel;
  s_nextsub : nat;
  s_pubs : gmap nat publisher;
  s_conns : gmap nat connection;
  s_dropped : list (nat * Event);               (* what dropFn was told *)
  s_panic : bool
}.

Definition stream0 : stream := mkStream 0 [] ∅ ∅ 0 ∅ ∅ [] false.

Definition with_topics t (w : stream) : stream :=
  mkStream (s_seq w) (s_log w) t (s_chans w) (s_nextsub w) (s_pubs w) (s_conns w) (s_dropped w) (s_panic w).
Definition with_chans c (w : stream) : stream :=
  mkStream (s_seq w) (s_log w) (s_topics w) c (s_nextsub w) (s_pubs w) (s_conns w) (s_dropped w) (s_panic w).
Definition with_pubs u (w : stream) : stream :=
  mkStream (s_seq w) (s_log w) (s_topics w) (s_chans w) (s_nextsub w) u (s_conns w) (s_dropped w) (s_panic w).
Definition with_conns c (w : stream) : stream :=
  mkStream (s_seq w) (s_log w) (s_topics w) (s_chans w) (s_nextsub w) (s_pubs w) c (s_dropped w) (s_panic w).

Definition subs_of (p : PhaseID) (w : stream) : list nat := default [] (s_topics w !! p).

(** ** stream.go *)

Section Stream.
Context (bufSize : nat).

Definition Subscribe (p : PhaseID) (w : stream) : nat * stream :=
  let s := s_nextsub w in
  (s, mkStream (s_seq w) (s_log w) (<[p := subs_of p w ++ [s]]> (s_topics w)) (<[s := mkChannel p [] false]> (s_chans w))
        (S s) (s_pubs w) (s_conns w) (s_dropped w) (s_panic w)).

(** The cancel function of a subscription; a second call does nothing. *)
Definition cancel (s : nat) (w : stream) : stream :=
  match s_chans w !! s with
  | None => w
  | Some c =>
      let subs := subs_of (ch_phase c) w in
      if bool_decide (s ∈ subs) then
        let rest := filter (λ x, x ≠ s) subs in
        with_chans (<[s := mkChannel (ch_phase c) (ch_buf c) true]> (s_chans w))
          (with_topics (match rest with [] => delete (ch_phase c) (s_topics w) | _ => <[ch_phase c := rest]> (s_topics w) end) w)
      else w
  end.

(** Publish, first half: EventStore.Append. *)
Definition publish_begin (tid : nat) (p : PhaseID) (type payload : string) (w : stream) : stream :=
  match s_pubs w !! tid with
  | Some _ => w
  | None =>
      let seq := (s_seq w + 1)%Z in
      mkStream seq (s_log w) (s_topics w) (s_chans w) (s_nextsub w)
        (<[tid := Appending p (mkEvent type payload seq)]> (s_pubs w)) (s_conns w) (s_dropped w) (s_panic w)
  end.
(** Append's answer: the row is stored and its number known; or an error, with the
    row stored all the same ([FailAfter]: the commit took effect and its answer was
    lost) or not.  After an error the event goes on without a number. *)
Definition publish_append (tid : nat) (answer : fault) (w : stream) : stream :=
  match s_pubs w !! tid with
  | Some (Appending p ev) =>
      let ev' := match answer with NoFault => ev | _ => mkEvent (ev_Type ev) (ev_Payload ev) 0 end in
      let log := match answer with FailBefore => s_log w | _ => s_log w ++ [(p, ev)] end in
      mkStream (s_seq w) log (s_topics w) (s_chans w) (s_nextsub w)
        (<[tid := Appended p ev']> (s_pubs w)) (s_conns w) (s_dropped w) (s_panic w)
  | _ => w
  end.
(** Second half: the copy under the read lock, then one send at a time.  A send on
    a closed channel panics, also in a select with a default. *)
Definition publish_snapshot (tid : nat) (w : stream) : stream :=
  match s_pubs w !! tid with
  | Some (Appended p ev) => with_pubs (<[tid := Sending p ev (subs_of p w)]> (s_pubs w)) w
  | _ => w
  end.
Definition publish_send (tid : nat) (w : stream) : stream :=
  match s_pubs w !! tid with
  | Some (Sending p ev []) => with_pubs (delete tid (s_pubs w)) w
  | Some (Sending p ev (s :: subs)) =>
      match s_chans w !! s with
      | None => w
      | Some c =>
          if ch_closed c then
            mkStream (s_seq w) (s_log w) (s_topics w) (s_chans w) (s_nextsub w) (delete tid (s_pubs w)) (s_conns w) (s_dropped w) true
          else
            let pubs := <[tid := Sending p ev subs]> (s_pubs w) in
            if length (ch_buf c) <? bufSize then
              mkStream (s_seq w) (s_log w) (s_topics w) (<[s := mkChannel (ch_phase c) (ch_buf c ++ [ev]) false]> (s_chans w))
                (s_nextsub w) pubs (s_conns w) (s_dropped w) (s_panic w)
            else
              mkStream (s_seq w) (s_log w) (s_topics w) (s_chans w) (s_nextsub w) pubs (s_conns w) (s_dropped w ++ [(s, ev)]) (s_panic w)
      end
  | _ => w
  end.

Definition SubscriberCount (p : PhaseID) (w : stream) : nat := length (subs_of p w).

(** ** event_store.go *)

Definition event_le (x y : Event) : Prop := (ev_Sequence x <= ev_Sequence y)%Z.
#[global] Instance event_le_dec : RelDecision event_le.
Proof. intros x y. unfold event_le. apply _. Defined.

(** The events of a phase after [sinceSeq], ORDER BY id. *)
Definition stored (p : PhaseID) (sinceSeq : Z) (log : list (PhaseID * Event)) : list Event :=
  (filter (λ r, r.1 = p ∧ (sinceSeq < ev_Sequence r.2)%Z) log).*2.
Definition Replay (p : PhaseID) (sinceSeq : Z) (log : list (PhaseID * Event)) : list Event :=
  merge_sort event_le (stored p sinceSeq log).

(** ** sse.go *)

Definition digits_only (l : list ascii) : bool := match l with [] => false | _ => forallb is_digit l end.

(** [strconv.ParseInt(raw, 10, 64)]; negative values and errors are 0. *)
Definition parseLastEventID (raw : string) : Z :=
  match chars raw with
  | [] => 0
  | a :: rest =>
      let n := if bool_decide (a = "-"%char) then (if digits_only rest then Some (- digits_value rest) else None)%Z
               else if bool_decide (a = "+"%char) then (if digits_only rest then Some (digits_value rest) else None)
               else if digits_only (a :: rest) then Some (digits_value (a :: rest)) else None in
      match n with
      | Some n => if (n <? 2 ^ 63)%Z && (- 2 ^ 63 <=? n)%Z then (if (n <? 0)%Z then 0 else n)%Z else 0%Z
      | None => 0%Z
      end
  end.

(** The answer before a stream is opened: [None] goes on. *)
Inductive sse_refusal := SseNotFound | SseError | SseGone (status : PhaseStatus).
Definition sse_admit (lookup : result store_error Phase) : option sse_refusal :=
  match lookup with
  | Err ErrNotFound => Some SseNotFound
  | Err _ => Some SseError
  | Ok p => if ps_IsTerminal (p_status p) then Some (SseGone (p_status p)) else None
  end.

Definition sse_open (cid : nat) (p : PhaseID) (sinceSeq : Z) (w : stream) : stream :=
  match s_conns w !! cid with
  | Some _ => w
  | None => let '(s, w') := Subscribe p w in with_conns (<[cid := mkConn p s sinceSeq None []]> (s_conns w')) w'
  end.

Definition maxSequence (evs : list Event) : Z := foldl (λ m ev, Z.max m (ev_Sequence ev)) 0%Z evs.

(** The history; an error ends the handler, whose deferred cancel runs. *)
Definition sse_close (cid : nat) (w : stream) : stream :=
  match s_conns w !! cid with
  | Some c => with_conns (delete cid (s_conns w)) (cancel (cn_sub c) w)
  | None => w
  end.
Definition sse_replay (cid : nat) (ok : bool) (w : stream) : stream :=
  match s_conns w !! cid with
  | Some (mkConn p s since None out) =>
      if ok then
        let historical := Replay p since (s_log w) in
        with_conns (<[cid := mkConn p s since (Some (maxSequence historical)) (out ++ historical)]> (s_conns w)) w
      else sse_close cid w
  | _ => w
  end.
(** One turn of the live loop that finds an event. *)
Definition sse_live (cid : nat) (w : stream) : stream :=
  match s_conns w !! cid with
  | Some (mkConn p s since (Some m) out) =>
      match s_chans w !! s with
      | Some (mkChannel cp (ev :: buf) closed) =>
          let skip := (0 <? ev_Sequence ev)%Z && (ev_Sequence ev <=? m)%Z in
          with_conns (<[cid := mkConn p s since (Some m) (if skip then out else out ++ [ev])]> (s_conns w))
            (with_chans (<[s := mkChannel cp buf closed]> (s_chans w)) w)
      | _ => w
      end
  | _ => w
  end.

(** ** Runs *)

Inductive action :=
  | PublishBegin (tid : nat) (p : PhaseID) (type payload : string)
  | PublishAppend (tid : nat) (answer : fault)
  | PublishSnapshot (tid : nat)
  | PublishSend (tid : nat)
  | SseOpen (cid : nat) (p : PhaseID) (sinceSeq : Z)
  | SseReplay (cid : nat) (ok : bool)
  | SseLive (cid : nat)
  | SseClose (cid : nat).

Definition act (a : action) : stream → stream :=
  match a with
  | PublishBegin tid p ty pl => publish_begin tid p ty pl
  | PublishAppend tid answer => publish_append tid answer
  | PublishSnapshot tid => publish_snapshot tid
  | PublishSend tid => publish_send tid
  | SseOpen cid p since => sse_open cid p since
  | SseReplay cid ok => sse_replay cid ok
  | SseLive cid => sse_live cid
  | SseClose cid => sse_close cid
  end.

Definition run_actions (acts : list action) (w : stream) : stream := foldl (λ w a, act a w) w acts.
End Stream.

(** ** What every interleaving keeps *)

Section Kept.
Context (bufSize : nat).

Record wf (w : stream) : Prop := {
  wf_chan s c : s_chans w !! s = Some c →
    s < s_nextsub w ∧ length (ch_buf c) ≤ bufSize ∧ (ch_closed c = false ↔ s ∈ subs_of (ch_phase c) w);
  wf_topic p l : s_topics w !! p = Some l → l ≠ [] ∧ NoDup l;
  wf_sub p s : s ∈ subs_of p w → ∃ k cn, s_conns w !! k = Some cn ∧ cn_sub cn = s ∧ cn_phase cn = p;
  wf_pub t p ev l : s_pubs w !! t = Some (Sending p ev l) →
    NoDup l ∧ ∀ s, s ∈ l → ∃ c, s_chans w !! s = Some c ∧ ch_phase c = p;
  wf_conn k cn : s_conns w !! k = Some cn →
    ∃ c, s_chans w !! cn_sub cn = Some c ∧ ch_phase c = cn_phase cn ∧ ch_closed c = false;
  wf_conn_inj k k' cn cn' : s_conns w !! k = Some cn → s_conns w !! k' = Some cn' → cn_sub cn = cn_sub cn' → k = k'
}.

Lemma wf0 : wf stream0.
Proof. split; cbn; intros *; try (by rewrite lookup_empty). by intros Hs%elem_of_nil. Qed.

(** Only publishers, log, sequence or drops differ. *)
Lemma wf_publishers w w' :
  wf w → s_topics w' = s_topics w → s_chans w' = s_chans w → s_nextsub w' = s_nextsub w → s_conns w' = s_conns w →
  (∀ t p ev l, s_pubs w' !! t = Some (Sending p ev l) → NoDup l ∧ ∀ s, s ∈ l → ∃ c, s_chans w !! s = Some c ∧ ch_phase c = p) →
  wf w'.
Proof.
  intros [H1 H2 H3 H4 H5 H6] Ht Hc Hn Hk Hp. unfold subs_of in *.
  split; unfold subs_of; rewrite ?Ht, ?Hc, ?Hn, ?Hk; done.
Qed.

Lemma wf_subs_NoDup w p : wf w → NoDup (subs_of p w).
Proof.
  intros Hw. unfold subs_of. destruct (s_topics w !! p) as [l|] eqn:Hl; [by apply (wf_topic w Hw p)|constructor].
Qed.
Lemma wf_subs_chan w p s : wf w → s ∈ subs_of p w → ∃ c, s_chans w !! s = Some c ∧ ch_phase c = p ∧ ch_closed c = false.
Proof.
  intros Hw (k & cn & Hk & <- & <-)%(wf_sub w Hw). by apply (wf_conn w Hw k).
Qed.

Lemma wf_publish_begin tid p ty pl w : wf w → wf (publish_begin tid p ty pl w).
Proof.
  intros Hw. unfold publish_begin. destruct (s_pubs w !! tid) eqn:Ht; [done|].
  apply (wf_publishers w); try done. cbn. intros t q ev l [[<- ?]|[? Hl]]%lookup_insert_Some; [done|]. by apply (wf_pub w Hw t q ev).
Qed.
Lemma wf_publish_append tid f w : wf w → wf (publish_append tid f w).
Proof.
  intros Hw. unfold publish_append. destruct (s_pubs w !! tid) as [[]|] eqn:Ht; try done.
  apply (wf_publishers w); try done. cbn. intros t q e l [[<- ?]|[? Hl]]%lookup_insert_Some; [done|]. by apply (wf_pub w Hw t q e).
Qed.
Lemma wf_publish_snapshot tid w : wf w → wf (publish_snapshot tid w).
Proof.
  intros Hw. unfold publish_snapshot. destruct (s_pubs w !! tid) as [[]|] eqn:Ht; try done.
  apply (wf_publishers w); try done. cbn. intros t q e l [[<- ?]|[? Hl]]%lookup_insert_Some; [|by apply (wf_pub w Hw t q e)].
  simplify_eq. split; [by apply wf_subs_NoDup|]. intros s Hs. destruct (wf_subs_chan w q s Hw Hs) as (c & ? & ? & _). eauto.
Qed.

(** A channel whose buffer alone changes. *)
Lemma wf_buffer w s c buf :
  wf w → s_chans w !! s = Some c → length buf ≤ bufSize →
  wf (with_chans (<[s := mkChannel (ch_phase c) buf (ch_closed c)]> (s_chans w)) w).
Proof.
  intros Hw Hs Hlen. pose proof Hw as [H1 H2 H3 H4 H5 H6].
  assert (Hsame : ∀ s' c', s_chans w !! s' = Some c' → ∃ c'', <[s := mkChannel (ch_phase c) buf (ch_closed c)]> (s_chans w) !! s' = Some c'' ∧
            ch_phase c'' = ch_phase c' ∧ ch_closed c'' = ch_closed c').
  { intros s' c' Hc'. destruct (decide (s' = s)) as [->|].
    - simplify_eq. eexists. by rewrite lookup_insert_eq.
    - exists c'. by rewrite lookup_insert_ne. }
  split; cbn [with_chans s_chans s_topics s_nextsub s_pubs s_conns]; try done.
  - intros s' c' [[<- <-]|[Hne Hc']]%lookup_insert_Some; cbn.
    + destruct (H1 s c Hs) as (? & _ & ?). done.
    + by apply H1.
  - intros t p ev l Hl. destruct (H4 _ _ _ _ Hl) as [Hnd Hin]. split; [done|]. intros s' Hs'.
    destruct (Hin s' Hs') as (c' & Hc' & <-). destruct (Hsame _ _ Hc') as (c'' & ? & ? & ?). eauto.
  - intros k cn Hk. destruct (H5 k cn Hk) as (c' & Hc' & <- & Ho). destruct (Hsame _ _ Hc') as (c'' & ? & ? & ?). exists c''. split_and!; congruence.
Qed.

Lemma wf_publish_send tid w : wf w → wf (publish_send bufSize tid w).
Proof.
  intros Hw. unfold publish_send. destruct (s_pubs w !! tid) as [[p ev|p ev|p ev [|s subs]]|] eqn:Ht; try done.
  - apply (wf_publishers w); try done. cbn. intros t q e l [? Hl]%lookup_delete_Some. by apply (wf_pub w Hw t q e).
  - destruct (s_chans w !! s) as [c|] eqn:Hs; [|done]. destruct (wf_pub w Hw _ _ _ _ Ht) as [[Hns Hnd]%NoDup_cons Hin].
    assert (Hpubs : ∀ t q e l, <[tid := Sending p ev subs]> (s_pubs w) !! t = Some (Sending q e l) →
              NoDup l ∧ ∀ s, s ∈ l → ∃ c, s_chans w !! s = Some c ∧ ch_phase c = q).
    { intros t q e l [[<- ?]|[? Hl]]%lookup_insert_Some; [simplify_eq; split; [done|set_solver]|]. by apply (wf_pub w Hw t q e). }
    destruct (ch_closed c) eqn:Hcl.
    + apply (wf_publishers w); try done. cbn. intros t q e l [? Hl]%lookup_delete_Some. by apply (wf_pub w Hw t q e).
    + destruct (Nat.ltb_spec (length (ch_buf c)) bufSize).
      * apply (wf_publishers (with_chans (<[s := mkChannel (ch_phase c) (ch_buf c ++ [ev]) (ch_closed c)]> (s_chans w)) w)); try done.
        -- apply wf_buffer; try done. rewrite length_app. simpl. lia.
        -- cbn. by rewrite Hcl.
        -- cbn. intros t q e l Hl. destruct (Hpubs t q e l Hl) as [? Hl2]. split; [done|]. intros s' Hs'.
           destruct (Hl2 s' Hs') as (c' & Hc' & <-). destruct (decide (s' = s)) as [->|].
           ++ simplify_eq. eexists. by rewrite lookup_insert_eq.
           ++ exists c'. by rewrite lookup_insert_ne.
      * by apply (wf_publishers w).
Qed.

Lemma subs_of_insert p p' l (w w' : stream) :
  s_topics w' = <[p := l]> (s_topics w) → subs_of p' w' = if decide (p' = p) then l else subs_of p' w.
Proof.
  intros Ht. unfold subs_of. rewrite Ht. destruct (decide (p' = p)) as [->|]; [by rewrite lookup_insert_eq|by rewrite lookup_insert_ne].
Qed.

Lemma wf_sse_open k p since w : wf w → wf (sse_open k p since w).
Proof.
  intros Hw. unfold sse_open. destruct (s_conns w !! k) eqn:Hk; [done|]. cbn [Subscribe fst snd]. pose proof Hw as [H1 H2 H3 H4 H5 H6].
  set (s := s_nextsub w). set (w' := with_conns _ _).
  assert (Hsubs : ∀ q, subs_of q w' = if decide (q = p) then subs_of p w ++ [s] else subs_of q w) by (intros q; by apply subs_of_insert).
  assert (Hfresh : s_chans w !! s = None).
  { destruct (s_chans w !! s) as [c|] eqn:Hc; [|done]. destruct (H1 s c Hc). unfold s in *. lia. }
  assert (Hnew : ∀ q, s ∉ subs_of q w) by (intros q Hin; destruct (wf_subs_chan w q s Hw Hin) as (c & ? & _); congruence).
  assert (Hin : ∀ q t, t ∈ subs_of q w' ↔ t ∈ subs_of q w ∨ (q = p ∧ t = s)).
  { intros q t. rewrite Hsubs. destruct (decide (q = p)) as [->|]; set_solver. }
  split; cbn [w' with_conns s_chans s_topics s_nextsub s_pubs s_conns].
  - intros t c [[<- <-]|[Hne Hc]]%lookup_insert_Some; rewrite Hin; cbn.
    + split; [unfold s; lia|]. split; [lia|]. naive_solver.
    + destruct (H1 t c Hc) as (? & ? & Hcl). split; [unfold s in *; lia|]. split; [done|]. rewrite Hcl. naive_solver.
  - intros q l [[<- <-]|[Hne Hl]]%lookup_insert_Some; [|by apply (H2 q)]. split; [by destruct (subs_of p w)|].
    apply NoDup_app. split_and!; [by apply wf_subs_NoDup| |apply NoDup_singleton]. intros t Ht ->%list_elem_of_singleton. by apply (Hnew p).
  - intros q t [Ht|[-> ->]]%Hin.
    + destruct (H3 q t Ht) as (k' & cn & Hk' & ? & ?). exists k', cn. rewrite lookup_insert_ne; [done|congruence].
    + eexists k, _. by rewrite lookup_insert_eq.
  - intros t q ev l Hl. destruct (H4 t q ev l Hl) as [? Hl2]. split; [done|]. intros x Hx. destruct (Hl2 x Hx) as (c & Hc & ?).
    exists c. rewrite lookup_insert_ne; [done|congruence].
  - intros k' cn [[<- <-]|[Hne Hk']]%lookup_insert_Some; cbn.
    + eexists. by rewrite lookup_insert_eq.
    + destruct (H5 k' cn Hk') as (c & Hc & ?). exists c. rewrite lookup_insert_ne; [done|congruence].
  - assert (Hold : ∀ k' cn, s_conns w !! k' = Some cn → cn_sub cn ≠ s) by (intros k' cn Hk' Heq; destruct (H5 k' cn Hk') as (c & Hc & _); congruence).
    intros k1 k2 c1 c2 [[<- <-]|[Hn1 Hk1]]%lookup_insert_Some [[<- <-]|[Hn2 Hk2]]%lookup_insert_Some; cbn; intros Heq; [done| | |by eapply H6].
    + by destruct (Hold _ _ Hk2).
    + by destruct (Hold _ _ Hk1).
Qed.

(** What closing a connection leaves: its channel is closed and gone from its
    topic, the others are as they were. *)
Lemma sse_close_spec k cn w :
  wf w → s_conns w !! k = Some cn →
  ∃ c, s_chans w !! cn_sub cn = Some c ∧ ch_phase c = cn_phase cn ∧
    sse_close k w = mkStream (s_seq w) (s_log w) (s_topics (sse_close k w))
      (<[cn_sub cn := mkChannel (ch_phase c) (ch_buf c) true]> (s_chans w)) (s_nextsub w) (s_pubs w) (delete k (s_conns w))
      (s_dropped w) (s_panic w) ∧
    (∀ p, subs_of p (sse_close k w) = filter (λ x, x ≠ cn_sub cn) (subs_of p w)) ∧
    (∀ p l, s_topics (sse_close k w) !! p = Some l → l ≠ []).
Proof.
  intros Hw Hk. destruct (wf_conn w Hw k cn Hk) as (c & Hc & Hp & Ho). exists c. split; [done|]. split; [done|].
  destruct (wf_chan w Hw _ _ Hc) as (_ & _ & Hin). apply Hin in Ho. unfold sse_close. rewrite Hk. unfold cancel. rewrite Hc.
  rewrite bool_decide_eq_true_2 by done. set (rest := filter (λ x, x ≠ cn_sub cn) (subs_of (ch_phase c) w)).
  split; [done|]. cbn [with_conns with_chans with_topics s_topics].
  assert (Hother : ∀ p, p ≠ ch_phase c → filter (λ x, x ≠ cn_sub cn) (subs_of p w) = subs_of p w).
  { intros p Hne. apply filter_all. intros s Hs ->. destruct (wf_subs_chan w p _ Hw Hs) as (c' & ? & ? & _). congruence. }
  split.
  - intros p. unfold subs_of at 1. cbn. destruct (decide (p = ch_phase c)) as [->|Hne].
    + fold rest. destruct rest; [by rewrite lookup_delete_eq|by rewrite lookup_insert_eq].
    + rewrite Hother by done. destruct rest; [by rewrite lookup_delete_ne|by rewrite lookup_insert_ne].
  - intros p l. destruct rest eqn:Hr.
    + intros [_ Hl]%lookup_delete_Some. by apply (wf_topic w Hw p).
    + intros [[<- <-]|[_ Hl]]%lookup_insert_Some; [done|]. by apply (wf_topic w Hw p).
Qed.

Lemma wf_sse_close k w : wf w → wf (sse_close k w).
Proof.
  intros Hw. destruct (s_conns w !! k) as [cn|] eqn:Hk; [|unfold sse_close; by rewrite Hk].
  destruct (sse_close_spec k cn w Hw Hk) as (c & Hc & Hp & Heq & Hsubs & Hne). pose proof Hw as [H1 H2 H3 H4 H5 H6].
  set (w' := sse_close k w) in *.
  assert (Hchan : s_chans w' = <[cn_sub cn := mkChannel (ch_phase c) (ch_buf c) true]> (s_chans w)) by (by rewrite Heq).
  assert (Hconn : s_conns w' = delete k (s_conns w)) by (by rewrite Heq).
  assert (Hpub : s_pubs w' = s_pubs w) by (by rewrite Heq). assert (Hnx : s_nextsub w' = s_nextsub w) by (by rewrite Heq).
  assert (Hin : ∀ q t, t ∈ subs_of q w' ↔ t ∈ subs_of q w ∧ t ≠ cn_sub cn) by (intros q t; rewrite Hsubs, list_elem_of_filter; naive_solver).
  split; rewrite ?Hchan, ?Hconn, ?Hpub, ?Hnx.
  - intros s x [[<- <-]|[Hx Hs]]%lookup_insert_Some; rewrite Hin; cbn.
    + destruct (H1 _ _ Hc) as (? & ? & _). split_and!; try done. naive_solver.
    + destruct (H1 _ _ Hs) as (? & ? & Hcl). split_and!; try done. rewrite Hcl. naive_solver.
  - intros p l Hl. split; [by apply (Hne p)|]. assert (subs_of p w' = l) as <- by (unfold subs_of; by rewrite Hl).
    rewrite Hsubs. by apply NoDup_filter, wf_subs_NoDup.
  - intros p s [Hs Hx]%Hin. destruct (H3 p s Hs) as (k' & cn' & Hk' & <- & <-). exists k', cn'.
    rewrite lookup_delete_ne; [done|]. intros ->. congruence.
  - intros t p ev l Hl. destruct (H4 t p ev l Hl) as [Hnd Hl2]. split; [done|]. intros s Hs. destruct (Hl2 s Hs) as (x & Hx & <-).
    destruct (decide (s = cn_sub cn)) as [->|]; [|exists x; by rewrite lookup_insert_ne].
    eexists. rewrite lookup_insert_eq. split; [done|]. cbn. congruence.
  - intros k' cn' [Hkk Hk']%lookup_delete_Some. destruct (H5 k' cn' Hk') as (x & Hx & ?). exists x.
    rewrite lookup_insert_ne; [done|]. intros Heqs. by apply Hkk, (H6 k k' cn cn').
  - intros k1 k2 c1 c2 [_ Hk1]%lookup_delete_Some [_ Hk2]%lookup_delete_Some. by apply H6.
Qed.

(** A connection that moves on without leaving its channel. *)
Lemma wf_conn_update k cn cn' w :
  wf w → s_conns w !! k = Some cn → cn_sub cn' = cn_sub cn → cn_phase cn' = cn_phase cn →
  wf (with_conns (<[k := cn']> (s_conns w)) w).
Proof.
  intros [H1 H2 H3 H4 H5 H6] Hk Hs Hp. split; try done; cbn.
  - intros p s (k' & x & Hk' & ? & ?)%H3. destruct (decide (k' = k)) as [->|].
    + simplify_eq. exists k, cn'. by rewrite lookup_insert_eq.
    + exists k', x. by rewrite lookup_insert_ne.
  - intros k' x [[<- <-]|[_ Hk']]%lookup_insert_Some; [rewrite Hs, Hp|]; by eapply H5.
  - intros k1 k2 c1 c2 [[<- <-]|[? Hk1]]%lookup_insert_Some [[<- <-]|[? Hk2]]%lookup_insert_Some; [done| | |by apply H6];
      rewrite Hs; intros Heq; by eapply H6.
Qed.

Lemma wf_sse_replay k ok w : wf w → wf (sse_replay k ok w).
Proof.
  intros Hw. unfold sse_replay. destruct (s_conns w !! k) as [[p s since [m|] out]|] eqn:Hk; try done.
  destruct ok; [by eapply wf_conn_update|by apply wf_sse_close].
Qed.

Lemma wf_sse_live k w : wf w → wf (sse_live k w).
Proof.
  intros Hw. unfold sse_live. destruct (s_conns w !! k) as [[p s since [m|] out]|] eqn:Hk; try done.
  destruct (s_chans w !! s) as [[cp [|ev buf] closed]|] eqn:Hs; try done.
  refine (wf_conn_update k _ _ (with_chans _ w) _ Hk _ _); [|done|done]. apply (wf_buffer w s _ buf Hw Hs).
  destruct (wf_chan w Hw _ _ Hs) as (_ & Hlen & _). cbn in Hlen. lia.
Qed.

Lemma wf_act a w : wf w → wf (act bufSize a w).
Proof.
  destruct a; cbn [act].
  - apply wf_publish_begin.
  - apply wf_publish_append.
  - apply wf_publish_snapshot.
  - apply wf_publish_send.
  - apply wf_sse_open.
  - apply wf_sse_replay.
  - apply wf_sse_live.
  - apply wf_sse_close.
Qed.

Lemma run_actions_snoc acts a w : run_actions bufSize (acts ++ [a]) w = act bufSize a (run_actions bufSize acts w).
Proof. unfold run_actions. by rewrite foldl_app. Qed.

Lemma wf_run acts : wf (run_actions bufSize acts stream0).
Proof. induction acts as [|a acts IH] using rev_ind; [apply wf0|]. rewrite run_actions_snoc. by apply wf_act. Qed.
End Kept.

(** ** Sends and cancellations *)

Section Panic.
Context (bufSize : nat).

Definition in_use (s : nat) (w : stream) : Prop := ∃ t p ev l, s_pubs w !! t = Some (Sending p ev l) ∧ s ∈ l.

(** The channel an action closes. *)
Definition closes (a : action) (w : stream) : option nat :=
  match a with
  | SseClose k | SseReplay k false => cn_sub <$> (s_conns w !! k)
  | _ => None
  end.

(** No channel is closed while a publisher is about to send to it. *)
Fixpoint calm (acts : list action) (w : stream) : Prop :=
  match acts with
  | [] => True
  | a :: acts' => (∀ s, closes a w = Some s → ¬ in_use s w) ∧ calm acts' (act bufSize a w)
  end.

Record sends_open (w : stream) : Prop := {
  so_panic : s_panic w = false;
  so_target s : in_use s w → ∃ c, s_chans w !! s = Some c ∧ ch_closed c = false
}.

Lemma sends_open_ext w w' :
  sends_open w → s_panic w' = false → (∀ s, in_use s w' → in_use s w) →
  (∀ s c, s_chans w !! s = Some c → in_use s w → ch_closed c = false → ∃ c', s_chans w' !! s = Some c' ∧ ch_closed c' = false) →
  sends_open w'.
Proof.
  intros [Hp Ht] Hp' Hu Hc. split; [done|]. intros s Hs. destruct (Ht s (Hu s Hs)) as (c & ? & ?). eauto.
Qed.

Lemma in_use_insert tid x w w' s :
  s_pubs w' = <[tid := x]> (s_pubs w) → in_use s w' → in_use s w ∨ ∃ p ev l, x = Sending p ev l ∧ s ∈ l.
Proof.
  intros Hp (t & p & ev & l & Hl & Hs). rewrite Hp in Hl. apply lookup_insert_Some in Hl as [[-> ->]|[_ Hl]]; [right; eauto|].
  left. by exists t, p, ev, l.
Qed.
Lemma in_use_delete tid w w' s : s_pubs w' = delete tid (s_pubs w) → in_use s w' → in_use s w.
Proof. intros Hp (t & p & ev & l & Hl & Hs). rewrite Hp in Hl. apply lookup_delete_Some in Hl as [_ Hl]. by exists t, p, ev, l. Qed.

Lemma sends_open_close k w :
  wf bufSize w → sends_open w → (∀ s, closes (SseClose k) w = Some s → ¬ in_use s w) → sends_open (sse_close k w).
Proof.
  intros Hw Ho Hc. destruct (s_conns w !! k) as [cn|] eqn:Hk; [|unfold sse_close; by rewrite Hk].
  assert (Hn : ¬ in_use (cn_sub cn) w) by (apply Hc; cbn; by rewrite Hk).
  destruct (sse_close_spec bufSize k cn w Hw Hk) as (c & Hcc & Hp & Heq & _). rewrite Heq.
  apply (sends_open_ext w); try done; [by apply Ho|]. cbn. intros s x Hx Hu Hcl. exists x. rewrite lookup_insert_ne; [done|]. by intros <-.
Qed.

Lemma sends_open_act a w :
  wf bufSize w → sends_open w → (∀ s, closes a w = Some s → ¬ in_use s w) → sends_open (act bufSize a w).
Proof.
  intros Hw Ho Hc. destruct a as [tid p ty pl|tid f|tid|tid|k p since|k ok|k|k]; cbn [act].
  - unfold publish_begin. destruct (s_pubs w !! tid) eqn:Ht; [done|]. apply (sends_open_ext w); try done; [by apply Ho| |cbn; eauto].
    intros s Hs. by apply (in_use_insert tid (Appending p (mkEvent ty pl (s_seq w + 1))) w) in Hs as [|(?&?&?&?&?)].
  - unfold publish_append. destruct (s_pubs w !! tid) as [[p ev| |]|] eqn:Ht; try done.
    apply (sends_open_ext w); try done; [by apply Ho| |cbn; eauto].
    intros s Hs. by apply (in_use_insert tid (Appended p (match f with NoFault => ev | _ => mkEvent (ev_Type ev) (ev_Payload ev) 0 end)) w) in Hs as [|(?&?&?&?&?)].
  - unfold publish_snapshot. destruct (s_pubs w !! tid) as [[|p ev|]|] eqn:Ht; try done. split; [by apply Ho|].
    intros s [Hs|(q & e & l & Heq & Hs)]%(in_use_insert tid (Sending p ev (subs_of p w)) w); [by apply Ho| |done].
    simplify_eq. destruct (wf_subs_chan bufSize w q s Hw Hs) as (c & ? & ? & ?). eauto.
  - unfold publish_send. destruct (s_pubs w !! tid) as [[|p ev|p ev [|s subs]]|] eqn:Ht; try done.
    + apply (sends_open_ext w); try done; [by apply Ho| |cbn; eauto]. intros s. by apply (in_use_delete tid).
    + assert (Hu : in_use s w) by (exists tid, p, ev, (s :: subs); split; [done|set_solver]).
      destruct (so_target w Ho s Hu) as (c & Hs & Hcl). rewrite Hs, Hcl.
      assert (Hsub : ∀ w' s', s_pubs w' = <[tid := Sending p ev subs]> (s_pubs w) → in_use s' w' → in_use s' w).
      { intros w' s' Hp Hs'. apply (in_use_insert tid (Sending p ev subs) w) in Hs' as [|(?&?&?&?&?)]; [done| |done]. simplify_eq. exists tid. do 3 eexists. split; [exact Ht|set_solver]. }
      destruct (_ <? _); apply (sends_open_ext w); try done; try (by apply Ho); try (intros s'; by apply Hsub); cbn; [|eauto].
      intros s' c' Hs' _ Hcl'. destruct (decide (s' = s)) as [->|]; [|exists c'; by rewrite lookup_insert_ne].
      eexists. by rewrite lookup_insert_eq.
  - unfold sse_open. destruct (s_conns w !! k) eqn:Hk; [done|]. cbn [Subscribe].
    apply (sends_open_ext w); try done; [by apply Ho|]. cbn. intros s c Hs _ Hcl. exists c. rewrite lookup_insert_ne; [done|].
    intros <-. destruct (wf_chan bufSize w Hw _ _ Hs). lia.
  - unfold sse_replay. destruct (s_conns w !! k) as [[p s since [m|] out]|] eqn:Hk; try done.
    destruct ok; [|by apply sends_open_close]. apply (sends_open_ext w); try done; [by apply Ho|]. cbn; eauto.
  - unfold sse_live. destruct (s_conns w !! k) as [[p s since [m|] out]|] eqn:Hk; try done.
    destruct (s_chans w !! s) as [[cp [|ev buf] closed]|] eqn:Hs; try done.
    apply (sends_open_ext w); try done; [by apply Ho|]. cbn. intros s' c' Hs' _ Hcl. destruct (decide (s' = s)) as [->|]; [|exists c'; by rewrite lookup_insert_ne].
    eexists. rewrite lookup_insert_eq. split; [done|]. cbn. by simplify_eq.
  - by apply sends_open_close.
Qed.

Lemma calm_snoc acts a w :
  calm (acts ++ [a]) w → calm acts w ∧ ∀ s, closes a (run_actions bufSize acts w) = Some s → ¬ in_use s (run_actions bufSize acts w).
Proof.
  revert w. induction acts as [|b acts IH]; intros w; cbn [app calm run_actions foldl]; [naive_solver|].
  intros [Hb Hr]. destruct (IH _ Hr) as [? ?]. done.
Qed.
Lemma sends_open_run acts : calm acts stream0 → sends_open (run_actions bufSize acts stream0).
Proof.
  induction acts as [|a acts IH] using rev_ind.
  - intros _. split; [done|]. intros s (t & p & ev & l & Hl & _). cbn in Hl. by rewrite lookup_empty in Hl.
  - intros [Hc Ha]%calm_snoc. rewrite run_actions_snoc. apply sends_open_act; auto using wf_run.
Qed.
End Panic.

(** C27: (subscriptions) however publishers, connections and disconnections
    interleave and whatever the database answers: no buffer exceeds its size; the
    subscribers of a phase are exactly its open connections, each once, so a
    disconnected client leaves nothing behind; a channel is closed exactly when it
    is no longer subscribed; and, as long as no connection is closed between the
    copy of the subscribers by a publisher and its send to that connection, no
    send panics. *)
Theorem subscriptions_are_kept bufSize acts :
  let w := run_actions bufSize acts stream0 in
  (∀ s c, s_chans w !! s = Some c → length (ch_buf c) ≤ bufSize ∧ (ch_closed c = false ↔ s ∈ subs_of (ch_phase c) w)) ∧
  (∀ p s, s ∈ subs_of p w ↔ ∃ k cn, s_conns w !! k = Some cn ∧ cn_sub cn = s ∧ cn_phase cn = p) ∧
  (∀ p, NoDup (subs_of p w)) ∧ (∀ p, SubscriberCount p w = 0 ↔ s_topics w !! p = None) ∧
  (calm bufSize acts stream0 → s_panic w = false).
Proof.
  cbv zeta. pose proof (wf_run bufSize acts) as Hw. set (w := run_actions bufSize acts stream0) in *. split_and!.
  - intros s c Hs. by destruct (wf_chan bufSize w Hw s c Hs) as (_ & ? & ?).
  - intros p s. split; [apply (wf_sub bufSize w Hw)|]. intros (k & cn & Hk & <- & <-).
    destruct (wf_conn bufSize w Hw k cn Hk) as (c & Hc & <- & Ho). by apply (wf_chan bufSize w Hw _ _ Hc).
  - intros p. by apply (wf_subs_NoDup bufSize).
  - intros p. unfold SubscriberCount, subs_of. destruct (s_topics w !! p) as [l|] eqn:Hl; [|done].
    destruct (wf_topic bufSize w Hw p l Hl) as [Hne _]. by destruct l.
  - intros Hc. by apply sends_open_run.
Qed.

(** ** One publisher at a time *)

(** The events that have a number. *)
Abbreviation numbered l := (filter (λ e, (0 < ev_Sequence e)%Z) l).

Section Serial.
Context (bufSize : nat).



Definition sequences (log : list (PhaseID * Event)) : list Z := (λ r, ev_Sequence r.2) <$> log.
























End Serial.



(** A connection opened and read its history while an event was being published:
    the event is in the history and in the channel, and is written once. *)
Definition ph1 : PhaseID := mkID "p1".
Definition publish_steps (tid : nat) (ty : string) (sends : nat) : list action :=
  [PublishBegin tid ph1 ty "{}"; PublishAppend tid NoFault; PublishSnapshot tid] ++ replicate (S sends) (PublishSend tid).


(** ** What the conditions leave out *)

Definition written (k : nat) (w : stream) : option (list Z) := (λ cn, ev_Sequence <$> cn_out cn) <$> s_conns w !! k.

(** A connection closed between the copy of the subscribers and the send: the
    publisher panics. *)
Example send_on_closed_channel :
  s_panic (run_actions 32 [SseOpen 7 ph1 0; PublishBegin 0 ph1 "phase.started" "{}"; PublishAppend 0 NoFault; PublishSnapshot 0;
                           SseClose 7; PublishSend 0] stream0) = true.
Proof. vm_compute. reflexivity. Qed.

(** A full channel drops event 2; event 3 gets through, so the client comes back
    with Last-Event-ID 3 and event 2 is never written. *)
Definition drop_run : list action :=
  [SseOpen 7 ph1 0; SseReplay 7 true] ++ publish_steps 0 "a" 1 ++ publish_steps 1 "b" 1 ++ [SseLive 7] ++ publish_steps 2 "c" 1 ++ [SseLive 7].
Example dropped_event_is_not_recovered :
  written 7 (run_actions 1 drop_run stream0) = Some [1; 3]%Z ∧
  written 8 (run_actions 1 [SseClose 7; SseOpen 8 ph1 (parseLastEventID "3"); SseReplay 8 true] (run_actions 1 drop_run stream0)) = Some [] ∧
  sequences (s_log (run_actions 1 drop_run stream0)) = [1; 2; 3]%Z.
Proof. vm_compute. done. Qed.

(** A client that has seen event 1 reconnects with its number while that event is
    still being sent: the history after it is empty, so nothing marks it as seen,
    and it is written again. *)
Example last_id_is_written_again :
  written 7 (run_actions 32 [PublishBegin 0 ph1 "a" "{}"; PublishAppend 0 NoFault; SseOpen 7 ph1 (parseLastEventID "1"); PublishSnapshot 0;
                             PublishSend 0; PublishSend 0; SseReplay 7 true; SseLive 7] stream0) = Some [1]%Z.
Proof. vm_compute. done. Qed.

(** The row is stored and the answer lost: the event goes out without its number,
    and a client that reads the history as well gets it twice. *)
Example lost_answer_is_written_twice :
  written 7 (run_actions 32 [PublishBegin 0 ph1 "a" "{}"; PublishAppend 0 FailAfter; SseOpen 7 ph1 0; PublishSnapshot 0; PublishSend 0;
                             PublishSend 0; SseReplay 7 true; SseLive 7] stream0) = Some [1; 0]%Z.
Proof. vm_compute. done. Qed.

(** Two overlapping calls of Publish: number 1 is drawn first and commits last.
    A client that read the history in between takes event 1 for one it has. *)
Definition late_commit_run : list action :=
  [PublishBegin 0 ph1 "a" "{}"; PublishBegin 1 ph1 "b" "{}"; PublishAppend 1 NoFault; SseOpen 7 ph1 0; SseReplay 7 true;
   PublishAppend 0 NoFault; PublishSnapshot 0; PublishSend 0; PublishSend 0; SseLive 7].
Example late_commit_is_skipped :
  written 7 (run_actions 32 late_commit_run stream0) = Some [2]%Z ∧
  s_dropped (run_actions 32 late_commit_run stream0) = [] ∧
  sequences (s_log (run_actions 32 late_commit_run stream0)) = [2; 1]%Z.
Proof. vm_compute. done. Qed.

(** The id of a heartbeat is a ULID: a client that sends it back gets the whole
    history again. *)
Example heartbeat_id_replays_all : parseLastEventID "01J9ZQ8S0000000000000000" = 0%Z ∧ parseLastEventID "42" = 42%Z.
Proof. done. Qed.
