(* ===== verification/Config.v ===== *)
(** * Configuration

    [internal/infrastructure/config/config.go]: the configuration of the process,
    read from its environment, a partial map from names to texts.  A variable that
    is set is used, unless it is a number, a flag or a duration that does not
    parse. *)
From S2P Require Import Prelude Utf8 Json PhaseDomain Floats Lines JsonText HttpBase Wire GoPath Governor SkillDomain.
From stdpp Require Import list gmap.
From Stdlib Require Import Ascii.

(** ** What Go's library reads *)

(** strconv.ParseBool *)
Definition ParseBool (s : string) : option bool :=
  if bool_decide (s ∈ ["1"; "t"; "T"; "true"; "TRUE"; "True"]%string) then Some true
  else if bool_decide (s ∈ ["0"; "f"; "F"; "false"; "FALSE"; "False"]%string) then Some false
  else None.

(** time.ParseDuration: numbers with units; fractions are scaled in float64. *)
Definition digit_value (a : ascii) : Z := (Z.of_N (code a) - 48)%Z.
Fixpoint leadingInt (l : list ascii) (x : Z) : option (Z * list ascii) :=
  match l with
  | a :: l' =>
      if dec_digit a then
        if (2 ^ 63 / 10 <? x)%Z then None
        else let x' := (10 * x + digit_value a)%Z in if (2 ^ 63 <? x')%Z then None else leadingInt l' x'
      else Some (x, l)
  | [] => Some (x, [])
  end.
Fixpoint leadingFraction (l : list ascii) (x scale : Z) (overflow : bool) : Z * Z * list ascii :=
  match l with
  | a :: l' =>
      if dec_digit a then
        let y := (10 * x + digit_value a)%Z in
        if overflow || ((2 ^ 63 - 1) / 10 <? x)%Z || (2 ^ 63 <? y)%Z then leadingFraction l' x scale true
        else leadingFraction l' y (10 * scale) false
      else (x, scale, l)
  | [] => (x, scale, [])
  end.
Definition duration_units : list (list ascii * Z) :=
  [ (chars "ns", 1); (chars "us", 1000); (ascii_of_N 194 :: ascii_of_N 181 :: chars "s", 1000); (ascii_of_N 206 :: ascii_of_N 188 :: chars "s", 1000);
    (chars "ms", 1000000); (chars "s", 1000000000); (chars "m", 60 * 1000000000); (chars "h", 3600 * 1000000000) ]%Z.
Definition unit_of (u : list ascii) : option Z := snd <$> List.find (λ p, bool_decide (p.1 = u)) duration_units.
Definition number_byte (a : ascii) : bool := is_char 46 a || dec_digit a.
Definition fraction_of (f unit scale : Z) : Z :=
  let q := f64_mul (f64_of_int f) (f64_round (f64_of_int unit / f64_of_int scale)) in Z.quot (Qnum q) (Z.pos (Qden q)).

(** One number with its unit, and what follows. *)
Definition duration_item (l : list ascii) : option (Z * list ascii) :=
  if negb (match l with a :: _ => number_byte a | [] => false end) then None else
  '(v, l1) ← leadingInt l 0;
  let '(f, scale, l2, post) :=
    match l1 with
    | a :: l1' => if is_char 46 a then let '(f, scale, l2) := leadingFraction l1' 0 1 false in (f, scale, l2, negb (length l2 =? length l1')%nat) else (0%Z, 1%Z, l1, false)
    | [] => (0%Z, 1%Z, l1, false)
    end in
  if (length l1 =? length l)%nat && negb post then None else
  let u := take_while (λ a, negb (number_byte a)) l2 in
  unit ← (if bool_decide (u = []) then None else unit_of u);
  if (2 ^ 63 / unit <? v)%Z then None else
  let v := (v * unit + (if 0 <? f then fraction_of f unit scale else 0))%Z in
  if (0 <? f)%Z && (2 ^ 63 <? v)%Z then None else Some (v, drop (length u) l2).
(** [d] is a uint64. *)
Fixpoint duration_items (fuel : nat) (l : list ascii) (d : Z) : option Z :=
  match l with
  | [] => Some d
  | _ =>
      match fuel with
      | O => None
      | S fuel' =>
          '(v, l') ← duration_item l;
          let d' := ((d + v) mod 2 ^ 64)%Z in
          if (2 ^ 63 <? d')%Z then None else duration_items fuel' l' d'
      end
  end.
Definition ParseDuration (s : string) : option Duration :=
  let '(neg, l) := match chars s with a :: l => if is_char 45 a then (true, l) else if is_char 43 a then (false, l) else (false, a :: l) | [] => (false, []) end in
  if bool_decide (l = chars "0") then Some 0%Z else
  if bool_decide (l = []) then None else
  d ← duration_items (length l) l 0;
  if neg then Some (- d)%Z else if (2 ^ 63 - 1 <? d)%Z then None else Some d.

(** ** The configuration *)

Record HTTPConfig := mkHTTPConfig {
  ht_Addr : string; ht_ReadTimeout : Duration; ht_WriteTimeout : Duration; ht_ShutdownTimeout : Duration; ht_APIKey : string; ht_APIKeyProject : string; ht_AllowAnonLocalhost : bool
}.
Record DBConfig := mkDBConfig { db_URL : string; db_MaxConns : Z; db_MinConns : Z; db_MigrationsPath : string; db_RunMigrationsOnBoot : bool }.
Record ServiceConfig := mkServiceConfig { sv_BaseURL : string; sv_APIKey : string; sv_TenantID : string; sv_TimeoutMS : Z }.
(** OllamaConfig and AiderConfig have the same fields. *)
Record ToolConfig := mkToolConfig { tc_Cmd : string; tc_SuggestedConcurrent : Z; tc_Model : string; tc_ModelByPhase : gmap string string }.
Record MCPConfig := mkMCPConfig {
  mp_BridgeURL : string; mp_Token : string; mp_Transport : string; mp_TimeoutMS : Z; mp_ProviderAllowlist : list string; mp_DefaultModel : string;
  mp_ModelByPhase : gmap string string; mp_Origin : string; mp_Provider : string; mp_DefaultCWD : string
}.
Record DispatcherConfig := mkDispatcherConfig {
  dp_Cmd : string; dp_SuggestedConcurrent : Z; dp_Model : string; dp_ModelByPhase : gmap string string; dp_Provider : string; dp_ProviderByPhase : gmap string string;
  dp_Ollama : ToolConfig; dp_Aider : ToolConfig; dp_MCP : MCPConfig
}.
Record ApplyConfig := mkApplyConfig {
  ac_WorktreeRoot : string; ac_SourceRepoPath : string; ac_WorktreeInit : string; ac_TargetPath : string; ac_DispatchTimeoutMS : Z; ac_FallbackModel : string; ac_QuotaBreakerThreshold : Z
}.
Record BootstrapConfig := mkBootstrapConfig { bs_Timeout : Duration; bs_MaxCallsPerProjectPerDay : Z; bs_MinSnippets : Z; bs_BodyBudget : Z }.
Record ObsConfig := mkObsConfig { ob_MetricsEnabled : bool; ob_TracesEnabled : bool; ob_OTLPEndpoint : string; ob_OTLPInsecure : bool; ob_TraceSampleRate : float64; ob_Version : string }.
Record MemoryWebhookConfig := mkMemoryWebhookConfig { mw_URL : string; mw_APIKey : string; mw_TimeoutMS : Z }.
Record Config := mkConfig {
  cf_HTTP : HTTPConfig; cf_DB : DBConfig; cf_Governance : ServiceConfig; cf_Memory : ServiceConfig; cf_Runtime : ServiceConfig;
  cf_Dispatcher : DispatcherConfig; cf_Spawn : GovConfig; cf_Apply : ApplyConfig; cf_Bootstrap : BootstrapConfig; cf_Obs : ObsConfig;
  cf_Environment : string; cf_LogLevel : string; cf_SkillsEnabled : bool; cf_Critic : string; cf_MemoryWebhook : MemoryWebhookConfig; cf_Outbox : Duration
}.

Definition no_tool : ToolConfig := mkToolConfig "" 0 "" ∅.
Definition config_Default : Config :=
  mkConfig (mkHTTPConfig ":8080" (30 * Second) 0 (30 * Second) "" "" false) (mkDBConfig "" 16 2 "migrations/postgres" false)
    (mkServiceConfig "" "" "" 0) (mkServiceConfig "" "" "" 0) (mkServiceConfig "" "" "" 0)
    (mkDispatcherConfig "opencode" 4 "" ∅ "" ∅ no_tool no_tool (mkMCPConfig "" "" "" 0 [] "" ∅ "" "" ""))
    (mkGovConfig 6 (200 * Millisecond) (500 * Millisecond) (250 * Millisecond) (30 * Second))
    (mkApplyConfig "" "" "" "" 0 "" 0) (mkBootstrapConfig (60 * Second) 5 50 24576) (mkObsConfig true false "" false 1 "v0.1.0")
    "dev" "info" true "stub" (mkMemoryWebhookConfig "" "" 0) 0.

(** The conversion to int32 keeps the low bits. *)
Definition int32 (z : Z) : Z := ((z + 2 ^ 31) mod 2 ^ 32 - 2 ^ 31)%Z.
Definition dispatcherPhaseEnvNames : list string := ["explore"; "proposal"; "spec"; "design"; "tasks"; "apply"; "verify"; "archive"]%string.
Definition ToUpper_ascii (s : string) : string := text (upper_ascii <$> chars s).
(** The list of SOPHIA_MCP_PROVIDER_ALLOWLIST. *)
Definition allowlist (s : string) : list string :=
  if str_empty s then [] else List.filter (λ p, negb (str_empty p)) ((λ l, TrimSpace (text l)) <$> split_on "," (chars s)).

Inductive config_error := ErrMissing (key : string) | ErrSpawnMax | ErrLogLevel (level : string).

Section Load.
Context `{UnicodeTables} (env : string → option string).

Definition envStr (key def : string) : string := default def (env key).
Definition envInt (key : string) (def : Z) : Z := match env key with None => def | Some v => default def (Atoi v) end.
Definition envBool (key : string) (def : bool) : bool := match env key with None => def | Some v => default def (ParseBool v) end.
Definition envDuration (key : string) (def : Duration) : Duration := match env key with None => def | Some v => default def (ParseDuration v) end.
(** if v := envInt(key, 0); v > 0 { field = v } *)
Definition envPositive (key : string) (def : Z) : Z := let v := envInt key 0 in if (0 <? v)%Z then v else def.
Definition loadPhaseEnvMap (prefix : string) : gmap string string :=
  foldl (λ out p, match env (String.append prefix (ToUpper_ascii p)) with
                  | Some v => if str_empty v then out else <[p := v]> out
                  | None => out
                  end) ∅ dispatcherPhaseEnvNames.

Definition load_tool (tool : string) (d : ToolConfig) : ToolConfig :=
  let key suffix := concat_strings ["SOPHIA_"; tool; suffix]%string in
  mkToolConfig (envStr (key "_CMD"%string) (tc_Cmd d)) (envInt (key "_CONCURRENT"%string) (tc_SuggestedConcurrent d)) (envStr (key "_MODEL"%string) (tc_Model d))
    (loadPhaseEnvMap (key "_MODEL_"%string)).
Definition load_mcp (d : MCPConfig) : MCPConfig :=
  mkMCPConfig (envStr "SOPHIA_MCP_BRIDGE_URL" (mp_BridgeURL d)) (envStr "SOPHIA_MCP_BRIDGE_TOKEN" (mp_Token d)) (envStr "SOPHIA_MCP_TRANSPORT" "streamable-http")
    (envInt "SOPHIA_MCP_TIMEOUT_MS" 300000) (allowlist (envStr "SOPHIA_MCP_PROVIDER_ALLOWLIST" "")) (envStr "SOPHIA_MCP_MODEL" (mp_DefaultModel d))
    (loadPhaseEnvMap "SOPHIA_MCP_MODEL_") (envStr "SOPHIA_MCP_ORIGIN" "http://localhost") (envStr "SOPHIA_MCP_PROVIDER" "") (envStr "SOPHIA_MCP_DEFAULT_CWD" (mp_DefaultCWD d)).
Definition load_dispatcher (d : DispatcherConfig) : DispatcherConfig :=
  mkDispatcherConfig (envStr "SOPHIA_DISPATCHER_CMD" (dp_Cmd d)) (envInt "SOPHIA_DISPATCHER_CONCURRENT" (dp_SuggestedConcurrent d)) (envStr "SOPHIA_DISPATCHER_MODEL" (dp_Model d))
    (loadPhaseEnvMap "SOPHIA_DISPATCHER_MODEL_") (envStr "SOPHIA_DISPATCHER_PROVIDER" (dp_Provider d)) (loadPhaseEnvMap "SOPHIA_DISPATCHER_PROVIDER_")
    (load_tool "OLLAMA" (dp_Ollama d)) (load_tool "AIDER" (dp_Aider d)) (load_mcp (dp_MCP d)).
Definition load_http (d : HTTPConfig) : HTTPConfig :=
  mkHTTPConfig (envStr "SOPHIA_HTTP_ADDR" (ht_Addr d)) (envDuration "SOPHIA_HTTP_READ_TIMEOUT" (ht_ReadTimeout d)) (ht_WriteTimeout d)
    (envDuration "SOPHIA_HTTP_SHUTDOWN_TIMEOUT" (ht_ShutdownTimeout d)) (envStr "SOPHIA_HTTP_API_KEY" "") (envStr "SOPHIA_HTTP_API_KEY_PROJECT" "")
    (envBool "SOPHIA_HTTP_ALLOW_ANON_LOCALHOST" (ht_AllowAnonLocalhost d)).
Definition load_db (d : DBConfig) : DBConfig :=
  mkDBConfig (envStr "SOPHIA_DB_URL" "") (int32 (envInt "SOPHIA_DB_MAX_CONNS" (db_MaxConns d))) (int32 (envInt "SOPHIA_DB_MIN_CONNS" (db_MinConns d)))
    (envStr "SOPHIA_DB_MIGRATIONS_PATH" (db_MigrationsPath d)) (envBool "SOPHIA_DB_MIGRATE_ON_BOOT" (db_RunMigrationsOnBoot d)).
Definition load_apply (d : ApplyConfig) : ApplyConfig :=
  mkApplyConfig (envStr "SOPHIA_APPLY_WORKTREE_ROOT" (ac_WorktreeRoot d)) (envStr "SOPHIA_APPLY_SOURCE_REPO_PATH" (ac_SourceRepoPath d))
    (envStr "SOPHIA_APPLY_WORKTREE_INIT" (ac_WorktreeInit d)) (envStr "SOPHIA_APPLY_TARGET_PATH" (ac_TargetPath d))
    (envPositive "SOPHIA_DISPATCH_TIMEOUT_MS" (ac_DispatchTimeoutMS d)) (envStr "SOPHIA_DISPATCHER_FALLBACK_MODEL" "")
    (envPositive "SOPHIA_APPLY_QUOTA_BREAKER_THRESHOLD" (ac_QuotaBreakerThreshold d)).
Definition load_bootstrap (d : BootstrapConfig) : BootstrapConfig :=
  mkBootstrapConfig (envDuration "SOPHIA_BOOTSTRAP_TIMEOUT" (bs_Timeout d)) (envPositive "SOPHIA_BOOTSTRAP_MAX_CALLS_PER_PROJECT_PER_DAY" (bs_MaxCallsPerProjectPerDay d))
    (envPositive "SOPHIA_BOOTSTRAP_MIN_SNIPPETS" (bs_MinSnippets d)) (envPositive "SOPHIA_BOOTSTRAP_BODY_BUDGET" (bs_BodyBudget d)).
Definition load_obs (d : ObsConfig) : ObsConfig :=
  mkObsConfig (envBool "SOPHIA_METRICS_ENABLED" (ob_MetricsEnabled d)) (envBool "SOPHIA_TRACES_ENABLED" (ob_TracesEnabled d)) (envStr "SOPHIA_OTLP_ENDPOINT" (ob_OTLPEndpoint d))
    (envBool "SOPHIA_OTLP_INSECURE" (ob_OTLPInsecure d)) (ob_TraceSampleRate d) (envStr "SOPHIA_VERSION" (ob_Version d)).

(** The assignments of Load. *)
Definition load_all : Config :=
  let c := config_Default in
  let sp := cf_Spawn c in
  mkConfig (load_http (cf_HTTP c)) (load_db (cf_DB c))
    (mkServiceConfig (envStr "SOPHIA_GOVERNANCE_URL" "") (envStr "SOPHIA_GOVERNANCE_API_KEY" "") "" 0)
    (mkServiceConfig (envStr "SOPHIA_MEMORY_URL" "") (envStr "SOPHIA_MEMORY_API_KEY" "") (envStr "SOPHIA_MEMORY_TENANT_ID" "") (envPositive "SOPHIA_MEMORY_TIMEOUT_MS" 0))
    (mkServiceConfig (envStr "SOPHIA_RUNTIME_URL" "") (envStr "SOPHIA_RUNTIME_API_KEY" "") "" 0)
    (load_dispatcher (cf_Dispatcher c)) (mkGovConfig (envInt "SOPHIA_SPAWN_MAX" (gc_Max sp)) (gc_StaggerMin sp) (gc_StaggerMax sp) (gc_WaitInterval sp) (gc_MaxWait sp))
    (load_apply (cf_Apply c)) (load_bootstrap (cf_Bootstrap c)) (load_obs (cf_Obs c))
    (envStr "SOPHIA_ENV" (cf_Environment c)) (ToLower (envStr "SOPHIA_LOG_LEVEL" (cf_LogLevel c))) (envBool "SOPHIA_SKILLS_ENABLED" (cf_SkillsEnabled c))
    (ToLower (envStr "SOPHIA_CRITIC_MODE" (cf_Critic c)))
    (mkMemoryWebhookConfig (envStr "SOPHIA_MEMORY_WEBHOOK_URL" "") (envStr "SOPHIA_MEMORY_WEBHOOK_API_KEY" "") (envInt "SOPHIA_MEMORY_WEBHOOK_TIMEOUT_MS" 5000))
    (envDuration "SOPHIA_OUTBOX_POLL_INTERVAL" (5 * Second)).

Definition log_levels : list string := ["debug"; "info"; "warn"; "error"]%string.
Definition config_Validate (c : Config) : option config_error :=
  if str_empty (db_URL (cf_DB c)) then Some (ErrMissing "SOPHIA_DB_URL")
  else if str_empty (sv_BaseURL (cf_Governance c)) then Some (ErrMissing "SOPHIA_GOVERNANCE_URL")
  else if str_empty (sv_BaseURL (cf_Memory c)) then Some (ErrMissing "SOPHIA_MEMORY_URL")
  else if str_empty (sv_BaseURL (cf_Runtime c)) then Some (ErrMissing "SOPHIA_RUNTIME_URL")
  else if (gc_Max (cf_Spawn c) <=? 0)%Z then Some ErrSpawnMax
  else if bool_decide (cf_LogLevel c ∈ log_levels) then None else Some (ErrLogLevel (cf_LogLevel c)).
Definition Load : result config_error Config :=
  match config_Validate load_all with Some e => Err e | None => Ok load_all end.
End Load.

(** ** Durations are read back *)

(** A duration as it is written: digits with their unit, one after the other. *)
Definition item_chars (it : list ascii * (list ascii * Z)) : list ascii := it.1 ++ it.2.1.
Definition item_value (it : list ascii * (list ascii * Z)) : Z := (dec_value it.1 * it.2.2)%Z.
Definition item_ok (it : list ascii * (list ascii * Z)) : Prop := it.1 ≠ [] ∧ Forall (λ a, dec_digit a = true) it.1 ∧ it.2 ∈ duration_units.
Definition total_of (its : list (list ascii * (list ascii * Z))) : Z := foldr (λ it z, item_value it + z)%Z 0%Z its.

Lemma digit_value_bounds a : dec_digit a = true → (0 <= digit_value a <= 9)%Z.
Proof. unfold dec_digit, byte_in, digit_value. intros [Hl%N.leb_le Hu%N.leb_le]%andb_true_iff. lia. Qed.
Lemma dec_value_from ds x : foldl (λ z a, 10 * z + (Z.of_N (code a) - 48))%Z x ds = (x * 10 ^ Z.of_nat (length ds) + dec_value ds)%Z.
Proof.
  unfold dec_value. revert x. induction ds as [|a ds IH]; intros x; cbn [foldl length]; [lia|].
  rewrite IH, (IH (10 * 0 + _)%Z), Nat2Z.inj_succ, Z.pow_succ_r by lia. lia.
Qed.
Lemma dec_value_nonneg ds : Forall (λ a, dec_digit a = true) ds → (0 <= dec_value ds)%Z.
Proof.
  induction 1 as [|a ds Ha _ IH]; [done|]. unfold dec_value. cbn [foldl]. rewrite dec_value_from. apply digit_value_bounds in Ha. unfold digit_value in Ha. nia.
Qed.
Lemma leadingInt_spec ds rest x :
  Forall (λ a, dec_digit a = true) ds → no_digit rest → (0 <= x)%Z → (x * 10 ^ Z.of_nat (length ds) + dec_value ds <= 2 ^ 63)%Z →
  leadingInt (ds ++ rest) x = Some ((x * 10 ^ Z.of_nat (length ds) + dec_value ds)%Z, rest).
Proof.
  intros Hds. revert x. induction Hds as [|a ds Ha Hds IH]; intros x Hr Hx Hb.
  - cbn [app length]. change (dec_value []) with 0%Z. rewrite Z.pow_0_r, Z.mul_1_r, Z.add_0_r. destruct rest as [|a rest]; [done|]. cbn in Hr |- *. by rewrite Hr.
  - cbn [app leadingInt]. rewrite Ha. pose proof (digit_value_bounds a Ha) as Hd. pose proof (dec_value_nonneg ds Hds) as Hn.
    assert (Hv : dec_value (a :: ds) = (digit_value a * 10 ^ Z.of_nat (length ds) + dec_value ds)%Z).
    { unfold dec_value at 1. cbn [foldl]. rewrite dec_value_from. unfold digit_value. lia. }
    rewrite Hv in Hb |- *. cbn [length] in Hb |- *.
    assert (Hs : (10 ^ Z.of_nat (S (length ds)) = 10 * 10 ^ Z.of_nat (length ds))%Z) by (rewrite Nat2Z.inj_succ, Z.pow_succ_r by lia; done).
    rewrite Hs in Hb |- *.
    assert (Hp : (1 <= 10 ^ Z.of_nat (length ds))%Z) by (pose proof (Z.pow_pos_nonneg 10 (Z.of_nat (length ds))); lia).
    assert (Hx' : (10 * x + digit_value a <= 2 ^ 63)%Z) by nia.
    rewrite (proj2 (Z.ltb_ge (2 ^ 63 / 10) x)) by (apply Z.div_le_lower_bound; lia). rewrite (proj2 (Z.ltb_ge _ _)) by lia. rewrite IH by (done || lia). f_equal. f_equal. lia.
Qed.

Lemma duration_units_facts u unit :
  (u, unit) ∈ duration_units → unit_of u = Some unit ∧ u ≠ [] ∧ Forall (λ a, number_byte a = false) u ∧ (0 < unit)%Z.
Proof.
  intros Hu. assert (Hall : forallb (λ p, bool_decide (unit_of p.1 = Some p.2) && negb (bool_decide (p.1 = [])) && forallb (λ a, negb (number_byte a)) p.1 && (0 <? p.2)%Z) duration_units = true)
    by (vm_compute; reflexivity).
  rewrite forallb_forall in Hall. specialize (Hall (u, unit)). rewrite <-list_elem_of_In in Hall. specialize (Hall Hu). cbn [fst snd] in Hall.
  rewrite !andb_true_iff in Hall. destruct Hall as [[[Ho%bool_decide_eq_true Hne] Hf] Hp%Z.ltb_lt]. split; [done|]. split; [|split; [|done]].
  - by apply negb_true_iff, bool_decide_eq_false in Hne.
  - apply Forall_forall. intros x Hx. rewrite forallb_forall in Hf. apply list_elem_of_In in Hx. by apply negb_true_iff, Hf.
Qed.
Lemma take_while_app (f : ascii → bool) u rest :
  Forall (λ a, f a = true) u → match rest with [] => True | a :: _ => f a = false end → take_while f (u ++ rest) = u.
Proof. induction 1 as [|a u Ha _ IH]; intros Hr; cbn; [destruct rest as [|b rest]; cbn; [done|by rewrite Hr]|]. rewrite Ha. f_equal. auto. Qed.

Definition digit_first (rest : list ascii) : Prop := match rest with [] => True | a :: _ => dec_digit a = true end.
Lemma duration_item_spec it rest :
  item_ok it → digit_first rest → (item_value it <= 2 ^ 63)%Z → duration_item (item_chars it ++ rest) = Some (item_value it, rest).
Proof.
  destruct it as (ds & u & unit). intros (Hne & Hds & Hu) Hr Hv. unfold item_chars, item_value in *. cbn [fst snd] in *.
  destruct (duration_units_facts u unit Hu) as (Huo & Hune & Hub & Hpos). pose proof (dec_value_nonneg ds Hds) as Hn.
  assert (Hnd : no_digit (u ++ rest)) by (destruct u as [|a u]; [done|]; apply Forall_cons in Hub as [Ha _]; unfold number_byte in Ha; by apply orb_false_iff in Ha as [_ ?]).
  assert (Hdot : match u ++ rest with a :: _ => is_char 46 a = false | [] => True end).
  { destruct u as [|a u]; [done|]. apply Forall_cons in Hub as [Ha _]. unfold number_byte in Ha. by apply orb_false_iff in Ha as [? _]. }
  unfold duration_item. rewrite <-app_assoc. destruct ds as [|a ds]; [done|]. cbn [app].
  replace (number_byte a) with true by (apply Forall_cons in Hds as [Ha _]; unfold number_byte; by rewrite Ha, orb_true_r). cbn [negb].
  pose proof (leadingInt_spec (a :: ds) (u ++ rest) 0 Hds Hnd) as Hl. cbn [app] in Hl. rewrite Hl by nia. cbn [mbind option_bind].
  replace (0 * _ + dec_value (a :: ds))%Z with (dec_value (a :: ds)) by lia.
  destruct (u ++ rest) as [|b more] eqn:Hm; [by destruct u|]. rewrite Hdot.
  replace (length (b :: more) =? length (a :: ds ++ b :: more))%nat with false by (symmetry; apply Nat.eqb_neq; cbn [length]; rewrite length_app; cbn [length]; lia). cbn [andb].
  rewrite <-Hm. rewrite take_while_app; [|by eapply Forall_impl; [exact Hub|]; intros ? ->|destruct rest as [|c rest]; [done|]; cbn in Hr; unfold number_byte; by rewrite Hr, orb_true_r].
  rewrite bool_decide_eq_false_2 by done. rewrite Huo. cbn [option_bind mbind].
  rewrite (proj2 (Z.ltb_ge (2 ^ 63 / unit) _)) by (apply Z.div_le_lower_bound; lia).
  change (0 <? 0)%Z with false. cbn [andb]. rewrite Z.add_0_r, drop_app_length. done.
Qed.
Lemma total_nonneg_of its : Forall item_ok its → (0 <= total_of its)%Z.
Proof.
  induction 1 as [|[ds [u unit]] its (_ & Hds & Hu) _ IH]; [done|]. cbn [total_of foldr]. fold (total_of its). unfold item_value. cbn [fst snd].
  pose proof (dec_value_nonneg ds Hds). destruct (duration_units_facts u unit Hu) as (_ & _ & _ & ?). nia.
Qed.
Lemma item_value_nonneg it : item_ok it → (0 <= item_value it)%Z.
Proof. intros Hi. assert (Hs : Forall item_ok [it]) by (by apply Forall_singleton). pose proof (total_nonneg_of [it] Hs) as Ht. cbn in Ht. lia. Qed.
Lemma items_digit_first its : Forall item_ok its → digit_first (mjoin (item_chars <$> its)).
Proof.
  destruct 1 as [|[[|a ds] u] its (Hne & Hds & _) _]; [done|by cbn in Hne|]. cbn. by apply Forall_cons in Hds as [? _].
Qed.
Lemma duration_items_spec its d fuel :
  Forall item_ok its → (length its <= fuel)%nat → (0 <= d)%Z → (d + total_of its <= 2 ^ 63)%Z →
  duration_items fuel (mjoin (item_chars <$> its)) d = Some (d + total_of its)%Z.
Proof.
  intros Hok. revert d fuel. induction Hok as [|it its Hi Hok IH]; intros d fuel Hf Hd Ht.
  - cbn. destruct fuel; cbn; f_equal; lia.
  - destruct fuel as [|fuel]; [cbn in Hf; lia|]. cbn [total_of foldr] in Ht |- *. fold (total_of its) in Ht |- *.
    pose proof (item_value_nonneg it Hi) as Hv. pose proof (total_nonneg_of its Hok) as Hn.
    change (mjoin (item_chars <$> it :: its)) with (item_chars it ++ mjoin (item_chars <$> its)).
    pose proof (duration_item_spec it _ Hi (items_digit_first its Hok)) as Hitem. specialize (Hitem ltac:(lia)).
    destruct (item_chars it ++ mjoin (item_chars <$> its)) as [|a l] eqn:Hl; [discriminate Hitem|].
    cbn [duration_items]. rewrite Hitem. cbn [mbind option_bind]. rewrite Z.mod_small by lia. rewrite (proj2 (Z.ltb_ge _ _)) by lia.
    rewrite IH by (lia || (cbn in Hf; lia)). f_equal. lia.
Qed.

Definition signed (neg : bool) (l : list ascii) : list ascii := if neg then "-"%char :: l else l.
(** (durations) a duration written as numbers with their units, with or without
    a minus sign, is read as their exact sum, as long as that fits int64. *)
Theorem duration_text_is_read neg its :
  its ≠ [] → Forall item_ok its → (total_of its < 2 ^ 63)%Z →
  ParseDuration (text (signed neg (mjoin (item_chars <$> its)))) = Some (if neg then - total_of its else total_of its)%Z.
Proof.
  intros Hne Hok Ht. set (l := mjoin (item_chars <$> its)).
  assert (Hl : ∃ a b m, l = a :: b :: m ∧ dec_digit a = true).
  { subst l. destruct Hok as [|[[|a ds] [u unit]] its (Hn & Hds & Hu) _]; [done|by cbn in Hn|]. cbn in Hds. apply Forall_cons in Hds as [Ha _].
    destruct (duration_units_facts u unit Hu) as (_ & Hune & _ & _). cbn. destruct ds as [|b ds]; [destruct u as [|b u]; [done|]|]; cbn; eauto 6. }
  destruct Hl as (a & b & m & Hl & Ha).
  assert (Hlen : (length its <= length l)%nat).
  { subst l. clear -Hok. induction Hok as [|it its (Hn & _) _ IH]; [done|]. change (mjoin (item_chars <$> it :: its)) with (item_chars it ++ mjoin (item_chars <$> its)).
    rewrite length_app. unfold item_chars at 1. rewrite length_app. destruct it.1; [done|]. cbn [length]. lia. }
  assert (Hsign : is_char 45 a = false ∧ is_char 43 a = false) by (apply sign_no_digit, orb_false_iff in Ha as [? ?]; done).
  unfold ParseDuration. rewrite chars_text.
  assert (Hs : match signed neg l with a :: l => if is_char 45 a then (true, l) else if is_char 43 a then (false, l) else (false, a :: l) | [] => (false, []) end = (neg, l)).
  { destruct neg; cbn; [done|]. rewrite Hl. destruct Hsign as [-> ->]. done. }
  rewrite Hs. rewrite bool_decide_eq_false_2 by (by rewrite Hl). rewrite bool_decide_eq_false_2 by (by rewrite Hl).
  subst l. rewrite duration_items_spec by (done || lia). cbn [mbind option_bind]. rewrite Z.add_0_l. destruct neg; [done|]. by rewrite (proj2 (Z.ltb_ge _ _)) by lia.
Qed.

(** ** What a configuration can be *)

Definition int_keys : list string :=
  ["SOPHIA_DB_MAX_CONNS"; "SOPHIA_DB_MIN_CONNS"; "SOPHIA_MEMORY_TIMEOUT_MS"; "SOPHIA_MEMORY_WEBHOOK_TIMEOUT_MS"; "SOPHIA_DISPATCH_TIMEOUT_MS";
   "SOPHIA_APPLY_QUOTA_BREAKER_THRESHOLD"; "SOPHIA_DISPATCHER_CONCURRENT"; "SOPHIA_OLLAMA_CONCURRENT"; "SOPHIA_AIDER_CONCURRENT"; "SOPHIA_MCP_TIMEOUT_MS";
   "SOPHIA_SPAWN_MAX"; "SOPHIA_BOOTSTRAP_MAX_CALLS_PER_PROJECT_PER_DAY"; "SOPHIA_BOOTSTRAP_MIN_SNIPPETS"; "SOPHIA_BOOTSTRAP_BODY_BUDGET"]%string.
Definition bool_keys : list string :=
  ["SOPHIA_HTTP_ALLOW_ANON_LOCALHOST"; "SOPHIA_DB_MIGRATE_ON_BOOT"; "SOPHIA_METRICS_ENABLED"; "SOPHIA_TRACES_ENABLED"; "SOPHIA_OTLP_INSECURE"; "SOPHIA_SKILLS_ENABLED"]%string.
Definition duration_keys : list string :=
  ["SOPHIA_HTTP_READ_TIMEOUT"; "SOPHIA_HTTP_SHUTDOWN_TIMEOUT"; "SOPHIA_OUTBOX_POLL_INTERVAL"; "SOPHIA_BOOTSTRAP_TIMEOUT"]%string.
Definition malformed (key v : string) : bool :=
  (bool_decide (key ∈ int_keys) && bool_decide (Atoi v = None)) || (bool_decide (key ∈ bool_keys) && bool_decide (ParseBool v = None))
  || (bool_decide (key ∈ duration_keys) && bool_decide (ParseDuration v = None)).
(** The environment without its malformed variables. *)
Definition readable (env : string → option string) (key : string) : option string :=
  match env key with Some v => if malformed key v then None else Some v | None => None end.

Section Facts.
Context `{UnicodeTables} (env : string → option string).

Definition is_text_key (key : string) : bool := negb (bool_decide (key ∈ int_keys) || bool_decide (key ∈ bool_keys) || bool_decide (key ∈ duration_keys)).
Lemma readable_text key : is_text_key key = true → readable env key = env key.
Proof.
  unfold is_text_key, readable, malformed. intros Hk%negb_true_iff. apply orb_false_iff in Hk as [[-> ->]%orb_false_iff ->]. by destruct (env key).
Qed.
Lemma readable_str key def : is_text_key key = true → envStr (readable env) key def = envStr env key def.
Proof. intros Hk. unfold envStr. by rewrite readable_text. Qed.
Lemma readable_parse {A} (parse : string → option A) key def :
  (∀ v, malformed key v = bool_decide (parse v = None)) →
  match readable env key with None => def | Some v => default def (parse v) end = match env key with None => def | Some v => default def (parse v) end.
Proof.
  intros Hm. unfold readable. destruct (env key) as [v|]; [|done]. rewrite Hm. case_bool_decide as Hv; [by rewrite Hv|done].
Qed.
Definition only_in (key : string) (l : list string) (others : list (list string)) : bool := bool_decide (key ∈ l) && forallb (λ o, negb (bool_decide (key ∈ o))) others.
Lemma only_in_two key l o1 o2 : only_in key l [o1; o2] = true → bool_decide (key ∈ l) = true ∧ bool_decide (key ∈ o1) = false ∧ bool_decide (key ∈ o2) = false.
Proof. unfold only_in. cbn [forallb]. by rewrite andb_true_r, !andb_true_iff, !negb_true_iff. Qed.
Lemma readable_int key def : only_in key int_keys [bool_keys; duration_keys] = true → envInt (readable env) key def = envInt env key def.
Proof. intros (H1 & H2 & H3)%only_in_two. apply readable_parse. intros v. unfold malformed. rewrite H1, H2, H3. cbn [andb orb]. by rewrite !orb_false_r. Qed.
Lemma readable_bool key def : only_in key bool_keys [int_keys; duration_keys] = true → envBool (readable env) key def = envBool env key def.
Proof. intros (H1 & H2 & H3)%only_in_two. apply readable_parse. intros v. unfold malformed. rewrite H1, H2, H3. cbn [andb orb]. by rewrite !orb_false_r. Qed.
Lemma readable_duration key def : only_in key duration_keys [int_keys; bool_keys] = true → envDuration (readable env) key def = envDuration env key def.
Proof. intros (H1 & H2 & H3)%only_in_two. apply readable_parse. intros v. unfold malformed. by rewrite H1, H2, H3. Qed.
Lemma readable_phases prefix :
  forallb (λ p, is_text_key (String.append prefix (ToUpper_ascii p))) dispatcherPhaseEnvNames = true → loadPhaseEnvMap (readable env) prefix = loadPhaseEnvMap env prefix.
Proof.
  unfold loadPhaseEnvMap. generalize (∅ : gmap string string). induction dispatcherPhaseEnvNames as [|p ps IH]; intros out Hk; [done|].
  cbn [forallb] in Hk. apply andb_true_iff in Hk as [Hp Hps]. cbn [foldl]. rewrite readable_text by done. by apply IH.
Qed.

Lemma readable_load : load_all (readable env) = load_all env.
Proof.
  unfold load_all, load_http, load_db, load_dispatcher, load_tool, load_mcp, load_apply, load_bootstrap, load_obs, envPositive.
  rewrite !readable_int by (vm_compute; reflexivity). rewrite !readable_bool by (vm_compute; reflexivity). rewrite !readable_duration by (vm_compute; reflexivity).
  rewrite !readable_phases by (vm_compute; reflexivity). rewrite !readable_str by (vm_compute; reflexivity). reflexivity.
Qed.
(** (malformed values) a number, flag or duration that does not parse is as good
    as unset: the configuration, or the error, is that of the environment without
    the malformed variables. *)
Theorem malformed_values_are_ignored : Load env = Load (readable env).
Proof. unfold Load. by rewrite readable_load. Qed.

Lemma Load_loaded c : Load env = Ok c → c = load_all env.
Proof. unfold Load. destruct (config_Validate (load_all env)); [done|]. by intros [= <-]. Qed.
Lemma int32_bounds z : (- 2 ^ 31 <= int32 z < 2 ^ 31)%Z.
Proof. unfold int32. pose proof (Z.mod_pos_bound (z + 2 ^ 31) (2 ^ 32)). lia. Qed.
Lemma envPositive_bound key def : (0 <= def)%Z → (def <= envPositive env key def ∨ 0 < envPositive env key def)%Z.
Proof. unfold envPositive. intros Hd. destruct (0 <? envInt env key 0)%Z eqn:Hv; lia. Qed.

(** (boot) Load succeeds exactly when the four required addresses are set, the
    cap on agents is positive and the log level is known; what it then returns the
    spawn governor accepts, with connection counts that are int32 values and limits
    of the documentation import that are positive. *)
Theorem loaded_configuration_is_sound :
  let c := load_all env in
  (Load env = Ok c ↔
     db_URL (cf_DB c) ≠ EmptyString ∧ sv_BaseURL (cf_Governance c) ≠ EmptyString ∧ sv_BaseURL (cf_Memory c) ≠ EmptyString ∧
     sv_BaseURL (cf_Runtime c) ≠ EmptyString ∧ (0 < gc_Max (cf_Spawn c))%Z ∧ cf_LogLevel c ∈ log_levels) ∧
  (∀ c', Load env = Ok c' →
     c' = c ∧ GovConfig_Validate (cf_Spawn c') = None ∧ (- 2 ^ 31 <= db_MaxConns (cf_DB c') < 2 ^ 31)%Z ∧ (- 2 ^ 31 <= db_MinConns (cf_DB c') < 2 ^ 31)%Z ∧
     (0 < bs_MaxCallsPerProjectPerDay (cf_Bootstrap c'))%Z ∧ (0 < bs_MinSnippets (cf_Bootstrap c'))%Z ∧ (0 < bs_BodyBudget (cf_Bootstrap c'))%Z ∧
     (0 <= ac_DispatchTimeoutMS (cf_Apply c'))%Z ∧ (0 <= ac_QuotaBreakerThreshold (cf_Apply c'))%Z).
Proof.
  cbv zeta. unfold Load. set (c := load_all env).
  assert (Hval : config_Validate c = None ↔ db_URL (cf_DB c) ≠ EmptyString ∧ sv_BaseURL (cf_Governance c) ≠ EmptyString ∧ sv_BaseURL (cf_Memory c) ≠ EmptyString ∧
     sv_BaseURL (cf_Runtime c) ≠ EmptyString ∧ (0 < gc_Max (cf_Spawn c))%Z ∧ cf_LogLevel c ∈ log_levels).
  { clearbody c. unfold config_Validate, str_empty. repeat case_bool_decide; try (split; [done|naive_solver]);
      destruct (Z.leb_spec (gc_Max (cf_Spawn c)) 0); split; try done; try lia; intros; try lia; naive_solver lia. }
  split; [rewrite <-Hval; by destruct (config_Validate c)|]. intros c' Hc.
  destruct (config_Validate c) eqn:Hv; [done|]. injection Hc as <-. apply proj1 in Hval. specialize (Hval eq_refl) as (_ & _ & _ & _ & Hmax & _).
  split; [done|]. split; [apply GovConfig_Validate_None; split; [exact Hmax|]; subst c; cbn; unfold Millisecond, Second; lia|].
  split; [apply int32_bounds|]. split; [apply int32_bounds|].
  split_and!; subst c; cbn [load_all cf_Bootstrap cf_Apply load_bootstrap load_apply bs_MaxCallsPerProjectPerDay bs_MinSnippets bs_BodyBudget ac_DispatchTimeoutMS ac_QuotaBreakerThreshold config_Default];
    match goal with |- context [envPositive env ?k ?d] => pose proof (envPositive_bound k d ltac:(lia)) end; lia.
Qed.
End Facts.

(** ** Samples *)

#[local] Instance some_tables : UnicodeTables := {| EqualFold s t := bool_decide (s = t); ToLower := lower; has_wide_digit _ := false |}.
Definition sample_vars : gmap string string :=
  list_to_map [("SOPHIA_DB_URL", "postgres://db"); ("SOPHIA_GOVERNANCE_URL", "http://gov"); ("SOPHIA_MEMORY_URL", "http://mem"); ("SOPHIA_RUNTIME_URL", "http://rt");
               ("SOPHIA_SPAWN_MAX", "ten"); ("SOPHIA_LOG_LEVEL", "WARN"); ("SOPHIA_DB_MAX_CONNS", "4294967296"); ("SOPHIA_HTTP_ALLOW_ANON_LOCALHOST", "yes");
               ("SOPHIA_MCP_PROVIDER_ALLOWLIST", "opencode, ,codex "); ("SOPHIA_DISPATCHER_PROVIDER_APPLY", "aider"); ("SOPHIA_DISPATCHER_PROVIDER_SPEC", "")]%string.
Definition sample_vars_env (key : string) : option string := sample_vars !! key.

Lemma duration_text_is_read_witness : ParseDuration "-1h30m" = Some (- (5400 * Second))%Z.
Proof.
  change "-1h30m"%string with (text (signed true (mjoin (item_chars <$> [(chars "1", (chars "h", 3600 * 1000000000)%Z); (chars "30", (chars "m", 60 * 1000000000)%Z)])))).
  rewrite duration_text_is_read; [reflexivity|done| |vm_compute; reflexivity].
  repeat apply Forall_cons_2; [..|apply Forall_nil_2]; split; try done; split;
    try (repeat apply Forall_cons_2; [..|apply Forall_nil_2]; reflexivity); apply list_elem_of_In; vm_compute; tauto.
Defined.

Example duration_values :
  ParseDuration <$> ["5s"; "1.5h"; "0"; "-2ms"; "1h1.000000001s"; "5"; "s"; "1d"; "9223372036854775807ns"; "9223372036854775808ns"; ".5m"; "+3us"; "."]%string
  = [Some 5000000000; Some 5400000000000; Some 0; Some (- 2000000); Some 3601000000001; None; None; None; Some 9223372036854775807; None; Some 30000000000; Some 3000; None]%Z.
Proof. vm_compute. reflexivity. Qed.

(** A malformed cap keeps the default, a count of connections beyond int32 wraps, and
    a word that is no flag is none. *)
Example sample_configuration :
  match Load sample_vars_env with
  | Ok c => gc_Max (cf_Spawn c) = 6%Z ∧ cf_LogLevel c = "warn"%string ∧ db_MaxConns (cf_DB c) = 0%Z ∧ ht_AllowAnonLocalhost (cf_HTTP c) = false ∧
            mp_ProviderAllowlist (dp_MCP (cf_Dispatcher c)) = ["opencode"; "codex"]%string ∧ dp_ProviderByPhase (cf_Dispatcher c) !! "apply"%string = Some "aider"%string ∧
            dp_ProviderByPhase (cf_Dispatcher c) !! "spec"%string = None
  | Err _ => False
  end ∧ Load (λ _, None) = Err (ErrMissing "SOPHIA_DB_URL").
Proof. vm_compute. repeat split. Qed.
