(* ===== verification/Events.v ===== *)
(** * The wire form of events

    [internal/ports/inbound/event_types.go] and [event_payloads.go]: the names of
    the events a client sees and the JSON of their payloads, and which payload each
    event of the phase service ([Store.payload]) and of the apply executor
    ([apply_event]) is published with. *)
From S2P Require Import Prelude Ids Utf8 Json Envelope PhaseDomain ApplyDomain Session Outbox Store PhaseHelpers ApplyEffects Floats Lines JsonText Wire OpenCode Dispatchers Config.
From stdpp Require Import list gmap pretty.
From Stdlib Require Import Ascii.

(** ** Names *)

Definition knownEventTypes : list string :=
  [ "phase.started"; "phase.completed"; "phase.completed_with_concerns"; "phase.failed"; "phase.needs_context"; "approval.required"; "approval.resolved";
    "governance.decision"; "agent.dispatched"; "agent.envelope.received"; "apply.board.created"; "apply.board.save_failed"; "apply.worktree.error";
    "apply.group.completed"; "apply.group.failed"; "apply.group.degraded"; "apply.team_lead.spawned"; "apply.implement.spawn_failed";
    "apply.implement.spawn_governor_error"; "apply.task.claimed"; "apply.task.claim_skipped"; "apply.task.escalated"; "apply.task.retry";
    "apply.provider.quota_exceeded"; "apply.provider.fallback_used"; "apply.phase.quota_aborted"; "apply.dispatch.error"; "apply.envelope.validation_failed";
    "runtime.dispatch_failed"; "memory.artifact_persist_failed"; "apply.build.started"; "apply.build.passed"; "apply.build.failed";
    "apply.materialize.started"; "apply.materialize.completed"; "apply.materialize.error"; "phase.archived" ]%string.
Definition IsKnownEventType (eventType : string) : bool := bool_decide (eventType ∈ knownEventTypes).

(** ** Payloads *)

Inductive event_payload :=
  | ApplyBoardCreatedPayload (boardID : string) (groups : Z)
  | ApplyBoardSaveFailedPayload (err : string)
  | ApplyWorktreeErrorPayload (groupID err : string)
  | ApplyGroupCompletedPayload (groupID : string) (tasksDone : Z)
  | ApplyGroupFailedPayload (groupID reason : string)
  | ApplyGroupDegradedPayload (groupID failedDep failedDepErr : string) (continuedRun : bool)
  | ApplyTeamLeadSpawnedPayload (sessionID groupID : string)
  | ApplyImplementSpawnFailedPayload (taskID err : string)
  | ApplyImplementSpawnGovernorErrorPayload (taskID err : string)
  | ApplyTaskClaimedPayload (taskID sessionID : string)
  | ApplyTaskClaimSkippedPayload (taskID err : string)
  | ApplyTaskEscalatedPayload (taskID : string) (attempts : Z) (reason finalEnvelopeSummary : string) (blockingRequirements : list string)
  | ApplyTaskRetryPayload (taskID : string) (attempts : Z)
  | ApplyProviderQuotaExceededPayload (taskID provider model : string) (retryAfterSeconds : Z) (evidence : string)
  | ApplyProviderFallbackUsedPayload (taskID fallbackModel primaryProvider primaryModel : string) (retryAfterSeconds : Z) (evidence : string)
  | ApplyPhaseQuotaAbortedPayload (threshold streak : Z) (lastProvider lastModel : string) (retryAfter : Z)
  | ApplyDispatchErrorPayload (taskID err : string)
  | ApplyEnvelopeValidationFailedPayload (taskID err : string)
  | RuntimeDispatchFailedPayload (taskID err : string)
  | ApplyBuildStartedPayload (groupID manifest command : string) (args : list string) (attempt : Z)
  | ApplyBuildPassedPayload (groupID manifest command : string) (attempt durationMS : Z)
  | ApplyBuildFailedPayload (groupID manifest command : string) (attempt exitCode : Z) (stderr : string) (truncated : bool)
  | ApplyMaterializeStartedPayload (targetPath : string)
  | ApplyMaterializeCompletedPayload (targetPath : string) (groupsMaterialized : Z)
  | ApplyMaterializeErrorPayload (groupID err : string)
  | MemoryArtifactPersistFailedPayload (phaseID topicKey type_ err : string)
  | PhaseArchivedPayload (changeID changeName phaseType : string) (archivedAt : Time)
  | PhaseStartedPayload (phaseID phaseType changeID : string) (startedAt : Time)
  | GovernanceDecisionPayload (decision reason agentRole : string)
  | ApprovalRequiredPayload (phaseID gateURL reason : string)
  | ApprovalResolvedPayload (phaseID decision approver reason : string) (decidedAt : Time)
  | AgentDispatchedPayload (phaseID sessionID role provider : string)
  | AgentEnvelopeReceivedPayload (status : string) (confidence : float64)
  | PhaseCompletedPayload (phaseID phaseType : string) (endedAt : Time) (confidence : float64) (envelopeStatus : string) (envelopeConfidence : float64) (concerns : list Concern)
  | PhaseCompletedFromApplyPayload (envelopeStatus : string) (envelopeConfidence : float64) (concerns : list Concern)
  | PhaseFailedPayload (phaseID phaseType : string) (endedAt : Time) (error failureReason failureDetail : string).

Definition str_field (k v : string) : string * jdoc := (k, DStr v).
Definition int_field (k : string) (z : Z) : string * jdoc := (k, int_doc z).
Definition bool_field (k : string) (b : bool) : string * jdoc := (k, DBool b).
Definition list_field (k : string) (l : list string) : string * jdoc := (k, DArr (DStr <$> l)).
Definition omit_empty (k v : string) : list (string * jdoc) := if str_empty v then [] else [(k, DStr v)].
Definition ConcernPayload (c : Concern) : jdoc :=
  DObj [("severity", DStr (c_Severity c)); ("category", DStr (c_Category c)); ("message", DStr (c_Message c)); ("evidence", DStr (c_Evidence c))]%string.
Definition concerns_field (l : list Concern) : list (string * jdoc) := match l with [] => [] | _ => [("concerns"%string, DArr (ConcernPayload <$> l))] end.

Section Payloads.
(** encoding/json on a float64, and on a time. *)
Context (float_doc : float64 → jdoc) (time_doc : Time → jdoc).

Definition time_field (k : string) (z : Time) : string * jdoc := (k, time_doc z).
Definition float_field (k : string) (x : float64) : string * jdoc := (k, float_doc x).
Definition payload_fields (p : event_payload) : list (string * jdoc) :=
  match p with
  | ApplyBoardCreatedPayload b g => [str_field "board_id" b; int_field "groups" g]
  | ApplyBoardSaveFailedPayload e => [str_field "err" e]
  | ApplyWorktreeErrorPayload g e | ApplyMaterializeErrorPayload g e => [str_field "group_id" g; str_field "err" e]
  | ApplyGroupCompletedPayload g k => [str_field "group_id" g; int_field "tasks_done" k]
  | ApplyGroupFailedPayload g r => [str_field "group_id" g; str_field "reason" r]
  | ApplyGroupDegradedPayload g d e c => [str_field "group_id" g; str_field "failed_dep" d; str_field "failed_dep_err" e; bool_field "continued_run" c]
  | ApplyTeamLeadSpawnedPayload i g => [str_field "session_id" i; str_field "group_id" g]
  | ApplyImplementSpawnFailedPayload i e | ApplyImplementSpawnGovernorErrorPayload i e | ApplyTaskClaimSkippedPayload i e
  | ApplyDispatchErrorPayload i e | ApplyEnvelopeValidationFailedPayload i e | RuntimeDispatchFailedPayload i e => [str_field "task_id" i; str_field "err" e]
  | ApplyTaskClaimedPayload i x => [str_field "task_id" i; str_field "session_id" x]
  | ApplyTaskEscalatedPayload i a r sum l =>
      [str_field "task_id" i; int_field "attempts" a; str_field "reason" r] ++ omit_empty "final_envelope_summary" sum ++ match l with [] => [] | _ => [list_field "blocking_requirements" l] end
  | ApplyTaskRetryPayload i a => [str_field "task_id" i; int_field "attempts" a]
  | ApplyProviderQuotaExceededPayload i p m a e => [str_field "task_id" i; str_field "provider" p; str_field "model" m; int_field "retry_after_seconds" a; str_field "evidence" e]
  | ApplyProviderFallbackUsedPayload i fm p m a e =>
      [str_field "task_id" i; str_field "fallback_model" fm; str_field "primary_provider" p; str_field "primary_model" m; int_field "retry_after_seconds" a; str_field "evidence" e]
  | ApplyPhaseQuotaAbortedPayload th st p m a => [int_field "threshold" th; int_field "streak" st; str_field "last_provider" p; str_field "last_model" m; int_field "retry_after_seconds" a]
  | ApplyBuildStartedPayload g m c a k => [str_field "group_id" g; str_field "manifest" m; str_field "command" c; list_field "args" a; int_field "attempt" k]
  | ApplyBuildPassedPayload g m c k d => [str_field "group_id" g; str_field "manifest" m; str_field "command" c; int_field "attempt" k; int_field "duration_ms" d]
  | ApplyBuildFailedPayload g m c k x e b => [str_field "group_id" g; str_field "manifest" m; str_field "command" c; int_field "attempt" k; int_field "exit_code" x; str_field "stderr" e; bool_field "truncated" b]
  | ApplyMaterializeStartedPayload p => [str_field "target_path" p]
  | ApplyMaterializeCompletedPayload p k => [str_field "target_path" p; int_field "groups_materialized" k]
  | MemoryArtifactPersistFailedPayload i k y e => [str_field "phase_id" i; str_field "topic_key" k; str_field "type" y; str_field "err" e]
  | PhaseArchivedPayload c m y a => [str_field "change_id" c; str_field "change_name" m; str_field "phase_type" y; time_field "archived_at" a]
  | PhaseStartedPayload i y c a => [str_field "phase_id" i; str_field "phase_type" y; str_field "change_id" c; time_field "started_at" a]
  | GovernanceDecisionPayload d r a => [str_field "decision" d; str_field "reason" r; str_field "agent_role" a]
  | ApprovalRequiredPayload i u r => [str_field "phase_id" i; str_field "gate_url" u; str_field "reason" r]
  | ApprovalResolvedPayload i d a r w => [str_field "phase_id" i; str_field "decision" d; str_field "approver" a; str_field "reason" r; time_field "decided_at" w]
  | AgentDispatchedPayload i x r p => [str_field "phase_id" i; str_field "session_id" x; str_field "role" r; str_field "provider" p]
  | AgentEnvelopeReceivedPayload x c => [str_field "status" x; float_field "confidence" c]
  | PhaseCompletedPayload i y w c es ec l =>
      [str_field "phase_id" i; str_field "phase_type" y; time_field "ended_at" w; float_field "confidence" c; str_field "envelope_status" es; float_field "envelope_confidence" ec] ++ concerns_field l
  | PhaseCompletedFromApplyPayload es ec l => [str_field "envelope_status" es; float_field "envelope_confidence" ec] ++ concerns_field l
  | PhaseFailedPayload i y w e r d => [str_field "phase_id" i; str_field "phase_type" y; time_field "ended_at" w; str_field "error" e] ++ omit_empty "failure_reason" r ++ omit_empty "failure_detail" d
  end.
Definition payload_text (p : event_payload) : string := doc_text (DObj (payload_fields p)).
End Payloads.

(** ** Which event carries which payload *)

(** Texts the models of the services leave out: of errors, of the build that runs,
    of governance. *)
Record event_texts := mkEventTexts {
  et_err : string; et_command : string; et_args : list string; et_durationMS : Z; et_target : string;
  et_reason : string; et_agentRole : string; et_gateURL : string
}.
(** The publications of application/apply.  A repair that fails to dispatch is
    reported with the id of its group as the id of a task. *)
Definition apply_publication (x : event_texts) (e : apply_event) : string * event_payload :=
  match e with
  | EvBoardCreated b n => ("apply.board.created", ApplyBoardCreatedPayload (ID_String b) (Z.of_nat n))
  | EvBoardSaveFailed => ("apply.board.save_failed", ApplyBoardSaveFailedPayload (et_err x))
  | EvWorktreeError g => ("apply.worktree.error", ApplyWorktreeErrorPayload (ID_String g) (et_err x))
  | EvGroupCompleted g n => ("apply.group.completed", ApplyGroupCompletedPayload (ID_String g) (Z.of_nat n))
  | EvGroupFailed g => ("apply.group.failed", ApplyGroupFailedPayload (ID_String g) (et_err x))
  | EvGroupDegraded g dep => ("apply.group.degraded", ApplyGroupDegradedPayload (ID_String g) dep (et_err x) true)
  | EvTeamLeadSpawned s g => ("apply.team_lead.spawned", ApplyTeamLeadSpawnedPayload (ID_String s) (ID_String g))
  | EvImplementSpawnFailed t => ("apply.implement.spawn_failed", ApplyImplementSpawnFailedPayload (ID_String t) (et_err x))
  | EvImplementSpawnGovernorError t => ("apply.implement.spawn_governor_error", ApplyImplementSpawnGovernorErrorPayload (ID_String t) (et_err x))
  | EvTaskClaimed t s => ("apply.task.claimed", ApplyTaskClaimedPayload (ID_String t) (ID_String s))
  | EvTaskClaimSkipped t => ("apply.task.claim_skipped", ApplyTaskClaimSkippedPayload (ID_String t) (et_err x))
  | EvTaskEscalated t n summary blockers => ("apply.task.escalated", ApplyTaskEscalatedPayload (ID_String t) n (et_err x) summary blockers)
  | EvTaskRetry t n => ("apply.task.retry", ApplyTaskRetryPayload (ID_String t) n)
  | EvProviderQuotaExceeded t q => ("apply.provider.quota_exceeded", ApplyProviderQuotaExceededPayload (ID_String t) (q_Provider q) (q_Model q) (q_RetryAfterSeconds q) (q_Evidence q))
  | EvProviderFallbackUsed t m q => ("apply.provider.fallback_used", ApplyProviderFallbackUsedPayload (ID_String t) m (q_Provider q) (q_Model q) (q_RetryAfterSeconds q) (q_Evidence q))
  | EvPhaseQuotaAborted th st (Some q) => ("apply.phase.quota_aborted", ApplyPhaseQuotaAbortedPayload th st (q_Provider q) (q_Model q) (q_RetryAfterSeconds q))
  | EvPhaseQuotaAborted th st None => ("apply.phase.quota_aborted", ApplyPhaseQuotaAbortedPayload th st EmptyString EmptyString 0)
  | EvDispatchError (ForTask t) => ("apply.dispatch.error", ApplyDispatchErrorPayload (ID_String t) (et_err x))
  | EvDispatchError (ForBuild g) => ("apply.dispatch.error", ApplyDispatchErrorPayload (ID_String g) (et_err x))
  | EvEnvelopeValidationFailed t => ("apply.envelope.validation_failed", ApplyEnvelopeValidationFailedPayload (ID_String t) (et_err x))
  | EvRuntimeDispatchFailed t => ("runtime.dispatch_failed", RuntimeDispatchFailedPayload (ID_String t) (et_err x))
  | EvBuildStarted g m n => ("apply.build.started", ApplyBuildStartedPayload (ID_String g) m (et_command x) (et_args x) n)
  | EvBuildPassed g m n => ("apply.build.passed", ApplyBuildPassedPayload (ID_String g) m (et_command x) n (et_durationMS x))
  | EvBuildFailed g m n code err cut => ("apply.build.failed", ApplyBuildFailedPayload (ID_String g) m (et_command x) n code err cut)
  | EvMaterializeStarted => ("apply.materialize.started", ApplyMaterializeStartedPayload (et_target x))
  | EvMaterializeError g => ("apply.materialize.error", ApplyMaterializeErrorPayload (ID_String g) (et_err x))
  | EvMaterializeCompleted n => ("apply.materialize.completed", ApplyMaterializeCompletedPayload (et_target x) (Z.of_nat n))
  end%string.
(** The payloads of application/phase, and of the outbox. *)
Definition phase_publication (x : event_texts) (pid : PhaseID) (at_ : Time) (p : payload) : event_payload :=
  let i := ID_String pid in
  match p with
  | PStarted pt c => PhaseStartedPayload i pt (ID_String c) at_
  | PGovernance d => GovernanceDecisionPayload d (et_reason x) (et_agentRole x)
  | PApprovalRequired => ApprovalRequiredPayload i (et_gateURL x) (et_reason x)
  | PApprovalResolved d a r => ApprovalResolvedPayload i d a r at_
  | PDispatched s role provider => AgentDispatchedPayload i (ID_String s) role provider
  | PEnvelopeReceived st c => AgentEnvelopeReceivedPayload st c
  | PArtifactFailed topic t => MemoryArtifactPersistFailedPayload i topic t (et_err x)
  | PCompleted pt st c l => PhaseCompletedPayload i pt at_ c st c l
  | PCompletedFromApply st c l => PhaseCompletedFromApplyPayload st c l
  | PFailed pt e r d => PhaseFailedPayload i pt at_ e r d
  | PArchived c n => PhaseArchivedPayload (ID_String c) n "archive" at_
  end.

Lemma apply_events_are_known x e : IsKnownEventType (apply_publication x e).1 = true.
Proof. destruct e as [ | | | | | | | | | | | | | | |? ? [q|]|[t|g]| | | | | | | | ]; vm_compute; reflexivity. Qed.
Lemma event_types_distinct : NoDup knownEventTypes.
Proof. apply (bool_decide_unpack _). vm_compute. exact I. Qed.

(** ** Numbers are read back *)

Lemma pretty_char_digit n : dec_digit (pretty_N_char n) = true ∧ ((0 < n < 10)%N → is_char 48 (pretty_N_char n) = false) ∧ ((n < 10)%N → digit_value (pretty_N_char n) = Z.of_N n).
Proof.
  assert (n < 10 ∨ 10 <= n)%N as [Hn|Hn] by lia.
  - assert (n = 0 ∨ n = 1 ∨ n = 2 ∨ n = 3 ∨ n = 4 ∨ n = 5 ∨ n = 6 ∨ n = 7 ∨ n = 8 ∨ n = 9)%N as Hc by lia.
    repeat destruct Hc as [->|Hc]; [..|subst n]; (split; [reflexivity|split; [intros ?; first [reflexivity|lia]|reflexivity]]).
  - split; [|lia]. assert (pretty_N_char n = "9"%char) as ->; [|reflexivity]. unfold pretty_N_char. repeat case_match; subst; try reflexivity; lia.
Qed.
Lemma pretty_go_digits x s :
  Forall (λ a, dec_digit a = true) (chars s) →
  Forall (λ a, dec_digit a = true) (chars (pretty_N_go x s)) ∧
  dec_value (chars (pretty_N_go x s)) = (Z.of_N x * 10 ^ Z.of_nat (length (chars s)) + dec_value (chars s))%Z ∧
  ((0 < x)%N → ∃ a ds, chars (pretty_N_go x s) = a :: ds ∧ is_char 48 a = false).
Proof.
  revert s. induction (N.lt_wf_0 x) as [x _ IH]. intros s Hs. destruct (decide (x = 0)%N) as [->|Hx]; [rewrite pretty_N_go_0; split_and!; [done|lia|lia]|].
  assert (Hpos : (0 < x)%N) by lia. destruct (pretty_char_digit (x mod 10)) as (Hd & Hz & Hv).
  pose proof (N.mod_lt x 10 ltac:(lia)) as Hm. specialize (Hv Hm).
  assert (Hs' : Forall (λ a, dec_digit a = true) (chars (String (pretty_N_char (x mod 10)) s))) by (by apply Forall_cons).
  rewrite pretty_N_go_step by done. destruct (IH (x / 10)%N (N.div_lt x 10 Hpos eq_refl) _ Hs') as (H1 & H2 & H3). split; [done|]. split.
  - rewrite H2. change (chars (String (pretty_N_char (x mod 10)) s)) with (pretty_N_char (x mod 10) :: chars s).
    change (dec_value (pretty_N_char (x mod 10) :: chars s)) with (foldl (λ z a, 10 * z + (Z.of_N (code a) - 48))%Z (10 * 0 + digit_value (pretty_N_char (x mod 10)))%Z (chars s)).
    rewrite dec_value_from, Hv. cbn [length]. rewrite Nat2Z.inj_succ, Z.pow_succ_r by lia. pose proof (N.div_mod x 10 ltac:(lia)) as Hdm.
    assert (Hz' : Z.of_N x = (10 * Z.of_N (x / 10)%N + Z.of_N (x mod 10)%N)%Z) by (rewrite Hdm at 1; rewrite N2Z.inj_add, N2Z.inj_mul; reflexivity). rewrite Hz'. ring.
  - intros _. destruct (decide (x / 10 = 0)%N) as [H0|H0]; [|by apply H3, N.neq_0_lt_0]. rewrite H0, pretty_N_go_0. eexists _, _. split; [done|]. apply Hz.
    pose proof (N.div_mod x 10 ltac:(lia)) as Hdm. rewrite H0 in Hdm. lia.
Qed.
Lemma pretty_N_digits (x : N) :
  Forall (λ a, dec_digit a = true) (chars (pretty x)) ∧ dec_value (chars (pretty x)) = Z.of_N x ∧
  (chars (pretty x) = ["0"%char] ∨ ∃ a ds, chars (pretty x) = a :: ds ∧ is_char 48 a = false).
Proof.
  unfold pretty, pretty_N. case_decide as Hx; [subst; split_and!; [by apply Forall_singleton|done|by left]|].
  destruct (pretty_go_digits x EmptyString (Forall_nil_2 _)) as (H1 & H2 & H3). split; [done|]. split; [rewrite H2; cbn; lia|right; apply H3; lia].
Qed.
Lemma pretty_abs z : pretty (Z.abs z) = pretty (Z.abs_N z).
Proof. by destruct z. Qed.
Lemma int_doc_ok z : doc_ok (int_doc z).
Proof.
  cbn. rewrite pretty_abs. destruct (pretty_N_digits (Z.abs_N z)) as (H1 & _ & H3). split_and!; [|done|done]. cbn. destruct H3 as [->|H3]; [by left|right; by split].
Qed.
Lemma int_doc_read z : (- 2 ^ 63 <= z < 2 ^ 63)%Z → as_int (doc_node (int_doc z)) = Some z.
Proof.
  intros Hz. unfold as_int, int_doc. cbn [doc_node jvalue jtext]. destruct (pretty_N_digits (Z.abs_N z)) as (H1 & H2 & H3). rewrite <-pretty_abs in H1, H2, H3.
  assert (Hall : forallb dec_digit (chars (pretty (Z.abs z))) = true) by (apply forallb_forall; rewrite Forall_forall in H1; intros a Ha; by apply H1, list_elem_of_In).
  unfold doc_text. rewrite chars_text. cbn [doc_chars number_chars]. unfold number_chars. cbn [n_neg n_int n_frac n_exp]. rewrite !app_nil_r.
  destruct (z <? 0)%Z eqn:Hneg.
  - cbn [app]. change (is_char 45 "-"%char) with true. cbn [negb]. rewrite Hall, H2. apply Z.ltb_lt in Hneg.
    rewrite (proj2 (Z.leb_le _ _)), (proj2 (Z.ltb_lt _ _)) by lia. cbn [andb]. f_equal. lia.
  - apply Z.ltb_ge in Hneg. cbn [app].
    assert (Hd : ∃ a l, chars (pretty (Z.abs z)) = a :: l ∧ is_char 45 a = false).
    { destruct H3 as [->|(a & l & Hl & _)]; [by eexists _, _|]. exists a, l. split; [done|]. rewrite Hl in H1. apply Forall_cons in H1 as [Ha _].
      by apply sign_no_digit, orb_false_iff in Ha as [_ ?]. }
    destruct Hd as (a & l & Hl & Ha). rewrite Hl, Ha. rewrite <-Hl, Hall, H2. rewrite (proj2 (Z.leb_le _ _)), (proj2 (Z.ltb_lt _ _)) by lia. cbn [andb]. f_equal. lia.
Qed.

Section Reading.
Context (float_doc : float64 → jdoc) (time_doc : Time → jdoc).
(** A float and a time are written as a number or a string. *)
Hypothesis float_flat : ∀ x, doc_ok (float_doc x) ∧ doc_depth (float_doc x) = 0%nat.
Hypothesis time_flat : ∀ x, doc_ok (time_doc x) ∧ doc_depth (time_doc x) = 0%nat.

Lemma strs_ok (l : list string) : doc_ok (DArr (DStr <$> l)) ∧ doc_depth (DArr (DStr <$> l)) = 1%nat.
Proof. induction l as [|s l [IH1 IH2]]; [done|]. cbn in *. split; [by split|]. done. Qed.
Lemma concerns_ok (l : list Concern) : doc_ok (DArr (ConcernPayload <$> l)) ∧ (doc_depth (DArr (ConcernPayload <$> l)) <= 2)%nat.
Proof. induction l as [|c l [IH1 IH2]]; [by cbn; auto|]. cbn in *. split; [by repeat split|]. lia. Qed.
Definition shallow (kv : string * jdoc) : Prop := doc_ok kv.2 ∧ (doc_depth kv.2 <= 2)%nat.
Lemma payload_shallow p : Forall shallow (payload_fields float_doc time_doc p).
Proof.
  assert (Hs : ∀ k v, shallow (str_field k v)) by (split; [done|cbn; lia]).
  assert (Hn : ∀ k z, shallow (int_field k z)) by (split; [apply int_doc_ok|cbn; lia]).
  assert (Hb : ∀ k b, shallow (bool_field k b)) by (split; [done|cbn; lia]).
  assert (Hl : ∀ k l, shallow (list_field k l)) by (intros k l; destruct (strs_ok l) as [H1 H2]; split; [done|cbn [list_field snd]; lia]).
  assert (Ht : ∀ k z, shallow (time_field time_doc k z)) by (intros k z; destruct (time_flat z) as [H1 H2]; split; [done|cbn; lia]).
  assert (Hf : ∀ k x, shallow (float_field float_doc k x)) by (intros k x; destruct (float_flat x) as [H1 H2]; split; [done|cbn; lia]).
  assert (Ho : ∀ k v, Forall shallow (omit_empty k v)) by (intros k v; unfold omit_empty; destruct (str_empty v); [done|]; apply Forall_singleton; by apply Hs).
  assert (Hc : ∀ l, Forall shallow (concerns_field l)) by (intros [|c l]; [done|]; apply Forall_singleton; apply concerns_ok).
  destruct p as [ | | | | | | | | | | |? ? ? ? blockers| | | | | | | | | | | | | | | | | | | | | | | | ]; cbn [payload_fields];
    repeat first [apply Forall_app; split|apply Forall_cons; split|apply Forall_nil; exact I|solve [auto]].
  destruct blockers; [done|]. by apply Forall_singleton.
Qed.

(** A payload is read as the object of its fields, and its integers as themselves
    ([int_doc_read]). *)
Lemma payload_is_read p :
  json_parse (payload_text float_doc time_doc p) = JSON (doc_node (DObj (payload_fields float_doc time_doc p))).
Proof.
  unfold payload_text. pose proof (payload_shallow p) as Hp. apply json_parse_doc.
  - cbn [doc_ok]. induction Hp as [|kv l [Hk _] _ IH]; cbn; [done|]. by split.
  - assert (Hd : (doc_depth (DObj (payload_fields float_doc time_doc p)) <= 3)%nat).
    { cbn [doc_depth]. apply le_n_S. induction Hp as [|kv l [_ Hk] _ IH]; cbn; lia. }
    etrans; [exact Hd|]. apply Nat.leb_le. reflexivity.
Qed.
End Reading.

Example sample_payloads :
  let f (x : float64) := DStr "f" in let t (x : Time) := DStr "t" in
  payload_text f t (ApplyTaskRetryPayload "t1" 2) = concat_strings ["{"; dq; "task_id"; dq; ":"; dq; "t1"; dq; ","; dq; "attempts"; dq; ":2}"]%string ∧
  payload_text f t (ApplyTaskEscalatedPayload "t" (-1) "r" "" []) = concat_strings ["{"; dq; "task_id"; dq; ":"; dq; "t"; dq; ","; dq; "attempts"; dq; ":-1,"; dq; "reason"; dq; ":"; dq; "r"; dq; "}"]%string ∧
  apply_publication (mkEventTexts "e" "" [] 0 "" "" "" "") (EvDispatchError (ForBuild (mkID "g1"))) = ("apply.dispatch.error"%string, ApplyDispatchErrorPayload "g1" "e").
Proof. vm_compute. repeat split. Qed.
