(* ===== verification/HttpApi.v ===== *)
(** * The HTTP interface

    [internal/adapters/inbound/http]: routing, authentication, the handlers and the
    mapping of errors to statuses.  A handler first reads its request and either
    answers at once or calls a service ([accept]); then it turns the service's
    result into a response ([perform_call]).  Patterns of the router match as chi
    documents them; [pkg/contract], with the names of codes and headers, is in
    another repository and is the class [Contract]. *)
From S2P Require Import Prelude Ids Utf8 Json Envelope PhaseDomain ChangeDomain ApplyDomain Store Sha256 Lines EventStream Effects PhaseHelpers ApplyEffects ApplyRun JsonText Regex SkillDomain SkillStore SkillService Trace Wire OpenCode Dispatchers PhaseService.
From stdpp Require Import list gmap sorting pretty.
From Stdlib Require Import Ascii.

(** ** Errors (errors.go) *)

Inductive contract_code :=
  | CodeInternalError | CodeChangeNotFound | CodePhaseNotFound | CodeValidationFailed | CodeChangeAlreadyExists | CodePhaseNotResumable
  | CodeChangeAlreadyTerminal | CodeApproverRequired | CodePhaseNotGated | CodeGateAlreadyDecided | CodeUnauthorized | CodePhaseTerminalNoEvents.
Class Contract := { code_text : contract_code → string; HeaderAPIKey : string; HeaderAPIKeyLegacy : string }.

(** What errors.Is finds in an error of a service. *)
Inductive api_error :=
  | AErrNotFound | AErrInvalidID | AErrChangeExists | AErrInvalidTransition | AErrPhaseRunning | AErrPhaseTerminal | AErrApproverRequired
  | AErrPhaseNotGated | AErrGateDecided | AErrChangeTerminal | AErrChangeInput (e : change_error) | AErrPhaseInput (e : phase_error) | AErrForbiddenTransition | AErrOther.
Definition store_api (e : store_error) : api_error := match e with ErrNotFound => AErrNotFound | ErrStore => AErrOther end.
Definition svc_api (e : svc_error) : api_error :=
  match e with
  | SvcStore e => store_api e
  | SvcInvalidTransition => AErrInvalidTransition
  | SvcPhaseRunning => AErrPhaseRunning
  | SvcAlreadyTerminal => AErrPhaseTerminal
  | SvcApproverRequired => AErrApproverRequired
  | SvcPhaseNotGated => AErrPhaseNotGated
  | SvcGateAlreadyDecided => AErrGateDecided
  | SvcPhase e => AErrPhaseInput e
  | SvcBadID => AErrInvalidID
  end.
Definition change_api (e : change_svc_error) : api_error :=
  match e with
  | ChStore e => store_api e
  | ChAlreadyExists => AErrChangeExists
  | ChBadID => AErrInvalidID
  | ChDomain ErrAlreadyTerminal => AErrChangeTerminal
  | ChDomain e => AErrChangeInput e
  end.
Definition skill_api (e : skill_svc_error) : api_error :=
  match e with SkSvcStore e => store_api e | SkSvcInvalidID => AErrInvalidID | ErrForbiddenStatusTransition => AErrForbiddenTransition | _ => AErrOther end.

Inductive resource := ResChange | ResPhase | ResNone.
Definition mapError (e : api_error) (r : resource) : Z * contract_code :=
  match e with
  | AErrNotFound => (404%Z, match r with ResChange => CodeChangeNotFound | ResPhase => CodePhaseNotFound | ResNone => CodeValidationFailed end)
  | AErrInvalidID => (400%Z, CodeValidationFailed)
  | AErrChangeExists => (409%Z, CodeChangeAlreadyExists)
  | AErrInvalidTransition => (409%Z, CodeValidationFailed)
  | AErrPhaseRunning => (409%Z, CodePhaseNotResumable)
  | AErrPhaseTerminal => (409%Z, CodeChangeAlreadyTerminal)
  | AErrApproverRequired => (400%Z, CodeApproverRequired)
  | AErrPhaseNotGated => (409%Z, CodePhaseNotGated)
  | AErrGateDecided => (409%Z, CodeGateAlreadyDecided)
  | AErrChangeTerminal => (409%Z, CodeChangeAlreadyTerminal)
  | AErrChangeInput _ => (400%Z, CodeValidationFailed)
  | AErrPhaseInput (ErrInvalidType | ErrBudgetExhausted) => (400%Z, CodeValidationFailed)
  | AErrPhaseInput _ => (500%Z, CodeInternalError)
  | AErrForbiddenTransition | AErrOther => (500%Z, CodeInternalError)
  end.

(** ** Requests and responses *)

(** [hr_path]: the segments of the path; [hr_query] and [hr_header]: Query().Get
    and Header.Get. *)
Record http_request := mkHttpRequest { hr_method : string; hr_path : list string; hr_query : string → string; hr_header : string → string; hr_body : string }.
Record response := mkResponse { rs_status : Z; rs_body : string }.
(** Encode ends the text with a line break. *)
Definition writeJSON (status : Z) (v : jdoc) : response := mkResponse status (doc_text v +:+ nl).
Definition obj1 (k v : string) : jdoc := DObj [(k, DStr v)].
Definition obj_code (code msg : string) : jdoc := DObj [("code"%string, DStr code); ("error"%string, DStr msg)].

(** json.NewDecoder(r.Body).Decode: the first value of the body. *)
Definition json_first (s : string) : option json :=
  let l := skip_ws (chars s) in fst <$> p_value (S (2 * length l)) 0 l.
Definition decode_body {S} (fs : list (string * (S → json → option S))) (zero : S) (body : string) : option S :=
  j ← json_first body; decode_struct fs zero j.
(** When the error is ignored, the members that could be decoded are kept. *)
Fixpoint decode_lenient {S} (fs : list (string * (S → json → option S))) (s : S) (l : list (string * json)) : S :=
  match l with
  | [] => s
  | (key, v) :: l' => decode_lenient fs (match find_field fs key with Some set => default s (set s v) | None => s end) l'
  end.
Definition decode_body_ignoring {S} (fs : list (string * (S → json → option S))) (zero : S) (body : string) : S :=
  match jvalue <$> json_first body with Some (JObj l) => decode_lenient fs zero l | _ => zero end.

Definition atoiDefault (s : string) (d : Z) : Z := if str_empty s then d else default d (Atoi s).

(** ** Routes (router.go) *)

Inductive route :=
  | RtCreate | RtList | RtGetChange (cid : string) | RtAbort (cid : string) | RtRun (cid pt : string)
  | RtGetPhase (pid : string) | RtResume (pid : string) | RtApprove (pid : string) | RtReject (pid : string) | RtBoard (pid : string) | RtEvents (pid : string)
  | RtUsage | RtGetSkill (sid : string) | RtPatchMetrics (sid : string) | RtPatchStatus (sid : string) | RtHealth | RtReady.
Definition is_str (s t : string) : bool := bool_decide (s = t).
(** What follows /api/v1 in a path. *)
Definition under_api (path : list string) : option (string * list string) :=
  match path with
  | a :: v :: x :: rest => if is_str a "api" && is_str v "v1" then Some (x, rest) else None
  | _ => None
  end.
(** A parameter matches a segment; an empty one only when the path goes on. *)
Definition last_empty (l : list string) : bool := match l with [] => true | [s] => str_empty s | _ => false end.
(** The paths below a mount, authenticated before they are looked at further. *)
Definition mounted (skills : bool) (path : list string) : bool :=
  match under_api path with
  | Some (x, rest) => is_str x "changes" || (is_str x "phases" && negb (last_empty rest)) || (skills && is_str x "skills")
  | None => false
  end.
(** [None]: no such path; [Some None]: the method is not for this path. *)
Definition on (method : string) (l : list (string * route)) : option (option route) := Some (snd <$> List.find (λ mr, is_str mr.1 method) l).
Definition changes_route (method : string) (rest : list string) : option (option route) :=
  match rest with
  | [] => on method [("POST"%string, RtCreate); ("GET"%string, RtList)]
  | c :: rest =>
      if last_empty (c :: rest) then on method [("POST"%string, RtCreate); ("GET"%string, RtList)]
      else match rest with
           | [] => on method [("GET"%string, RtGetChange c)]
           | [a] => if str_empty a then on method [("GET"%string, RtGetChange c)] else if is_str a "abort" then on method [("POST"%string, RtAbort c)] else None
           | [a; t; r] => if is_str a "phases" && is_str r "run" then on method [("POST"%string, RtRun c t)] else None
           | _ => None
           end
  end.
Definition phases_route (method : string) (rest : list string) : option (option route) :=
  match rest with
  | p :: rest =>
      if last_empty (p :: rest) then None else
      match rest with
      | [] => on method [("GET"%string, RtGetPhase p)]
      | [a] =>
          if str_empty a then on method [("GET"%string, RtGetPhase p)]
          else if is_str a "resume" then on method [("POST"%string, RtResume p)] else if is_str a "approve" then on method [("POST"%string, RtApprove p)]
          else if is_str a "reject" then on method [("POST"%string, RtReject p)] else if is_str a "board" then on method [("GET"%string, RtBoard p)]
          else if is_str a "events" then on method [("GET"%string, RtEvents p)] else None
      | _ => None
      end
  | [] => None
  end.
Definition skills_route (method : string) (rest : list string) : option (option route) :=
  match rest with
  | s :: rest =>
      if last_empty (s :: rest) then None else
      match rest with
      | [] => if is_str s "usage" && is_str method "GET" then Some (Some RtUsage) else on method [("GET"%string, RtGetSkill s)]
      | [a] =>
          if str_empty a then on method [("GET"%string, RtGetSkill s)]
          else if is_str a "metrics" then on method [("PATCH"%string, RtPatchMetrics s)] else if is_str a "status" then on method [("PATCH"%string, RtPatchStatus s)]
          else None
      | _ => None
      end
  | [] => None
  end.
Definition find_route (skills : bool) (method : string) (path : list string) : option (option route) :=
  match under_api path with
  | None => None
  | Some (x, rest) =>
      if is_str x "health" then match rest with [] => on method [("GET"%string, RtHealth)] | _ => None end
      else if is_str x "ready" then match rest with [] => on method [("GET"%string, RtReady)] | _ => None end
      else if is_str x "changes" then changes_route method rest
      else if is_str x "phases" then phases_route method rest
      else if skills && is_str x "skills" then skills_route method rest
      else None
  end.

(** ** Authentication (middleware/auth.go, staticAuthn of wire.go) *)

Definition HashAPIKey (key : string) : string := hex_encode (sha256 ((λ c, Z.of_N (N_of_ascii c)) <$> chars key)).
Record staticAuthn := mkStaticAuthn { au_keyHash : string; au_project : string }.
(** Without a key there is no authentication. *)
Definition newStaticAuthn (key project : string) : option staticAuthn := if str_empty key then None else Some (mkStaticAuthn (HashAPIKey key) project).
Definition authn_Validate (a : staticAuthn) (key : string) : option string := if bool_decide (HashAPIKey key ≠ au_keyHash a) then None else Some (au_project a).

(** jsonEscape, rune by rune: a byte that is no UTF-8 becomes U+FFFD. *)
Definition escape_rune (r : N) (raw : list ascii) : list ascii :=
  if (r =? 34)%N || (r =? 92)%N then backslash :: raw
  else if (r =? 10)%N then chars "\n" else if (r =? 13)%N then chars "\r" else if (r =? 9)%N then chars "\t"
  else if (r <? 32)%N then chars "\u00" ++ [hex_digit (r / 16); hex_digit (r mod 16)]
  else raw.
Fixpoint json_escape (fuel : nat) (l : list ascii) : list ascii :=
  match fuel, l with
  | S fuel', a :: l' =>
      match decode_rune l with
      | Some (r, w) => escape_rune r (take w l) ++ json_escape fuel' (drop w l)
      | None => replacement ++ json_escape fuel' l'
      end
  | _, _ => []
  end.
Definition jsonEscape (s : string) : string := text (json_escape (length (chars s)) (chars s)).

(** IsLoopbackAddr; [split] is net.SplitHostPort (the host) and [loopback] whether
    net.ParseIP reads an address that is a loopback one. *)
Definition IsLoopbackAddr (split : string → option string) (loopback : string → bool) (addr : string) : bool :=
  match split addr with
  | None => false
  | Some host => if str_empty host then false else if is_str host "localhost" then true else loopback host
  end.

(** [rd_skills]: the interface value of the skill service is not nil, so its routes
    are registered; [rd_skillService]: there is a service behind it. *)
Record router_deps := mkRouterDeps {
  rd_auth : option staticAuthn; rd_allowAnon : bool; rd_skills : bool; rd_skillService : bool; rd_phaseRepo : bool; rd_readiness : bool; rd_startedAt : Time
}.

(** ** Reading a request *)

Inductive service_call :=
  | CallCreate (name project store baseRef : string) | CallListChanges (project status : string) (limit offset : Z)
  | CallGetChange (id : ChangeID) | CallAbort (id : ChangeID) (reason : string)
  | CallRun (i : RunPhaseInput) | CallGetPhase (id : PhaseID) | CallResume (id : PhaseID)
  | CallApprove (id : PhaseID) (approver reason : string) | CallReject (id : PhaseID) (approver reason : string)
  | CallBoard (id : PhaseID) | CallEvents (id : PhaseID) (sinceSeq : Z)
  | CallPatchMetrics (sid : string) (delta : MetricsDelta) | CallPatchStatus (sid status : string) | CallGetSkill (sid : string)
  | CallUsageByChange (cid : string) | CallUsageBySkill (sid : string)
  | CallHealth | CallReady.

(** What is written to the client of an event stream: the identifier of the frame
    and what it carries. *)
Inductive sse_frame :=
  | OpenFrame (id : string) (p : PhaseID)
  | HeartbeatFrame (id ts : string)
  | EventFrame (id : string) (ev : EventStream.Event).

(** A turn of the handler's loop: the ticker fired, or an event arrived. *)
Inductive sse_turn := TurnHeartbeat | TurnEvent (ev : EventStream.Event).

(** What a request makes the process do.  [HTurns]: the turns of the loop of a
    stream, until the client is gone or its channel is closed. *)
Inductive heff : Type → Type :=
  | HService {R} (e : eff R) : heff R
  | HBoard {R} (e : aeff R) : heff R
  | HSkill {R} (e : skop R) : heff R
  | HNow : heff Time
  | HPing : heff (option string)
  | HSubscribe (id : PhaseID) : heff unit
  | HReplay (id : PhaseID) (sinceSeq : Z) : heff (option (list EventStream.Event))
  | HNewID : heff string
  | HFrame (f : sse_frame) : heff unit
  | HTurns (id : PhaseID) : heff (list sse_turn)
  | HCancel (id : PhaseID) : heff unit.

Fixpoint translate {F G : Type → Type} (f : ∀ R, F R → G R) {A} (m : free F A) : free G A :=
  match m with Ret a => Ret a | Do e k => Do (f _ e) (λ r, translate f (k r)) end.
Definition service {A} (m : prog A) : free heff A := translate (λ R, @HService R) m.
Definition board {A} (m : aprog A) : free heff A := translate (λ R, @HBoard R) m.
Definition skill {A} (m : skprog A) : free heff A := translate (λ R, @HSkill R) m.
Definition hdo {R} (e : heff R) : free heff R := Do e Ret.

Section Api.
Context `{UlidLib} `{WireContract} `{TimeText} `{Contract}.
Context (error_text : api_error → string) (float_doc : float64 → jdoc).

Definition writeErrorResource (e : api_error) (r : resource) : response :=
  let '(status, code) := mapError e r in writeJSON status (obj_code (code_text code) (error_text e)).

Definition run_fields : list (string * (string * list (string * json) * Z → json → option (string * list (string * json) * Z))) :=
  [ ("task_description"%string, set_string (λ t s, (t, s.1.2, s.2)));
    ("context_overrides"%string, λ s j, match jvalue j with JNull => Some (s.1.1, [], s.2) | JObj l => Some (s.1.1, s.1.2 ++ l, s.2) | _ => None end);
    ("retry_budget"%string, set_int (λ n s, (s.1, n))) ].
Definition approval_fields : list (string * (string * string → json → option (string * string))) :=
  [ ("approver"%string, set_string (λ t s, (t, s.2))); ("reason"%string, set_string (λ t s, (s.1, t))) ].
Record createChangeReq := mkCreateReq { cc_Name : string; cc_Project : string; cc_Store : string; cc_BaseRef : string }.
Definition create_fields : list (string * (createChangeReq → json → option createChangeReq)) :=
  [ ("name"%string, set_string (λ t r, mkCreateReq t (cc_Project r) (cc_Store r) (cc_BaseRef r)));
    ("project"%string, set_string (λ t r, mkCreateReq (cc_Name r) t (cc_Store r) (cc_BaseRef r)));
    ("artifact_store_mode"%string, set_string (λ t r, mkCreateReq (cc_Name r) (cc_Project r) t (cc_BaseRef r)));
    ("base_ref"%string, set_string (λ t r, mkCreateReq (cc_Name r) (cc_Project r) (cc_Store r) t)) ].
Definition set_float64 {S} (put : float64 → S → S) (s : S) (j : json) : option S :=
  match jvalue j with JNull => Some s | JNum v => Some (put v s) | _ => None end.
Definition metrics_fields : list (string * (MetricsDelta → json → option MetricsDelta)) :=
  [ ("success_delta"%string, set_int (λ n d, mkMetricsDelta n (md_FailureDelta d) (md_TestsPassedDelta d) (md_RollbackDelta d) (md_DeprecatedAPIHits d) (md_UsageDelta d) (md_AvgRetryReduction d)));
    ("failure_delta"%string, set_int (λ n d, mkMetricsDelta (md_SuccessDelta d) n (md_TestsPassedDelta d) (md_RollbackDelta d) (md_DeprecatedAPIHits d) (md_UsageDelta d) (md_AvgRetryReduction d)));
    ("tests_passed_delta"%string, set_int (λ n d, mkMetricsDelta (md_SuccessDelta d) (md_FailureDelta d) n (md_RollbackDelta d) (md_DeprecatedAPIHits d) (md_UsageDelta d) (md_AvgRetryReduction d)));
    ("rollback_delta"%string, set_int (λ n d, mkMetricsDelta (md_SuccessDelta d) (md_FailureDelta d) (md_TestsPassedDelta d) n (md_DeprecatedAPIHits d) (md_UsageDelta d) (md_AvgRetryReduction d)));
    ("deprecated_api_hits_delta"%string, set_int (λ n d, mkMetricsDelta (md_SuccessDelta d) (md_FailureDelta d) (md_TestsPassedDelta d) (md_RollbackDelta d) n (md_UsageDelta d) (md_AvgRetryReduction d)));
    ("usage_delta"%string, set_int (λ n d, mkMetricsDelta (md_SuccessDelta d) (md_FailureDelta d) (md_TestsPassedDelta d) (md_RollbackDelta d) (md_DeprecatedAPIHits d) n (md_AvgRetryReduction d)));
    ("avg_retry_reduction"%string, set_float64 (λ v d, mkMetricsDelta (md_SuccessDelta d) (md_FailureDelta d) (md_TestsPassedDelta d) (md_RollbackDelta d) (md_DeprecatedAPIHits d) (md_UsageDelta d) v)) ].
Definition negative_delta (d : MetricsDelta) : bool :=
  existsb (λ z, (z <? 0)%Z) [md_SuccessDelta d; md_FailureDelta d; md_TestsPassedDelta d; md_RollbackDelta d; md_DeprecatedAPIHits d; md_UsageDelta d].
Definition validStatusValues : list string := ["candidate"; "validated"; "active"; "deprecated"; "blocked"; "archived"]%string.
Definition MaxListLimit : Z := 100.
Definition invalid_body : response := writeJSON 400 (obj1 "error" "invalid body").

Definition with_phase (r : resource) (pid : string) (k : PhaseID → response + service_call) : response + service_call :=
  match ParseID PhaseK pid with Err _ => inl (writeErrorResource AErrInvalidID r) | Ok id => k id end.
Definition with_change (cid : string) (k : ChangeID → response + service_call) : response + service_call :=
  match ParseID ChangeK cid with Err _ => inl (writeErrorResource AErrInvalidID ResChange) | Ok id => k id end.

(** The part of each handler before its call of a service. *)
Definition accept_create (body : string) : response + service_call :=
  match decode_body create_fields (mkCreateReq "" "" "" "") body with
  | None => inl invalid_body
  | Some r => inr (CallCreate (cc_Name r) (cc_Project r) (if str_empty (cc_Store r) then ArtifactStoreMemoryEngine else cc_Store r) (cc_BaseRef r))
  end.
Definition accept_list (q : string → string) : response + service_call :=
  let limit := atoiDefault (q "limit"%string) 50 in
  let offset := atoiDefault (q "offset"%string) 0 in
  if (MaxListLimit <? limit)%Z
  then inl (writeJSON 400 (DObj [("code"%string, DStr "limit_too_large"); ("details"%string, DObj [("limit"%string, int_doc limit); ("max_limit"%string, int_doc MaxListLimit)]);
                                  ("error"%string, DStr "limit exceeds maximum allowed")]))
  else inr (CallListChanges (q "project"%string) (q "status"%string) limit offset).
Definition accept_run (cid pt body : string) : response + service_call :=
  match ParseID ChangeK cid with
  | Err _ => inl (writeErrorResource AErrInvalidID ResPhase)
  | Ok id =>
      if negb (PhaseType_IsValid (pt_of pt)) then inl (writeJSON 400 (obj1 "error" "invalid phase_type"))
      else let '(task, overrides, budget) := decode_body_ignoring run_fields (EmptyString, [], 0%Z) body in
           inr (CallRun (mkRunInput id (pt_of pt) task overrides budget ∅))
  end.
Definition accept_metrics (sid body : string) : response + service_call :=
  match decode_body metrics_fields (mkMetricsDelta 0 0 0 0 0 0 f64_0) body with
  | None => inl invalid_body
  | Some d => if negative_delta d then inl (writeJSON 422 (obj_code "negative_delta" "negative delta values are not allowed")) else inr (CallPatchMetrics sid d)
  end.
Definition accept_status (sid body : string) : response + service_call :=
  match decode_body [("status"%string, set_string (λ t s, (t, s.2))); ("reason"%string, set_string (λ t s, (s.1, t)))] (EmptyString, EmptyString) body with
  | None => inl invalid_body
  | Some (status, _) =>
      if negb (bool_decide (status ∈ validStatusValues)) then inl (writeJSON 422 (obj_code "invalid_status" "invalid status value")) else inr (CallPatchStatus sid status)
  end.
Definition accept_usage (q : string → string) : response + service_call :=
  let changeID := q "change_id"%string in
  let skillID := q "skill_id"%string in
  if negb (str_empty changeID) && negb (str_empty skillID) then inl (writeJSON 400 (obj_code "conflicting_filters" "change_id and skill_id are mutually exclusive filters"))
  else if str_empty changeID && str_empty skillID then inl (writeJSON 400 (obj_code "missing_filter" "one of change_id or skill_id query parameters is required"))
  else if negb (str_empty skillID) then inr (CallUsageBySkill skillID) else inr (CallUsageByChange changeID).

Definition accept (r : route) (req : http_request) : response + service_call :=
  let approval := decode_body_ignoring approval_fields (EmptyString, EmptyString) (hr_body req) in
  match r with
  | RtCreate => accept_create (hr_body req)
  | RtList => accept_list (hr_query req)
  | RtGetChange cid => with_change cid (λ id, inr (CallGetChange id))
  | RtAbort cid => with_change cid (λ id, inr (CallAbort id (decode_body_ignoring [("reason"%string, set_string (λ t _, t))] EmptyString (hr_body req))))
  | RtRun cid pt => accept_run cid pt (hr_body req)
  | RtGetPhase pid => with_phase ResPhase pid (λ id, inr (CallGetPhase id))
  | RtResume pid => with_phase ResPhase pid (λ id, inr (CallResume id))
  | RtApprove pid => with_phase ResPhase pid (λ id, inr (CallApprove id approval.1 approval.2))
  | RtReject pid => with_phase ResPhase pid (λ id, inr (CallReject id approval.1 approval.2))
  | RtBoard pid => with_phase ResPhase pid (λ id, inr (CallBoard id))
  | RtEvents pid => with_phase ResPhase pid (λ id, inr (CallEvents id (parseLastEventID (hr_header req "Last-Event-ID"%string))))
  | RtUsage => accept_usage (hr_query req)
  | RtGetSkill sid => inr (CallGetSkill sid)
  | RtPatchMetrics sid => accept_metrics sid (hr_body req)
  | RtPatchStatus sid => accept_status sid (hr_body req)
  | RtHealth => inr CallHealth
  | RtReady => inr CallReady
  end.

(** ** Documents *)

Definition opt_member (k v : string) : list (string * jdoc) := if str_empty v then [] else [(k, DStr v)].
Definition strs (l : list string) : jdoc := DArr (DStr <$> l).
Definition opt_strs (k : string) (l : list string) : list (string * jdoc) := match l with [] => [] | _ => [(k, strs l)] end.

Definition toChangeDTO (c : Change) (currentPhaseID : string) : jdoc :=
  DObj ([("change_id"%string, DStr (ID_String (ch_id c))); ("name"%string, DStr (ch_name c)); ("project"%string, DStr (ch_project c));
         ("status"%string, DStr (cs_string (ch_status c))); ("current_phase"%string, DStr (pt_string (ch_currentPhase c)))]
        ++ opt_member "current_phase_id" currentPhaseID
        ++ [("artifact_store_mode"%string, DStr (ch_artifactStore c))] ++ opt_member "base_ref" (ch_baseRef c)).

Definition concern_dto (c : Concern) : jdoc :=
  DObj [("severity"%string, DStr (c_Severity c)); ("category"%string, DStr (c_Category c)); ("message"%string, DStr (c_Message c)); ("evidence"%string, DStr (c_Evidence c))].
Definition toPhaseDTO (p : Phase) : jdoc :=
  DObj ([("phase_id"%string, DStr (ID_String (p_id p))); ("change_id"%string, DStr (ID_String (p_changeID p))); ("type"%string, DStr (pt_string (p_type p)));
         ("status"%string, DStr (ps_string (p_status p))); ("confidence"%string, float_doc (p_confidence p)); ("attempts"%string, int_doc (p_attempts p));
         ("retry_budget"%string, int_doc (p_retryBudget p))]
        ++ match p_concerns p with [] => [] | cs => [("concerns"%string, DArr (concern_dto <$> cs))] end).

(** The template of DefaultServiceConfig; the service reads the clock for
    [started_at]. *)
Definition events_url (id : PhaseID) : string := concat_strings ["/api/v1/phases/"; ID_String id; "/events"]%string.
Definition runPhaseResp (o : RunPhaseOutput) (startedAt : Time) : jdoc :=
  DObj [("phase_id"%string, DStr (ID_String (out_PhaseID o))); ("status"%string, DStr (ps_string (out_Status o)));
        ("events_url"%string, DStr (events_url (out_PhaseID o))); ("started_at"%string, DStr (RFC3339 startedAt))].

Definition bs_string (s : BoardStatus) : string :=
  match s with BoardStatusBuilding => "building" | BoardStatusRunning => "running" | BoardStatusCompleted => "completed" | BoardStatusFailed => "failed" end.
Definition gs_string (s : GroupStatus) : string :=
  match s with GroupStatusPending => "pending" | GroupStatusRunning => "running" | GroupStatusCompleted => "completed" | GroupStatusFailed => "failed" end.
Definition ts_string (s : TaskStatus) : string :=
  match s with
  | TaskStatusPending => "pending" | TaskStatusClaimed => "claimed" | TaskStatusRunning => "running"
  | TaskStatusDone => "done" | TaskStatusFailed => "failed" | TaskStatusBlocked => "blocked"
  end.
Definition task_dto (t : Task) : jdoc :=
  DObj [("task_id"%string, DStr (ID_String (t_id t))); ("description"%string, DStr (t_description t)); ("status"%string, DStr (ts_string (t_status t)));
        ("files_pattern"%string, strs (t_filesPattern t)); ("attempts"%string, int_doc (t_attempts t))].
Definition group_dto (g : Group) : jdoc :=
  DObj ([("group_id"%string, DStr (ID_String (g_id g))); ("name"%string, DStr (g_name g)); ("status"%string, DStr (gs_string (g_status g)));
         ("depends_on"%string, strs (ID_String <$> g_dependsOn g))]
        ++ opt_member "worktree_path" (g_worktreePath g) ++ opt_member "branch_name" (g_branchName g) ++ [("tasks"%string, DArr (task_dto <$> g_tasks g))]).
Definition toBoardDTO (b : Board) : jdoc :=
  DObj [("board_id"%string, DStr (ID_String (b_id b))); ("phase_id"%string, DStr (ID_String (b_phaseID b))); ("status"%string, DStr (bs_string (b_status b)));
        ("groups"%string, DArr (group_dto <$> b_groups b))].

Definition risk_string (r : RiskLevel) : string :=
  match r with RiskLow => "low" | RiskMedium => "medium" | RiskHigh => "high" | RiskCritical => "critical" | RiskOther s => s end.
Definition outcome_string (o : Outcome) : string :=
  match o with OutcomePending => "pending" | OutcomeSuccess => "success" | OutcomeFailure => "failure" | OutcomeBlocked => "blocked" end.
(** structToMap: the keys are written in order; a skill without phases has a nil
    slice. *)
Definition scope_map (sc : Scope) : list (string * jdoc) :=
  [("phases"%string, match sc_Phases sc with [] => DNull | l => strs l end); ("project_id"%string, DStr (sc_ProjectID sc)); ("repo_id"%string, DStr (sc_RepoID sc))].
Definition key_le (x y : string * string) : Prop := str_le x.1 y.1.
#[local] Instance key_le_dec : RelDecision key_le := λ x y, decide (str_le x.1 y.1).
Definition applies_map (a : AppliesWhen) : list (string * jdoc) :=
  opt_strs "exclude_paths" (aw_ExcludePaths a) ++ opt_strs "feature_type" (aw_FeatureType a) ++ opt_strs "framework" (aw_Framework a)
  ++ (if bool_decide (aw_FrameworkMinVersion a = ∅) then [] else [("framework_min_version"%string, DObj ((λ kv, (kv.1, DStr kv.2)) <$> merge_sort key_le (map_to_list (aw_FrameworkMinVersion a))))])
  ++ opt_strs "language" (aw_Language a) ++ opt_strs "touched_paths" (aw_TouchedPaths a).
Definition toGetSkillResp (s : Skill) : jdoc :=
  let m := sk_metrics s in
  DObj ([("skill_id"%string, DStr (ID_String (sk_id s))); ("status"%string, DStr (skill_status_string (sk_status s))); ("risk_level"%string, DStr (risk_string (sk_riskLevel s)));
         ("version"%string, DStr (sk_version s));
         ("metrics"%string, DObj [("usage_count"%string, int_doc (me_UsageCount m)); ("success_count"%string, int_doc (me_SuccessCount m)); ("failure_count"%string, int_doc (me_FailureCount m));
            ("tests_passed_count"%string, int_doc (me_TestsPassedCount m)); ("deprecated_api_hits"%string, int_doc (me_DeprecatedAPIHits m));
            ("rollback_count"%string, int_doc (me_RollbackCount m)); ("avg_retry_reduction"%string, float_doc (me_AvgRetryReduction m))])]
        ++ opt_member "skill_name" (sk_name s) ++ [("scope"%string, DObj (scope_map (sk_scope s)))]
        ++ match applies_map (sk_appliesWhen s) with [] => [] | l => [("applies_when"%string, DObj l)] end).
Definition usage_dto (row : SkillUsageRow) : jdoc :=
  let u := row.1 in
  DObj [("skill_usage_id"%string, DStr (ID_String (su_id u))); ("change_id"%string, DStr (ID_String (su_changeID u))); ("phase_type"%string, DStr (su_phaseType u));
        ("skill_id"%string, DStr (ID_String (su_skillID u))); ("skill_version"%string, DStr (su_skillVersion u)); ("outcome"%string, DStr (outcome_string (su_outcome u)));
        ("apply_attempts"%string, int_doc row.2)].
Definition items (l : list jdoc) : jdoc := DObj [("items"%string, DArr l)].

(** ** Calling a service *)

Definition answer {E A} (api : E → api_error) (r : resource) (k : A → response) (x : result E A) : response :=
  match x with Err e => writeErrorResource (api e) r | Ok a => k a end.
Definition answer_write {E} (api : E → api_error) (r : resource) (k : response) (x : option E) : response :=
  match x with Some e => writeErrorResource (api e) r | None => k end.
Definition skill_not_found : response := writeJSON 404 (obj_code "skill_not_found" "skill not found").
(** The errors of the skill service that its handlers answer themselves. *)
Definition answer_skill {A} (k : A → response) (x : result skill_svc_error A) : response :=
  match x with
  | Err (SkSvcStore ErrNotFound) => skill_not_found
  | Err e => writeErrorResource (skill_api e) ResNone
  | Ok a => k a
  end.
Definition answer_status (x : result skill_svc_error unit) : response :=
  match x with
  | Err ErrForbiddenStatusTransition => writeJSON 422 (obj_code "forbidden_transition" (error_text AErrForbiddenTransition))
  | x => answer_skill (λ _, writeJSON 200 (obj1 "status" "ok")) x
  end.

Definition phase_get (id : PhaseID) : prog (result store_error Phase) := db (PhaseFindByID id).
Definition change_get (id : ChangeID) : prog (result store_error Change) := db (ChangeFindByID id).

(** Errors of this lookup are swallowed. *)
Definition resolveCurrentPhaseID (phaseRepo : bool) (id : ChangeID) : prog string :=
  if negb phaseRepo then Ret EmptyString else
  let! p := db (PhaseFindRunningByChange id) in
  Ret (match p with Ok p => ID_String (p_id p) | Err _ => EmptyString end).
Definition get_change (phaseRepo : bool) (id : ChangeID) : prog response :=
  let! c := change_get id in
  match c with
  | Err e => Ret (writeErrorResource (store_api e) ResChange)
  | Ok c => let! current := resolveCurrentPhaseID phaseRepo id in Ret (writeJSON 200 (toChangeDTO c current))
  end.
(** [started_at] is the clock when the service answers. *)
Definition run_answer (status : Z) (r : result svc_error RunPhaseOutput) : prog response :=
  match r with
  | Err e => Ret (writeErrorResource (svc_api e) ResPhase)
  | Ok o => let! t := now in Ret (writeJSON status (runPhaseResp o t))
  end.

Definition sse_refused (id : PhaseID) (r : sse_refusal) : response :=
  match r with
  | SseNotFound => writeJSON 404 (obj_code (code_text CodePhaseNotFound) "phase not found")
  | SseError => writeErrorResource AErrOther ResPhase
  | SseGone st =>
      writeJSON 410 (DObj [("code"%string, DStr (code_text CodePhaseTerminalNoEvents)); ("error"%string, DStr "phase is terminal; no further events will be emitted");
                           ("details"%string, DObj [("phase_id"%string, DStr (ID_String id)); ("status"%string, DStr (ps_string st))])])
  end.
(** One turn of the loop: a heartbeat and an event without a number are given an
    identifier; what was replayed is skipped. *)
Definition sse_step (maxReplayedSeq : Z) (t : sse_turn) : free heff unit :=
  match t with
  | TurnHeartbeat =>
      let! id := hdo HNewID in
      let! ts := hdo HNow in
      hdo (HFrame (HeartbeatFrame id (RFC3339 ts)))
  | TurnEvent ev =>
      if (0 <? ev_Sequence ev)%Z && (ev_Sequence ev <=? maxReplayedSeq)%Z then Ret tt
      else
        let! id := (if (0 <? ev_Sequence ev)%Z then Ret (pretty (ev_Sequence ev)) else hdo HNewID) in
        hdo (HFrame (EventFrame id ev))
  end.

(** The status is sent before the subscription, so an error of the replay is only
    text on a stream that was answered 200. *)
Definition sse_Stream (id : PhaseID) (sinceSeq : Z) : free heff response :=
  let! p := service (phase_get id) in
  match sse_admit p with
  | Some r => Ret (sse_refused id r)
  | None =>
      do! hdo (HSubscribe id) in
      let! historical := hdo (HReplay id sinceSeq) in
      match historical with
      | None =>
          do! hdo (HCancel id) in
          Ret (mkResponse 200 (rs_body (writeErrorResource AErrOther ResPhase)))
      | Some historical =>
          let! openID := hdo HNewID in
          do! hdo (HFrame (OpenFrame openID id)) in
          do! each (λ ev, hdo (HFrame (EventFrame (pretty (ev_Sequence ev)) ev))) historical in
          let! turns := hdo (HTurns id) in
          do! each (sse_step (maxSequence historical)) turns in
          do! hdo (HCancel id) in
          Ret (mkResponse 200 EmptyString)
      end
  end.

(** int(time.Since(start).Seconds()): whole seconds. *)
Definition health_Check (startedAt : Time) : free heff response :=
  let! t0 := hdo HNow in
  let! t1 := hdo HNow in
  Ret (writeJSON 200 (DObj [("checked_at"%string, DStr (RFC3339 t1)); ("status"%string, DStr "ok"); ("uptime_s"%string, int_doc (Z.quot (t0 - startedAt) 1000000000))])).
Definition health_Ready (readiness : bool) : free heff response :=
  let reply code st db := writeJSON code (DObj [("checks"%string, obj1 "db" db); ("status"%string, DStr st)]) in
  if negb readiness then Ret (reply 200%Z "ready" "ok")%string else
  let! e := hdo HPing in
  Ret (match e with Some msg => reply 503%Z "degraded"%string msg | None => reply 200%Z "ready" "ok" end)%string.

(** What Recover answers for a handler that panics. *)
Definition recovered : response := mkResponse 500 (concat_strings ["{"; dq; "error"; dq; ":"; dq; "internal server error"; dq; ","; dq; "code"; dq; ":"; dq; "internal"; dq; "}"; nl]%string).
Definition fmap_prog {F A B} (f : A → B) (m : free F A) : free F B := let! a := m in Ret (f a).

(** A call of the skill service; through a nil pointer it panics as soon as it looks
    at a field, which is at its first effect. *)
Definition skill_request {A} (present : bool) (k : A → response) (m : skprog A) : free heff response :=
  if present then fmap_prog k (skill m) else match m with Ret a => Ret (k a) | Do _ _ => Ret recovered end.

Definition perform_call (d : router_deps) (c : service_call) : free heff response :=
  let ok st := writeJSON 200 (obj1 "status" st) in
  match c with
  | CallCreate name project store base =>
      fmap_prog (answer change_api ResChange (λ c, writeJSON 201 (toChangeDTO c EmptyString))) (service (Change_Create name project store base))
  | CallListChanges project status limit offset =>
      fmap_prog (answer store_api ResChange (λ cs, writeJSON 200 (items ((λ c, toChangeDTO c EmptyString) <$> cs)))) (service (Change_ListReq project status limit offset))
  | CallGetChange id => service (get_change (rd_phaseRepo d) id)
  | CallAbort id reason => fmap_prog (answer_write change_api ResChange (ok "aborted"%string)) (service (Change_AbortReq id reason))
  | CallRun i => service (let! r := Run i in run_answer 200 r)
  | CallResume id => service (let! r := Resume id in run_answer 202 r)
  | CallGetPhase id => fmap_prog (answer store_api ResPhase (λ p, writeJSON 200 (toPhaseDTO p))) (service (phase_get id))
  | CallApprove id approver reason => fmap_prog (answer_write svc_api ResPhase (ok "approved"%string)) (service (Approve id approver reason))
  | CallReject id approver reason => fmap_prog (answer_write svc_api ResPhase (ok "rejected"%string)) (service (Reject id approver reason))
  | CallBoard id => fmap_prog (answer store_api ResPhase (λ b, writeJSON 200 (toBoardDTO b))) (board (GetBoard id))
  | CallEvents id since => sse_Stream id since
  | CallPatchMetrics sid delta => skill_request (rd_skillService d) (answer_skill (λ _, ok "ok"%string)) (PatchMetrics sid delta)
  | CallPatchStatus sid status => skill_request (rd_skillService d) answer_status (PatchStatus sid status)
  | CallGetSkill sid => skill_request (rd_skillService d) (answer_skill (λ s, writeJSON 200 (toGetSkillResp s))) (GetSkill sid)
  | CallUsageByChange cid => skill_request (rd_skillService d) (answer skill_api ResNone (λ rows, writeJSON 200 (items (usage_dto <$> rows)))) (GetUsage cid)
  | CallUsageBySkill sid => skill_request (rd_skillService d) (answer skill_api ResNone (λ rows, writeJSON 200 (items (usage_dto <$> rows)))) (GetUsageBySkill sid)
  | CallHealth => health_Check (rd_startedAt d)
  | CallReady => health_Ready (rd_readiness d)
  end.

(** ** The router *)

Definition writeUnauthorized (msg : string) : response :=
  mkResponse 401 (concat_strings ["{"; dq; "code"; dq; ":"; dq; code_text CodeUnauthorized; dq; ","; dq; "error"; dq; ":"; dq; jsonEscape msg; dq; "}"]%string).
Definition AnonymousLoopbackProject : string := "anonymous-loopback".
(** The key a request carries, and the project it acts for. *)
Definition request_key (req : http_request) : string :=
  let key := TrimSpace (hr_header req HeaderAPIKey) in
  if str_empty key then TrimSpace (hr_header req HeaderAPIKeyLegacy) else key.
Definition APIKeyWithAnonOption (authn : staticAuthn) (allowAnon : bool) (req : http_request) : result response string :=
  let key := request_key req in
  if str_empty key then (if allowAnon then Ok AnonymousLoopbackProject else Err (writeUnauthorized "X-Sophia-API-Key required"))
  else match authn_Validate authn key with None => Err (writeUnauthorized "invalid X-Sophia-API-Key") | Some project => Ok project end.

Definition dispatch (d : router_deps) (req : http_request) : free heff response :=
  match find_route (rd_skills d) (hr_method req) (hr_path req) with
  | None => Ret (writeJSON 404 (obj_code "not_found" "not found"))
  | Some None => Ret (mkResponse 405 EmptyString)
  | Some (Some r) => match accept r req with inl resp => Ret resp | inr call => perform_call d call end
  end.
Definition serve (d : router_deps) (req : http_request) : free heff response :=
  match rd_auth d with
  | Some authn =>
      if mounted (rd_skills d) (hr_path req)
      then match APIKeyWithAnonOption authn (rd_allowAnon d) req with Err resp => Ret resp | Ok _ => dispatch d req end
      else dispatch d req
  | None => dispatch d req
  end.

(** ** What a request may do *)

Definition harmless {R} (e : heff R) : Prop := match e with HNow | HPing => True | _ => False end.
(** Effects that change no table, schedule no work and draw no identifier: reads of
    tables and clock, the readiness probe, and an event stream's own. *)
Definition reading {R} (e : heff R) : Prop :=
  match e with
  | HService (Db (ChangeFindByID _ | ChangeListQ _ _ _ _ | PhaseFindByID _ | PhaseFindRunningByChange _)) => True
  | HService _ => False
  | HBoard (AFindBoard _) => True
  | HBoard _ => False
  | HSkill e => sk_writes e = false
  | HNow | HPing => True
  | HNewID => False
  | HSubscribe _ | HReplay _ _ | HFrame _ | HTurns _ | HCancel _ => True
  end.
(** Identifiers as well. *)
Definition streaming {R} (e : heff R) : Prop := match e with HNewID => True | _ => reading e end.

Definition read_call (c : service_call) : bool :=
  match c with
  | CallListChanges _ _ _ _ | CallGetChange _ | CallGetPhase _ | CallBoard _ | CallGetSkill _ | CallUsageByChange _ | CallUsageBySkill _ | CallHealth | CallReady => true
  | _ => false
  end.
Definition read_route (r : route) : bool :=
  match r with
  | RtList | RtGetChange _ | RtGetPhase _ | RtBoard _ | RtUsage | RtGetSkill _ | RtHealth | RtReady => true
  | _ => false
  end.

Lemma effects_translate {F G : Type → Type} (f : ∀ R, F R → G R) (S : ∀ R, G R → Prop) {A} (m : free F A) :
  effects_in (λ R e, S R (f R e)) m → effects_in S (translate f m).
Proof. induction m as [|R e k IH]; cbn [effects_in translate]; [done|]. intros [He Hk]. split; [done|]. intros r. apply IH, Hk. Qed.
Lemma effects_fmap {F} (S : ∀ R, F R → Prop) {A B} (f : A → B) (m : free F A) : effects_in S m → effects_in S (fmap_prog f m).
Proof. intros Hm. unfold fmap_prog. apply effects_bind; [done|]. intros a. exact I. Qed.

Lemma effects_skill S {A} present (k : A → response) m : effects_in (λ R e, S R (@HSkill R e)) m → effects_in S (skill_request present k m).
Proof. intros Hm. unfold skill_request. destruct present; [by apply effects_fmap, effects_translate|by destruct m]. Qed.
Lemma usage_rows_read rows cache : effects_in (λ R e, reading (@HSkill R e)) (usage_rows rows cache).
Proof.
  revert cache. induction rows as [|r rows IH]; intros cache; cbn [usage_rows]; [exact I|].
  assert (Hk : ∀ attempts c, effects_in (λ R e, reading (@HSkill R e)) (let! rest := usage_rows rows c in Ret (let? l := rest in Ok ((r, attempts) :: l)))).
  { intros n c. apply effects_bind; [apply IH|]. intros x. exact I. }
  destruct (cache !! su_changeID r); [apply Hk|]. split; [reflexivity|]. intros [n|e]; [apply Hk|exact I].
Qed.
Lemma skill_reads :
  (∀ sid, effects_in (λ R e, reading (@HSkill R e)) (GetSkill sid)) ∧
  (∀ cid, effects_in (λ R e, reading (@HSkill R e)) (GetUsage cid)) ∧
  (∀ sid, effects_in (λ R e, reading (@HSkill R e)) (GetUsageBySkill sid)).
Proof.
  split; [|split]; intros x; unfold GetSkill, GetUsage, GetUsageBySkill; destruct (ParseID _ _) as [id|?]; try exact I; split; try reflexivity; intros [?|?]; try exact I.
  - split; [reflexivity|]. intros r. exact I.
  - apply usage_rows_read.
Qed.
Lemma perform_reads d c : read_call c = true → effects_in (@reading) (perform_call d c).
Proof.
  destruct skill_reads as (Hs & Hu & Hus).
  destruct c; intros Hc; try discriminate Hc; unfold perform_call;
    try (apply effects_skill; first [apply Hs | apply Hu | apply Hus]); try (apply effects_fmap, effects_translate; by split).
  - apply effects_translate. split; [exact I|]. intros [c|e]; [|exact I].
    unfold resolveCurrentPhaseID. destruct (rd_phaseRepo d); [|exact I]. split; [exact I|]. intros r. exact I.
  - split; [exact I|]. intros t. split; [exact I|]. intros u. exact I.
  - unfold health_Ready. destruct (rd_readiness d); [|exact I]. split; [exact I|]. intros r. exact I.
Qed.

Lemma on_In m l r : on m l = Some (Some r) → (m, r) ∈ l.
Proof.
  unfold on. intros [= Hf]. apply fmap_Some in Hf as ((m' & r') & Hf & ->). apply List.find_some in Hf as [Hin Hm].
  unfold is_str in Hm. apply bool_decide_eq_true in Hm. cbn [fst snd] in *. subst m'. by apply list_elem_of_In.
Qed.
Ltac split_route :=
  repeat match goal with
  | H : context [match ?x with _ => _ end] |- _ => destruct x eqn:?; try discriminate H
  end.
Ltac on_route :=
  match goal with
  | H : on _ _ = Some (Some _) |- _ => apply on_In in H; rewrite ?elem_of_cons, ?elem_of_nil in H; naive_solver
  | H : Some _ = Some _ |- _ => simplify_eq; naive_solver
  end.
Lemma get_routes skills path r :
  find_route skills "GET" path = Some (Some r) → read_route r = true ∨ ∃ p, r = RtEvents p.
Proof.
  unfold find_route, changes_route, phases_route, skills_route. intros Hr. split_route; on_route.
Qed.
Lemma route_mounted skills m path r :
  find_route skills m path = Some (Some r) → r = RtHealth ∨ r = RtReady ∨ mounted skills path = true.
Proof.
  unfold find_route, mounted. destruct (under_api path) as [[x rest]|]; [|done].
  destruct (is_str x "health"); [destruct rest; [intros Hr; on_route|done]|]. destruct (is_str x "ready"); [destruct rest; [intros Hr; on_route|done]|].
  destruct (is_str x "changes"); [tauto|].
  destruct (is_str x "phases"); [|destruct (skills && is_str x "skills"); [tauto|done]].
  unfold phases_route. destruct rest as [|p rest]; [done|]. destruct (last_empty (p :: rest)); [done|tauto].
Qed.
Lemma accept_read r req c : read_route r = true → accept r req = inr c → read_call c = true.
Proof.
  destruct r; intros Hr; try discriminate Hr; unfold accept, accept_list, accept_usage, with_phase, with_change; intros Hc; split_route; by simplify_eq.
Qed.
Lemma stream_streams id since : effects_in (@streaming) (sse_Stream id since).
Proof.
  unfold sse_Stream. split; [exact I|]. intros r. cbn [translate prog_bind]. destruct (sse_admit r); [exact I|].
  split; [exact I|]. intros []. cbn. split; [exact I|]. intros [historical|]; cbn; [|by repeat split].
  split; [exact I|]. intros openID. cbn. split; [exact I|]. intros []. cbn [prog_bind].
  apply effects_bind; [apply effects_each; by repeat split|]. intros []. split; [exact I|]. intros turns. cbn [prog_bind].
  apply effects_bind; [apply effects_each|by repeat split]. intros [|ev]; unfold sse_step; [by repeat split|].
  destruct (_ && _); [exact I|]. destruct (0 <? ev_Sequence ev)%Z; by repeat split.
Qed.
Lemma reading_streaming R (e : heff R) : reading e → streaming e.
Proof. by destruct e. Qed.

Definition opens_stream (d : router_deps) (req : http_request) : Prop :=
  ∃ p, find_route (rd_skills d) "GET" (hr_path req) = Some (Some (RtEvents p)).

Lemma dispatch_reads d req :
  hr_method req = "GET"%string →
  effects_in (@streaming) (dispatch d req) ∧ (¬ opens_stream d req → effects_in (@reading) (dispatch d req)).
Proof.
  intros Hm. unfold dispatch, opens_stream. rewrite Hm.
  destruct (find_route _ _ _) as [[r|]|] eqn:Hr; [|by split; [exact I|]..].
  apply get_routes in Hr as [Hread|[p ->]].
  - destruct (accept r req) as [resp|c] eqn:Hc; [by split; [exact I|]|].
    pose proof (perform_reads d c (accept_read r req c Hread Hc)) as Hp.
    split; [|done]. by apply (effects_mono _ _ _ reading_streaming).
  - split; [|intros Hn; by destruct Hn; exists p]. destruct (accept (RtEvents p) req) as [resp|c] eqn:Hc; [exact I|].
    cbn [accept] in Hc. unfold with_phase in Hc. destruct (ParseID PhaseK p); [|done]. injection Hc as <-. apply stream_streams.
Qed.

(** C31: a GET request is safe in the sense of HTTP: whatever its path, query and
    headers, and whatever the tables answer, serving it writes no row and schedules
    no work: it only reads (rows of changes, phases, boards, skills and usage, the
    clock, the readiness probe), and on the path of a phase's events it runs an
    event stream, which subscribes, reads the stored events, writes frames to the
    client and draws identifiers for the frames that have no number.  On every
    other path no identifier is drawn either. *)
Theorem get_requests_only_read d req :
  hr_method req = "GET"%string →
  effects_in (@streaming) (serve d req) ∧ (¬ opens_stream d req → effects_in (@reading) (serve d req)).
Proof.
  intros Hm. pose proof (dispatch_reads d req Hm) as Hd. unfold serve. destruct (rd_auth d) as [a|]; [|done].
  destruct (mounted _ _); [|done]. destruct (APIKeyWithAnonOption _ _ _); [done|by split; [exact I|]].
Qed.

(** A request whose key is refused. *)
Lemma serve_refused d req a resp :
  rd_auth d = Some a → APIKeyWithAnonOption a (rd_allowAnon d) req = Err resp →
  effects_in (@harmless) (serve d req) ∧ (mounted (rd_skills d) (hr_path req) = true → serve d req = Ret resp).
Proof.
  intros Ha Hu. unfold serve. rewrite Ha, Hu. destruct (mounted (rd_skills d) (hr_path req)) eqn:Hm; [by split; [exact I|]|].
  split; [|done]. unfold dispatch. destruct (find_route _ _ _) as [[r|]|] eqn:Hr; [|exact I|exact I].
  destruct (route_mounted _ _ _ _ Hr) as [->|[->|Hy]]; [| |congruence]; cbn [accept perform_call].
  - split; [exact I|]. intros t. split; [exact I|]. intros u. exact I.
  - unfold health_Ready. destruct (rd_readiness d); [|exact I]. split; [exact I|]. intros e. exact I.
Qed.
Lemma key_refused a allowAnon req :
  (request_key req = EmptyString ∧ allowAnon = false) ∨ (request_key req ≠ EmptyString ∧ HashAPIKey (request_key req) ≠ au_keyHash a) →
  ∃ msg, APIKeyWithAnonOption a allowAnon req = Err (writeUnauthorized msg).
Proof.
  unfold APIKeyWithAnonOption, authn_Validate, str_empty. intros [[He ->]|[He Hkey]].
  - rewrite bool_decide_eq_true_2 by done. eauto.
  - rewrite bool_decide_eq_false_2, bool_decide_eq_true_2 by done. eauto.
Qed.

(** With a key configured and anonymous access off, a request that carries no
    key or one with another hash is answered 401 on every path of the resources,
    and on any path it makes the process do nothing but read the clock or probe the
    database for the two health endpoints: no row is read or written. *)
Theorem unauthenticated_requests_do_nothing d req a :
  rd_auth d = Some a → rd_allowAnon d = false →
  request_key req = EmptyString ∨ HashAPIKey (request_key req) ≠ au_keyHash a →
  effects_in (@harmless) (serve d req) ∧
  (mounted (rd_skills d) (hr_path req) = true → ∃ msg, serve d req = Ret (writeUnauthorized msg)).
Proof.
  intros Ha Hanon Hkey. destruct (key_refused a (rd_allowAnon d) req) as [msg Hm].
  { destruct (decide (request_key req = EmptyString)); [by left|right]. by destruct Hkey. }
  destruct (serve_refused d req a _ Ha Hm). eauto.
Qed.

(** ** What reaches a service *)

Definition parsed {k} (i : ID k) : Prop := ParseID k (ID_String i) = Ok i.
Definition call_ok (c : service_call) : Prop :=
  match c with
  | CallCreate _ _ store _ => store ≠ EmptyString
  | CallListChanges _ _ limit _ => (limit <= MaxListLimit)%Z
  | CallGetChange id | CallAbort id _ => parsed id
  | CallRun i => parsed (in_ChangeID i) ∧ PhaseType_IsValid (in_PhaseType i) = true ∧ in_PriorPhasesStatus i = ∅
  | CallGetPhase id | CallResume id | CallApprove id _ _ | CallReject id _ _ | CallBoard id => parsed id
  | CallEvents id since => parsed id ∧ (0 <= since < 2 ^ 63)%Z
  | CallPatchMetrics _ d =>
      Forall (λ z, 0 <= z)%Z [md_SuccessDelta d; md_FailureDelta d; md_TestsPassedDelta d; md_RollbackDelta d; md_DeprecatedAPIHits d; md_UsageDelta d]
  | CallPatchStatus _ st => SkillStatus_IsValid (skill_status_of st) = true
  | CallUsageByChange id | CallUsageBySkill id => id ≠ EmptyString
  | CallGetSkill _ | CallHealth | CallReady => True
  end.

Lemma ParseID_parsed k s (i : ID k) : ParseID k s = Ok i → parsed i.
Proof. intros Hp. unfold parsed. pose proof Hp as Hq. apply ParseID_Ok in Hq as (_ & -> & _). exact Hp. Qed.
Lemma parseLastEventID_bounds raw : (0 <= parseLastEventID raw < 2 ^ 63)%Z.
Proof. unfold parseLastEventID. split_all; bool_facts; lia. Qed.
Lemma str_nonempty s : str_empty s = false → s ≠ EmptyString.
Proof. unfold str_empty. by intros ?%bool_decide_eq_false. Qed.
Lemma valid_statuses st : bool_decide (st ∈ validStatusValues) = true → SkillStatus_IsValid (skill_status_of st) = true.
Proof.
  intros Hs%bool_decide_eq_true. revert st Hs. apply Forall_forall.
  assert (Hall : forallb (λ st, SkillStatus_IsValid (skill_status_of st)) validStatusValues = true) by (vm_compute; reflexivity).
  apply Forall_forall. intros st Hs. rewrite forallb_forall in Hall. apply Hall. by apply list_elem_of_In.
Qed.
Lemma negative_delta_spec d :
  negative_delta d = false →
  Forall (λ z, 0 <= z)%Z [md_SuccessDelta d; md_FailureDelta d; md_TestsPassedDelta d; md_RollbackDelta d; md_DeprecatedAPIHits d; md_UsageDelta d].
Proof.
  unfold negative_delta. intros Hn. apply Forall_forall. intros z Hz. destruct (z <? 0)%Z eqn:Hneg; [|lia].
  exfalso. revert Hn. apply not_false_iff_true, existsb_exists. exists z. split; [by apply list_elem_of_In|done].
Qed.

(** Whatever a request holds, a service is only called with checked arguments:
    identifiers that parse, a known phase type, at most 100 rows of a list, a
    sequence number to resume from that fits int64, counters of a skill that never
    go down, and a status of the closed set, which the service accepts as valid. *)
Theorem accepted_calls_are_checked r req c : accept r req = inr c → call_ok c.
Proof.
  destruct r; unfold accept, accept_create, accept_list, accept_run, accept_metrics, accept_status, accept_usage, with_phase, with_change; intros Hc;
    repeat (case_match; try discriminate Hc); simplify_eq Hc; intros; subst; cbn [call_ok in_ChangeID in_PhaseType in_PriorPhasesStatus];
    repeat split; eauto using ParseID_parsed, negative_delta_spec; try apply parseLastEventID_bounds.
  - by apply str_nonempty.
  - by apply Z.ltb_ge.
  - by apply negb_false_iff.
  - by apply str_nonempty, negb_true_iff.
  - apply str_nonempty. destruct (str_empty (hr_query req "change_id")), (str_empty (hr_query req "skill_id")); done.
  - by apply valid_statuses, negb_false_iff.
Qed.
End Api.

(** ** Sample requests *)

#[local] Instance some_ulid : UlidLib := {| ulid_Parse s := negb (str_empty s) |}.
#[local] Instance some_events : WireContract :=
  {| EventPhaseStarted := "s"; EventPhaseCompleted := "c"; EventPhaseCompletedWithConcerns := "cc"; EventPhaseFailed := "f"; EventPhaseNeedsContext := "n";
     EventApprovalRequired := "ar"; EventApprovalResolved := "rs"; EventAgentDispatched := "d"; DecisionApproved := "approved"; DecisionRejected := "rejected" |}.
#[local] Instance some_time : TimeText := {| time_json _ := "t"%string |}.
#[local] Instance some_contract : Contract :=
  {| code_text c := match c with CodeUnauthorized => "unauthorized" | CodeValidationFailed => "validation_failed" | _ => "other" end%string;
     HeaderAPIKey := "X-Sophia-API-Key"; HeaderAPIKeyLegacy := "X-API-Key" |}.
Definition some_text (e : api_error) : string := "error".
Definition some_float (x : float64) : jdoc := int_doc 0.
Definition some_deps : router_deps := mkRouterDeps (newStaticAuthn "secret" "acme") false true true true true 0.
Definition no_headers (h : string) : string := EmptyString.
Definition with_key (key h : string) : string := if is_str h "X-API-Key" then key else EmptyString.
Definition some_request (method : string) (path : list string) (headers : string → string) (body : string) : http_request :=
  mkHttpRequest method (["api"; "v1"]%string ++ path) no_headers headers body.
Definition json_member (k v : string) : string := concat_strings ["{"; dq; k; dq; ":"; dq; v; dq; "}"]%string.

Lemma get_requests_only_read_witness :
  effects_in (@reading) (serve some_text some_float some_deps (some_request "GET" ["changes"; "c1"] (with_key "secret") "")) ∧
  effects_in (@streaming) (serve some_text some_float some_deps (some_request "GET" ["phases"; "p1"; "events"] (with_key "secret") "")) ∧
  opens_stream some_deps (some_request "GET" ["phases"; "p1"; "events"] (with_key "secret") "").
Proof.
  split; [|split; [|exists "p1"%string; vm_compute; reflexivity]].
  - refine (proj2 (get_requests_only_read some_text some_float some_deps
      (some_request "GET" ["changes"; "c1"] (with_key "secret") "") eq_refl) _).
    intros [p Hp]. vm_compute in Hp. discriminate Hp.
  - exact (proj1 (get_requests_only_read some_text some_float some_deps
      (some_request "GET" ["phases"; "p1"; "events"] (with_key "secret") "") eq_refl)).
Defined.

Lemma unauthenticated_requests_do_nothing_witness :
  let req := some_request "POST" ["changes"; "c1"; "abort"] (with_key " guess ") "" in
  effects_in (@harmless) (serve some_text some_float some_deps req) ∧
  (mounted (rd_skills some_deps) (hr_path req) = true → ∃ msg, serve some_text some_float some_deps req = Ret (writeUnauthorized msg)).
Proof.
  cbv zeta. apply (unauthenticated_requests_do_nothing some_text some_float some_deps _ (mkStaticAuthn (HashAPIKey "secret") "acme")).
  - reflexivity.
  - reflexivity.
  - right. vm_compute. discriminate.
Defined.

Lemma accepted_calls_are_checked_witness : call_ok (CallPatchStatus "s1" "blocked").
Proof.
  apply (accepted_calls_are_checked some_text (RtPatchStatus "s1") (some_request "PATCH" ["skills"; "s1"; "status"] no_headers (json_member "status" "blocked"))).
  vm_compute. reflexivity.
Defined.

(** A router whose skill service is a nil pointer has the skill routes all the same,
    and answers them 500. *)
Example nil_skill_service :
  let d := mkRouterDeps None false true false true true 0 in
  serve some_text some_float d (some_request "GET" ["skills"; "s1"] no_headers "") = Ret recovered ∧
  serve some_text some_float (mkRouterDeps None false false false true true 0) (some_request "GET" ["skills"; "s1"] no_headers "")
    = Ret (writeJSON 404 (obj_code "not_found" "not found")).
Proof. vm_compute. repeat split. Qed.

(** The answers to some requests; a body that is no JSON still runs the phase, with
    an empty task. *)
Example sample_responses :
  let deps := mkRouterDeps None false true true true true 0 in
  let answer_of d method path headers body := match serve some_text some_float d (some_request method path headers body) with Ret r => Some (rs_status r) | Do _ _ => None end in
  answer_of some_deps "GET" ["nothing"] no_headers "" = Some 404%Z ∧
  answer_of some_deps "DELETE" ["changes"; "c1"] (with_key "secret") "" = Some 405%Z ∧
  answer_of some_deps "DELETE" ["changes"; "c1"] no_headers "" = Some 401%Z ∧
  answer_of some_deps "POST" ["changes"] (with_key "secret") "{" = Some 400%Z ∧
  answer_of deps "POST" ["changes"; "c1"; "phases"; "deploy"; "run"] no_headers "" = Some 400%Z ∧
  answer_of deps "POST" ["changes"; ""; "abort"] no_headers "" = Some 400%Z ∧
  answer_of deps "PATCH" ["skills"; "s1"; "status"] no_headers (json_member "status" "retired") = Some 422%Z ∧
  accept some_text (RtRun "c1" "spec") (some_request "POST" [] no_headers "{") = inr (CallRun (mkRunInput (mkID "c1") PhaseSpec "" [] 0 ∅)) ∧
  rs_body (writeUnauthorized "k") = concat_strings ["{"; dq; "code"; dq; ":"; dq; "unauthorized"; dq; ","; dq; "error"; dq; ":"; dq; "k"; dq; "}"].
Proof. vm_compute. repeat split. Qed.
