(* ===== verification/DocsGraph.v ===== *)
(** * Documentation and the code graph

    [internal/adapters/outbound/docs/context7]: the client of the documentation
    tools of the bridge, as the bootstrap trigger uses it; and
    [internal/adapters/outbound/graphify]: running graphify and reading its graph,
    as the init phase uses it. *)
From S2P Require Import Prelude Ids Utf8 Json Envelope Session Outbox Store Effects Concurrency Floats Lines JsonText HttpBase Wire GoPath OpenCode Dispatchers Clients SkillDomain SkillStore SkillMatch RateGuard Importer Bootstrap.
From stdpp Require Import list gmap sorting.
From Stdlib Require Import Ascii.

(** ** context7/client.go *)

Record DocsClient := mkDocsClient { dc_available : bool; dc_Endpoint : string; dc_token : string; dc_origin : string }.
Definition context7_New (bridgeURL token origin : string) : DocsClient :=
  if str_empty bridgeURL || str_empty token then mkDocsClient false "" "" ""
  else mkDocsClient true (String.append (trim_slashes bridgeURL) "/mcp") token (if str_empty origin then "http://localhost" else origin).
(** authRoundTripper, also of the mcp dispatcher. *)
Definition authorized (token origin : string) (h : Header) : Header :=
  let h := header_set h "Authorization" (String.append "Bearer " token) in
  if str_empty origin then h else header_set h "Origin" origin.

Inductive docs_error := ErrDocsUnavailable | DocsOpen | DocsCall | DocsTool | DocsEmpty | DocsParse.
(** What is done with sessions. *)
Inductive session_event := SessionOpened | ToolCalled (tool : string) (args : list (string * jdoc)) | SessionClosed.

Record resolveEntry := mkResolveEntry { re_ID : string; re_SnippetCount : Z; re_Score : float64; re_Version : string }.
Definition decode_entry : json → option resolveEntry :=
  decode_struct
    [ ("id"%string, set_string (λ t e, mkResolveEntry t (re_SnippetCount e) (re_Score e) (re_Version e)));
      ("snippetCount"%string, set_int (λ n e, mkResolveEntry (re_ID e) n (re_Score e) (re_Version e)));
      ("score"%string, set_float (λ v e, mkResolveEntry (re_ID e) (re_SnippetCount e) v (re_Version e)));
      ("version"%string, set_string (λ t e, mkResolveEntry (re_ID e) (re_SnippetCount e) (re_Score e) t)) ]
    (mkResolveEntry "" 0 f64_0 "").
Definition library_entry (e : resolveEntry) : LibraryEntry := mkEntry (re_ID e) (re_SnippetCount e) (re_Score e) (str_empty (re_Version e)).
Definition parseResolveResponse (raw : string) : result docs_error (list LibraryEntry) :=
  match json_parse raw with
  | JSON j => match decode_struct [("libraries"%string, set_list decode_entry (λ l _, l))] [] j with Some l => Ok (library_entry <$> l) | None => Err DocsParse end
  | NotJSON _ => Err DocsParse
  end.
Definition docs_fields : list (string * (DocsResult → json → option DocsResult)) :=
  [ ("content"%string, set_string (λ t r, mkDocs (dr_LibraryID r) (dr_Snippets r) (dr_Score r) t));
    ("id"%string, set_string (λ t r, mkDocs t (dr_Snippets r) (dr_Score r) (dr_Body r)));
    ("snippets"%string, set_int (λ n r, mkDocs (dr_LibraryID r) n (dr_Score r) (dr_Body r)));
    ("score"%string, set_float (λ v r, mkDocs (dr_LibraryID r) (dr_Snippets r) v (dr_Body r))) ].
Definition parseGetDocsResponse (raw requestedID : string) : result docs_error DocsResult :=
  match json_parse raw with
  | JSON j =>
      match decode_struct docs_fields (mkDocs "" 0 f64_0 "") j with
      | Some r => Ok (mkDocs (if str_empty (dr_LibraryID r) then requestedID else dr_LibraryID r) (dr_Snippets r) (dr_Score r) (dr_Body r))
      | None => Err DocsParse
      end
  | NotJSON _ => Err DocsParse
  end.

Section Docs.
Context (open : result sdk_error unit) (call : string → list (string * jdoc) → result sdk_error tool_result).

(** callTool, which closes the session it opened. *)
Definition docs_callTool (tool : string) (args : list (string * jdoc)) : list session_event * result docs_error string :=
  match open with
  | Err _ => ([], Err DocsOpen)
  | Ok _ =>
      ([SessionOpened; ToolCalled tool args; SessionClosed],
       match call tool args with
       | Err _ => Err DocsCall
       | Ok r => if tr_IsError r then Err DocsTool else let t := extractTextContent r in if str_empty t then Err DocsEmpty else Ok t
       end)
  end.
Definition docs_request {A} (c : DocsClient) (tool : string) (args : list (string * jdoc)) (parse : string → result docs_error A) : list session_event * result docs_error A :=
  if negb (dc_available c) then ([], Err ErrDocsUnavailable)
  else let '(tr, raw) := docs_callTool tool args in (tr, let? raw := raw in parse raw).
Definition ResolveLibrary (c : DocsClient) (framework query : string) : list session_event * result docs_error (list LibraryEntry) :=
  docs_request c "context7.resolve-library-id" [("libraryName"%string, DStr framework); ("query"%string, DStr query)] parseResolveResponse.
Definition GetDocs (c : DocsClient) (libraryID query topic : string) (tokens : Z) : list session_event * result docs_error DocsResult :=
  docs_request c "context7.get-library-docs"
    ([("context7CompatibleLibraryId"%string, DStr libraryID); ("query"%string, DStr query); ("tokens"%string, int_doc tokens)]
     ++ (if str_empty topic then [] else [("topic"%string, DStr topic)])) (λ raw, parseGetDocsResponse raw libraryID).

(** A session is closed exactly when one was opened, and a client without an address
    or a token opens none. *)
Lemma docs_sessions_closed {A} c tool args (parse : string → result docs_error A) :
  (docs_request c tool args parse).1 = (if dc_available c then match open with Ok _ => [SessionOpened; ToolCalled tool args; SessionClosed] | Err _ => [] end else []).
Proof. unfold docs_request, docs_callTool. destruct (dc_available c); cbn [negb]; [|done]. by destruct open. Qed.
End Docs.

(** The trigger with this client behind its effects. *)
Definition result_option {E A} (r : result E A) : option A := match r with Ok a => Some a | Err _ => None end.
Definition docs_env (c : DocsClient) (open : nat → result sdk_error unit) (call : nat → string → list (string * jdoc) → result sdk_error tool_result) (E : benv) : benv :=
  mkBEnv (be_sk E) (be_limit E) (be_window E)
    (λ n fw, result_option (ResolveLibrary (open n) (call n) c fw "best practices").2)
    (λ n i, result_option (GetDocs (open n) (call n) c i "best practices" "" 8000).2).

Section Unconfigured.
Context `{UnicodeTables} `{UlidLib} `{Collation} (D : ServiceDeps) (E : benv) (d0 : skill_db).
Hypothesis Hnone : ∀ n fw, be_resolve E n fw = None.

Abbreviation still m := (bkeeps E (λ d, d = d0) m (λ _, True)).
Lemma still_import fw version : still (runImport D fw version).
Proof. unfold runImport. intros n w Hw. cbn [bexec prog_bind bs bperform]. rewrite Hnone. by split. Qed.
Lemma still_drift fw version : still (runDriftCheck D fw version).
Proof.
  unfold runDriftCheck. destruct (MajorOf version) as [n|]; [|by apply bkeeps_ret]. destruct (n <=? 1)%Z; [by apply bkeeps_ret|].
  eapply (bkeeps_bind E _ _ _ (λ _, True)).
  - intros k w Hw. unfold sk. cbn [on_skills bexec bperform skperform]. by split.
  - intros [l|e] _; [|by apply bkeeps_ret]. destruct (drifts _ _ _); [apply still_import|by apply bkeeps_ret].
Qed.
Lemma without_docs_nothing_is_imported sc n w : bw_db w = d0 → bw_db (bexec E (TriggerIfNeeded D sc) n w).2 = d0.
Proof.
  intros Hw. assert (Hk : still (TriggerIfNeeded D sc)).
  { unfold TriggerIfNeeded. destruct (d_Docs D); cbn [negb]; [|by apply bkeeps_ret].
    eapply (bkeeps_bind E _ _ _ (λ _, True)).
    - destruct (d_Rate D); [|by apply bkeeps_ret]. apply bkeeps_bs. intros k w' Hw'. cbn [bperform]. by destruct (Allow _ _ _ _ _).
    - intros allowed _. destruct allowed; cbn [negb]; [|by apply bkeeps_ret]. destruct (st_Greenfield sc); apply bkeeps_each; intros fw _; [apply still_import|apply still_drift]. }
  specialize (Hk n w Hw). destruct (bexec E (TriggerIfNeeded D sc) n w) as [[a n'] w']. by destruct Hk.
Qed.
End Unconfigured.

(** A bridge that is not configured imports nothing. *)
Lemma unconfigured_docs_import_nothing `{UnicodeTables} `{UlidLib} `{Collation} D E open call bridgeURL token origin sc n w :
  bridgeURL = EmptyString ∨ token = EmptyString →
  bw_db (bexec (docs_env (context7_New bridgeURL token origin) open call E) (TriggerIfNeeded D sc) n w).2 = bw_db w.
Proof.
  intros Hno. apply without_docs_nothing_is_imported; [|done]. intros k fw. cbn [docs_env be_resolve].
  assert (Hc : dc_available (context7_New bridgeURL token origin) = false).
  { unfold context7_New, str_empty. by destruct Hno as [-> | ->]; rewrite ?orb_true_r. }
  unfold ResolveLibrary, docs_request. by rewrite Hc.
Qed.

(** ** graphify/spawner.go *)

Record graphNode := mkGraphNode { gn_ID : string; gn_OutDegree : Z }.
Record graphJSON := mkGraphJSON { gj_Nodes : list graphNode; gj_Edges : list unit; gj_Communities : list unit }.
Definition decode_node : json → option graphNode :=
  decode_struct [("id"%string, set_string (λ t n, mkGraphNode t (gn_OutDegree n))); ("out_degree"%string, set_int (λ z n, mkGraphNode (gn_ID n) z))] (mkGraphNode "" 0).
(** Edges and communities are only counted, but their fields are checked. *)
Definition decode_edge : json → option unit := decode_struct [("from"%string, set_string (λ _ u, u)); ("to"%string, set_string (λ _ u, u))] tt.
Definition decode_community : json → option unit := decode_struct [("id"%string, set_int (λ _ u, u))] tt.
Definition graph_fields : list (string * (graphJSON → json → option graphJSON)) :=
  [ ("nodes"%string, set_list decode_node (λ l g, mkGraphJSON l (gj_Edges g) (gj_Communities g)));
    ("edges"%string, set_list decode_edge (λ l g, mkGraphJSON (gj_Nodes g) l (gj_Communities g)));
    ("communities"%string, set_list decode_community (λ l g, mkGraphJSON (gj_Nodes g) (gj_Edges g) l)) ].

(** What running a command answers: output, error output, exit code, and whether
    Run returned an error. *)
Record exec_answer := mkExecAnswer { xa_stdout : string; xa_stderr : string; xa_code : Z; xa_failed : bool }.
Inductive graph_step := GraphVersion | GraphUpdate | GraphRead | GraphParse.

Section Graphify.
(** sort.Slice by falling degree, which is not stable. *)
Context (sort_nodes : list graphNode → list graphNode).

Definition summary_of (g : graphJSON) : GraphSummary :=
  mkGraphSummary (Z.of_nat (length (gj_Nodes g))) (Z.of_nat (length (gj_Edges g))) (Z.of_nat (length (gj_Communities g))) (gn_ID <$> take 10 (sort_nodes (gj_Nodes g))).
Definition parseGraphJSON (data : string) : option GraphSummary :=
  match json_parse data with JSON j => summary_of <$> decode_struct graph_fields (mkGraphJSON [] [] []) j | NotJSON _ => None end.
(** The summary and the version; an error keeps the version it had read, and says
    which step failed. *)
Definition spawner_Build (version update : exec_answer) (graph : option string) : result (graph_step * string) (GraphSummary * string) :=
  let failed a := xa_failed a || negb (xa_code a =? 0)%Z in
  if failed version then Err (GraphVersion, EmptyString) else
  let v := TrimSpace (xa_stdout version) in
  if failed update then Err (GraphUpdate, v) else
  match graph with
  | None => Err (GraphRead, v)
  | Some data => match parseGraphJSON data with Some s => Ok (s, v) | None => Err (GraphParse, v) end
  end.

Hypothesis sort_perm : ∀ l, sort_nodes l ≡ₚ l.
Hypothesis sort_sorted : ∀ l, Sorted (λ x y, gn_OutDegree y <= gn_OutDegree x)%Z (sort_nodes l).
(** The god nodes are at most ten nodes of the graph, and no node that was left out
    has more edges than one of them. *)
Lemma god_nodes_are_the_largest g :
  ∃ top rest, gj_Nodes g ≡ₚ top ++ rest ∧ gs_GodNodes (summary_of g) = gn_ID <$> top ∧
    length top = Nat.min 10 (length (gj_Nodes g)) ∧ ∀ x y, x ∈ top → y ∈ rest → (gn_OutDegree y <= gn_OutDegree x)%Z.
Proof.
  exists (take 10 (sort_nodes (gj_Nodes g))), (drop 10 (sort_nodes (gj_Nodes g))). rewrite take_drop. split; [by rewrite sort_perm|]. split; [done|].
  split; [by rewrite length_take, sort_perm|]. intros x y Hx Hy.
  pose proof (sort_sorted (gj_Nodes g)) as Hs. apply Sorted_StronglySorted in Hs; [|intros a b c ? ?; lia].
  rewrite <-(take_drop 10 (sort_nodes (gj_Nodes g))) in Hs. revert Hs Hx. generalize (take 10 (sort_nodes (gj_Nodes g))). intros top.
  induction top as [|a top IH]; [by intros _ ?%elem_of_nil|]. cbn [app]. intros Hs Hx. inversion Hs as [|? ? Hrest Hall]; subst.
  apply elem_of_cons in Hx as [->|Hx]; [|by apply IH]. rewrite Forall_forall in Hall. apply Hall, elem_of_app. by right.
Qed.
End Graphify.

(** ** Sample answers *)

Definition dqs (s : string) : string := concat_strings [dq; s; dq].
Definition sample_libraries : string :=
  concat_strings ["{"; dqs "libraries"; ":[{"; dqs "id"; ":"; dqs "/vercel/next.js"; ","; dqs "snippetCount"; ":3336,"; dqs "score"; ":9.5,"; dqs "version"; ":"; dqs "v15"; "},{"; dqs "id"; ":"; dqs "/x"; "}]}"].
Definition sample_graph : string :=
  concat_strings ["{"; dqs "nodes"; ":[{"; dqs "id"; ":"; dqs "a"; ","; dqs "out_degree"; ":1},{"; dqs "id"; ":"; dqs "b"; ","; dqs "out_degree"; ":7}],"; dqs "edges"; ":[{}]}"].
Definition answering (s : string) : string → list (string * jdoc) → result sdk_error tool_result := λ _ _, Ok (mkToolResult false [None; Some s]).
Definition by_degree (x y : graphNode) : Prop := (gn_OutDegree y <= gn_OutDegree x)%Z.
#[local] Instance by_degree_dec : RelDecision by_degree := λ x y, decide (gn_OutDegree y <= gn_OutDegree x)%Z.

Example sample_docs :
  let c := context7_New "http://bridge:7775//" "t" "" in
  dc_Endpoint c = "http://bridge:7775/mcp"%string ∧ dc_origin c = "http://localhost"%string ∧
  header_get (authorized (dc_token c) (dc_origin c) []) "Authorization" = "Bearer t"%string ∧
  (ResolveLibrary (Ok tt) (answering sample_libraries) c "next" "q").2 = Ok [mkEntry "/vercel/next.js" 3336 (5348024557502464 # 562949953421312)%Q false; mkEntry "/x" 0 f64_0 true] ∧
  (ResolveLibrary (Ok tt) (answering "[]") c "next" "q").2 = Err DocsParse ∧ (ResolveLibrary (Ok tt) (answering "") c "next" "q").2 = Err DocsEmpty ∧
  (GetDocs (Ok tt) (answering "{}") c "/x" "q" "" 8000).2 = Ok (mkDocs "/x" 0 f64_0 "").
Proof. vm_compute. repeat split. Qed.

Example sample_spawn :
  let ok s := mkExecAnswer s "" 0 false in
  spawner_Build (merge_sort by_degree) (ok (String.append "0.4.1" nl)) (ok "") (Some sample_graph) = Ok (mkGraphSummary 2 1 0 ["b"; "a"]%string, "0.4.1"%string) ∧
  spawner_Build (merge_sort by_degree) (ok "1") (mkExecAnswer "" "boom" 2 true) None = Err (GraphUpdate, "1"%string) ∧
  spawner_Build (merge_sort by_degree) (ok "1") (ok "") (Some "{") = Err (GraphParse, "1"%string).
Proof. vm_compute. repeat split. Qed.
