(* ===== verification/Wiring.v ===== *)
(** * Wiring

    [internal/bootstrap/wire.go]: the composition of the process from its
    configuration, what starting does to the database, and the run of the server
    with the relay until both have ended. *)
From S2P Require Import Prelude Ids Utf8 Json Effects PhaseService ApplyTeam HttpBase Governor Outbox SkillStore SeedSkills ApplyEffects Importer Bootstrap OpenCode Dispatchers Clients DocsGraph Lines JsonText SkillDomain Config HttpApi.
From stdpp Require Import list gmap.

(** ** The parts of the process *)

Inductive wire_error :=
  | WireBridgeURL | WireMCPProvider | WireDB | WireMigrate | WireGovernance | WireMemory | WireRuntime
  | WireSpawn (e : gov_error) | WireTracer | WireSeed (e : seed_error)
  | WirePanic.   (* of a provider without a name; it never comes to that *)

(** Mode of the critic; the timeout of the one that asks an agent. *)
Inductive critic := CriticStub | CriticLLM (timeoutMS : Z).
(** outbox.Deps, but for its collaborators. *)
Record relay_deps := mkRelay { rl_webhook : WebhookConfig; rl_Interval : Duration; rl_BatchLimit : Z }.

(** The App, with what its server was composed from. *)
Record App := mkApp {
  app_cfg : Config; app_router : router_deps; app_relay : option relay_deps; app_skillSvc : bool;
  app_gov : GovClientConfig; app_mem : HttpConfig; app_rt : HttpConfig; app_dispatchers : Factory;
  app_phase : PhaseService.Deps; app_apply : RunConfig; app_DispatchTimeoutMS : Z;
  app_critic : critic; app_bootstrap : ServiceDeps; app_rate : Z * Duration; app_BootstrapTimeout : Duration; app_CacheTTL : Duration;
  app_docs : DocsClient
}.

(** What starting and ending the process do, apart from building values. *)
Inductive beff : Type → Type :=
  | BOpen (url : string) (maxConns minConns : Z) : beff bool
  | BMigrate (path url : string) : beff bool
  | BTracer : beff bool
  | BClose : beff unit
  | BServe (a : App) : beff bool
  | BPrint (s : string) : beff bool
  | BProcess {R} (e : heff R) : beff R.
Definition boot {R} (e : beff R) : free beff R := Do e Ret.
Definition process {A} (m : free heff A) : free beff A := translate (λ R, @BProcess R) m.

Section Wire.
Context `{UlidLib} `{UrlParser}.
(** net.SplitHostPort and net.IP.IsLoopback, the runtime service, and the bridge. *)
Context (split : string → option string) (loopback : string → bool).
Context (runtime : ExecutionRequest → result unit ExecutionReceipt).
Context (open : result sdk_error unit) (call : string → list (string * jdoc) → result sdk_error tool_result).

Definition mcp_named (d : DispatcherConfig) : bool :=
  is_str (dp_Provider d) "mcp" || existsb (λ kv, is_str kv.2 "mcp") (map_to_list (dp_ProviderByPhase d)).
(** The checks before the database is opened. *)
Definition wire_guards (d : DispatcherConfig) : option wire_error :=
  if mcp_named d && str_empty (mp_BridgeURL (dp_MCP d)) then Some WireBridgeURL
  else if mcp_named d && str_empty (mp_Provider (dp_MCP d)) then Some WireMCPProvider
  else None.

Definition with_timeout (t : Duration) (c : HttpConfig) : HttpConfig :=
  mkHttpConfig (hc_BaseURL c) (hc_Name c) t (hc_MaxAttempts c) (hc_InitialBackoff c) (hc_MaxBackoff c) (hc_BackoffMultiplier c)
    (hc_JitterFraction c) (hc_CBFailureThreshold c) (hc_CBTimeoutThreshold c) (hc_CBOpenDuration c) (hc_HalfOpenMaxRequests c) (hc_DefaultHeaders c) (hc_PropagateTrace c).
Definition memory_config_of (c : Config) : HttpConfig :=
  let m := memory_DefaultConfig (sv_BaseURL (cf_Memory c)) (sv_APIKey (cf_Memory c)) in
  if (0 <? sv_TimeoutMS (cf_Memory c))%Z then with_timeout (sv_TimeoutMS (cf_Memory c) * Millisecond)%Z m else m.
Definition outbound_clients (c : Config) : result wire_error (GovClientConfig * HttpConfig * HttpConfig) :=
  let g := gov_DefaultConfig (sv_BaseURL (cf_Governance c)) (sv_APIKey (cf_Governance c)) in
  let m := memory_config_of c in
  let r := runtime_DefaultConfig (sv_BaseURL (cf_Runtime c)) (sv_APIKey (cf_Runtime c)) in
  if negb (http_Validate (gc_HTTPBase g)) then Err WireGovernance
  else if negb (http_Validate m) then Err WireMemory
  else if negb (http_Validate r) then Err WireRuntime
  else Ok (gov_New g, m, r).

(** The adapters; the constructor and Register panic on an empty name. *)
Definition tool_config (t : ToolConfig) : CliConfig := mkCliConfig (tc_Cmd t) [] (tc_SuggestedConcurrent t) (tc_Model t) (tc_ModelByPhase t).
Definition opencode_config (d : DispatcherConfig) : CliConfig := mkCliConfig (dp_Cmd d) [] (dp_SuggestedConcurrent d) (dp_Model d) (dp_ModelByPhase d).
Definition mcp_config (m : MCPConfig) : McpConfig :=
  mkMcpConfig (mp_BridgeURL m) (mp_Token m) (mp_Origin m) (mp_Transport m) (mp_TimeoutMS m) (mp_DefaultModel m) (mp_ModelByPhase m) (mp_Provider m) (mp_DefaultCWD m) 0.
Definition default_provider (d : DispatcherConfig) : string := if str_empty (dp_Provider d) then "opencode" else dp_Provider d.
Definition register_when (set : string) (name : string) (a : AgentDispatcher) (f : option Factory) : option Factory :=
  if str_empty set then f else f ≫= Register name a.
Definition dispatcher_factory (d : DispatcherConfig) : option Factory :=
  register_when (mp_BridgeURL (dp_MCP d)) "mcp" (mcp_adapter open call (mcp_config (dp_MCP d)))
    (register_when (tc_Cmd (dp_Aider d)) "aider" (aider_adapter runtime (tool_config (dp_Aider d)))
      (register_when (tc_Cmd (dp_Ollama d)) "ollama" (ollama_adapter runtime (tool_config (dp_Ollama d)))
        (factory_New (default_provider d) (opencode_adapter runtime (opencode_config d))))).

(** WrappingDispatcher.Provider *)
Definition factory_provider (f : Factory) : string := from_option ad_Provider EmptyString (Default f).
Definition apply_config (c : Config) (provider : string) : RunConfig :=
  let a := cf_Apply c in
  mkRunConfig (if str_empty (ac_WorktreeRoot a) then "/tmp/sophia/worktrees" else ac_WorktreeRoot a)
    (ac_SourceRepoPath a) (ac_TargetPath a) (ac_WorktreeInit a) (ac_FallbackModel a) (ac_QuotaBreakerThreshold a) provider true.
Definition dispatch_timeout (c : Config) : Z := let t := ac_DispatchTimeoutMS (cf_Apply c) in if (0 <? t)%Z then t else 180000%Z.
Definition outboxPollInterval (c : Config) : Duration := if (0 <? cf_Outbox c)%Z then cf_Outbox c else (5 * Second)%Z.
Definition wired_relay (c : Config) : option relay_deps :=
  let w := cf_MemoryWebhook c in
  if str_empty (mw_URL w) then None
  else Some (mkRelay (webhook_New (mkWebhookConfig (mw_URL w) (mw_APIKey w) (mw_TimeoutMS w * Millisecond)%Z)) (outboxPollInterval c) 50).
Definition phase_deps (c : Config) (provider : string) : PhaseService.Deps :=
  PhaseService.mkDeps true true (cf_SkillsEnabled c) true (negb (str_empty (mw_URL (cf_MemoryWebhook c)))) true true provider.
Definition selectCritic (c : Config) : critic := if is_str (cf_Critic c) "llm" then CriticLLM (critic_timeout 0) else CriticStub.
Definition bootstrap_deps (c : Config) : ServiceDeps :=
  let b := cf_Bootstrap c in
  NewService (Bootstrap.mkDeps true true (bs_MinSnippets b) (if (bs_BodyBudget b <=? 0)%Z then DefaultBodyBudget else bs_BodyBudget b)).
Definition bootstrap_timeout (c : Config) : Duration := let t := bs_Timeout (cf_Bootstrap c) in if (0 <? t)%Z then t else (60 * Second)%Z.
Definition effectiveAllowAnon (c : Config) : bool := ht_AllowAnonLocalhost (cf_HTTP c) && IsLoopbackAddr split loopback (ht_Addr (cf_HTTP c)).
(** The skill service is a pointer stored in an interface, which is never nil. *)
Definition wired_router (c : Config) (startedAt : Time) : router_deps :=
  mkRouterDeps (newStaticAuthn (ht_APIKey (cf_HTTP c)) (ht_APIKeyProject (cf_HTTP c))) (effectiveAllowAnon c) true (cf_SkillsEnabled c) true true startedAt.
Definition wired_app (c : Config) (clients : GovClientConfig * HttpConfig * HttpConfig) (f : Factory) (startedAt : Time) : App :=
  let '(g, m, r) := clients in
  mkApp c (wired_router c startedAt) (wired_relay c) (cf_SkillsEnabled c) g m r f (phase_deps c (factory_provider f)) (apply_config c (factory_provider f)) (dispatch_timeout c)
    (selectCritic c) (bootstrap_deps c) (bs_MaxCallsPerProjectPerDay (cf_Bootstrap c), (86400 * Second)%Z) (bootstrap_timeout c) (86400 * Second)%Z
    (context7_New (mp_BridgeURL (dp_MCP (cf_Dispatcher c))) (mp_Token (dp_MCP (cf_Dispatcher c))) (mp_Origin (dp_MCP (cf_Dispatcher c)))).

(** pool.Close(); return nil, err *)
Definition abandon (e : wire_error) : free beff (result wire_error App) := do! boot BClose in Ret (Err e).
Definition Wire (c : Config) : free beff (result wire_error App) :=
  match wire_guards (cf_Dispatcher c) with
  | Some e => Ret (Err e)
  | None =>
      let d := cf_DB c in
      let! opened := boot (BOpen (db_URL d) (db_MaxConns d) (db_MinConns d)) in
      if negb opened then Ret (Err WireDB) else
      let! migrated := (if db_RunMigrationsOnBoot d then boot (BMigrate (db_MigrationsPath d) (db_URL d)) else Ret true) in
      if negb migrated then abandon WireMigrate else
      match outbound_clients c, dispatcher_factory (cf_Dispatcher c) with
      | Err e, _ => abandon e
      | Ok _, None => Ret (Err WirePanic)
      | Ok clients, Some f =>
          match GovConfig_Validate (cf_Spawn c) with
          | Some e => abandon (WireSpawn e)
          | None =>
              let! traced := boot BTracer in
              if negb traced then abandon WireTracer else
              let! startedAt := process (hdo HNow) in
              let! seeded := (if cf_SkillsEnabled c then process (skill SeedSkills) else Ret None) in
              match seeded with
              | Some e => abandon (WireSeed e)
              | None =>
                  do! process (service MarkStuckInterrupted) in
                  Ret (Ok (wired_app c clients f startedAt))
              end
          end
      end
  end.

(** ** Who answers a dispatch *)

(** The adapter that a name stands for, as a table. *)
Definition named_agent (d : DispatcherConfig) (name : string) : option AgentDispatcher :=
  if is_str name "mcp" && negb (str_empty (mp_BridgeURL (dp_MCP d))) then Some (mcp_adapter open call (mcp_config (dp_MCP d)))
  else if is_str name "aider" && negb (str_empty (tc_Cmd (dp_Aider d))) then Some (aider_adapter runtime (tool_config (dp_Aider d)))
  else if is_str name "ollama" && negb (str_empty (tc_Cmd (dp_Ollama d))) then Some (ollama_adapter runtime (tool_config (dp_Ollama d)))
  else if is_str name (default_provider d) then Some (opencode_adapter runtime (opencode_config d))
  else None.
Definition default_agent (d : DispatcherConfig) : AgentDispatcher := default (opencode_adapter runtime (opencode_config d)) (named_agent d (default_provider d)).
Definition phase_agent (d : DispatcherConfig) (phaseType : string) : AgentDispatcher :=
  default (default_agent d) (named_agent d (if str_empty phaseType then EmptyString else default EmptyString (dp_ProviderByPhase d !! phaseType))).

Lemma default_provider_set d : str_empty (default_provider d) = false.
Proof. unfold default_provider. by destruct (str_empty (dp_Provider d)) eqn:He. Qed.
Lemma register_when_Some set name a f :
  str_empty name = false →
  register_when set name a (Some f) = Some (mkFactory (if str_empty set then f_adapters f else <[name := a]> (f_adapters f)) (f_defName f)).
Proof. intros Hn. unfold register_when, Register. rewrite Hn. destruct (str_empty set); [by destruct f|done]. Qed.
Lemma lookup_when {V} (m : gmap string V) set name a x :
  (if str_empty set then m else <[name := a]> m) !! x = if is_str x name && negb (str_empty set) then Some a else m !! x.
Proof.
  unfold is_str. destruct (str_empty set); [by rewrite andb_false_r|]. rewrite andb_true_r.
  case_bool_decide as Hx; [by rewrite Hx, lookup_insert_eq|by rewrite lookup_insert_ne].
Qed.
Lemma dispatcher_factory_spec d :
  ∃ f, dispatcher_factory d = Some f ∧ f_defName f = default_provider d ∧ ∀ name, f_adapters f !! name = named_agent d name.
Proof.
  unfold dispatcher_factory, factory_New. rewrite default_provider_set, !register_when_Some by done.
  eexists. split; [done|]. split; [done|]. intros name. cbn [f_adapters f_defName]. rewrite !lookup_when. unfold named_agent.
  destruct (is_str name "mcp" && _); [done|]. destruct (is_str name "aider" && _); [done|]. destruct (is_str name "ollama" && _); [done|].
  unfold is_str. case_bool_decide as Hn; [by rewrite Hn, lookup_singleton_eq|by rewrite lookup_singleton_ne].
Qed.
Lemma named_agent_empty d : named_agent d EmptyString = None.
Proof.
  unfold named_agent, is_str. rewrite !bool_decide_eq_false_2; try done. intros He.
  pose proof (default_provider_set d) as Hd. by rewrite <-He in Hd.
Qed.
Lemma named_default d : named_agent d (default_provider d) = Some (default_agent d).
Proof.
  unfold default_agent. assert (is_Some (named_agent d (default_provider d))) as [a ->]; [|done].
  unfold named_agent, is_str. rewrite (bool_decide_eq_true_2 (default_provider d = default_provider d)) by done. repeat case_match; eauto.
Qed.
Lemma mcp_named_phase d pt : dp_ProviderByPhase d !! pt = Some "mcp"%string → mcp_named d = true.
Proof.
  intros Hp. unfold mcp_named. apply orb_true_iff. right. apply existsb_exists. exists (pt, "mcp"%string).
  split; [|by vm_compute]. by apply list_elem_of_In, elem_of_map_to_list.
Qed.

(** C39: (agents) in a started process every dispatch reaches exactly the adapter that
    the configuration names for its phase: the bridge, aider or ollama where they
    are configured, opencode under the name of the default provider, and the agent
    of the default provider when the phase has none or an unknown one; and a phase
    for which the bridge is named reaches the bridge, with an address and a provider. *)
Theorem agents_follow_the_configuration d :
  wire_guards d = None →
  ∃ f, dispatcher_factory d = Some f ∧
    (∀ req, routed_Dispatch f (dp_ProviderByPhase d) req = Some (ad_Dispatch (phase_agent d (rq_PhaseType req)) req)) ∧
    (∀ pt, pt ≠ EmptyString → dp_ProviderByPhase d !! pt = Some "mcp"%string →
       phase_agent d pt = mcp_adapter open call (mcp_config (dp_MCP d)) ∧ mp_BridgeURL (dp_MCP d) ≠ EmptyString ∧ mp_Provider (dp_MCP d) ≠ EmptyString).
Proof.
  intros Hg. destruct (dispatcher_factory_spec d) as (f & Hf & Hdef & Hall). exists f. split; [done|]. split.
  - intros req. unfold routed_Dispatch, adapterFor, phase_agent, Get, Default. rewrite Hdef, !Hall, named_default.
    destruct (str_empty (rq_PhaseType req)); [by rewrite named_agent_empty|].
    destruct (dp_ProviderByPhase d !! rq_PhaseType req) as [name|]; cbn [from_option id]; [|by rewrite named_agent_empty].
    destruct (str_empty name) eqn:He.
    + unfold str_empty in He. apply bool_decide_eq_true in He as ->. by rewrite named_agent_empty.
    + rewrite Hall. by destruct (named_agent d name).
  - intros pt Hpt Hm. pose proof (mcp_named_phase d pt Hm) as Hn. unfold wire_guards in Hg. rewrite Hn in Hg. cbn [andb] in Hg.
    destruct (str_empty (mp_BridgeURL (dp_MCP d))) eqn:Hu; [done|]. destruct (str_empty (mp_Provider (dp_MCP d))) eqn:Hp; [done|].
    split; [|by split; apply str_nonempty]. unfold phase_agent, named_agent. rewrite Hm, Hu. unfold str_empty. by rewrite bool_decide_eq_false_2.
Qed.

(** ** What starting the process does *)

(** Starting keeps to an order: the database is opened when it is not open, used and
    closed only while it is open, and the server runs only then. *)
Section Order.
Context (Good : App → Prop).

Definition permitted {R} (e : beff R) (held : bool) : Prop :=
  match e with
  | BOpen _ _ _ => held = false
  | BMigrate _ _ | BTracer | BClose | BProcess _ => held = true
  | BServe a => held = true ∧ Good a
  | BPrint _ => True
  end.
Definition held_after {R} (e : beff R) : R → bool → bool :=
  match e with BOpen _ _ _ => λ ok _, ok | BClose => λ _ _, false | _ => λ _ held, held end.
Fixpoint ordered {A} (Q : A → bool → Prop) (m : free beff A) (held : bool) : Prop :=
  match m with
  | Ret a => Q a held
  | Do e k => permitted e held ∧ ∀ r, ordered Q (k r) (held_after e r held)
  end.

Lemma ordered_bind {A B} (Q : B → bool → Prop) (m : free beff A) (f : A → free beff B) held :
  ordered (λ a h, ordered Q (f a) h) m held → ordered Q (prog_bind m f) held.
Proof. revert held. induction m as [a|R e k IH]; intros held; cbn; [done|]. intros [He Hk]. split; [done|]. intros r. by apply IH. Qed.
Lemma ordered_mono {A} (Q Q' : A → bool → Prop) (m : free beff A) held : (∀ a h, Q a h → Q' a h) → ordered Q m held → ordered Q' m held.
Proof. intros HQ. revert held. induction m as [a|R e k IH]; intros held; cbn; [apply HQ|]. intros [He Hk]. split; [done|]. intros r. by apply IH. Qed.
Lemma ordered_serves {A} (Q : A → bool → Prop) (m : free beff A) held :
  ordered Q m held → effects_in (λ R (e : beff R), match e with BServe a => Good a | _ => True end) m.
Proof. revert held. induction m as [a|R e k IH]; intros held; cbn; [done|]. intros [He Hk]. split; [by destruct e; cbn in He; try destruct He|]. intros r. by eapply IH. Qed.
Lemma ordered_process {A} (Q : A → bool → Prop) (m : free heff A) : (∀ a, Q a true) → ordered Q (process m) true.
Proof. intros HQ. unfold process. induction m as [a|R e k IH]; cbn; [done|]. split; [done|]. intros r. apply IH. Qed.
Lemma ordered_abandon (Q : result wire_error App → bool → Prop) e : Q (Err e) false → ordered Q (abandon e) true.
Proof. intros HQ. cbn. by split. Qed.

Definition wired (c : Config) (a : App) : Prop :=
  ∃ clients f startedAt, outbound_clients c = Ok clients ∧ dispatcher_factory (cf_Dispatcher c) = Some f ∧ wire_guards (cf_Dispatcher c) = None ∧
    GovConfig_Validate (cf_Spawn c) = None ∧ a = wired_app c clients f startedAt.

Lemma Wire_ordered c :
  ordered (λ r held, match r with Ok a => held = true ∧ wired c a | Err e => held = false ∧ e ≠ WirePanic end) (Wire c) false.
Proof.
  unfold Wire. destruct (wire_guards _) as [e|] eqn:Hg.
  { cbn. split; [done|]. unfold wire_guards in Hg. repeat case_match; by simplify_eq. }
  apply ordered_bind. split; [done|]. intros opened. cbn [ordered held_after]. destruct opened; cbn [negb]; [|done].
  apply ordered_bind. assert (Hm : ∀ Q : bool → bool → Prop, (∀ b, Q b true) → ordered Q (if db_RunMigrationsOnBoot (cf_DB c) then boot (BMigrate (db_MigrationsPath (cf_DB c)) (db_URL (cf_DB c))) else Ret true) true).
  { intros Q HQ. destruct (db_RunMigrationsOnBoot _); cbn; [|done]. split; [done|]. intros r. apply HQ. }
  apply Hm. intros [|]; cbn [negb]; [|by apply ordered_abandon].
  destruct (dispatcher_factory_spec (cf_Dispatcher c)) as (f & Hf & _). rewrite Hf.
  destruct (outbound_clients c) as [clients|e] eqn:Hc; [|apply ordered_abandon; split; [done|]; unfold outbound_clients in Hc; repeat case_match; by simplify_eq].
  destruct (GovConfig_Validate (cf_Spawn c)) eqn:Hv; [by apply ordered_abandon|].
  apply ordered_bind. split; [done|]. intros traced. cbn [ordered held_after]. destruct traced; cbn [negb]; [|by apply ordered_abandon].
  apply ordered_bind, ordered_process. intros startedAt. apply ordered_bind.
  assert (Hs : ∀ Q : option seed_error → bool → Prop, (∀ x, Q x true) → ordered Q (if cf_SkillsEnabled c then process (skill SeedSkills) else Ret None) true).
  { intros Q HQ. destruct (cf_SkillsEnabled c); [by apply ordered_process|apply HQ]. }
  apply Hs. intros [e|]; [by apply ordered_abandon|]. apply ordered_bind, ordered_process. intros _. split; [done|].
  unfold wired. naive_solver.
Qed.
End Order.
End Wire.

(** ** Running and shutting down *)

(** App.Run and, in main, the deferred Close after it. *)
Inductive run_pc := RunWaiting | RunStopping | RunAwaiting (failed : bool) | RunReturned (failed : bool).
(** The goroutine of Relay.Start; [RelayTicking] is inside Tick, where it uses the
    pool. *)
Inductive relay_pc := RelayAbsent | RelayWaiting | RelayTicking | RelayDone.
Record run_state := mkRunState { rn_pc : run_pc; rn_relay : relay_pc; rn_ctx : bool; rn_relayCtx : bool; rn_pool : bool }.
Definition run_start (relay : bool) : run_state := mkRunState RunWaiting (if relay then RelayWaiting else RelayAbsent) false false true.

(** A cancelled context does not keep the select of the relay from one more tick. *)
Inductive run_step : run_state → run_state → Prop :=
  | step_signal pc r x y p : run_step (mkRunState pc r x y p) (mkRunState pc r true true p)
  | step_listen_failed r x y p : run_step (mkRunState RunWaiting r x y p) (mkRunState (RunAwaiting true) r x true p)
  | step_listen_ended r x y p : run_step (mkRunState RunWaiting r x y p) (mkRunState RunStopping r x y p)
  | step_ctx_done r y p : run_step (mkRunState RunWaiting r true y p) (mkRunState RunStopping r true y p)
  | step_shutdown failed r x y p : run_step (mkRunState RunStopping r x y p) (mkRunState (RunAwaiting failed) r x true p)
  | step_awaited failed r x y p : r = RelayAbsent ∨ r = RelayDone → run_step (mkRunState (RunAwaiting failed) r x y p) (mkRunState (RunReturned failed) r x y p)
  | step_close failed r x y : run_step (mkRunState (RunReturned failed) r x y true) (mkRunState (RunReturned failed) r x y false)
  | step_tick pc x y p : run_step (mkRunState pc RelayWaiting x y p) (mkRunState pc RelayTicking x y p)
  | step_ticked pc x y p : run_step (mkRunState pc RelayTicking x y p) (mkRunState pc RelayWaiting x y p)
  | step_relay_stops pc x p : run_step (mkRunState pc RelayWaiting x true p) (mkRunState pc RelayDone x true p).

Definition run_ok (s : run_state) : Prop :=
  (rn_ctx s = true → rn_relayCtx s = true) ∧
  match rn_pc s with
  | RunWaiting | RunStopping => rn_pool s = true
  | RunAwaiting _ => rn_relayCtx s = true ∧ rn_pool s = true
  | RunReturned _ => rn_relayCtx s = true ∧ (rn_relay s = RelayAbsent ∨ rn_relay s = RelayDone)
  end.
Lemma run_step_ok s s' : run_step s s' → run_ok s → run_ok s'.
Proof. unfold run_ok. destruct 1; cbn; try (destruct pc; naive_solver); naive_solver. Qed.
Lemma run_reachable_ok relay s : rtc run_step (run_start relay) s → run_ok s.
Proof.
  assert (H : run_ok (run_start relay)) by (by split).
  revert H. generalize (run_start relay). intros s0 H0 Hs. induction Hs as [|s0 s1 s2 Hstep _ IH]; [done|]. by apply IH, (run_step_ok s0).
Qed.
(** The relay can always come to its end once its context is cancelled. *)
Lemma relay_can_end pc r x p :
  ∃ r', (r' = RelayAbsent ∨ r' = RelayDone) ∧ rtc run_step (mkRunState pc r x true p) (mkRunState pc r' x true p).
Proof.
  destruct r; [by exists RelayAbsent; split; [left|]| | |by exists RelayDone; split; [right|]]; (exists RelayDone; split; [by right|]).
  - apply rtc_once, step_relay_stops.
  - eapply rtc_l; [apply step_ticked|]. apply rtc_once, step_relay_stops.
Qed.
Lemma run_can_end s : run_ok s → ∃ s', rtc run_step s s' ∧ rn_pool s' = false.
Proof.
  assert (Hend : ∀ failed r x p, (r = RelayAbsent ∨ r = RelayDone) → ∃ s', rtc run_step (mkRunState (RunReturned failed) r x true p) s' ∧ rn_pool s' = false).
  { intros failed r x [|] _; [|by eexists]. eexists. split; [apply rtc_once, step_close|done]. }
  assert (Hawait : ∀ failed r x p, ∃ s', rtc run_step (mkRunState (RunAwaiting failed) r x true p) s' ∧ rn_pool s' = false).
  { intros failed r x p. destruct (relay_can_end (RunAwaiting failed) r x p) as (r' & Hr' & Hrun).
    destruct (Hend failed r' x p Hr') as (s' & Hs' & Hp). exists s'. split; [|done].
    etrans; [exact Hrun|]. eapply rtc_l; [by apply step_awaited|exact Hs']. }
  destruct s as [pc r x y p]. unfold run_ok. cbn. intros [_ Hok]. destruct pc as [| |failed|failed].
  - destruct (Hawait true r x p) as (s' & Hs' & Hp). exists s'. split; [|done]. eapply rtc_l; [apply step_listen_failed|exact Hs'].
  - destruct (Hawait true r x p) as (s' & Hs' & Hp). exists s'. split; [|done]. eapply rtc_l; [apply (step_shutdown true)|exact Hs'].
  - destruct Hok as [-> _]. apply Hawait.
  - destruct Hok as [-> Hr]. by apply Hend.
Qed.

(** C40: (shutdown) however the signal, a failing listener, the shutdown and the
    ticks of the relay interleave: the pool is closed only when Run has returned and
    the relay has ended, so no tick runs on a closed pool and none starts; and from
    every point of a run the process can still come to its end. *)
Theorem pool_outlives_relay relay s :
  rtc run_step (run_start relay) s →
  (rn_pool s = false → rn_relay s ≠ RelayTicking ∧ (∀ s', rtc run_step s s' → rn_relay s' = rn_relay s ∧ rn_pool s' = false)) ∧
  ∃ s', rtc run_step s s' ∧ rn_pool s' = false.
Proof.
  intros Hs%run_reachable_ok. split; [|by apply run_can_end]. intros Hp.
  assert (Hdone : rn_relay s = RelayAbsent ∨ rn_relay s = RelayDone).
  { destruct s as [pc r x y p]. unfold run_ok in Hs. cbn in *. destruct pc; naive_solver. }
  split; [by destruct Hdone as [->| ->]|]. intros s' Hrun. induction Hrun as [|s s1 s2 Hstep _ IH]; [done|].
  assert (rn_relay s1 = rn_relay s ∧ rn_pool s1 = false) as [Hr1 Hp1] by (destruct Hstep; cbn in *; naive_solver).
  rewrite <-Hr1. apply IH; [by apply (run_step_ok s)|done|congruence].
Qed.

Lemma pool_outlives_relay_witness :
  let s := mkRunState (RunReturned true) RelayDone false true false in
  rtc run_step (run_start true) s ∧ ∀ s', rtc run_step s s' → rn_relay s' = RelayDone ∧ rn_pool s' = false.
Proof.
  cbv zeta. set (s := mkRunState (RunReturned true) RelayDone false true false).
  assert (Hs : rtc run_step (run_start true) s).
  { unfold run_start. eapply rtc_l; [apply step_tick|]. eapply rtc_l; [apply step_listen_failed|]. eapply rtc_l; [apply step_ticked|].
    eapply rtc_l; [apply step_relay_stops|]. eapply rtc_l; [apply step_awaited; by right|]. apply rtc_once, step_close. }
  split; [exact Hs|]. destruct (pool_outlives_relay true s Hs) as [Hp _]. destruct (Hp eq_refl) as [_ H]. exact H.
Defined.

(** ** Requests and background phases *)

(** What else uses the pool while App.Run runs: the handlers of requests, and the
    phases they left running, each in the goroutine of AsyncScheduler, whose context
    nothing cancels and which nothing awaits. *)
Record served := mkServed { sv_run : run_state; sv_requests : nat; sv_phases : nat }.
Definition serve_start (relay : bool) : served := mkServed (run_start relay) 0 0.
(** Whether a connection can still bring a request: a shutdown that succeeded has
    closed them all; one that failed, and a listener that failed, leave those that
    are open. *)
Definition accepting (pc : run_pc) : bool := match pc with RunAwaiting false | RunReturned false => false | _ => true end.
Inductive serve_step : served → served → Prop :=
  | serve_run r r' n k : run_step r r' → (rn_pc r = RunStopping → rn_pc r' = RunAwaiting false → n = 0) → serve_step (mkServed r n k) (mkServed r' n k)
  | serve_request r n k : accepting (rn_pc r) = true → serve_step (mkServed r n k) (mkServed r (S n) k)
  | serve_answer r n k : serve_step (mkServed r (S n) k) (mkServed r n k)
  | serve_background r n k : serve_step (mkServed r (S n) k) (mkServed r (S n) (S k))
  | serve_settled r n k : serve_step (mkServed r n (S k)) (mkServed r n k).

Definition serve_ok (s : served) : Prop := run_ok (sv_run s) ∧ (accepting (rn_pc (sv_run s)) = false → sv_requests s = 0).
Lemma run_step_accepting r r' : run_step r r' → accepting (rn_pc r') = false →
  accepting (rn_pc r) = false ∨ (rn_pc r = RunStopping ∧ rn_pc r' = RunAwaiting false).
Proof. destruct 1 as [| | | |failed| | | | |]; cbn; try (by left); try done. destruct failed; [done|]. by right. Qed.
Lemma accepting_stays r r' : run_step r r' → accepting (rn_pc r) = false → accepting (rn_pc r') = false.
Proof. by destruct 1. Qed.
Lemma run_step_closed r r' : run_step r r' → run_ok r → rn_pool r = false → rn_pool r' = false.
Proof. unfold run_ok. destruct 1; cbn; try done; naive_solver. Qed.
Lemma serve_step_ok s s' : serve_step s s' → serve_ok s → serve_ok s'.
Proof.
  unfold serve_ok. destruct 1 as [r r' n k Hr Hn|r n k Ha|r n k|r n k|r n k]; cbn; intros [Hok Hz].
  - split; [by apply (run_step_ok r)|]. intros Hacc. destruct (run_step_accepting r r' Hr Hacc) as [Ha|[H1 H2]]; auto.
  - split; [done|]. congruence.
  - split; [done|]. intros Ha. discriminate (Hz Ha).
  - by split.
  - by split.
Qed.
Lemma serve_reachable_ok relay s : rtc serve_step (serve_start relay) s → serve_ok s.
Proof.
  assert (H : serve_ok (serve_start relay)) by (by destruct relay).
  revert H. generalize (serve_start relay). intros s0 H0 Hs. induction Hs as [|s0 s1 s2 Hstep _ IH]; [done|]. by apply IH, (serve_step_ok s0).
Qed.
Lemma served_closed s : serve_ok s → rn_pool (sv_run s) = false → ∃ failed, rn_pc (sv_run s) = RunReturned failed.
Proof.
  intros [H _]. destruct s as [[pc r x y p] n k]. unfold run_ok in H. cbn in *. intros ->.
  destruct pc as [| |failed|failed]; [naive_solver|naive_solver|naive_solver|by exists failed].
Qed.
(** Once the pool is closed it stays closed, and after a shutdown that succeeded no
    request comes any more, so that no phase starts. *)
Lemma served_after_close s s' : rtc serve_step s s' → serve_ok s → rn_pool (sv_run s) = false →
  rn_pool (sv_run s') = false ∧ rn_relay (sv_run s') ≠ RelayTicking ∧
  (accepting (rn_pc (sv_run s)) = false → sv_requests s' = 0 ∧ sv_phases s' ≤ sv_phases s).
Proof.
  assert (Hrelay : ∀ r, run_ok r → rn_pool r = false → rn_relay r ≠ RelayTicking).
  { unfold run_ok. intros [pc r x y p]. cbn. intros [_ H] ->. destruct pc; naive_solver. }
  induction 1 as [s|s s1 s2 Hstep _ IH]; intros Hok Hp.
  - split; [done|]. destruct Hok as [Hr Hz]. split; [by apply Hrelay|]. intros Ha. split; [auto|done].
  - pose proof (serve_step_ok s s1 Hstep Hok) as Hok1. destruct Hok as [Hr Hz].
    assert (rn_pool (sv_run s1) = false ∧
        (accepting (rn_pc (sv_run s)) = false → accepting (rn_pc (sv_run s1)) = false ∧ sv_phases s1 ≤ sv_phases s)) as [Hp1 Hs1].
    { destruct Hstep as [r r' n k Hrun _| | |r n k|]; cbn in *; try (split; [done|]; intros Ha; split; [done|lia]).
      - split; [by apply (run_step_closed r)|]. intros Ha. split; [by apply (accepting_stays r)|done].
      - split; [done|]. intros Ha. discriminate (Hz Ha). }
    destruct (IH Hok1 Hp1) as (H1 & H2 & H3). split; [done|]. split; [done|]. intros Ha. destruct (Hs1 Ha) as [Ha1 Hle]. destruct (H3 Ha1). split; [done|lia].
Qed.

(** Nothing waits for the phases: after a shutdown that succeeded, and with the pool
    closed, one a request started can still be under way. *)
Example background_phase_outlives_the_pool :
  rtc serve_step (serve_start false) (mkServed (mkRunState (RunReturned false) RelayAbsent true true false) 0 1).
Proof.
  unfold serve_start, run_start. eapply rtc_l; [by apply serve_request|]. eapply rtc_l; [apply serve_background|]. eapply rtc_l; [apply serve_answer|].
  eapply rtc_l; [apply serve_run; [apply step_signal|done]|]. eapply rtc_l; [apply serve_run; [apply step_ctx_done|done]|].
  eapply rtc_l; [apply serve_run; [by apply (step_shutdown false)|done]|]. eapply rtc_l; [apply serve_run; [apply step_awaited; by left|done]|].
  apply rtc_once, serve_run; [apply step_close|done].
Qed.

(** ** Sample configurations *)

Definition no_run : ExecutionRequest → result unit ExecutionReceipt := λ _, Err tt.
Definition no_call : string → list (string * jdoc) → result sdk_error tool_result := λ _ _, Err SdkContext.
Definition sample_mcp : MCPConfig := mkMCPConfig "http://bridge" "token" "streamable-http" 300000 [] "" ∅ "http://localhost" "codex" "".
Definition sample_dispatcher (provider : string) (byPhase : gmap string string) (aider : string) : DispatcherConfig :=
  mkDispatcherConfig "opencode" 4 "" ∅ provider byPhase no_tool (mkToolConfig aider 0 "" ∅) sample_mcp.

Lemma agents_follow_the_configuration_witness :
  let d := sample_dispatcher "" {["apply"%string := "mcp"%string]} "" in
  wire_guards d = None ∧ ∃ f, dispatcher_factory no_run (Err SdkContext) no_call d = Some f ∧
    ∀ req, routed_Dispatch f (dp_ProviderByPhase d) req = Some (ad_Dispatch (phase_agent no_run (Err SdkContext) no_call d (rq_PhaseType req)) req).
Proof.
  assert (Hg : wire_guards (sample_dispatcher "" {["apply"%string := "mcp"%string]} "") = None) by (vm_compute; reflexivity).
  split; [exact Hg|].
  destruct (agents_follow_the_configuration no_run (Err SdkContext) no_call _ Hg) as (f & Hf & Hr & _). exists f. split; [exact Hf|exact Hr].
Defined.

(** Opencode is registered under the name of the default provider, whatever that is:
    it answers as aider when aider is not configured, and a phase that asks for
    opencode by name gets aider when that is the default. *)
Example opencode_has_the_default_name :
  ad_Provider (phase_agent no_run (Err SdkContext) no_call (sample_dispatcher "aider" ∅ "") "spec") = "opencode"%string ∧
  ad_Provider (phase_agent no_run (Err SdkContext) no_call (sample_dispatcher "aider" {["spec"%string := "opencode"%string]} "aider") "spec") = "aider"%string ∧
  wire_guards (mkDispatcherConfig "opencode" 4 "" ∅ "mcp" ∅ no_tool no_tool (mkMCPConfig "" "" "" 0 [] "" ∅ "" "codex" "")) = Some WireBridgeURL.
Proof. vm_compute. repeat split. Qed.
