(* ===== verification/CommandLine.v ===== *)
(** * The command line

    [cmd/sophia-orchestator/main.go]: the flags of the reeval subcommand, what each
    command does, the reports it prints, and the program as a whole. *)
From S2P Require Import Prelude Ids Utf8 Json Envelope Effects PhaseHelpers PhaseService Floats Lines JsonText SkillDomain SkillStore SkillService Reeval SeedSkills ApplyEffects HttpBase Wire ChangeDomain OpenCode Dispatchers Config HttpApi Wiring.
From stdpp Require Import list gmap pretty.
From Stdlib Require Import Ascii.

(** ** Go's flag package *)

(** A word of the command line: one that ends the flags, or a flag with a value after
    an equals sign. *)
Inductive flag_error := FlagSyntax | FlagUnknown | FlagHelp | FlagValue | FlagNoValue.
Definition split_flag (w : list ascii) : option (list ascii) :=
  match w with
  | a :: b :: r =>
      if negb (is_char 45 a) then None
      else if is_char 45 b then (match r with [] => None | _ => Some r end) else Some (b :: r)
  | _ => None
  end.
Definition flag_value (name : list ascii) : string * option string :=
  let key := take_while (λ a, negb (is_char 61 a)) name in
  (text key, match drop (length key) name with _ :: v => Some (text v) | [] => None end).

Record reeval_flags := mkFlags { fl_dryRun : bool; fl_apply : bool; fl_confirm : bool; fl_revert : option string; fl_revertLast : bool }.
Definition no_flags : reeval_flags := mkFlags false false false None false.
Definition bool_flag (name : string) : option (bool → reeval_flags → reeval_flags) :=
  snd <$> List.find (λ kv, is_str kv.1 name)
    [ ("dry-run"%string, λ b fl, mkFlags b (fl_apply fl) (fl_confirm fl) (fl_revert fl) (fl_revertLast fl));
      ("apply"%string, λ b fl, mkFlags (fl_dryRun fl) b (fl_confirm fl) (fl_revert fl) (fl_revertLast fl));
      ("confirm"%string, λ b fl, mkFlags (fl_dryRun fl) (fl_apply fl) b (fl_revert fl) (fl_revertLast fl));
      ("revert-last"%string, λ b fl, mkFlags (fl_dryRun fl) (fl_apply fl) (fl_confirm fl) (fl_revert fl) b) ].
Definition set_revert (v : string) (fl : reeval_flags) : reeval_flags := mkFlags (fl_dryRun fl) (fl_apply fl) (fl_confirm fl) (Some v) (fl_revertLast fl).

Fixpoint flag_parse (args : list string) (fl : reeval_flags) : result flag_error reeval_flags :=
  match args with
  | [] => Ok fl
  | w :: args' =>
      match split_flag (chars w) with
      | None => Ok fl
      | Some name =>
          if match name with a :: _ => is_char 45 a || is_char 61 a | [] => true end then Err FlagSyntax else
          let '(key, v) := flag_value name in
          match bool_flag key with
          | Some put =>
              match v with
              | None => flag_parse args' (put true fl)
              | Some v => match ParseBool v with Some b => flag_parse args' (put b fl) | None => Err FlagValue end
              end
          | None =>
              if is_str key "revert" then
                match v, args' with
                | Some v, _ => flag_parse args' (set_revert v fl)
                | None, v :: args'' => flag_parse args'' (set_revert v fl)
                | None, [] => Err FlagNoValue
                end
              else if is_str key "help" || is_str key "h" then Err FlagHelp else Err FlagUnknown
          end
      end
  end.

(** ** Commands *)

Inductive cmd_error := CmdConfig (e : config_error) | CmdWire (e : wire_error) | CmdSkillsDisabled | CmdService (e : skill_svc_error) | CmdWrite | CmdServe.
Inductive cli_error := CliFlags (e : flag_error) | CliExclusive | CliNoRunID | CliReeval (e : cmd_error) | CliRevert (e : cmd_error).

(** dispatch: whether the arguments were a subcommand, and its error. *)
Definition main_dispatch {F : Type → Type} (args : list string) (reeval : bool → free F (option cmd_error)) (revert : string → bool → free F (option cmd_error))
    : free F (bool * option cli_error) :=
  match args with
  | [] => Ret (false, None)
  | w :: args' =>
      if negb (is_str w "reeval") then Ret (false, None) else
      match flag_parse args' no_flags with
      | Err e => Ret (true, Some (CliFlags e))
      | Ok fl =>
          let wantRevert := bool_decide (fl_revert fl ≠ None) || fl_revertLast fl in
          if wantRevert && fl_apply fl then Ret (true, Some CliExclusive)
          else if wantRevert then
            if fl_revertLast fl then let! e := revert EmptyString true in Ret (true, CliRevert <$> e)
            else
              let id := default EmptyString (fl_revert fl) in
              if str_empty id then Ret (true, Some CliNoRunID) else let! e := revert id false in Ret (true, CliRevert <$> e)
          else let! e := reeval (fl_apply fl && fl_confirm fl && negb (fl_dryRun fl)) in Ret (true, CliReeval <$> e)
      end
  end.

(** ** Reports *)

(** fmt's %.3f of a finite double. *)
Definition FormatFloat3 (q : float64) : string :=
  let n := round_half_even (Z.abs (Qnum q) * 1000) (Z.pos (Qden q)) in
  let milli := (n mod 1000)%Z in
  let pad := if (milli <? 10)%Z then "00"%string else if (milli <? 100)%Z then "0"%string else EmptyString in
  concat_strings [if (Qnum q <? 0)%Z then "-"%string else EmptyString; pretty (n / 1000)%Z; "."%string; pad; pretty milli].
Definition verdict_string (v : GateVerdict) : string := match v with VerdictNone => "none" | VerdictPromote => "promote" | VerdictDemote => "demote" end.

Section Reports.
Context (error_text : skill_svc_error → string).

Definition skipped_mark (e : option skill_svc_error) : string := concat_strings ["  [SKIPPED: "; from_option error_text "<nil>" e; "]"; nl]%string.
Definition reeval_line (row : ReevalRow) : string :=
  if negb (rv_WouldChange row) then EmptyString else
  concat_strings
    ["  "; rv_SkillID row; "  "; skill_status_string (rv_CurrentStatus row); "→"; skill_status_string (rv_ProposedStatus row); "  metric "; FormatFloat3 (rv_OldMetric row); "→";
     FormatFloat3 (rv_NewMetric row); "  apply_attempts="; pretty (rv_ApplyAttempts row); "  verdict="; verdict_string (rv_Verdict row);
     if rv_Skipped row then skipped_mark (rv_ApplyErr row) else if rv_Applied row then String.append "  [APPLIED]" nl else String.append "  [PROPOSED]" nl]%string.
Definition formatReevalReport (report : list ReevalRow) (confirm : bool) : string :=
  concat_strings
    (["Skill re-evaluation — "; if confirm then "APPLY (mutations confirmed)" else "DRY-RUN (no mutation)"; nl;
      pretty (length report); " skill(s) evaluated, "; pretty (CountChanges report); " projected status change(s)"; nl; nl]%string
     ++ (reeval_line <$> report)
     ++ (if confirm then
           [nl; "Reversal is NOT single-step. Promotions step back one hop, but a demotion"; nl; "(active->deprecated) cannot return to active in one PATCH. Walk the allowed"; nl;
            "chain via admin PATCH /api/v1/skills/{id}/status:"; nl; "  deprecated->blocked->candidate->validated->active."; nl]%string
         else [])).

Definition revert_path (path : list SkillStatus) : list string :=
  match path with [] => [] | s :: rest => "  via "%string :: skill_status_string s :: ((λ s, String.append "->" (skill_status_string s)) <$> rest) end.
Definition revert_line (row : RevertRow) : string :=
  concat_strings
    (["  "; rt_SkillID row; "  "; skill_status_string (rt_FromStatus row); "→"; skill_status_string (rt_ToStatus row)]%string ++ revert_path (rt_Path row)
     ++ [if rt_Skipped row then skipped_mark (rt_RevertErr row) else if rt_Reverted row then String.append "  [REVERTED]" nl else nl]%string).
Definition formatRevertReport (rows : list RevertRow) (runID : string) (last : bool) : string :=
  concat_strings
    (["Skill reeval revert — run "; if last then "(latest run)" else runID; nl;
      pretty (length rows); " item(s): "; pretty (length (List.filter rt_Reverted rows)); " reverted, "; pretty (length (List.filter rt_Skipped rows)); " skipped"; nl; nl]%string
     ++ (revert_line <$> rows)).
End Reports.

(** ** The program *)

Section Main.
Context `{UnicodeTables} `{UlidLib} `{UrlParser}.
Context (error_text : skill_svc_error → string) (split : string → option string) (loopback : string → bool).
Context (runtime : ExecutionRequest → result unit ExecutionReceipt).
Context (open : result sdk_error unit) (call : string → list (string * jdoc) → result sdk_error tool_result).
Context (env : string → option string).

(** Loading, wiring, and the deferred Close. *)
Definition with_app (body : App → free beff (option cmd_error)) : free beff (option cmd_error) :=
  match Load env with
  | Err e => Ret (Some (CmdConfig e))
  | Ok c =>
      let! app := Wire split loopback runtime open call c in
      match app with
      | Err e => Ret (Some (CmdWire e))
      | Ok app => let! e := body app in do! boot BClose in Ret e
      end
  end.
Definition report_command {A} (app : App) (m : skprog (A * option skill_svc_error)) (format : A → string) : free beff (option cmd_error) :=
  if negb (app_skillSvc app) then Ret (Some CmdSkillsDisabled) else
  let! r := process (skill m) in
  match r.2 with
  | Some e => Ret (Some (CmdService e))
  | None => let! printed := boot (BPrint (format r.1)) in Ret (if printed then None else Some CmdWrite)
  end.
Definition runReeval (confirm : bool) : free beff (option cmd_error) :=
  with_app (λ app, report_command app (Apply true confirm) (λ report, formatReevalReport error_text report confirm)).
Definition runRevert (runID : string) (last : bool) : free beff (option cmd_error) :=
  with_app (λ app, report_command app (if last then RevertLast else Revert runID) (λ rows, formatRevertReport error_text rows runID last)).
Definition run : free beff (option cmd_error) :=
  with_app (λ app, let! served := boot (BServe app) in Ret (if served then None else Some CmdServe)).

(** The exit code. *)
Definition mainWithExit (args : list string) : free beff Z :=
  let! r := main_dispatch args runReeval runRevert in
  match r.2 with
  | Some _ => Ret 1%Z
  | None => if r.1 then Ret 0%Z else let! e := run in Ret (match e with Some _ => 1 | None => 0 end)%Z
  end.

(** ** Every command keeps to the order *)

Section Commands.
Context (Good : App → Prop).

Lemma with_app_ordered body :
  (∀ c app, Load env = Ok c → wired split loopback runtime open call c app → ordered Good (λ _ held, held = true) (body app) true) →
  ordered Good (λ _ held, held = false) (with_app body) false.
Proof.
  intros Hbody. unfold with_app. destruct (Load env) as [c|e] eqn:Hl; [|done]. apply ordered_bind.
  eapply ordered_mono; [|apply Wire_ordered]. intros [app|e] held; cbv beta iota; [|by intros [-> _]].
  intros [-> Hw]. apply ordered_bind. eapply ordered_mono; [|by apply (Hbody c)]. intros e h ->. by split.
Qed.
Lemma report_command_ordered {A} app (m : skprog (A * option skill_svc_error)) format :
  ordered Good (λ _ held, held = true) (report_command app m format) true.
Proof.
  unfold report_command. destruct (app_skillSvc app); cbn [negb]; [|done]. apply ordered_bind, ordered_process. intros [a [e|]]; [done|]. by split.
Qed.
Lemma main_dispatch_ordered args (reeval : bool → free beff (option cmd_error)) revert :
  (∀ confirm, ordered Good (λ _ held, held = false) (reeval confirm) false) →
  (∀ id last, ordered Good (λ _ held, held = false) (revert id last) false) →
  ordered Good (λ _ held, held = false) (main_dispatch args reeval revert) false.
Proof.
  intros Hre Hrv. unfold main_dispatch. destruct args as [|w args]; [done|]. destruct (negb _); [done|].
  destruct (flag_parse args no_flags) as [fl|e]; [|done]. cbv zeta. repeat case_match; try done;
    apply ordered_bind; (eapply ordered_mono; [|first [apply Hre|apply Hrv]]); by intros ? ? ->.
Qed.
Lemma main_ordered args :
  (∀ c app, Load env = Ok c → wired split loopback runtime open call c app → Good app) →
  ordered Good (λ _ held, held = false) (mainWithExit args) false.
Proof.
  intros HG. unfold mainWithExit. apply ordered_bind. eapply ordered_mono; [|apply main_dispatch_ordered].
  - intros [handled e] held ->. destruct e; [done|]. destruct handled; [done|]. apply ordered_bind.
    eapply ordered_mono; [|apply with_app_ordered]; [by intros ? ? ->|]. intros c app Hl Hw. cbn. split; [|done]. split; [done|]. by apply (HG c).
  - intros confirm. apply with_app_ordered. intros. apply report_command_ordered.
  - intros id last. apply with_app_ordered. intros. apply report_command_ordered.
Qed.
End Commands.

(** C37: (resources) whatever the command line and the environment, and whatever the
    database, the services and the libraries answer: the statements of main, of
    start-up and of the commands open the database at most once at a time, migrate,
    seed, scan, query and serve only while it is open, and close it exactly once on
    every path that opened it, start-up errors included; and a server runs only on a
    configuration that was loaded, with clients and a governor that passed their
    checks. What the server runs meanwhile is [serve_step], where the pool is closed
    only after Run has returned: from then on it stays closed and no tick of the
    relay is under way, and when the shutdown succeeded no request is either and no
    phase starts. Not covered, because the code does not wait for them: phases that a
    request left running, and the requests a failed shutdown or listener leaves
    ([background_phase_outlives_the_pool]). *)
Theorem database_is_given_back args :
  ordered (λ app, ∃ c clients f startedAt, Load env = Ok c ∧ outbound_clients c = Ok clients ∧ wire_guards (cf_Dispatcher c) = None ∧
                    dispatcher_factory runtime open call (cf_Dispatcher c) = Some f ∧ app = wired_app split loopback c clients f startedAt)
    (λ _ held, held = false) (mainWithExit args) false ∧
  ∀ relay s s', rtc serve_step (serve_start relay) s → rtc serve_step s s' → rn_pool (sv_run s) = false →
    (∃ failed, rn_pc (sv_run s) = RunReturned failed) ∧ rn_pool (sv_run s') = false ∧ rn_relay (sv_run s') ≠ RelayTicking ∧
    (rn_pc (sv_run s) = RunReturned false → sv_requests s' = 0 ∧ sv_phases s' ≤ sv_phases s).
Proof.
  split; [apply main_ordered; intros c app Hl (clients & f & t & Hc & Hf & Hg & _ & ->); naive_solver|].
  intros relay s s' Hs%serve_reachable_ok Hs' Hp. split; [by apply served_closed|].
  destruct (served_after_close s s' Hs' Hs Hp) as (Hpool & Hrelay & Hclean). split_and!; [done|done|]. intros Hpc. apply Hclean. by rewrite Hpc.
Qed.

(** ** Who is let in *)

Section Door.
Context `{WireContract} `{TimeText} `{Contract} (api_text : api_error → string) (float_doc : float64 → jdoc).

Lemma wired_door c clients f startedAt req :
  ht_APIKey (cf_HTTP c) ≠ EmptyString →
  (request_key req = EmptyString ∧ effectiveAllowAnon split loopback c = false) ∨ (request_key req ≠ EmptyString ∧ HashAPIKey (request_key req) ≠ HashAPIKey (ht_APIKey (cf_HTTP c))) →
  let app := wired_app split loopback c clients f startedAt in
  effects_in (@harmless) (serve api_text float_doc (app_router app) req) ∧
  (mounted true (hr_path req) = true → ∃ msg, serve api_text float_doc (app_router app) req = Ret (writeUnauthorized msg)).
Proof.
  intros Hk Hreq. cbv zeta. destruct clients as [[g m] r]. cbn [wired_app app_router]. set (d := wired_router split loopback c startedAt).
  assert (Ha : rd_auth d = Some (mkStaticAuthn (HashAPIKey (ht_APIKey (cf_HTTP c))) (ht_APIKeyProject (cf_HTTP c)))).
  { subst d. cbn [wired_router rd_auth]. unfold newStaticAuthn, str_empty. by rewrite bool_decide_eq_false_2. }
  destruct (key_refused (mkStaticAuthn (HashAPIKey (ht_APIKey (cf_HTTP c))) (ht_APIKeyProject (cf_HTTP c))) (rd_allowAnon d) req Hreq) as [msg Hm]. destruct (serve_refused api_text float_doc d req _ _ Ha Hm) as [Hh Hs]. eauto.
Qed.

(** C36: (the door) a process whose environment sets SOPHIA_HTTP_API_KEY only ever
    serves with it: a request with another key is refused, and one without a key
    too, unless anonymous access is asked for and the address is a loopback one: it
    is answered 401 on every path of the resources, and on any path makes the
    process do nothing but read the clock or probe the database. *)
Theorem served_requests_need_the_key args key :
  env "SOPHIA_HTTP_API_KEY"%string = Some key → key ≠ EmptyString →
  effects_in (λ R (e : beff R), match e with
    | BServe app =>
        ∀ req,
          (request_key req = EmptyString ∧
             (envBool env "SOPHIA_HTTP_ALLOW_ANON_LOCALHOST" false = false ∨ IsLoopbackAddr split loopback (envStr env "SOPHIA_HTTP_ADDR" ":8080") = false)) ∨
          (request_key req ≠ EmptyString ∧ HashAPIKey (request_key req) ≠ HashAPIKey key) →
          effects_in (@harmless) (serve api_text float_doc (app_router app) req) ∧
          (mounted true (hr_path req) = true → ∃ msg, serve api_text float_doc (app_router app) req = Ret (writeUnauthorized msg))
    | _ => True end) (mainWithExit args).
Proof.
  intros Hkey Hne. eapply ordered_serves, main_ordered. intros c app Hl (clients & f & t & _ & _ & _ & _ & ->) req Hreq.
  apply Load_loaded in Hl as ->. assert (Hk : ht_APIKey (cf_HTTP (load_all env)) = key) by (cbn; unfold envStr; by rewrite Hkey).
  apply wired_door; rewrite Hk; [done|]. destruct Hreq as [[He Hanon]|Hreq]; [left|by right]. split; [done|].
  apply andb_false_iff. exact Hanon.
Qed.
End Door.
End Main.

(** ** What the command line asks for *)


(** What the words of a line say, in their order: its flags, until a word that is
    none, where the word after a --revert without a value is the run it names. *)
Inductive setting := Switch (name : string) (on : bool) | Reverted (id : string).

(** The last word on a flag counts. *)
Definition last_switch (name : string) (on : bool) (l : list setting) : bool :=
  fold_left (λ on s, match s with Switch n b => if is_str n name then b else on | Reverted _ => on end) l on.
Definition on (name : string) (l : list setting) : Prop := last_switch name false l = true.






Section DryRun.
Context `{UlidLib}.


End DryRun.

(** ** Sample commands *)

#[local] Existing Instance some_ulid.
#[local] Existing Instance some_events.
#[local] Existing Instance some_time.
#[local] Existing Instance some_contract.
#[local] Existing Instance Config.some_tables.
#[local] Existing Instance HttpBase.every_url.
Definition no_error_text (e : skill_svc_error) : string := "failed".
Definition host_of (addr : string) : option string := Some (text (take_while (λ a, negb (is_char 58 a)) (chars addr))).
Definition sample_main (env : string → option string) (args : list string) : free beff Z :=
  mainWithExit no_error_text host_of (λ h, is_str h "127.0.0.1") no_run (Err SdkContext) no_call env args.
Definition keyed_env (key : string) : option string := if is_str key "SOPHIA_HTTP_API_KEY" then Some "secret"%string else sample_vars_env key.

Lemma served_requests_need_the_key_witness :
  let req := some_request "POST" ["changes"; "c1"; "abort"] (with_key "guess") "" in
  effects_in (λ R (e : beff R), match e with
    | BServe app => ∃ msg, serve some_text some_float (app_router app) req = Ret (writeUnauthorized msg)
    | _ => True end) (sample_main keyed_env []).
Proof.
  cbv zeta. assert (Hkey : keyed_env "SOPHIA_HTTP_API_KEY" = Some "secret"%string) by (vm_compute; reflexivity).
  assert (Hne : "secret"%string ≠ EmptyString) by discriminate.
  pose proof (served_requests_need_the_key no_error_text host_of (λ h, is_str h "127.0.0.1") no_run (Err SdkContext) no_call keyed_env some_text some_float [] "secret" Hkey Hne) as Hall.
  unfold sample_main. refine (effects_mono _ _ _ _ Hall). clear Hall Hkey Hne.
  intros R e. destruct e as [| | | |app| |]; try exact (λ H, H). intros Hd.
  destruct (Hd (some_request "POST" ["changes"; "c1"; "abort"] (with_key "guess") "")) as [_ Hs].
  - right. split; vm_compute; discriminate.
  - apply Hs. vm_compute. reflexivity.
Defined.

Example sample_flags :
  let parsed args := match flag_parse args no_flags with Ok fl => Some (fl_apply fl && fl_confirm fl && negb (fl_dryRun fl), fl_revert fl, fl_revertLast fl) | Err _ => None end in
  parsed ["--apply"; "-confirm"]%string = Some (true, None, false) ∧ parsed ["--apply=T"; "--confirm"; "--dry-run"]%string = Some (false, None, false) ∧
  parsed ["--apply"; "--"; "--confirm"]%string = Some (false, None, false) ∧ parsed ["--revert"; "--apply"]%string = Some (false, Some "--apply"%string, false) ∧
  parsed ["--revert="]%string = Some (false, Some EmptyString, false) ∧ parsed ["--revert"]%string = None ∧ parsed ["--apply=yes"]%string = None ∧
  parsed ["run"; "--apply"; "--confirm"]%string = Some (false, None, false) ∧ parsed ["---apply"]%string = None ∧ parsed ["--appply"]%string = None.
Proof. vm_compute. repeat split. Qed.

Example sample_reports :
  FormatFloat3 <$> [(2 # 3); (-1 # 3); (5404319552844595 # 18014398509481984); (12 # 1)]%Q = ["0.667"; "-0.333"; "0.300"; "12.000"]%string ∧
  revert_line no_error_text (mkRevertRow "s1" SkillDeprecated SkillActive [SkillBlocked; SkillActive] true false None)
    = concat_strings ["  s1  deprecated→active  via blocked->active  [REVERTED]"; nl]%string ∧
  formatReevalReport no_error_text [] false = concat_strings ["Skill re-evaluation — DRY-RUN (no mutation)"; nl; "0 skill(s) evaluated, 0 projected status change(s)"; nl; nl]%string.
Proof. vm_compute. repeat split. Qed.

(** With a database and a clock that answer, a dry run comes to write a seed: wiring
    it is what starts the server. *)
Definition some_answer {R} (e : beff R) : option R :=
  match e in beff R return option R with
  | BOpen _ _ _ => Some true | BMigrate _ _ => Some true | BTracer => Some true | BClose => Some tt | BServe _ => Some true | BPrint _ => Some true
  | BProcess e' => match e' in heff R return option R with
                   | HNow => Some 0%Z
                   | HSkill o => match o in skop R return option R with SkNow => Some 0%Z | _ => None end
                   | _ => None
                   end
  end.
Definition is_upsert {R} (e : beff R) : bool :=
  match e with BProcess e' => match e' with HSkill o => match o with SkUpsert _ => true | _ => false end | _ => false end | _ => false end.
Fixpoint comes_to_upsert {A} (m : free beff A) : bool :=
  match m with
  | Ret _ => false
  | Do e k => is_upsert e || match some_answer e with Some r => comes_to_upsert (k r) | None => false end
  end.
Example dry_run_writes_the_seeds : comes_to_upsert (sample_main sample_vars_env ["reeval"; "--dry-run"]%string) = true.
Proof. vm_compute. reflexivity. Qed.
